(** * Claudia review scripts: a shallow embedding and its verified properties

    The development embeds the review pipeline of [.github/scripts]:
    the path filter and file collector, the content budgeter (plain and
    annotated renderings), the model caller with its retry loop, the JSON
    isolation performed on the model's reply, and the report renderers;
    then the diff of a pull request, the issues and the comment sent to
    GitHub, and the [main] of the scripts whose review is a text.

    Python's [str] is a sequence of code points: a text is a list of [N].
    Python's [len], slicing, [find], [strip] and friends are embedded on
    that representation. *)

From Stdlib Require Import ZArith NArith Ascii String List Lia Sorted Decimal DecimalN DecimalFacts.
From stdpp Require Import base list gmap.

Local Open Scope N_scope.

(** ** Text: Python [str] as a list of code points *)

Abbreviation char := N (only parsing).
Abbreviation text := (list N) (only parsing).

Definition lit (s : string) : text :=
  map N_of_ascii (list_ascii_of_string s).
Arguments lit s%_string.

Definition ch (a : ascii) : char := N_of_ascii a.
Arguments ch a%_char.

(** [a == b] on [str]. *)
Definition text_eqb (a b : text) : bool := bool_decide (a = b).

(** [s.startswith(p)]. *)
Fixpoint startswith (p s : text) : bool :=
  match p, s with
  | [], _ => true
  | _ :: _, [] => false
  | a :: p', b :: s' => (a =? b) && startswith p' s'
  end.

(** [s.endswith(p)]. *)
Definition endswith (p s : text) : bool :=
  startswith (rev p) (rev s).

(** Lowest index at which [sub] occurs in [s]; [None] is Python's [-1]. *)
Fixpoint find_sub (sub s : text) : option nat :=
  if startswith sub s then Some 0%nat
  else match s with
       | [] => None
       | _ :: s' => S <$> find_sub sub s'
       end.

(** [s.find(sub)]. *)
Definition str_find (sub s : text) : Z :=
  match find_sub sub s with
  | Some i => Z.of_nat i
  | None => (-1)%Z
  end.

(** [s.find(sub, start)] for [0 <= start]. *)
Definition str_find_from (sub s : text) (start : Z) : Z :=
  if (Z.of_nat (length s) <? start)%Z then (-1)%Z
  else match find_sub sub (drop (Z.to_nat start) s) with
       | Some i => (start + Z.of_nat i)%Z
       | None => (-1)%Z
       end.

(** [sub in s]. *)
Definition str_in (sub s : text) : bool :=
  match find_sub sub s with Some _ => true | None => false end.

(** Slice bounds as Python normalises them: a negative index counts from
    the end, and both ends are clamped to [0, len]. *)
Definition slice_index (len i : Z) : Z :=
  if (i <? 0)%Z then Z.max 0 (i + len) else Z.min i len.

(** [s[a:b]]. *)
Definition slice (s : text) (a b : Z) : text :=
  let len := Z.of_nat (length s) in
  let a' := Z.to_nat (slice_index len a) in
  let b' := Z.to_nat (slice_index len b) in
  take (b' - a') (drop a' s).

(** [s[a:]]. *)
Definition slice_from (s : text) (a : Z) : text :=
  drop (Z.to_nat (slice_index (Z.of_nat (length s)) a)) s.

(** [s[:b]]. *)
Definition slice_to (s : text) (b : Z) : text :=
  take (Z.to_nat (slice_index (Z.of_nat (length s)) b)) s.

(** The characters [str.strip()] removes: those for which [str.isspace]
    holds. *)
Definition is_space (c : char) : bool :=
  ((9 <=? c) && (c <=? 13)) || ((28 <=? c) && (c <=? 32))
  || (c =? 133) || (c =? 160) || (c =? 5760)
  || ((8192 <=? c) && (c <=? 8202))
  || (c =? 8232) || (c =? 8233) || (c =? 8239) || (c =? 8287) || (c =? 12288).

Fixpoint lstrip (s : text) : text :=
  match s with
  | [] => []
  | c :: s' => if is_space c then lstrip s' else s
  end.

Definition rstrip (s : text) : text := rev (lstrip (rev s)).

(** [s.strip()]. *)
Definition strip (s : text) : text := rstrip (lstrip s).

(** [sep.join(parts)]. *)
Fixpoint join (sep : text) (parts : list text) : text :=
  match parts with
  | [] => []
  | [p] => p
  | p :: rest => p ++ sep ++ join sep rest
  end.

(** ["".join(parts)]. *)
Definition concat_text (parts : list text) : text := concat parts.

(** [str(n)] for a non-negative integer: its decimal digits. *)
Fixpoint uint_text (d : uint) : text :=
  match d with
  | Nil => []
  | D0 d => 48 :: uint_text d
  | D1 d => 49 :: uint_text d
  | D2 d => 50 :: uint_text d
  | D3 d => 51 :: uint_text d
  | D4 d => 52 :: uint_text d
  | D5 d => 53 :: uint_text d
  | D6 d => 54 :: uint_text d
  | D7 d => 55 :: uint_text d
  | D8 d => 56 :: uint_text d
  | D9 d => 57 :: uint_text d
  end.

Definition str_of_N (n : N) : text := uint_text (N.to_uint n).

Definition str_of_nat (n : nat) : text := str_of_N (N.of_nat n).

(** [str(z)] for a Python [int]. *)
Definition str_of_Z (z : Z) : text :=
  match z with
  | Z0 => str_of_N 0
  | Zpos p => str_of_N (Npos p)
  | Zneg p => ch "-" :: str_of_N (Npos p)
  end.

(** Python's [<] on [str]: lexicographic on code points. *)
Fixpoint text_ltb (a b : text) : bool :=
  match a, b with
  | _, [] => false
  | [], _ :: _ => true
  | x :: a', y :: b' => (x <? y) || ((x =? y) && text_ltb a' b')
  end.

(** A [dict] literal with [str] keys, read with [d.get(k, default)]. *)
Fixpoint dict_get {V : Type} (d : list (text * V)) (k : text) (default : V) : V :=
  match d with
  | [] => default
  | (k', v) :: d' => if text_eqb k' k then v else dict_get d' k default
  end.

(** [k in s] for a [set] literal of [str]. *)
Definition set_mem (k : text) (s : list text) : bool :=
  existsb (text_eqb k) s.

(** [s.lstrip(".")]. *)
Fixpoint lstrip_dots (s : text) : text :=
  match s with
  | [] => []
  | c :: s' => if c =? ch "." then lstrip_dots s' else s
  end.

(** [s.rfind(".")]: the index of the last dot, [None] for [-1]. *)
Fixpoint rfind_dot (s : text) : option nat :=
  match s with
  | [] => None
  | c :: s' =>
      match rfind_dot s' with
      | Some i => Some (S i)
      | None => if c =? ch "." then Some 0%nat else None
      end
  end.

(** [s.split("/")]. *)
Fixpoint split_slash_go (cur : text) (s : text) : list text :=
  match s with
  | [] => [rev cur]
  | c :: s' =>
      if c =? ch "/" then rev cur :: split_slash_go [] s'
      else split_slash_go (c :: cur) s'
  end.

Definition split_slash (s : text) : list text := split_slash_go [] s.

(** [Path(s).name] on a POSIX path: the last component once empty and
    ["."] components are dropped, [""] when there is none. *)
Definition path_name (s : text) : text :=
  let comps :=
    filter (fun c => negb (text_eqb c []) && negb (text_eqb c (lit "."))) (split_slash s) in
  List.last comps [].

(** [Path(s).suffix]: from the last dot of the name, unless that dot is the
    first or the last character of the name. *)
Definition path_suffix (s : text) : text :=
  let name := path_name s in
  match rfind_dot name with
  | Some i =>
      if (0 <? i)%nat && (i <? length name - 1)%nat then drop i name else []
  | None => []
  end.

(** The line boundaries of [str.splitlines]. *)
Definition is_linebreak (c : char) : bool :=
  ((10 <=? c) && (c <=? 13)) || ((28 <=? c) && (c <=? 30))
  || (c =? 133) || (c =? 8232) || (c =? 8233).

(** [s.splitlines()]: a carriage return followed by a line feed is one
    boundary, and no empty last line is produced. *)
Fixpoint splitlines_go (after_cr : bool) (cur : text) (s : text) : list text :=
  match s with
  | [] => match cur with [] => [] | _ => [rev cur] end
  | c :: s' =>
      if after_cr && (c =? 10) then splitlines_go false cur s'
      else if is_linebreak c then rev cur :: splitlines_go (c =? 13) [] s'
      else splitlines_go false (c :: cur) s'
  end.

Definition splitlines (s : text) : list text := splitlines_go false [] s.

(** [sorted(files, key=lambda x: x[0])] and [files.sort(key=...)]: Python's
    sort is stable, so the result is the one of any stable sort; insertion
    from the right is one. *)
Fixpoint insert_by_path (x : text * text) (l : list (text * text)) : list (text * text) :=
  match l with
  | [] => [x]
  | y :: l' =>
      if text_ltb (fst y) (fst x) then y :: insert_by_path x l'
      else x :: y :: l'
  end.

Fixpoint sort_by_path (l : list (text * text)) : list (text * text) :=
  match l with
  | [] => []
  | x :: l' => insert_by_path x (sort_by_path l')
  end.

Definition NL : text := [10].
Definition DQ : text := [34].
Definition FENCE : text := lit "```".

(** ** Source files and the shared shapes of the scripts *)

(** A collected file: [(relative path, content)]. *)
Abbreviation source_file := (text * text)%type (only parsing).

(** [2 ** attempt]. *)
Definition backoff (attempt : Z) : Z := (2 ^ attempt)%Z.

(** [range(1, n + 1)]. *)
Definition range1 (n : Z) : list Z :=
  map (fun i => Z.of_nat i) (seq 1 (Z.to_nat n)).

(** Exceptions the scripts meet: whatever the transport raises, the three
    ways [json.loads] fails (the parse error, the [ValueError] of [int] on
    too many digits, the [RecursionError] of a nesting the interpreter does
    not follow), the [KeyError] of a failed lookup, and the [ValueError] of
    [int] on a text that is no number. *)
Inductive exn :=
  | TransportError (cls : text)
  | JSONDecodeError
  | ValueError
  | RecursionError
  | KeyError (key : text).

(** A value, or the exception raised in its place. *)
Inductive result (A : Type) :=
  | Ok (a : A)
  | Raise (e : exn).
Arguments Ok {A} a.
Arguments Raise {A} e.

#[global] Instance result_bind : MBind result :=
  fun A B f r => match r with Ok a => f a | Raise e => Raise e end.

(** A step of [json.loads] that fails with [JSONDecodeError]. *)
Definition expect {A : Type} (o : option A) : result A :=
  match o with
  | Some a => Ok a
  | None => Raise JSONDecodeError
  end.

(** What one call of [client.chat.completions.create] does. *)
Inductive outcome :=
  | Reply (raw : text)
  | Fails (e : exn).

(** The remote endpoint as the caller sees it: the outcome of a call is a
    function of how many calls were made before it and of the prompt. *)
Definition transport := nat -> text -> outcome.

(** What the caller does that can be observed from outside. *)
Inductive event :=
  | Create (prompt : text)
  | Sleep (seconds : Z).

(** How a Python function ends. *)
Inductive ending (A : Type) :=
  | Returns (a : A)
  | ReturnsNone
  | Raises (e : exn).
Arguments Returns {A} a.
Arguments ReturnsNone {A}.
Arguments Raises {A} e.

(** [REVIEW_PROMPT.format(content=content)]: the template is the text before
    and the text after its one placeholder. *)
Definition format_prompt (template : text * text) (content : text) : text :=
  fst template ++ content ++ snd template.

(** ** Paths and the file system the collector walks *)

(** A [pathlib.Path], held as its components ([Path.parts]). *)
Record Path := { parts : list text }.

(** [p.name]: the last component, [""] when the path is only its anchor. *)
Definition name (p : Path) : text :=
  let l := List.last (parts p) [] in
  if text_eqb l (lit "/") then [] else l.

(** [str(p.relative_to(root))] for a path found under [root]. *)
Definition relative_to (p root : Path) : text :=
  match drop (length (parts root)) (parts p) with
  | [] => lit "."
  | ps => join (lit "/") ps
  end.

(** What the collector asks of the file system: the paths a pattern yields
    under a root, in the order [glob] yields them; whether a path is a
    regular file; the text of a file, with [None] for a read that raises
    [UnicodeDecodeError] or [PermissionError]. *)
Record filesystem := {
  fs_glob : Path -> text -> list Path;
  fs_is_file : Path -> bool;
  fs_read_text : Path -> option text
}.

(** [set(path.parts) & excluded] is not empty. *)
Definition parts_meet (p : Path) (excluded : list text) : bool :=
  existsb (fun c => set_mem c excluded) (parts p).


(** ** The process around the scripts: environment, GitHub, a run *)

(** [os.environ]. *)
Definition environ := text -> option text.

(** [not os.getenv(v)]: the variable is unset, or set to the empty string. *)
Definition unset (env : environ) (v : text) : bool :=
  match env v with
  | Some (_ :: _) => false
  | _ => true
  end.

(** [[v for v in required if not os.getenv(v)]]. *)
Definition missing_vars (env : environ) (required : list text) : list text :=
  List.filter (unset env) required.

(** [os.getenv(v, default)]. *)
Definition getenv (env : environ) (v default : text) : text :=
  match env v with
  | Some value => value
  | None => default
  end.

(** [MODEL], as every script reads it when it is loaded. *)
Definition MODEL_of (env : environ) : text :=
  getenv env (lit "OPENAI_MODEL") (lit "gpt-5.2-codex-medium").

(** A file of a pull request as PyGithub hands it over: [file.filename] and
    [file.patch], which is [None] for a binary file. *)
Record pr_file := { filename : text; patch : option text }.

(** The keyword arguments of [repo.create_issue]. *)
Record issue_request := { title : text; body : text; labels : list text }.

(** GitHub as the scripts meet it: the outcome of a call is a function of
    how many calls of GitHub the run made before it and of its arguments.  A
    call that raises is given by the class of its exception:
    [gh.get_repo(name)], [repo.get_pull(number)], the iteration over
    [pr.get_files()], [pr.create_issue_comment(comment)] and
    [repo.create_issue(...)], which returns an issue whose [html_url] is
    kept. *)
Record hub := {
  hub_repo : nat -> text -> option text;
  hub_pull : nat -> text -> Z -> option text;
  hub_files : nat -> text -> Z -> text + list pr_file;
  hub_comment : nat -> text -> Z -> text -> option text;
  hub_issue : nat -> text -> issue_request -> text + text
}.

(** What leaves a script as an exception. *)
Inductive failure :=
  | Python (e : exn)
  | GithubException (cls : text).

(** How a run ends: the function returns, [sys.exit] is called, or an
    exception is left uncaught. *)
Inductive halt (A : Type) :=
  | Finished (a : A)
  | SysExit (code : Z)
  | Uncaught (f : failure).
Arguments Finished {A} a.
Arguments SysExit {A} code.
Arguments Uncaught {A} f.

(** What a run does that can be observed from outside: a line on standard
    output, a call of the model or a sleep, a comment on a pull request, an
    issue. *)
Inductive step :=
  | Prints (line : text)
  | Asks (e : event)
  | PostsComment (repo_name : text) (pr_number : Z) (comment : text)
  | OpensIssue (repo_name : text) (request : issue_request).

(** [f"{review}"] for what a caller of the model returned: the text, or
    [None] written out. *)
Definition shown (review : option text) : text :=
  match review with
  | Some review_text => review_text
  | None => lit "None"
  end.
(** ** JSON values, [json.dumps] and [json.loads]

    What [json.loads] returns, as a tree.  A Python [float] is kept as the
    lexeme it was read from; an object is the list of its items in
    insertion order, as a [dict] holds them. *)

#[local] Set Warnings "-register-all".

Inductive json :=
  | JNull
  | JBool (b : bool)
  | JInt (z : Z)
  | JFloat (lexeme : text)
  | JStr (s : text)
  | JArr (items : list json)
  | JObj (members : list (text * json)).

Definition hex_digit (d : N) : char :=
  if d <? 10 then 48 + d else 87 + d.

(** ['{0:04x}'.format(n)] for [n < 0x10000]. *)
Definition hex4 (n : N) : text :=
  [hex_digit (n / 4096 mod 16); hex_digit (n / 256 mod 16);
   hex_digit (n / 16 mod 16); hex_digit (n mod 16)].

Definition BACKSLASH : char := 92.

(** How [json.dumps] (with [ensure_ascii], its default) writes one
    character of a string. *)
Definition escape_char (c : char) : text :=
  if c =? 34 then [BACKSLASH; 34]
  else if c =? 92 then [BACKSLASH; 92]
  else if c =? 10 then [BACKSLASH; ch "n"]
  else if c =? 13 then [BACKSLASH; ch "r"]
  else if c =? 9 then [BACKSLASH; ch "t"]
  else if c =? 8 then [BACKSLASH; ch "b"]
  else if c =? 12 then [BACKSLASH; ch "f"]
  else if (32 <=? c) && (c <=? 126) then [c]
  else if c <? 65536 then BACKSLASH :: ch "u" :: hex4 c
  else
    let n := c - 65536 in
    let s1 := N.lor 55296 (N.land (N.shiftr n 10) 1023) in
    let s2 := N.lor 56320 (N.land n 1023) in
    (BACKSLASH :: ch "u" :: hex4 s1) ++ (BACKSLASH :: ch "u" :: hex4 s2).

Definition dumps_string (s : text) : text :=
  DQ ++ flat_map escape_char s ++ DQ.

(** [json.dumps(v)] with the default separators. *)
Fixpoint json_dumps (v : json) : text :=
  match v with
  | JNull => lit "null"
  | JBool true => lit "true"
  | JBool false => lit "false"
  | JInt z => str_of_Z z
  | JFloat lexeme => lexeme
  | JStr s => dumps_string s
  | JArr items => lit "[" ++ join (lit ", ") (map json_dumps items) ++ lit "]"
  | JObj members =>
      lit "{"
      ++ join (lit ", ")
           (map (fun kv => dumps_string (fst kv) ++ lit ": " ++ json_dumps (snd kv)) members)
      ++ lit "}"
  end.

(** The whitespace [json.loads] skips between tokens. *)
Definition is_json_ws (c : char) : bool :=
  (c =? 32) || (c =? 9) || (c =? 10) || (c =? 13).

Fixpoint skip_ws (s : text) : text :=
  match s with
  | [] => []
  | c :: s' => if is_json_ws c then skip_ws s' else s
  end.

Definition hex_val (c : char) : option N :=
  if (48 <=? c) && (c <=? 57) then Some (c - 48)
  else if (97 <=? c) && (c <=? 102) then Some (c - 87)
  else if (65 <=? c) && (c <=? 70) then Some (c - 55)
  else None.

(** The four hexadecimal digits of a [\uXXXX] escape. *)
Definition decode_hex4 (s : text) : option N :=
  match s with
  | a :: b :: c :: d :: _ =>
      a ← hex_val a; b ← hex_val b; c ← hex_val c; d ← hex_val d;
      Some (((a * 16 + b) * 16 + c) * 16 + d)
  | _ => None
  end.

(** The escape that follows a backslash: the character it stands for and
    how many characters of the input it takes.  A high surrogate followed by
    an escaped low surrogate is one character. *)
Definition decode_escape (s : text) : option (char * nat) :=
  match s with
  | [] => None
  | e :: s' =>
      if e =? 34 then Some (34, 1%nat)
      else if e =? 92 then Some (92, 1%nat)
      else if e =? ch "/" then Some (ch "/", 1%nat)
      else if e =? ch "b" then Some (8, 1%nat)
      else if e =? ch "f" then Some (12, 1%nat)
      else if e =? ch "n" then Some (10, 1%nat)
      else if e =? ch "r" then Some (13, 1%nat)
      else if e =? ch "t" then Some (9, 1%nat)
      else if e =? ch "u" then
        uni ← decode_hex4 s';
        if (55296 <=? uni) && (uni <=? 56319)
           && startswith [BACKSLASH; ch "u"] (drop 4 s')
        then
          uni2 ← decode_hex4 (drop 6 s');
          if (56320 <=? uni2) && (uni2 <=? 57343)
          then Some (65536 + N.lor (N.shiftl (uni - 55296) 10) (uni2 - 56320), 11%nat)
          else Some (uni, 5%nat)
        else Some (uni, 5%nat)
      else None
  end.

(** The body of a string, from after its opening quote to its closing
    quote; [skip] characters were already taken by an escape.  A raw control
    character is an error. *)
Fixpoint scanstring (skip : nat) (s : text) : option (text * text) :=
  match s with
  | [] => None
  | c :: s' =>
      match skip with
      | S k => scanstring k s'
      | O =>
          if c =? 34 then Some ([], s')
          else if c =? BACKSLASH then
            '(uni, taken) ← decode_escape s';
            '(body, rest) ← scanstring taken s';
            Some (uni :: body, rest)
          else if c <? 32 then None
          else
            '(body, rest) ← scanstring 0 s';
            Some (c :: body, rest)
      end
  end.

Definition is_digit (c : char) : bool := (48 <=? c) && (c <=? 57).

Fixpoint span_digits (s : text) : text * text :=
  match s with
  | [] => ([], [])
  | c :: s' =>
      if is_digit c then let '(ds, rest) := span_digits s' in (c :: ds, rest)
      else ([], s)
  end.

Fixpoint digits_uint (ds : text) : uint :=
  match ds with
  | [] => Nil
  | c :: ds' =>
      let d := digits_uint ds' in
      if c =? 48 then D0 d else if c =? 49 then D1 d else if c =? 50 then D2 d
      else if c =? 51 then D3 d else if c =? 52 then D4 d else if c =? 53 then D5 d
      else if c =? 54 then D6 d else if c =? 55 then D7 d else if c =? 56 then D8 d
      else D9 d
  end.

(** The largest number of digits [int] converts by default. *)
Definition INT_MAX_STR_DIGITS : nat := 4300.

(** The integer part of a number: [0] alone, or a non-zero digit and the
    digits after it. *)
Definition scan_int_part (s : text) : option (text * text) :=
  match s with
  | c :: s' =>
      if c =? 48 then Some ([c], s')
      else if is_digit c then Some (span_digits s)
      else None
  | [] => None
  end.

(** [\.[0-9]+], when it is there. *)
Definition scan_frac (s : text) : text * text :=
  match s with
  | c :: s' =>
      if c =? ch "." then
        match span_digits s' with
        | ([], _) => ([], s)
        | (ds, rest) => (c :: ds, rest)
        end
      else ([], s)
  | [] => ([], s)
  end.

(** [[eE][-+]?[0-9]+], when it is there. *)
Definition scan_exp (s : text) : text * text :=
  match s with
  | c :: s' =>
      if (c =? ch "e") || (c =? ch "E") then
        match s' with
        | sg :: s'' =>
            if (sg =? ch "-") || (sg =? ch "+") then
              match span_digits s'' with
              | ([], _) => ([], s)
              | (ds, rest) => (c :: sg :: ds, rest)
              end
            else
              match span_digits s' with
              | ([], _) => ([], s)
              | (ds, rest) => (c :: ds, rest)
              end
        | [] => ([], s)
        end
      else ([], s)
  | [] => ([], s)
  end.

(** A number token, [None] when the text opens with none: an integer when
    it has neither fraction nor exponent, and then [int] raises
    [ValueError] on more digits than it converts. *)
Definition scan_number (s : text) : option (result (json * text)) :=
  let '(neg, s1) :=
    match s with
    | c :: s' => if c =? ch "-" then (true, s') else (false, s)
    | [] => (false, s)
    end in
  '(ds, s2) ← scan_int_part s1;
  let '(frac, s3) := scan_frac s2 in
  let '(ex, s4) := scan_exp s3 in
  match frac, ex with
  | [], [] =>
      if (length ds <=? INT_MAX_STR_DIGITS)%nat then
        let n := Z.of_N (N.of_uint (digits_uint ds)) in
        Some (Ok (JInt (if neg then (- n)%Z else n), s4))
      else Some (Raise ValueError)
  | _, _ => Some (Ok (JFloat ((if neg then [ch "-"] else []) ++ ds ++ frac ++ ex), s4))
  end.

(** [d[k] = v] on a [dict] held as its item list. *)
Fixpoint dict_set (d : list (text * json)) (k : text) (v : json) : list (text * json) :=
  match d with
  | [] => [(k, v)]
  | (k', v') :: d' =>
      if text_eqb k' k then (k', v) :: d' else (k', v') :: dict_set d' k v
  end.

(** [dict(pairs)]. *)
Definition dict_of_pairs (pairs : list (text * json)) : list (text * json) :=
  fold_left (fun d kv => dict_set d (fst kv) (snd kv)) pairs [].

(** The decoder, as the scanner of CPython runs it: [scan_value] reads one
    value, [scan_items] the items of an array after its bracket,
    [scan_pairs] the pairs of an object after the opening quote of a key.
    Each object and each array is a recursive call of the interpreter:
    [depth] is how many of them may still be entered, and a bracket met
    with none left raises [RecursionError] before anything behind it is
    read.  [fuel] is the measure of the recursion, see [json_loads]. *)
Fixpoint scan_value (fuel depth : nat) (s : text) {struct fuel} : result (json * text) :=
  match fuel with
  | O => Raise JSONDecodeError
  | S fuel' =>
      match s with
      | [] => Raise JSONDecodeError
      | c :: s' =>
          if c =? 34 then
            '(str, rest) ← expect (scanstring 0 s'); Ok (JStr str, rest)
          else if c =? ch "{" then
            match depth with
            | O => Raise RecursionError
            | S depth' =>
                match skip_ws s' with
                | c1 :: r =>
                    if c1 =? ch "}" then Ok (JObj [], r)
                    else if c1 =? 34 then
                      '(pairs, rest) ← scan_pairs fuel' depth' r;
                      Ok (JObj (dict_of_pairs pairs), rest)
                    else Raise JSONDecodeError
                | [] => Raise JSONDecodeError
                end
            end
          else if c =? ch "[" then
            match depth with
            | O => Raise RecursionError
            | S depth' =>
                match skip_ws s' with
                | c1 :: r =>
                    if c1 =? ch "]" then Ok (JArr [], r)
                    else
                      '(items, rest) ← scan_items fuel' depth' (c1 :: r);
                      Ok (JArr items, rest)
                | [] => Raise JSONDecodeError
                end
            end
          else if startswith (lit "null") s then Ok (JNull, drop 4 s)
          else if startswith (lit "true") s then Ok (JBool true, drop 4 s)
          else if startswith (lit "false") s then Ok (JBool false, drop 5 s)
          else
            match scan_number s with
            | Some r => r
            | None =>
                if startswith (lit "NaN") s then Ok (JFloat (lit "NaN"), drop 3 s)
                else if startswith (lit "Infinity") s
                then Ok (JFloat (lit "Infinity"), drop 8 s)
                else if startswith (lit "-Infinity") s
                then Ok (JFloat (lit "-Infinity"), drop 9 s)
                else Raise JSONDecodeError
            end
      end
  end
with scan_items (fuel depth : nat) (s : text) {struct fuel} : result (list json * text) :=
  match fuel with
  | O => Raise JSONDecodeError
  | S fuel' =>
      '(v, r) ← scan_value fuel' depth s;
      match skip_ws r with
      | c :: r' =>
          if c =? ch "]" then Ok ([v], r')
          else if c =? ch "," then
            '(vs, rest) ← scan_items fuel' depth (skip_ws r');
            Ok (v :: vs, rest)
          else Raise JSONDecodeError
      | [] => Raise JSONDecodeError
      end
  end
with scan_pairs (fuel depth : nat) (s : text) {struct fuel}
    : result (list (text * json) * text) :=
  match fuel with
  | O => Raise JSONDecodeError
  | S fuel' =>
      '(key, r) ← expect (scanstring 0 s);
      match skip_ws r with
      | c :: r' =>
          if c =? ch ":" then
            '(v, r2) ← scan_value fuel' depth (skip_ws r');
            match skip_ws r2 with
            | c2 :: r3 =>
                if c2 =? ch "}" then Ok ([(key, v)], r3)
                else if c2 =? ch "," then
                  match skip_ws r3 with
                  | c3 :: r4 =>
                      if c3 =? 34 then
                        '(kvs, rest) ← scan_pairs fuel' depth r4;
                        Ok ((key, v) :: kvs, rest)
                      else Raise JSONDecodeError
                  | [] => Raise JSONDecodeError
                  end
                else Raise JSONDecodeError
            | [] => Raise JSONDecodeError
            end
          else Raise JSONDecodeError
      | [] => Raise JSONDecodeError
      end
  end.

(** [json.loads(s)]: one value between optional whitespace and nothing
    else.  [limit] is how deep the interpreter follows the nesting of
    objects and arrays at the place of the call; it depends on the version
    of the interpreter and on the call stack, and is left open.  Every
    recursive call but the first comes after a character was read, and a
    value with its item or pair calls takes two units of fuel at most for
    each character, so that the fuel is never what ends the scan. *)
Definition json_loads (limit : nat) (s : text) : result json :=
  '(v, rest) ← scan_value (2 * length s + 2) limit (skip_ws s);
  match skip_ws rest with
  | [] => Ok v
  | _ :: _ => Raise JSONDecodeError
  end.

(** ** The reply of the model, cut down to a JSON text

    The stages shared word for word by [review_code] of core_review_v3.py
    and of review_standalone.py. *)

Definition THINK_OPEN : text := lit "<think>".
Definition THINK_CLOSE : text := lit "</think>".
Definition FENCE_JSON : text := lit "```json".

(** The length of the match of [<think>.*?</think>] (with [re.DOTALL]) that
    starts at the head of [s]: up to the first closing tag. *)
Definition think_match (s : text) : option nat :=
  if startswith THINK_OPEN s then
    match find_sub THINK_CLOSE (drop 7 s) with
    | Some j => Some (7 + j + 8)%nat
    | None => None
    end
  else None.

(** [re.sub(r'<think>.*?</think>', '', s, flags=re.DOTALL)]: positions are
    tried from left to right; a match is dropped and the scan resumes after
    it, a position without a match keeps its character. *)
Fixpoint re_sub_think_go (skip : nat) (s : text) : text :=
  match s with
  | [] => []
  | c :: s' =>
      match skip with
      | S k => re_sub_think_go k s'
      | O =>
          match think_match s with
          | Some len => re_sub_think_go (len - 1) s'
          | None => c :: re_sub_think_go 0 s'
          end
      end
  end.

Definition re_sub_think (raw : text) : text := re_sub_think_go 0 raw.

(** The interior of the first fenced block, tagged [json] or not. *)
Definition unwrap_fence (content : text) : text :=
  if str_in FENCE_JSON content then
    let start := (str_find FENCE_JSON content + 7)%Z in
    let end_ := str_find_from FENCE content start in
    if (end_ >? start)%Z then strip (slice content start end_) else content
  else if str_in FENCE content then
    let start := (str_find FENCE content + 3)%Z in
    let end_ := str_find_from FENCE content start in
    if (end_ >? start)%Z then strip (slice content start end_) else content
  else content.

(** Drop what precedes the first opening brace, when there is one. *)
Definition seek_brace (content : text) : text :=
  if negb (startswith (lit "{") content) then
    let json_start := str_find (lit "{") content in
    if negb (json_start =? -1)%Z then slice_from content json_start else content
  else content.

(** The loop over [enumerate(content)] that counts braces: the index just
    after the brace that brings the depth back to zero, [0] when none does. *)
Fixpoint depth_scan (depth : Z) (i : Z) (s : text) : Z :=
  match s with
  | [] => 0%Z
  | c :: s' =>
      if c =? ch "{" then depth_scan (depth + 1) (i + 1) s'
      else if c =? ch "}" then
        let depth := (depth - 1)%Z in
        if (depth =? 0)%Z then (i + 1)%Z else depth_scan depth (i + 1) s'
      else depth_scan depth (i + 1) s'
  end.

(** ** The structured review *)

Record Improvement := {
  imp_id : text;
  imp_file : text;
  imp_line_hint : option text;
  imp_severity : text;
  imp_category : text;
  imp_title : text;
  imp_problem : text;
  imp_solution : text;
  imp_effort : text
}.

Record ReviewResult := {
  improvements : list Improvement;
  architecture_notes : text;
  security_posture : text;
  top_priority : text;
  risk_score : Z
}.

Definition SEVERITIES : list text :=
  [lit "critical"; lit "high"; lit "medium"; lit "low"].

Definition CATEGORIES : list text :=
  [lit "security"; lit "performance"; lit "quality"; lit "architecture";
   lit "maintainability"].

Definition EFFORTS : list text :=
  [lit "trivial"; lit "small"; lit "medium"; lit "large"].

(** The [dict] a structured review is once parsed. *)
Definition improvement_dict (i : Improvement) : json :=
  JObj ([(lit "id", JStr (imp_id i)); (lit "file", JStr (imp_file i))]
        ++ match imp_line_hint i with
           | Some h => [(lit "line_hint", JStr h)]
           | None => []
           end
        ++ [(lit "severity", JStr (imp_severity i));
            (lit "category", JStr (imp_category i));
            (lit "title", JStr (imp_title i));
            (lit "problem", JStr (imp_problem i));
            (lit "solution", JStr (imp_solution i));
            (lit "effort", JStr (imp_effort i))]).

Definition review_dict (r : ReviewResult) : json :=
  JObj [(lit "improvements", JArr (map improvement_dict (improvements r)));
        (lit "architecture_notes", JStr (architecture_notes r));
        (lit "security_posture", JStr (security_posture r));
        (lit "top_priority", JStr (top_priority r));
        (lit "risk_score", JInt (risk_score r))].

(** [d.get(k)] on a parsed object. *)
Fixpoint obj_get (d : list (text * json)) (k : text) : option json :=
  match d with
  | [] => None
  | (k', v) :: d' => if text_eqb k' k then Some v else obj_get d' k
  end.

Definition is_string (v : option json) : bool :=
  match v with Some (JStr _) => true | _ => false end.

Definition is_string_in (allowed : list text) (v : option json) : bool :=
  match v with Some (JStr s) => set_mem s allowed | _ => false end.

(** [REVIEW_SCHEMA] of core_review_v3.py, read as a check: the items of
    [improvements]. *)
Definition schema_item_ok (v : json) : bool :=
  match v with
  | JObj d =>
      is_string (obj_get d (lit "id"))
      && is_string (obj_get d (lit "file"))
      && match obj_get d (lit "line_hint") with
         | None | Some (JStr _) => true
         | _ => false
         end
      && is_string_in SEVERITIES (obj_get d (lit "severity"))
      && is_string_in CATEGORIES (obj_get d (lit "category"))
      && is_string (obj_get d (lit "title"))
      && is_string (obj_get d (lit "problem"))
      && is_string (obj_get d (lit "solution"))
      && is_string_in EFFORTS (obj_get d (lit "effort"))
  | _ => false
  end.

(** [REVIEW_SCHEMA], read as a check: the required keys and their types,
    the listed values of the enumerations, [risk_score] between its
    [minimum] and [maximum]. *)
Definition schema_ok (v : json) : bool :=
  match v with
  | JObj d =>
      match obj_get d (lit "improvements") with
      | Some (JArr items) => forallb schema_item_ok items
      | _ => false
      end
      && is_string (obj_get d (lit "architecture_notes"))
      && is_string (obj_get d (lit "security_posture"))
      && is_string (obj_get d (lit "top_priority"))
      && match obj_get d (lit "risk_score") with
         | Some (JInt z) => (0 <=? z)%Z && (z <=? 100)%Z
         | _ => false
         end
  | _ => false
  end.

(** [f"{n:,}"]: the decimal digits in groups of three. *)
Fixpoint group3 (rev_digits : text) (k : nat) : text :=
  match rev_digits with
  | [] => []
  | d :: ds =>
      match k, ds with
      | 2%nat, _ :: _ => d :: ch "," :: group3 ds 0
      | _, _ => d :: group3 ds (S k)
      end
  end.

Definition format_thousands (z : Z) : text :=
  let digits := str_of_N (Z.abs_N z) in
  (if (z <? 0)%Z then [ch "-"] else []) ++ rev (group3 (rev digits) 0).
(** ** core_review.py *)

Module CoreReview.

Definition MAX_RETRIES : Z := 3.

Definition SKIP_FILES : list text :=
  [lit "vite-env.d.ts"; lit "auto-imports.d.ts"; lit "components.d.ts"].

Definition EXCLUDE_PATTERNS : list text :=
  [lit "node_modules"; lit "target"; lit "dist"; lit "build"; lit ".git";
   lit "__pycache__"; lit ".venv"; lit "venv"; lit ".next"; lit ".turbo"].

Definition CORE_PATTERNS : list text :=
  [lit "src/*.tsx"; lit "src/*.ts";
   lit "src/components/**/*.tsx"; lit "src/components/**/*.ts";
   lit "src/stores/**/*.ts"; lit "src/hooks/**/*.ts";
   lit "src/utils/**/*.ts"; lit "src/types/**/*.ts";
   lit "src-tauri/src/**/*.rs";
   lit "src-tauri/*.mjs"; lit "src-tauri/*.js"].

Definition should_include_path (path : Path) : bool :=
  negb (parts_meet path EXCLUDE_PATTERNS).

(** The body of the two loops of [gather_core_files] for one globbed path;
    the state is [(files, seen)]. *)
Definition visit (fs : filesystem) (root : Path)
    (st : list source_file * gset (list N)) (file_path : Path)
    : list source_file * gset (list N) :=
  let '(files, seen) := st in
  if fs_is_file fs file_path && should_include_path file_path then
    if set_mem (name file_path) SKIP_FILES then st
    else
      let rel_path := relative_to file_path root in
      if bool_decide (rel_path ∈ seen) then st
      else
        let seen := seen ∪ {[rel_path]} in
        match fs_read_text fs file_path with
        | Some content => (files ++ [(rel_path, content)], seen)
        | None => (files, seen)
        end
  else st.

Definition gather_core_files (fs : filesystem) (root : Path) : list source_file :=
  fst (fold_left
         (fun st pattern => fold_left (visit fs root) (fs_glob fs root pattern) st)
         CORE_PATTERNS ([], ∅)).

(** The language hint of [format_files]. *)
Definition lang_of (path : text) : text :=
  let ext := path_suffix path in
  dict_get [(lit "ts", lit "typescript"); (lit "tsx", lit "tsx"); (lit "rs", lit "rust")]
           (lstrip_dots ext) [].

Definition file_block (path content : text) : text :=
  lit "### " ++ path ++ NL ++ FENCE ++ lang_of path ++ NL ++ content ++ NL
  ++ FENCE ++ NL ++ NL.

Definition truncation_marker (remaining : Z) : text :=
  NL ++ lit "... (truncated: " ++ str_of_Z remaining ++ lit " more files)".

(** The loop of [format_files] over the files still to visit; [n_files] is
    [len(files)]. *)
Fixpoint format_loop (max_size : Z) (n_files : nat) (todo : list source_file)
    (parts : list text) (current_size : Z) : list text :=
  match todo with
  | [] => parts
  | (path, content) :: rest =>
      let block := file_block path content in
      let block_size := Z.of_nat (length block) in
      if (current_size + block_size >? max_size)%Z then
        let remaining := (Z.of_nat n_files - Z.of_nat (length parts))%Z in
        parts ++ [truncation_marker remaining]
      else
        format_loop max_size n_files rest (parts ++ [block]) (current_size + block_size)
  end.

Definition format_files (files : list source_file) (max_size : Z) : text :=
  let files := sort_by_path files in
  concat_text (format_loop max_size (length files) files [] 0%Z).

(** The retry loop of [review_code], [calls] counting the calls made so far. *)
Fixpoint review_loop (client : transport) (prompt : text) (attempts : list Z)
    (calls : nat) : ending text * list event :=
  match attempts with
  | [] => (ReturnsNone, [])
  | attempt :: rest =>
      match client calls prompt with
      | Reply raw => (Returns raw, [Create prompt])
      | Fails e =>
          if (attempt <? MAX_RETRIES)%Z then
            let wait_time := backoff attempt in
            let '(r, evs) := review_loop client prompt rest (S calls) in
            (r, Create prompt :: Sleep wait_time :: evs)
          else (Raises e, [Create prompt])
      end
  end.

Definition review_code (REVIEW_PROMPT : text * text) (client : transport)
    (content : text) : ending text * list event :=
  let prompt := format_prompt REVIEW_PROMPT content in
  review_loop client prompt (range1 MAX_RETRIES) 0.

Definition MAX_CONTENT_SIZE : Z := 120000.

Definition required_vars : list text :=
  [lit "GITHUB_TOKEN"; lit "OPENAI_API_KEY"; lit "GITHUB_REPOSITORY"].

(** [create_issue]: the repository is looked up, then the issue is sent;
    [calls] counts the calls of GitHub made so far. *)
Definition create_issue (MODEL : text) (gh : hub) (calls : nat)
    (repo_name review_text : text) (file_count char_count : Z)
    : (failure + text) * list step :=
  match hub_repo gh calls repo_name with
  | Some cls => (inl (GithubException cls), [])
  | None =>
      let title := [128269] ++ lit " Full Codebase Review" in
      let body :=
        lit "## Comprehensive Application Review" ++ NL
        ++ NL
        ++ lit "**Scope:** " ++ str_of_Z file_count ++ lit " files ("
        ++ format_thousands char_count ++ lit " characters)" ++ NL
        ++ lit "**Model:** " ++ MODEL ++ NL
        ++ NL
        ++ lit "---" ++ NL
        ++ NL
        ++ review_text ++ NL
        ++ NL
        ++ lit "---" ++ NL
        ++ lit "*Automated review powered by LaoZhang API (" ++ MODEL ++ lit ")*" ++ NL in
      let request := {| title := title; body := body; labels := [lit "review"] |} in
      (match hub_issue gh (S calls) repo_name request with
       | inl cls => inl (GithubException cls)
       | inr html_url => inr html_url
       end,
       [OpensIssue repo_name request])
  end.

(** [main], from the environment to the issue.  Of what the run does, the
    calls of the model, its sleeps and the issue are kept; the lines it
    prints are not. *)
Definition main (REVIEW_PROMPT : text * text) (env : environ) (fs : filesystem)
    (gh : hub) (client : transport) : halt unit * list step :=
  match missing_vars env required_vars with
  | _ :: _ => (SysExit 1, [])
  | [] =>
      match env (lit "GITHUB_TOKEN"), env (lit "OPENAI_API_KEY"),
            env (lit "GITHUB_REPOSITORY") with
      | None, _, _ => (Uncaught (Python (KeyError (lit "GITHUB_TOKEN"))), [])
      | _, None, _ => (Uncaught (Python (KeyError (lit "OPENAI_API_KEY"))), [])
      | _, _, None => (Uncaught (Python (KeyError (lit "GITHUB_REPOSITORY"))), [])
      | Some _, Some _, Some repo_name =>
          let root := {| parts := [] |} in
          let files := gather_core_files fs root in
          match files with
          | [] => (Finished tt, [])
          | _ :: _ =>
              let content := format_files files MAX_CONTENT_SIZE in
              let '(review, evs) := review_code REVIEW_PROMPT client content in
              let post (review : option text) :=
                let '(issue, steps) :=
                  create_issue (MODEL_of env) gh 0 repo_name (shown review)
                               (Z.of_nat (length files)) (Z.of_nat (length content)) in
                (match issue with
                 | inl f => Uncaught f
                 | inr _ => Finished tt
                 end,
                 map Asks evs ++ steps) in
              match review with
              | Returns review_text => post (Some review_text)
              | ReturnsNone => post None
              | Raises e => (Uncaught (Python e), map Asks evs)
              end
          end
      end
  end.

End CoreReview.

(** ** laozhang_codebase_review.py *)

Module CodebaseReview.

Definition EXCLUDE_DIRS : list text := CoreReview.EXCLUDE_PATTERNS.

Definition INCLUDE_PATTERNS : list text :=
  [lit "**/*.ts"; lit "**/*.tsx"; lit "**/*.js"; lit "**/*.mjs";
   lit "**/*.rs"; lit "**/*.json"; lit "**/*.css"; lit "**/*.scss"].

Definition should_include_path (path : Path) : bool :=
  negb (parts_meet path EXCLUDE_DIRS).

(** The body of the loops of [gather_source_files]: no record is kept of
    the paths already taken. *)
Definition visit (fs : filesystem) (root : Path)
    (files : list source_file) (file_path : Path) : list source_file :=
  if fs_is_file fs file_path && should_include_path file_path then
    match fs_read_text fs file_path with
    | Some content =>
        let rel_path := relative_to file_path root in
        files ++ [(rel_path, content)]
    | None => files
    end
  else files.

Definition gather_source_files (fs : filesystem) (root : Path) : list source_file :=
  fold_left
    (fun files pattern => fold_left (visit fs root) (fs_glob fs root pattern) files)
    INCLUDE_PATTERNS [].

Definition file_block (path content : text) : text :=
  lit "### " ++ path ++ NL ++ FENCE ++ NL ++ content ++ NL ++ FENCE ++ NL ++ NL.

Fixpoint format_loop (max_size : Z) (n_files : nat) (todo : list source_file)
    (parts : list text) (current_size : Z) : list text :=
  match todo with
  | [] => parts
  | (path, content) :: rest =>
      let block := file_block path content in
      let block_size := Z.of_nat (length block) in
      if (current_size + block_size >? max_size)%Z then
        parts ++ [CoreReview.truncation_marker
                    (Z.of_nat n_files - Z.of_nat (length parts))%Z]
      else
        format_loop max_size n_files rest (parts ++ [block]) (current_size + block_size)
  end.

Definition format_codebase (files : list source_file) (max_size : Z) : text :=
  let files := sort_by_path files in
  concat_text (format_loop max_size (length files) files [] 0%Z).

Definition MAX_CONTENT_SIZE : Z := 100000.

Definition MAX_RETRIES : Z := 3.

Definition required_vars : list text :=
  [lit "GITHUB_TOKEN"; lit "OPENAI_API_KEY"; lit "GITHUB_REPOSITORY"].

(** The retry loop of [review_codebase], [calls] counting the calls made
    so far. *)
Fixpoint review_loop (client : transport) (prompt : text) (attempts : list Z)
    (calls : nat) : ending text * list event :=
  match attempts with
  | [] => (ReturnsNone, [])
  | attempt :: rest =>
      match client calls prompt with
      | Reply raw => (Returns raw, [Create prompt])
      | Fails e =>
          if (attempt <? MAX_RETRIES)%Z then
            let wait_time := backoff attempt in
            let '(r, evs) := review_loop client prompt rest (S calls) in
            (r, Create prompt :: Sleep wait_time :: evs)
          else (Raises e, [Create prompt])
      end
  end.

Definition review_codebase (REVIEW_PROMPT : text * text) (client : transport)
    (content : text) : ending text * list event :=
  let prompt := format_prompt REVIEW_PROMPT content in
  review_loop client prompt (range1 MAX_RETRIES) 0.

Definition create_review_issue (MODEL : text) (gh : hub) (calls : nat)
    (repo_name review_text : text) : (failure + text) * list step :=
  match hub_repo gh calls repo_name with
  | Some cls => (inl (GithubException cls), [])
  | None =>
      let title := [128269] ++ lit " AI Codebase Review" in
      let body :=
        lit "## Full Codebase Review" ++ NL
        ++ NL
        ++ review_text ++ NL
        ++ NL
        ++ lit "---" ++ NL
        ++ lit "*Automated review powered by LaoZhang API (" ++ MODEL ++ lit ")*" ++ NL in
      let request := {| title := title; body := body; labels := [lit "review"] |} in
      (match hub_issue gh (S calls) repo_name request with
       | inl cls => inl (GithubException cls)
       | inr html_url => inr html_url
       end,
       [OpensIssue repo_name request])
  end.

(** [main]; the lines it prints are not kept. *)
Definition main (REVIEW_PROMPT : text * text) (env : environ) (fs : filesystem)
    (gh : hub) (client : transport) : halt unit * list step :=
  match missing_vars env required_vars with
  | _ :: _ => (SysExit 1, [])
  | [] =>
      match env (lit "GITHUB_TOKEN"), env (lit "OPENAI_API_KEY"),
            env (lit "GITHUB_REPOSITORY") with
      | None, _, _ => (Uncaught (Python (KeyError (lit "GITHUB_TOKEN"))), [])
      | _, None, _ => (Uncaught (Python (KeyError (lit "OPENAI_API_KEY"))), [])
      | _, _, None => (Uncaught (Python (KeyError (lit "GITHUB_REPOSITORY"))), [])
      | Some _, Some _, Some repo_name =>
          let root := {| parts := [] |} in
          let files := gather_source_files fs root in
          match files with
          | [] => (Finished tt, [])
          | _ :: _ =>
              let content := format_codebase files MAX_CONTENT_SIZE in
              let '(review, evs) := review_codebase REVIEW_PROMPT client content in
              let post (review : option text) :=
                let '(issue, steps) :=
                  create_review_issue (MODEL_of env) gh 0 repo_name (shown review) in
                (match issue with
                 | inl f => Uncaught f
                 | inr _ => Finished tt
                 end,
                 map Asks evs ++ steps) in
              match review with
              | Returns review_text => post (Some review_text)
              | ReturnsNone => post None
              | Raises e => (Uncaught (Python e), map Asks evs)
              end
          end
      end
  end.

End CodebaseReview.

(** ** laozhang_review.py *)

Module DiffReview.

(** [review_diff]: one call, no loop; an exception of the transport leaves
    the function as it is. *)
Definition review_diff (REVIEW_PROMPT : text * text) (client : transport)
    (diff : text) : ending text * list event :=
  let prompt := format_prompt REVIEW_PROMPT diff in
  match client 0%nat prompt with
  | Reply raw => (Returns raw, [Create prompt])
  | Fails e => (Raises e, [Create prompt])
  end.

Definition MAX_DIFF_SIZE : Z := 100000.

Definition required_vars : list text :=
  [lit "GITHUB_TOKEN"; lit "OPENAI_API_KEY"; lit "GITHUB_REPOSITORY"; lit "PR_NUMBER"].

(** One element of [diff_parts]: the header and the patch, or its
    placeholder when [file.patch] is [None] or empty. *)
Definition diff_part (file : pr_file) : text :=
  let header :=
    lit "--- a/" ++ filename file ++ NL ++ lit "+++ b/" ++ filename file ++ NL in
  let patch :=
    match patch file with
    | Some (c :: p) => c :: p
    | _ => lit "(binary or empty file)"
    end in
  header ++ patch.

(** What [get_pr_diff] makes of the files of the pull request. *)
Definition diff_of_files (files : list pr_file) : text :=
  let diff_parts := map diff_part files in
  let full_diff := join (NL ++ NL) diff_parts in
  if (Z.of_nat (length full_diff) >? MAX_DIFF_SIZE)%Z then
    slice_to full_diff MAX_DIFF_SIZE ++ NL ++ NL ++ lit "... (diff truncated due to size)"
  else full_diff.

Definition get_pr_diff (gh : hub) (calls : nat) (repo_name : text) (pr_number : Z)
    : failure + text :=
  match hub_repo gh calls repo_name with
  | Some cls => inl (GithubException cls)
  | None =>
      match hub_pull gh (1 + calls) repo_name pr_number with
      | Some cls => inl (GithubException cls)
      | None =>
          match hub_files gh (2 + calls) repo_name pr_number with
          | inl cls => inl (GithubException cls)
          | inr files => inr (diff_of_files files)
          end
      end
  end.

Definition post_review_comment (gh : hub) (calls : nat) (repo_name : text)
    (pr_number : Z) (review_text : text) : option failure * list step :=
  match hub_repo gh calls repo_name with
  | Some cls => (Some (GithubException cls), [])
  | None =>
      match hub_pull gh (1 + calls) repo_name pr_number with
      | Some cls => (Some (GithubException cls), [])
      | None =>
          let comment :=
            lit "## AI Code Review" ++ NL ++ NL ++ review_text ++ NL ++ NL
            ++ lit "---" ++ NL ++ lit "*Powered by LaoZhang API*" in
          (GithubException <$> hub_comment gh (2 + calls) repo_name pr_number comment,
           [PostsComment repo_name pr_number comment])
      end
  end.

(** [main]; [py_int] is [int] on a [str], with [None] for its
    [ValueError].  The diff took three calls of GitHub. *)
Definition main (py_int : text -> option Z) (REVIEW_PROMPT : text * text)
    (env : environ) (gh : hub) (client : transport) : halt unit * list step :=
  match missing_vars env required_vars with
  | _ :: _ as missing =>
      (SysExit 1,
       [Prints (lit "Error: Missing environment variables: " ++ join (lit ", ") missing)])
  | [] =>
      match env (lit "GITHUB_TOKEN"), env (lit "OPENAI_API_KEY"),
            env (lit "GITHUB_REPOSITORY") with
      | None, _, _ => (Uncaught (Python (KeyError (lit "GITHUB_TOKEN"))), [])
      | _, None, _ => (Uncaught (Python (KeyError (lit "OPENAI_API_KEY"))), [])
      | _, _, None => (Uncaught (Python (KeyError (lit "GITHUB_REPOSITORY"))), [])
      | Some _, Some _, Some repo_name =>
          match env (lit "PR_NUMBER") with
          | None => (Uncaught (Python (KeyError (lit "PR_NUMBER"))), [])
          | Some number =>
              match py_int number with
              | None => (Uncaught (Python ValueError), [])
              | Some pr_number =>
                  let said :=
                    [Prints (lit "Reviewing PR #" ++ str_of_Z pr_number ++ lit " in "
                             ++ repo_name ++ lit "...")] in
                  match get_pr_diff gh 0 repo_name pr_number with
                  | inl f => (Uncaught f, said)
                  | inr diff =>
                      match strip diff with
                      | [] => (Finished tt, said ++ [Prints (lit "No changes to review.")])
                      | _ :: _ =>
                          let said :=
                            said
                            ++ [Prints (lit "Diff size: " ++ str_of_nat (length diff)
                                        ++ lit " characters");
                                Prints (lit "Sending to LaoZhang (" ++ MODEL_of env
                                        ++ lit ")...")] in
                          let '(review, evs) := review_diff REVIEW_PROMPT client diff in
                          let said := said ++ map Asks evs in
                          let post (review : option text) :=
                            let '(failed, steps) :=
                              post_review_comment gh 3 repo_name pr_number (shown review) in
                            let said :=
                              said ++ [Prints (lit "Posting review comment...")] ++ steps in
                            match failed with
                            | Some f => (Uncaught f, said)
                            | None => (Finished tt, said ++ [Prints (lit "Done!")])
                            end in
                          match review with
                          | Returns review_text => post (Some review_text)
                          | ReturnsNone => post None
                          | Raises e => (Uncaught (Python e), said)
                          end
                      end
                  end
              end
          end
      end
  end.

End DiffReview.

(** ** core_review_v3.py *)

Module CoreReviewV3.

Definition MAX_RETRIES : Z := 3.

Definition CORE_PATTERNS : list text := CoreReview.CORE_PATTERNS.

Definition SKIP_FILES : list text :=
  [lit "vite-env.d.ts"; lit "auto-imports.d.ts"; lit "components.d.ts"].

Definition EXCLUDE_DIRS : list text :=
  [lit "node_modules"; lit "target"; lit "dist"; lit "build"; lit ".git"].

(** The body of the loops of [gather_files] for one globbed path. *)
Definition visit (fs : filesystem) (root : Path)
    (st : list source_file * gset (list N)) (fp : Path)
    : list source_file * gset (list N) :=
  let '(files, seen) := st in
  if negb (fs_is_file fs fp) then st
  else if parts_meet fp EXCLUDE_DIRS then st
  else if set_mem (name fp) SKIP_FILES then st
  else
    let rel := relative_to fp root in
    if bool_decide (rel ∈ seen) then st
    else
      let seen := seen ∪ {[rel]} in
      match fs_read_text fs fp with
      | Some content => (files ++ [(rel, content)], seen)
      | None => (files, seen)
      end.

Definition gather_files (fs : filesystem) (root : Path) : list source_file :=
  sort_by_path
    (fst (fold_left
            (fun st pattern => fold_left (visit fs root) (fs_glob fs root pattern) st)
            CORE_PATTERNS ([], ∅))).

Definition lang_of (path : text) : text :=
  let ext := lstrip_dots (path_suffix path) in
  dict_get [(lit "ts", lit "typescript"); (lit "tsx", lit "tsx"); (lit "rs", lit "rust");
            (lit "mjs", lit "javascript"); (lit "js", lit "javascript")]
           ext ext.

(** One line of the manifest. *)
Definition manifest_line (idx : Z) (path content : text) : text :=
  let lines := Z.of_nat (length (splitlines content)) in
  lit "  <file index=" ++ DQ ++ str_of_Z idx ++ DQ
  ++ lit " path=" ++ DQ ++ path ++ DQ
  ++ lit " lang=" ++ DQ ++ lang_of path ++ DQ
  ++ lit " lines=" ++ DQ ++ str_of_Z lines ++ DQ ++ lit " />".

(** The first loop of [format_files], over [enumerate(files, 1)]. *)
Fixpoint manifest_entries (idx : Z) (files : list source_file) : list text :=
  match files with
  | [] => []
  | (path, content) :: rest =>
      manifest_line idx path content :: manifest_entries (idx + 1) rest
  end.

Definition manifest_of (files : list source_file) : text :=
  join NL ([lit "<file_manifest>"] ++ manifest_entries 1 files
           ++ [lit "</file_manifest>" ++ NL]).

(** The component a path is filed under. *)
Definition component_of (path : text) : text :=
  if str_in (lit "commands") path then lit "backend-command"
  else if str_in (lit "src-tauri") path && endswith (lit ".rs") path
  then lit "backend-core"
  else if str_in (lit "src-tauri") path
          && (endswith (lit ".mjs") path || endswith (lit ".js") path)
  then lit "bridge"
  else if str_in (lit "components") path then lit "frontend-component"
  else if str_in (lit "hooks") path then lit "frontend-hook"
  else if str_in (lit "stores") path then lit "frontend-store"
  else lit "frontend-core".

Definition file_block (idx total_files : Z) (path content : text) : text :=
  let lines := Z.of_nat (length (splitlines content)) in
  let chars := Z.of_nat (length content) in
  NL ++ lit "<file index=" ++ DQ ++ str_of_Z idx ++ DQ
  ++ lit " total=" ++ DQ ++ str_of_Z total_files ++ DQ ++ lit ">" ++ NL
  ++ lit "  <metadata>" ++ NL
  ++ lit "    <path>" ++ path ++ lit "</path>" ++ NL
  ++ lit "    <language>" ++ lang_of path ++ lit "</language>" ++ NL
  ++ lit "    <component>" ++ component_of path ++ lit "</component>" ++ NL
  ++ lit "    <lines>" ++ str_of_Z lines ++ lit "</lines>" ++ NL
  ++ lit "    <characters>" ++ str_of_Z chars ++ lit "</characters>" ++ NL
  ++ lit "  </metadata>" ++ NL
  ++ lit "  <content>" ++ NL
  ++ content ++ NL
  ++ lit "  </content>" ++ NL
  ++ lit "</file>" ++ NL.

Definition truncation_marker (remaining : Z) : text :=
  NL ++ lit "... truncated (" ++ str_of_Z remaining ++ lit " files remaining)".

(** The second loop of [format_files]; [parts] already holds the manifest
    when the loop starts. *)
Fixpoint format_loop (max_size : Z) (n_files : nat) (idx : Z)
    (todo : list source_file) (parts : list text) (size : Z) : list text :=
  match todo with
  | [] => parts
  | (path, content) :: rest =>
      let block := file_block idx (Z.of_nat n_files) path content in
      if (size + Z.of_nat (length block) >? max_size)%Z then
        parts ++ [truncation_marker (Z.of_nat n_files - Z.of_nat (length parts))%Z]
      else
        format_loop max_size n_files (idx + 1) rest (parts ++ [block])
                    (size + Z.of_nat (length block))
  end.

Definition format_files (files : list source_file) (max_size : Z) : text :=
  let manifest := manifest_of files in
  concat_text
    (format_loop max_size (length files) 1 files [manifest]
                 (0 + Z.of_nat (length manifest))).

(** The brace count of [review_code], with its [end_pos]. *)
Definition cut_object (content : text) : text :=
  if startswith (lit "{") content then
    let end_pos := depth_scan 0 0 content in
    if (end_pos >? 0)%Z then slice_to content end_pos else content
  else content.

(** The text [review_code] hands to [json.loads]. *)
Definition isolate (raw : text) : text :=
  let content := strip (re_sub_think raw) in
  let content := unwrap_fence content in
  let content := seek_brace content in
  cut_object content.

(** Lines 277 to 317 of [review_code]: from the reply to the parsed value;
    [limit] is the one of [json_loads]. *)
Definition extract (limit : nat) (raw : text) : result json :=
  json_loads limit (isolate raw).

(** The retry loop of [review_code]: the extraction sits inside the [try],
    so that its failure is handled like the one of the transport. *)
Fixpoint review_loop (limit : nat) (client : transport) (prompt : text)
    (attempts : list Z) (calls : nat) : ending json * list event :=
  match attempts with
  | [] => (ReturnsNone, [])
  | attempt :: rest =>
      let handler (e : exn) :=
        if (attempt <? MAX_RETRIES)%Z then
          let wait := backoff attempt in
          let '(r, evs) := review_loop limit client prompt rest (S calls) in
          (r, Create prompt :: Sleep wait :: evs)
        else (Raises e, [Create prompt]) in
      match client calls prompt with
      | Reply raw =>
          match extract limit raw with
          | Ok review => (Returns review, [Create prompt])
          | Raise e => handler e
          end
      | Fails e => handler e
      end
  end.

Definition review_code (limit : nat) (REVIEW_PROMPT : text * text) (client : transport)
    (content : text) : ending json * list event :=
  let prompt := format_prompt REVIEW_PROMPT content in
  review_loop limit client prompt (range1 MAX_RETRIES) 0.

(** The label tables.  The string literals of this script that are not
    ASCII are written here code point by code point, exactly as the file
    holds them once decoded as UTF-8: each of them is a run of two to five
    Latin and punctuation characters (240 376 8221 180 for the label of
    [critical], 194 183 for the separator), not a single pictograph. *)
Definition severity_icons : list (text * text) :=
  [(lit "critical", [240; 376; 8221; 180]); (lit "high", [240; 376; 376; 160]);
   (lit "medium", [240; 376; 376; 161]); (lit "low", [240; 376; 376; 162])].

Definition category_icons : list (text * text) :=
  [(lit "security", [240; 376; 8221; 8217]); (lit "performance", [226; 353; 161]);
   (lit "quality", [226; 339; 168]); (lit "architecture", [240; 376; 8212; 239; 184]);
   (lit "maintainability", [240; 376; 8221; 167])].

Definition effort_labels : list (text * text) :=
  [(lit "trivial", lit "~1h"); (lit "small", lit "~4h");
   (lit "medium", lit "~1d"); (lit "large", lit "~1w")].

Definition PIN : text := [240; 376; 8220; 338].
Definition MIDDOT : text := [194; 183].
Definition TICK : text := lit "`".

(** [by_severity] as [format_issue_body] creates it. *)
Definition empty_buckets : gmap (list N) (list Improvement) :=
  <[lit "low" := []]> (<[lit "medium" := []]> (<[lit "high" := []]>
    (<[lit "critical" := []]> ∅))).

(** [for item in review["improvements"]: by_severity[item["severity"]].append(item)];
    a severity that is no key raises [KeyError]. *)
Fixpoint group_items (items : list Improvement)
    (by_severity : gmap (list N) (list Improvement))
    : ending (gmap (list N) (list Improvement)) :=
  match items with
  | [] => Returns by_severity
  | item :: rest =>
      match by_severity !! imp_severity item with
      | Some bucket =>
          group_items rest (<[imp_severity item := bucket ++ [item]]> by_severity)
      | None => Raises (KeyError (imp_severity item))
      end
  end.

(** [by_severity[severity]] for one of the four keys. *)
Definition bucket (by_severity : gmap (list N) (list Improvement)) (severity : text)
    : list Improvement :=
  default [] (by_severity !! severity).

(** The four lines (and the blank one) of an improvement. *)
Definition item_lines (str_title : text -> text) (item : Improvement) : list text :=
  let cat_icon := dict_get category_icons (imp_category item) PIN in
  let effort := dict_get effort_labels (imp_effort item) (imp_effort item) in
  [lit "- [ ] **" ++ TICK ++ imp_id item ++ TICK ++ lit "** " ++ imp_title item;
   lit "  - " ++ cat_icon ++ lit " " ++ str_title (imp_category item) ++ lit " "
     ++ MIDDOT ++ lit " " ++ TICK ++ imp_file item ++ TICK ++ lit " " ++ MIDDOT
     ++ lit " " ++ effort;
   lit "  - **Problem:** " ++ imp_problem item;
   lit "  - **Solution:** " ++ imp_solution item;
   []].

(** The section of one severity: nothing for an empty bucket. *)
Definition section_lines (str_title : text -> text) (severity : text)
    (items : list Improvement) : list text :=
  match items with
  | [] => []
  | _ =>
      [lit "#### " ++ dict_get severity_icons severity [] ++ lit " "
         ++ str_title severity ++ lit " (" ++ str_of_nat (length items) ++ lit ")";
       []]
      ++ flat_map (item_lines str_title) items
  end.

(** The lines before the sections, with the table of counts. *)
Definition header_lines (MODEL : text) (review : ReviewResult)
    (counts : text -> nat) (file_count char_count : Z) : list text :=
  [lit "## " ++ [240; 376; 8221] ++ lit " Structured Codebase Review";
   [];
   lit "**Scope:** " ++ str_of_Z file_count ++ lit " files ("
     ++ format_thousands char_count ++ lit " characters)";
   lit "**Model:** " ++ MODEL;
   lit "**Risk Score:** " ++ str_of_Z (risk_score review) ++ lit "/100";
   [];
   lit "---";
   [];
   lit "### " ++ [240; 376; 8220; 352] ++ lit " Summary";
   [];
   lit "| Critical | High | Medium | Low |";
   lit "|:--------:|:----:|:------:|:---:|";
   lit "| " ++ str_of_nat (counts (lit "critical")) ++ lit " | "
     ++ str_of_nat (counts (lit "high")) ++ lit " | "
     ++ str_of_nat (counts (lit "medium")) ++ lit " | "
     ++ str_of_nat (counts (lit "low")) ++ lit " |";
   [];
   lit "**Top Priority:** " ++ top_priority review;
   [];
   lit "---";
   [];
   lit "### " ++ [240; 376; 8212; 239; 184] ++ lit " Architecture";
   [];
   architecture_notes review;
   [];
   lit "### " ++ [240; 376; 8221; 8217] ++ lit " Security Posture";
   [];
   security_posture review;
   [];
   lit "---";
   [];
   lit "### " ++ [240; 376; 8220; 8249] ++ lit " Improvements";
   []].

Definition footer_lines (MODEL : text) : list text :=
  [lit "---";
   [];
   lit "*Automated review powered by LaoZhang API (" ++ MODEL
     ++ lit ") with structured output*"].

(** [format_issue_body]; [str_title] is [str.title] and [MODEL] the model
    name read from the environment. *)
Definition format_issue_body (str_title : text -> text) (MODEL : text)
    (review : ReviewResult) (file_count char_count : Z) : ending text :=
  match group_items (improvements review) empty_buckets with
  | Returns by_severity =>
      let counts := fun s => length (bucket by_severity s) in
      let lines :=
        header_lines MODEL review counts file_count char_count
        ++ flat_map (fun severity =>
                       section_lines str_title severity (bucket by_severity severity))
                    [lit "critical"; lit "high"; lit "medium"; lit "low"]
        ++ footer_lines MODEL in
      Returns (join NL lines)
  | ReturnsNone => ReturnsNone
  | Raises e => Raises e
  end.

(** [sum(1 for i in review["improvements"] if i["severity"] == severity)]. *)
Definition count_severity (severity : text) (review : ReviewResult) : nat :=
  length (List.filter (fun i => text_eqb (imp_severity i) severity) (improvements review)).

(** [create_issue]: the repository is looked up, the title is made from
    the counts, the body is rendered, and the issue is sent; [calls] counts
    the calls of GitHub made so far.  The titles start with the code points
    that the file holds.  (The renderer never ends without a value;
    PyGithub would refuse a body that is [None].) *)
Definition create_issue (str_title : text -> text) (MODEL : text) (gh : hub)
    (calls : nat) (repo_name : text) (review : ReviewResult)
    (file_count char_count : Z) : (failure + text) * list step :=
  match hub_repo gh calls repo_name with
  | Some cls => (inl (GithubException cls), [])
  | None =>
      let total := length (improvements review) in
      let critical := count_severity (lit "critical") review in
      let high := count_severity (lit "high") review in
      let title :=
        if (0 <? critical)%nat then
          [240; 376; 8221; 180] ++ lit " Code Review: " ++ str_of_nat critical ++ lit " critical, "
          ++ str_of_nat high ++ lit " high priority issues"
        else if (0 <? high)%nat then
          [240; 376; 376; 160] ++ lit " Code Review: " ++ str_of_nat high
          ++ lit " high priority issues found"
        else
          [240; 376; 376; 162] ++ lit " Code Review: " ++ str_of_nat total
          ++ lit " improvements identified" in
      match format_issue_body str_title MODEL review file_count char_count with
      | Returns body =>
          let request := {| title := title; body := body; labels := [lit "review"] |} in
          (match hub_issue gh (S calls) repo_name request with
           | inl cls => inl (GithubException cls)
           | inr html_url => inr html_url
           end,
           [OpensIssue repo_name request])
      | ReturnsNone => (inl (GithubException (lit "AssertionError")), [])
      | Raises e => (inl (Python e), [])
      end
  end.

End CoreReviewV3.
(** ** review_standalone.py *)

Module Standalone.

Definition MAX_RETRIES : Z := 3.

Definition DEFAULT_PATTERNS : list text :=
  [lit "src/**/*.tsx"; lit "src/**/*.ts"; lit "src-tauri/src/**/*.rs";
   lit "src-tauri/*.mjs"; lit "src-tauri/*.js"; lit "**/*.py"].

Definition SKIP_FILES : list text :=
  [lit "vite-env.d.ts"; lit "auto-imports.d.ts"; lit "components.d.ts";
   lit "__pycache__"].

Definition EXCLUDE_DIRS : list text :=
  [lit "node_modules"; lit "target"; lit "dist"; lit "build"; lit ".git";
   lit "__pycache__"; lit ".venv"; lit "venv"].

Definition visit (fs : filesystem) (root : Path)
    (st : list source_file * gset (list N)) (fp : Path)
    : list source_file * gset (list N) :=
  let '(files, seen) := st in
  if negb (fs_is_file fs fp) then st
  else if parts_meet fp EXCLUDE_DIRS then st
  else if set_mem (name fp) SKIP_FILES then st
  else
    let rel := relative_to fp root in
    if bool_decide (rel ∈ seen) then st
    else
      let seen := seen ∪ {[rel]} in
      match fs_read_text fs fp with
      | Some content => (files ++ [(rel, content)], seen)
      | None => (files, seen)
      end.

Definition gather_files (fs : filesystem) (root : Path) (patterns : list text)
    : list source_file :=
  sort_by_path
    (fst (fold_left
            (fun st pattern => fold_left (visit fs root) (fs_glob fs root pattern) st)
            patterns ([], ∅))).

Definition lang_of (path : text) : text :=
  let ext := lstrip_dots (path_suffix path) in
  dict_get [(lit "ts", lit "typescript"); (lit "tsx", lit "tsx"); (lit "rs", lit "rust");
            (lit "mjs", lit "javascript"); (lit "js", lit "javascript");
            (lit "py", lit "python")]
           ext ext.

Definition manifest_line (idx : Z) (path content : text) : text :=
  let lines := Z.of_nat (length (splitlines content)) in
  lit "  <file index=" ++ DQ ++ str_of_Z idx ++ DQ
  ++ lit " path=" ++ DQ ++ path ++ DQ
  ++ lit " lang=" ++ DQ ++ lang_of path ++ DQ
  ++ lit " lines=" ++ DQ ++ str_of_Z lines ++ DQ ++ lit " />".

Fixpoint manifest_entries (idx : Z) (files : list source_file) : list text :=
  match files with
  | [] => []
  | (path, content) :: rest =>
      manifest_line idx path content :: manifest_entries (idx + 1) rest
  end.

Definition manifest_of (files : list source_file) : text :=
  join NL ([lit "<file_manifest>"] ++ manifest_entries 1 files
           ++ [lit "</file_manifest>" ++ NL]).

Definition file_block (idx total : Z) (path content : text) : text :=
  let lines := Z.of_nat (length (splitlines content)) in
  let chars := Z.of_nat (length content) in
  NL ++ lit "<file index=" ++ DQ ++ str_of_Z idx ++ DQ
  ++ lit " total=" ++ DQ ++ str_of_Z total ++ DQ ++ lit ">" ++ NL
  ++ lit "  <metadata>" ++ NL
  ++ lit "    <path>" ++ path ++ lit "</path>" ++ NL
  ++ lit "    <language>" ++ lang_of path ++ lit "</language>" ++ NL
  ++ lit "    <lines>" ++ str_of_Z lines ++ lit "</lines>" ++ NL
  ++ lit "    <characters>" ++ str_of_Z chars ++ lit "</characters>" ++ NL
  ++ lit "  </metadata>" ++ NL
  ++ lit "  <content>" ++ NL
  ++ content ++ NL
  ++ lit "  </content>" ++ NL
  ++ lit "</file>" ++ NL.

Definition truncation_marker (remaining : Z) : text :=
  NL ++ lit "... truncated (" ++ str_of_Z remaining ++ lit " files remaining)".

(** The second loop of [format_files]: the count of the marker comes from
    the index of the file that did not fit. *)
Fixpoint format_loop (max_size : Z) (total : Z) (idx : Z)
    (todo : list source_file) (parts : list text) (size : Z) : list text :=
  match todo with
  | [] => parts
  | (path, content) :: rest =>
      let block := file_block idx total path content in
      if (size + Z.of_nat (length block) >? max_size)%Z then
        parts ++ [truncation_marker (total - idx + 1)%Z]
      else
        format_loop max_size total (idx + 1) rest (parts ++ [block])
                    (size + Z.of_nat (length block))
  end.

Definition format_files (files : list source_file) (max_size : Z) : text :=
  let total := Z.of_nat (length files) in
  let manifest_str := manifest_of files in
  concat_text
    (format_loop max_size total 1 files [manifest_str]
                 (0 + Z.of_nat (length manifest_str))).

(** The brace count of [review_code]: the text is cut where the depth comes
    back to zero. *)
Fixpoint cut_loop (depth : Z) (i : Z) (todo : text) (text_ : text) : text :=
  match todo with
  | [] => text_
  | c :: rest =>
      if c =? ch "{" then cut_loop (depth + 1) (i + 1) rest text_
      else if c =? ch "}" then
        let depth := (depth - 1)%Z in
        if (depth =? 0)%Z then slice_to text_ (i + 1) else cut_loop depth (i + 1) rest text_
      else cut_loop depth (i + 1) rest text_
  end.

Definition cut_object (text_ : text) : text :=
  if startswith (lit "{") text_ then cut_loop 0 0 text_ text_ else text_.

Definition isolate (raw : text) : text :=
  let text_ := strip (re_sub_think raw) in
  let text_ := unwrap_fence text_ in
  let text_ := seek_brace text_ in
  cut_object text_.

(** Lines 181 to 213 of [review_code]; [limit] is the one of [json_loads]. *)
Definition extract (limit : nat) (raw : text) : result json :=
  json_loads limit (isolate raw).

(** The retry loop of [review_code]; its two handlers, the one for
    [json.JSONDecodeError] and the one for [Exception], do the same. *)
Fixpoint review_loop (limit : nat) (client : transport) (prompt : text)
    (attempts : list Z) (calls : nat) : ending json * list event :=
  match attempts with
  | [] => (ReturnsNone, [])
  | attempt :: rest =>
      let on_json_error :=
        if (attempt <? MAX_RETRIES)%Z then
          let '(r, evs) := review_loop limit client prompt rest (S calls) in
          (r, Create prompt :: Sleep (backoff attempt) :: evs)
        else (Raises JSONDecodeError, [Create prompt]) in
      let on_exception (e : exn) :=
        if (attempt <? MAX_RETRIES)%Z then
          let '(r, evs) := review_loop limit client prompt rest (S calls) in
          (r, Create prompt :: Sleep (backoff attempt) :: evs)
        else (Raises e, [Create prompt]) in
      let handler (e : exn) :=
        match e with
        | JSONDecodeError => on_json_error
        | _ => on_exception e
        end in
      match client calls prompt with
      | Reply raw =>
          match extract limit raw with
          | Ok review => (Returns review, [Create prompt])
          | Raise e => handler e
          end
      | Fails e => handler e
      end
  end.

Definition review_code (limit : nat) (REVIEW_PROMPT : text * text) (client : transport)
    (content : text) : ending json * list event :=
  let prompt := format_prompt REVIEW_PROMPT content in
  review_loop limit client prompt (range1 MAX_RETRIES) 0.

Definition severity_icons : list (text * text) :=
  [(lit "critical", [128308]); (lit "high", [128992]);
   (lit "medium", [128993]); (lit "low", [128994])].

Definition effort_labels : list (text * text) :=
  [(lit "trivial", lit "~1h"); (lit "small", lit "~4h");
   (lit "medium", lit "~1d"); (lit "large", lit "~1w")].

Definition item_lines (item : Improvement) : list text :=
  let effort := dict_get effort_labels (imp_effort item) (imp_effort item) in
  [lit "- [ ] **" ++ imp_id item ++ lit "**: " ++ imp_title item;
   lit "  - File: `" ++ imp_file item ++ lit "` ("
     ++ default [] (imp_line_hint item) ++ lit ")";
   lit "  - Category: " ++ imp_category item ++ lit " | Effort: " ++ effort;
   lit "  - **Problem:** " ++ imp_problem item;
   lit "  - **Solution:** " ++ imp_solution item;
   []].

Definition section_lines (str_title : text -> text) (severity : text)
    (items : list Improvement) : list text :=
  match items with
  | [] => []
  | _ =>
      [lit "### " ++ dict_get severity_icons severity [] ++ lit " "
         ++ str_title severity ++ lit " (" ++ str_of_nat (length items) ++ lit ")";
       []]
      ++ flat_map item_lines items
  end.

Definition header_lines (review : ReviewResult) : list text :=
  [lit "# Code Review";
   [];
   lit "**Risk Score:** " ++ str_of_Z (risk_score review) ++ lit "/100";
   [];
   lit "## Summary";
   [];
   lit "**Top Priority:** " ++ top_priority review;
   [];
   lit "### Architecture";
   architecture_notes review;
   [];
   lit "### Security Posture";
   security_posture review;
   [];
   lit "## Improvements";
   []].

(** [format_markdown]: the grouping is the one of core_review_v3.py; no
    table of counts is written. *)
Definition format_markdown (str_title : text -> text) (review : ReviewResult)
    : ending text :=
  match CoreReviewV3.group_items (improvements review) CoreReviewV3.empty_buckets with
  | Returns by_severity =>
      let lines :=
        header_lines review
        ++ flat_map (fun severity =>
                       section_lines str_title severity
                         (CoreReviewV3.bucket by_severity severity))
                    [lit "critical"; lit "high"; lit "medium"; lit "low"] in
      Returns (join NL lines)
  | ReturnsNone => ReturnsNone
  | Raises e => Raises e
  end.

End Standalone.

(** ** test_laozhang_api.py *)

Module TestApi.

Definition MAX_RETRIES : Z := 3.

(** The loop of [test_api]: the first reply ends it with [True], the last
    failure with [False]; nothing is raised. *)
Fixpoint attempt_loop (client : transport) (prompt : text) (attempts : list Z)
    (calls : nat) : option bool * list event :=
  match attempts with
  | [] => (None, [])
  | attempt :: rest =>
      match client calls prompt with
      | Reply raw => (Some true, [Create prompt])
      | Fails e =>
          if (attempt <? MAX_RETRIES)%Z then
            let wait := backoff attempt in
            let '(r, evs) := attempt_loop client prompt rest (S calls) in
            (r, Create prompt :: Sleep wait :: evs)
          else (Some false, [Create prompt])
      end
  end.

(** [test_api]; [prompt] is [SIMPLE_PROMPT.format(content=TEST_FILE)], and
    the result [None] is the one of a function that ends without
    [return]. *)
Definition test_api (env : environ) (client : transport) (prompt : text)
    : halt (option bool) * list event :=
  if unset env (lit "OPENAI_API_KEY") then (SysExit 1, [])
  else
    let '(success, evs) := attempt_loop client prompt (range1 MAX_RETRIES) 0 in
    (Finished success, evs).

(** The script: [success = test_api(); sys.exit(0 if success else 1)].  The
    exit status of the process, an uncaught exception giving 1. *)
Definition script (env : environ) (client : transport) (prompt : text) : Z * list event :=
  let '(r, evs) := test_api env client prompt in
  (match r with
   | Finished (Some true) => 0
   | Finished _ => 1
   | SysExit code => code
   | Uncaught _ => 1
   end%Z,
   evs).

End TestApi.
(** ** Notions the statements are written with *)

(** A globbed path the collector goes on to read: a regular file, no
    component in the excluded set, a name off the skip list. *)
Definition eligible (excluded skip : list text) (fs : filesystem) (fp : Path) : bool :=
  fs_is_file fs fp && negb (parts_meet fp excluded) && negb (set_mem (name fp) skip).

(** The paths the collector visits, in the order it visits them. *)
Definition candidates (fs : filesystem) (root : Path) (patterns : list text) : list Path :=
  flat_map (fs_glob fs root) patterns.

(** The first visited path that is eligible and has relative path [r]. *)
Definition first_match (excluded skip : list text) (fs : filesystem) (root : Path)
    (patterns : list text) (r : text) : option Path :=
  List.find (fun fp => eligible excluded skip fs fp && text_eqb (relative_to fp root) r)
            (candidates fs root patterns).

(** The entries of a collection that carry the relative path [r]. *)
Definition entries_of (r : text) (files : list source_file) : list source_file :=
  filter (fun e => fst e = r) files.

(** The loop body the deduplicating collectors share, the state being
    [(files, seen)]. *)
Definition visit_spec (excluded skip : list text) (fs : filesystem) (root : Path)
    (st : list source_file * gset (list N)) (fp : Path)
    : list source_file * gset (list N) :=
  if eligible excluded skip fs fp then
    if bool_decide (relative_to fp root ∈ st.2) then st
    else
      (st.1 ++ match fs_read_text fs fp with
               | Some content => [(relative_to fp root, content)]
               | None => []
               end,
       st.2 ∪ {[relative_to fp root]})
  else st.

(** [a <= b] on paths, as Python compares them. *)
Definition path_le (a b : source_file) : Prop := text_ltb (fst b) (fst a) = false.

(** The model calls of a trace, and its sleeps. *)
Fixpoint creates (evs : list event) : nat :=
  match evs with
  | [] => 0%nat
  | Create _ :: evs' => S (creates evs')
  | Sleep _ :: evs' => creates evs'
  end.

Fixpoint sleeps (evs : list event) : list Z :=
  match evs with
  | [] => []
  | Sleep s :: evs' => s :: sleeps evs'
  | Create _ :: evs' => sleeps evs'
  end.

(** What one attempt of the structured review comes to: the parsed value, or
    the exception its handler receives. *)
Definition attempt_of (extract : text -> result json) (o : outcome) : json + exn :=
  match o with
  | Reply raw =>
      match extract raw with
      | Ok review => inl review
      | Raise e => inr e
      end
  | Fails e => inr e
  end.

(** How many blocks fit: the length of the longest prefix of [sizes] whose
    sum stays within [room]. *)
Fixpoint fit_count (room : Z) (sizes : list Z) : nat :=
  match sizes with
  | [] => 0%nat
  | s :: rest => if (s >? room)%Z then 0%nat else S (fit_count (room - s) rest)
  end.

(** [len(s)] as a Python [int]. *)
Definition len (s : text) : Z := Z.of_nat (length s).

Definition total_len (blocks : list text) : Z := len (concat blocks).

(** The blocks of the plain rendering, file by file. *)
Definition plain_blocks (files : list source_file) : list text :=
  map (fun f => CoreReview.file_block (fst f) (snd f)) files.

(** The blocks of an annotated rendering, numbered from [idx]. *)
Fixpoint annotated_blocks (block : Z -> text -> text -> text) (idx : Z)
    (files : list source_file) : list text :=
  match files with
  | [] => []
  | (path, content) :: rest =>
      block idx path content :: annotated_blocks block (idx + 1) rest
  end.

(** The improvements of one severity, in their original order. *)
Definition with_severity (s : text) (items : list Improvement) : list Improvement :=
  filter (fun i => imp_severity i = s) items.

(** ** The structured report, stated on its own

    What the report of a review is, written without the loops and the
    tables of the scripts: the improvements of a severity are those of the
    review that carry it, in the order of the review; a severity that no
    improvement carries has no section; the sections come in the order
    critical, high, medium, low.  The characters that are not ASCII are
    given by their code points, as the files hold them. *)

(** The mark of a category in the issue, with the one of a category
    without a mark of its own. *)
Definition category_mark (category : text) : text :=
  if text_eqb (lit "security") category then [240; 376; 8221; 8217]
  else if text_eqb (lit "performance") category then [226; 353; 161]
  else if text_eqb (lit "quality") category then [226; 339; 168]
  else if text_eqb (lit "architecture") category then [240; 376; 8212; 239; 184]
  else if text_eqb (lit "maintainability") category then [240; 376; 8221; 167]
  else [240; 376; 8220; 338].

(** The estimate an effort stands for; an effort without one is shown as
    it came. *)
Definition effort_label (effort : text) : text :=
  if text_eqb (lit "trivial") effort then lit "~1h"
  else if text_eqb (lit "small") effort then lit "~4h"
  else if text_eqb (lit "medium") effort then lit "~1d"
  else if text_eqb (lit "large") effort then lit "~1w"
  else effort.

(** An improvement in the issue: its id and title, then its category, file
    and effort, its problem, its solution, and a blank line. *)
Definition issue_entry (str_title : text -> text) (i : Improvement) : list text :=
  [lit "- [ ] **`" ++ imp_id i ++ lit "`** " ++ imp_title i;
   lit "  - " ++ category_mark (imp_category i) ++ lit " " ++ str_title (imp_category i)
     ++ lit " " ++ [194; 183] ++ lit " `" ++ imp_file i ++ lit "` " ++ [194; 183]
     ++ lit " " ++ effort_label (imp_effort i);
   lit "  - **Problem:** " ++ imp_problem i;
   lit "  - **Solution:** " ++ imp_solution i;
   []].

(** An improvement in the page of review_standalone.py. *)
Definition page_entry (i : Improvement) : list text :=
  [lit "- [ ] **" ++ imp_id i ++ lit "**: " ++ imp_title i;
   lit "  - File: `" ++ imp_file i ++ lit "` (" ++ default [] (imp_line_hint i) ++ lit ")";
   lit "  - Category: " ++ imp_category i ++ lit " | Effort: " ++ effort_label (imp_effort i);
   lit "  - **Problem:** " ++ imp_problem i;
   lit "  - **Solution:** " ++ imp_solution i;
   []].

(** The section of a severity: nothing when no improvement carries it;
    else a heading with the mark of the severity, its name and the number
    of its improvements, a blank line, and these improvements in the order
    of the review. *)
Definition report_section (hashes mark : text) (entry : Improvement -> list text)
    (str_title : text -> text) (severity : text) (items : list Improvement) : list text :=
  match with_severity severity items with
  | [] => []
  | i :: rest =>
      (hashes ++ mark ++ lit " " ++ str_title severity ++ lit " ("
       ++ str_of_nat (length (i :: rest)) ++ lit ")")
      :: [] :: flat_map entry (i :: rest)
  end.

(** The issue of core_review_v3.py: the table of the four counts, then the
    sections. *)
Definition issue_report (str_title : text -> text) (MODEL : text) (review : ReviewResult)
    (file_count char_count : Z) : text :=
  let items := improvements review in
  let count severity := str_of_nat (length (with_severity severity items)) in
  let section := report_section (lit "#### ") in
  join NL
    ([lit "## " ++ [240; 376; 8221] ++ lit " Structured Codebase Review";
      [];
      lit "**Scope:** " ++ str_of_Z file_count ++ lit " files ("
        ++ format_thousands char_count ++ lit " characters)";
      lit "**Model:** " ++ MODEL;
      lit "**Risk Score:** " ++ str_of_Z (risk_score review) ++ lit "/100";
      [];
      lit "---";
      [];
      lit "### " ++ [240; 376; 8220; 352] ++ lit " Summary";
      [];
      lit "| Critical | High | Medium | Low |";
      lit "|:--------:|:----:|:------:|:---:|";
      lit "| " ++ count (lit "critical") ++ lit " | " ++ count (lit "high") ++ lit " | "
        ++ count (lit "medium") ++ lit " | " ++ count (lit "low") ++ lit " |";
      [];
      lit "**Top Priority:** " ++ top_priority review;
      [];
      lit "---";
      [];
      lit "### " ++ [240; 376; 8212; 239; 184] ++ lit " Architecture";
      [];
      architecture_notes review;
      [];
      lit "### " ++ [240; 376; 8221; 8217] ++ lit " Security Posture";
      [];
      security_posture review;
      [];
      lit "---";
      [];
      lit "### " ++ [240; 376; 8220; 8249] ++ lit " Improvements";
      []]
     ++ section [240; 376; 8221; 180] (issue_entry str_title) str_title (lit "critical") items
     ++ section [240; 376; 376; 160] (issue_entry str_title) str_title (lit "high") items
     ++ section [240; 376; 376; 161] (issue_entry str_title) str_title (lit "medium") items
     ++ section [240; 376; 376; 162] (issue_entry str_title) str_title (lit "low") items
     ++ [lit "---";
         [];
         lit "*Automated review powered by LaoZhang API (" ++ MODEL
           ++ lit ") with structured output*"]).

(** The page of review_standalone.py: the sections, and no table. *)
Definition page_report (str_title : text -> text) (review : ReviewResult) : text :=
  let items := improvements review in
  let section := report_section (lit "### ") in
  join NL
    ([lit "# Code Review";
      [];
      lit "**Risk Score:** " ++ str_of_Z (risk_score review) ++ lit "/100";
      [];
      lit "## Summary";
      [];
      lit "**Top Priority:** " ++ top_priority review;
      [];
      lit "### Architecture";
      architecture_notes review;
      [];
      lit "### Security Posture";
      security_posture review;
      [];
      lit "## Improvements";
      []]
     ++ section [128308] page_entry str_title (lit "critical") items
     ++ section [128992] page_entry str_title (lit "high") items
     ++ section [128993] page_entry str_title (lit "medium") items
     ++ section [128994] page_entry str_title (lit "low") items).

(** The row of the table for given counts. *)
Definition table_row (critical high medium low : nat) : text :=
  lit "| " ++ str_of_nat critical ++ lit " | " ++ str_of_nat high ++ lit " | "
  ++ str_of_nat medium ++ lit " | " ++ str_of_nat low ++ lit " |".

(** A character [json.dumps] and [json.loads] carry through unchanged: a
    Unicode scalar value (no surrogate). *)
Definition scalar_char (c : char) : bool :=
  ((c <? 55296) || (57343 <? c)) && (c <? 1114112).

(** A value [json.loads] gives back from its [json.dumps]: strings of
    scalar values, integers [int] converts by default, no float, no object
    with a repeated key. *)
Fixpoint json_ok (v : json) : bool :=
  match v with
  | JNull | JBool _ => true
  | JInt z => (length (str_of_N (Z.abs_N z)) <=? INT_MAX_STR_DIGITS)%nat
  | JFloat _ => false
  | JStr s => forallb scalar_char s
  | JArr items => forallb json_ok items
  | JObj members =>
      forallb (fun kv => forallb scalar_char (fst kv) && json_ok (snd kv)) members
      && bool_decide (NoDup (map fst members))
  end.

(** A character that none of the stages before [json.loads] reacts to:
    no brace, no backtick, no opening angle bracket. *)
Definition plain_char (c : char) : bool :=
  negb ((c =? ch "{") || (c =? ch "}") || (c =? ch "`") || (c =? ch "<")).

Fixpoint json_plain (v : json) : bool :=
  match v with
  | JNull | JBool _ | JInt _ => true
  | JFloat lexeme => forallb plain_char lexeme
  | JStr s => forallb plain_char s
  | JArr items => forallb json_plain items
  | JObj members =>
      forallb (fun kv => forallb plain_char (fst kv) && json_plain (snd kv)) members
  end.

(** The strings of an improvement and of a review. *)
Definition improvement_texts (i : Improvement) : list text :=
  [imp_id i; imp_file i; default [] (imp_line_hint i); imp_severity i; imp_category i;
   imp_title i; imp_problem i; imp_solution i; imp_effort i].

Definition review_texts (r : ReviewResult) : list text :=
  flat_map improvement_texts (improvements r)
  ++ [architecture_notes r; security_posture r; top_priority r].

(** A well-formed review: the enumerations hold listed values, the
    identifiers are unique, the risk score lies in [0, 100], the strings are
    Unicode text. *)
Definition well_formed (r : ReviewResult) : bool :=
  forallb (fun i => set_mem (imp_severity i) SEVERITIES
                    && set_mem (imp_category i) CATEGORIES
                    && set_mem (imp_effort i) EFFORTS) (improvements r)
  && bool_decide (NoDup (map imp_id (improvements r)))
  && (0 <=? risk_score r)%Z && (risk_score r <=? 100)%Z
  && forallb (forallb scalar_char) (review_texts r).

(** Every string of the review is made of plain characters. *)
Definition plain_review (r : ReviewResult) : bool :=
  forallb (forallb plain_char) (review_texts r).

(** The reply the round trip is about: a think block, prose, and the JSON
    text in a fence tagged [json]. *)
Definition wrap_reply (think prose json_text : text) : text :=
  THINK_OPEN ++ think ++ THINK_CLOSE ++ prose
  ++ FENCE_JSON ++ NL ++ json_text ++ NL ++ FENCE.

(** What may follow a number without being read as part of it. *)
Definition ends_number (rest : text) : bool :=
  match rest with
  | [] => true
  | c :: _ => negb (is_digit c) && negb (c =? ch ".") && negb (c =? ch "e")
              && negb (c =? ch "E")
  end.

(** What [json.dumps] writes for the pairs of an object, cut after the
    opening quote of the first key. *)
Definition pair_body (k : text) (v : json) : text :=
  flat_map escape_char k ++ DQ ++ lit ": " ++ json_dumps v.

Fixpoint pairs_tail (members : list (text * json)) : text :=
  match members with
  | [] => []
  | (k, v) :: rest => lit ", " ++ DQ ++ pair_body k v ++ pairs_tail rest
  end.

(** How deep the objects and arrays of a value nest: [0] for a value that
    is neither, one more than its deepest item for an object or an array. *)
Fixpoint json_depth (v : json) : nat :=
  match v with
  | JArr items => S (foldr Nat.max 0%nat (map json_depth items))
  | JObj members => S (foldr Nat.max 0%nat (map (fun kv => json_depth (snd kv)) members))
  | _ => 0%nat
  end.

(** What reading back the text [json.dumps] wrote for [v] comes to, when
    [depth] levels of nesting are followed. *)
Definition read_back {A : Type} (fits : bool) (a : A) : result A :=
  if fits then Ok a else Raise RecursionError.

(** [v] is read back from what [json.dumps] writes for it when it nests no
    deeper than what is followed, and ends in [RecursionError] when it
    does; whatever follows that cannot be taken for more of a number, and
    with fuel to spare. *)
Definition round_trips (v : json) : Prop :=
  json_ok v = true ->
  forall (fuel depth : nat) (rest : text),
    (length (json_dumps v) < fuel)%nat -> ends_number rest = true ->
    scan_value fuel depth (json_dumps v ++ rest)
    = read_back (json_depth v <=? depth)%nat (v, rest).

(** No opening tag of [s] is followed by a closing tag: [s] holds no think
    block. *)
Fixpoint no_think_block (s : text) : bool :=
  match s with
  | [] => true
  | _ :: s' =>
      (if startswith THINK_OPEN s then negb (str_in THINK_CLOSE (drop 7 s)) else true)
      && no_think_block s'
  end.

(** The opening braces of a text minus its closing braces. *)
Fixpoint balance (s : text) : Z :=
  match s with
  | [] => 0
  | c :: s' =>
      ((if (c =? ch "{")%N then 1 else if (c =? ch "}")%N then -1 else 0)
       + balance s')%Z
  end.

(** The braces of [s] balance nowhere before its end: none of its proper
    prefixes (the empty one apart) holds as many closing braces as opening
    ones. *)
Definition closes_at_end (s : text) : bool :=
  forallb (fun n => negb (balance (take n s) =? 0)%Z) (seq 1 (length s - 1)).

(** No end of [p] is also a start of it, so that two occurrences of [p]
    never overlap. *)
Definition border_free (p : text) : bool :=
  forallb (fun k => negb (startswith (drop k p) p)) (seq 1 (length p - 1)).

(** A character the stages before the brace count do not react to: no
    backtick, no opening angle bracket. *)
Definition quiet_char (c : char) : bool :=
  negb ((c =? ch "`") || (c =? ch "<")).

(** A stretch of text the brace count crosses without ending and without a
    change of depth. *)
Definition neutral (s : text) : Prop :=
  forall (depth i : Z) (rest : text),
    (0 < depth)%Z ->
    depth_scan depth i (s ++ rest) = depth_scan depth (i + Z.of_nat (length s)) rest.


(** The blocks of the rendering of laozhang_codebase_review.py, file by
    file. *)
Definition codebase_blocks (files : list source_file) : list text :=
  map (fun f => CodebaseReview.file_block (fst f) (snd f)) files.

(** The text [get_pr_diff] appends to a diff it cut. *)
Definition DIFF_TRUNCATED : text := NL ++ NL ++ lit "... (diff truncated due to size)".

(** The files of a pull request before [get_pr_diff] cuts them: the parts
    joined by a blank line. *)
Definition full_diff (files : list pr_file) : text :=
  join (NL ++ NL) (map DiffReview.diff_part files).

(** What a run asked of the model, the comments it posted and the issues
    it opened, in order. *)
Fixpoint asked (steps : list step) : list event :=
  match steps with
  | [] => []
  | Asks e :: steps' => e :: asked steps'
  | _ :: steps' => asked steps'
  end.

Fixpoint comments (steps : list step) : list (text * Z * text) :=
  match steps with
  | [] => []
  | PostsComment repo_name pr_number comment :: steps' =>
      (repo_name, pr_number, comment) :: comments steps'
  | _ :: steps' => comments steps'
  end.

Fixpoint issues (steps : list step) : list (text * issue_request) :=
  match steps with
  | [] => []
  | OpensIssue repo_name request :: steps' => (repo_name, request) :: issues steps'
  | _ :: steps' => issues steps'
  end.

(** The comment [post_review_comment] makes of a review. *)
Definition review_comment (review_text : text) : text :=
  lit "## AI Code Review" ++ NL ++ NL ++ review_text ++ NL ++ NL
  ++ lit "---" ++ NL ++ lit "*Powered by LaoZhang API*".
(** ** Example data for the statements that need an instance *)

(** Example data: a tree with a file [src/main.ts], yielded by two patterns,
    and a file named [build]. *)
Definition demo_root : Path := {| parts := [] |}.
Definition demo_main : Path := {| parts := [lit "src"; lit "main.ts"] |}.
Definition demo_build : Path := {| parts := [lit "src"; lit "build"] |}.
Definition demo_fs : filesystem :=
  {| fs_glob := fun _ pattern =>
       if text_eqb pattern (lit "src/*.ts") then [demo_main; demo_build]
       else if text_eqb pattern (lit "src/utils/**/*.ts") then [demo_main]
       else [];
     fs_is_file := fun _ => true;
     fs_read_text := fun p => if text_eqb (name p) (lit "main.ts") then Some (lit "X") else None |}.

(** Transports for the retry loop: one that fails twice and then answers,
    one that always fails, one whose first answer is no JSON. *)
Definition demo_template : text * text := (lit "Review: ", lit " Thanks.").

Definition flaky_client : transport :=
  fun calls _ =>
    match calls with
    | 0%nat => Fails (TransportError (lit "APITimeoutError"))
    | 1%nat => Fails (TransportError (lit "RateLimitError"))
    | _ => Reply (lit "fine")
    end.

Definition dead_client : transport :=
  fun _ _ => Fails (TransportError (lit "APIConnectionError")).

Definition chatty_client : transport :=
  fun calls _ =>
    match calls with
    | 0%nat => Reply (lit "I cannot review this.")
    | _ => Reply (lit "{}")
    end.

(** Two small files for the budgeter. *)
Definition two_files : list source_file :=
  [(lit "a.ts", lit "X"); (lit "b.ts", lit "Y")].

(** Improvements for the renderer, and Python's [str.title] on the ASCII
    words the examples use. *)
Definition demo_item (id_ severity_ category_ effort_ : text) : Improvement :=
  {| imp_id := id_; imp_file := lit "src/main.ts"; imp_line_hint := None;
     imp_severity := severity_; imp_category := category_;
     imp_title := lit "Title"; imp_problem := lit "Problem";
     imp_solution := lit "Solution"; imp_effort := effort_ |}.

Definition demo_review (items : list Improvement) : ReviewResult :=
  {| improvements := items; architecture_notes := lit "Layered.";
     security_posture := lit "Fair."; top_priority := lit "Fix SEC-001.";
     risk_score := 65 |}.

Definition four_items : list Improvement :=
  [demo_item (lit "Q-1") (lit "low") (lit "quality") (lit "small");
   demo_item (lit "S-1") (lit "critical") (lit "security") (lit "large");
   demo_item (lit "P-1") (lit "high") (lit "performance") (lit "medium");
   demo_item (lit "S-2") (lit "critical") (lit "security") (lit "trivial")].

Definition ascii_title (s : text) : text :=
  match s with
  | [] => []
  | c :: s' => (if (97 <=? c) && (c <=? 122) then c - 32 else c) :: s'
  end.

(** Reviews for the extractor: a well-formed one, one whose notes hold a
    closing brace, one with a severity outside the enumeration and a risk
    score out of range. *)
Definition good_review : ReviewResult := demo_review four_items.

Definition brace_review : ReviewResult :=
  {| improvements := []; architecture_notes := lit "Ends with }";
     security_posture := lit "Fair."; top_priority := lit "None.";
     risk_score := 10 |}.

(** A well-formed review whose strings hold backticks, braces (a balanced
    pair and one left open) and angle brackets. *)
Definition tricky_item : Improvement :=
  {| imp_id := lit "Q-7"; imp_file := lit "src/<app>/main.ts";
     imp_line_hint := Some (lit "see `render()`");
     imp_severity := lit "high"; imp_category := lit "quality";
     imp_title := lit "Template {name} is not escaped";
     imp_problem := lit "if (a < b) { return `x`; }";
     imp_solution := lit "Escape < and `` before use"; imp_effort := lit "small" |}.

Definition tricky_review : ReviewResult :=
  {| improvements := [tricky_item];
     architecture_notes := lit "Router maps {id} to <Page>.";
     security_posture := lit "Open { left in a template.";
     top_priority := lit "Fix Q-7 first."; risk_score := 40 |}.

Definition urgent_review : ReviewResult :=
  {| improvements := [demo_item (lit "S-1") (lit "urgent") (lit "security") (lit "small")];
     architecture_notes := lit "Layered."; security_posture := lit "Fair.";
     top_priority := lit "Fix S-1."; risk_score := 101 |}.


(** A pull request with a text file and a binary one, a GitHub that
    answers every call, and an environment with the variables the scripts
    require. *)
Definition demo_pr_files : list pr_file :=
  [{| filename := lit "src/main.ts"; patch := Some (lit "@@ -1 +1 @@") |};
   {| filename := lit "logo.png"; patch := None |}].

Definition demo_hub : hub :=
  {| hub_repo := fun _ _ => None;
     hub_pull := fun _ _ _ => None;
     hub_files := fun _ _ _ => inr demo_pr_files;
     hub_comment := fun _ _ _ _ => None;
     hub_issue := fun _ _ _ => inr (lit "https://github.com/o/r/issues/1") |}.

Definition demo_env : environ :=
  fun v =>
    if text_eqb v (lit "GITHUB_TOKEN") then Some (lit "t")
    else if text_eqb v (lit "OPENAI_API_KEY") then Some (lit "k")
    else if text_eqb v (lit "GITHUB_REPOSITORY") then Some (lit "o/r")
    else if text_eqb v (lit "PR_NUMBER") then Some (lit "7")
    else None.

(** [int] on the one text the example needs. *)
Definition demo_int (s : text) : option Z :=
  if text_eqb s (lit "7") then Some 7%Z else None.

Definition steady_client : transport := fun _ _ => Reply (lit "LGTM").

(** A tree where the pattern [**/*.ts] yields [src/main.ts]. *)
Definition demo_code_fs : filesystem :=
  {| fs_glob := fun _ pattern =>
       if text_eqb pattern (lit "**/*.ts") then [demo_main] else [];
     fs_is_file := fun _ => true;
     fs_read_text := fun _ => Some (lit "X") |}.
(** * Properties *)

(** ** Text *)

Lemma text_eqb_eq (a b : text) : text_eqb a b = true <-> a = b.
Proof. unfold text_eqb. apply bool_decide_eq_true. Qed.

Lemma text_eqb_refl (a : text) : text_eqb a a = true.
Proof. by apply text_eqb_eq. Qed.

Lemma text_eqb_neq (a b : text) : text_eqb a b = false <-> a <> b.
Proof. unfold text_eqb. apply bool_decide_eq_false. Qed.

Lemma set_mem_In (k : text) (s : list text) : set_mem k s = true <-> In k s.
Proof.
  unfold set_mem. rewrite existsb_exists. split.
  - intros (x & Hx & He). apply text_eqb_eq in He. by subst.
  - intros H. exists k. split; [done | apply text_eqb_refl].
Qed.


(** ** The order on paths and the sort *)

Lemma text_ltb_irrefl (a : text) : text_ltb a a = false.
Proof.
  induction a as [|x a IH]; simpl; [done|].
  rewrite N.ltb_irrefl, N.eqb_refl. done.
Qed.

Lemma text_ltb_trans (a b c : text) :
  text_ltb a b = true -> text_ltb b c = true -> text_ltb a c = true.
Proof.
  revert b c. induction a as [|x a IH]; intros [|y b] [|z c]; simpl; try done.
  rewrite !orb_true_iff, !andb_true_iff, !N.ltb_lt, !N.eqb_eq.
  intros [H1|[H1 H1b]] [H2|[H2 H2b]]; subst; try (left; lia).
  right. split; [done|]. eauto.
Qed.

Lemma text_ltb_total (a b : text) :
  text_ltb b a = false -> text_ltb a b = true \/ a = b.
Proof.
  revert b. induction a as [|x a IH]; intros [|y b]; simpl; try done; auto.
  rewrite orb_false_iff, orb_true_iff, andb_false_iff, andb_true_iff.
  rewrite N.ltb_ge, N.ltb_lt, N.eqb_neq, N.eqb_eq.
  intros [H1 [H2|H2]].
  - left. left. lia.
  - destruct (N.eq_dec x y) as [->|Hne]; [|left; left; lia].
    destruct (IH _ H2) as [H | ->]; [left; right | right]; done.
Qed.

Lemma text_ltb_asym (a b : text) : text_ltb a b = true -> text_ltb b a = false.
Proof.
  intros H. destruct (text_ltb b a) eqn:E; [|done].
  pose proof (text_ltb_trans _ _ _ H E) as Hc. by rewrite text_ltb_irrefl in Hc.
Qed.

Lemma path_le_trans (a b c : source_file) : path_le a b -> path_le b c -> path_le a c.
Proof.
  unfold path_le. intros H1 H2.
  destruct (text_ltb c.1 a.1) eqn:E; [|done].
  destruct (text_ltb_total _ _ H1) as [H|H].
  - pose proof (text_ltb_trans _ _ _ E H) as Hc. congruence.
  - rewrite H in E. congruence.
Qed.

Lemma insert_by_path_perm x l : insert_by_path x l ≡ₚ x :: l.
Proof.
  induction l as [|y l IH]; simpl; [done|].
  destruct (text_ltb y.1 x.1); [|done].
  rewrite IH. apply Permutation_swap.
Qed.

Lemma sort_by_path_perm l : sort_by_path l ≡ₚ l.
Proof.
  induction l as [|x l IH]; simpl; [done|].
  by rewrite insert_by_path_perm, IH.
Qed.

Lemma sort_by_path_length l : length (sort_by_path l) = length l.
Proof. apply Permutation_length, sort_by_path_perm. Qed.

Lemma insert_by_path_sorted x l :
  StronglySorted path_le l -> StronglySorted path_le (insert_by_path x l).
Proof.
  induction 1 as [|y l Hs IH Hall]; simpl; [repeat constructor|].
  destruct (text_ltb y.1 x.1) eqn:E.
  - constructor; [done|].
    rewrite insert_by_path_perm. constructor; [|done].
    by apply text_ltb_asym.
  - constructor; [by constructor|].
    constructor; [done|].
    eapply Forall_impl; [exact Hall|]. intros z Hz.
    eapply path_le_trans; [|exact Hz]. done.
Qed.

Lemma sort_by_path_sorted l : StronglySorted path_le (sort_by_path l).
Proof.
  induction l as [|x l IH]; simpl; [constructor|]. by apply insert_by_path_sorted.
Qed.

(** The sort is stable: files with one path keep their order. *)
Lemma insert_by_path_entries r x l :
  entries_of r (insert_by_path x l) = entries_of r (x :: l).
Proof.
  induction l as [|y l IH]; simpl; [done|].
  destruct (text_ltb y.1 x.1) eqn:E; [|done].
  unfold entries_of in *. rewrite !filter_cons in *. rewrite IH.
  destruct (decide (y.1 = r)) as [Hy|], (decide (x.1 = r)) as [Hx|]; try done.
  rewrite Hx, Hy, text_ltb_irrefl in E. done.
Qed.

Lemma sort_by_path_entries r l : entries_of r (sort_by_path l) = entries_of r l.
Proof.
  induction l as [|x l IH]; simpl; [done|].
  rewrite insert_by_path_entries. unfold entries_of in *.
  by rewrite !filter_cons, IH.
Qed.

Lemma forallb_Forall {A : Type} (f : A -> bool) (l : list A) :
  forallb f l = true <-> Forall (fun x => f x = true) l.
Proof.
  induction l as [|x l IH]; cbn [forallb].
  - split; [constructor | done].
  - rewrite andb_true_iff, IH. split.
    + intros [? ?]. by constructor.
    + intros H. by apply Forall_cons in H.
Qed.

(** ** The path filter *)

Lemma parts_meet_true (p : Path) (excluded : list text) :
  parts_meet p excluded = true <-> exists c, In c (parts p) /\ In c excluded.
Proof.
  unfold parts_meet. rewrite existsb_exists.
  split; intros (c & H1 & H2); exists c; split; try done; by apply set_mem_In.
Qed.

Lemma parts_meet_false (p : Path) (excluded : list text) :
  parts_meet p excluded = false <-> forall c, In c (parts p) -> ~ In c excluded.
Proof.
  split.
  - intros H c H1 H2.
    assert (parts_meet p excluded = true) by (apply parts_meet_true; eauto).
    congruence.
  - intros H. destruct (parts_meet p excluded) eqn:E; [|done].
    apply parts_meet_true in E as (c & H1 & H2). by destruct (H c H1).
Qed.

(** The name of a path is one of its components, unless it is empty. *)
Lemma name_in_parts (p : Path) : name p <> [] -> In (name p) (parts p).
Proof.
  unfold name. destruct (text_eqb _ _) eqn:E; [done|].
  intros Hne. destruct (parts p) as [|c l] eqn:Hp; [done|].
  rewrite <- Hp at 1. rewrite Hp.
  assert (c :: l <> []) as Hnil by done.
  destruct (exists_last Hnil) as (l' & a & Hl). rewrite Hl.
  rewrite List.last_last. apply in_or_app. right. by left.
Qed.

Lemma name_excluded_meets (p : Path) (excluded : list text) :
  ~ In [] excluded -> In (name p) excluded -> parts_meet p excluded = true.
Proof.
  intros Hnil Hin. apply parts_meet_true. exists (name p). split; [|done].
  apply name_in_parts. intros E. rewrite E in Hin. done.
Qed.

(** ** The collector *)

Lemma fold_left_flat_map {A B S : Type} (f : S -> B -> S) (g : A -> list B)
    (l : list A) (s : S) :
  fold_left (fun st a => fold_left f (g a) st) l s = fold_left f (flat_map g l) s.
Proof.
  revert s. induction l as [|a l IH]; intros s; simpl; [done|].
  rewrite fold_left_app. apply IH.
Qed.

Lemma entries_of_cons r (e : source_file) (l : list source_file) :
  entries_of r (e :: l) = if decide (e.1 = r) then e :: entries_of r l else entries_of r l.
Proof. unfold entries_of. by rewrite filter_cons. Qed.

Lemma entries_of_nil r : entries_of r [] = [].
Proof. done. Qed.

Section Collector.
Variables (excluded skip : list text) (fs : filesystem) (root : Path).

Lemma entries_of_app r (l1 l2 : list source_file) :
  entries_of r (l1 ++ l2) = entries_of r l1 ++ entries_of r l2.
Proof. unfold entries_of. apply filter_app. Qed.

(** What a run of the loop adds under a relative path [r]: nothing when
    [r] was seen before, else the text of the first eligible path. *)
Lemma fold_visit_entries (cands : list Path) (st : list source_file * gset (list N))
    (r : text) :
  entries_of r (fold_left (visit_spec excluded skip fs root) cands st).1 =
  entries_of r st.1
  ++ (if bool_decide (r ∈ st.2) then []
      else match List.find (fun fp => eligible excluded skip fs fp
                                      && text_eqb (relative_to fp root) r) cands with
           | Some fp => match fs_read_text fs fp with
                        | Some c => [(r, c)]
                        | None => []
                        end
           | None => []
           end).
Proof.
  revert st. induction cands as [|fp cands IH]; intros [files seen]; simpl.
  { case_bool_decide; by rewrite app_nil_r. }
  rewrite IH. unfold visit_spec.
  destruct (eligible excluded skip fs fp) eqn:He; simpl; [|done].
  destruct (bool_decide (relative_to fp root ∈ seen)) eqn:Hs; simpl.
  - apply bool_decide_eq_true in Hs.
    destruct (text_eqb (relative_to fp root) r) eqn:Hr; [|done].
    apply text_eqb_eq in Hr. subst r. by rewrite !bool_decide_eq_true_2.
  - apply bool_decide_eq_false in Hs.
    rewrite entries_of_app, <- app_assoc. f_equal.
    destruct (text_eqb (relative_to fp root) r) eqn:Hr.
    + apply text_eqb_eq in Hr. subst r.
      rewrite bool_decide_eq_true_2
        by (apply elem_of_union_r, elem_of_singleton; done).
      rewrite bool_decide_eq_false_2 by done. rewrite app_nil_r.
      destruct (fs_read_text fs fp); [|done].
      rewrite entries_of_cons, entries_of_nil. simpl. by rewrite decide_True.
    + apply text_eqb_neq in Hr.
      assert (entries_of r
                match fs_read_text fs fp with
                | Some content => [(relative_to fp root, content)]
                | None => []
                end = []) as ->.
      { destruct (fs_read_text fs fp); [|done].
        rewrite entries_of_cons, entries_of_nil. simpl. by rewrite decide_False. }
      simpl.
      rewrite (bool_decide_ext (r ∈ seen ∪ {[relative_to fp root]}) (r ∈ seen)); [done|].
      rewrite elem_of_union, elem_of_singleton. split; [|by left].
      intros [Hin | ->]; [exact Hin | by destruct Hr].
Qed.

Lemma fold_visit_source (cands : list Path) (st : list source_file * gset (list N))
    (e : source_file) :
  In e (fold_left (visit_spec excluded skip fs root) cands st).1 ->
  In e st.1 \/
  exists fp, In fp cands /\ eligible excluded skip fs fp = true
             /\ relative_to fp root = e.1 /\ fs_read_text fs fp = Some e.2.
Proof.
  revert st. induction cands as [|fp cands IH]; intros st; simpl; [by left|].
  intros H. apply IH in H as [H | (fp' & H1 & H2)]; [|right; eauto].
  unfold visit_spec in H.
  destruct (eligible excluded skip fs fp) eqn:He; [|by left].
  case_bool_decide; [by left|]. simpl in H.
  apply in_app_or in H as [H|H]; [by left|].
  destruct (fs_read_text fs fp) eqn:Hr; [|done].
  destruct H as [<-|[]]. right. exists fp. simpl. eauto.
Qed.
End Collector.

Lemma entries_small_NoDup (l : list source_file) :
  (forall r, (length (entries_of r l) <= 1)%nat) -> NoDup (map fst l).
Proof.
  induction l as [|[p c] l IH]; intros H; simpl; [constructor|].
  constructor.
  - intros Hin. apply list_elem_of_In, in_map_iff in Hin as ([p' c'] & Hp & Hin).
    simpl in Hp. subst p'.
    specialize (H p). rewrite entries_of_cons in H. simpl in H.
    rewrite decide_True in H by done. simpl in H. unfold entries_of in H.
    assert ((p, c') ∈ filter (fun e : list N * list N => e.1 = p) l) as Hf.
    { apply list_elem_of_filter. split; [done | by apply list_elem_of_In]. }
    destruct (filter _ l); [by apply not_elem_of_nil in Hf | simpl in H; lia].
  - apply IH. intros r. specialize (H r). rewrite entries_of_cons in H. simpl in H.
    destruct (decide (p = r)); simpl in H; lia.
Qed.

(** The three collectors that keep a [seen] set run the shared loop body. *)
Lemma visit_spec_unfold excluded skip fs root files seen fp :
  visit_spec excluded skip fs root (files, seen) fp
  = if negb (fs_is_file fs fp) then (files, seen)
    else if parts_meet fp excluded then (files, seen)
    else if set_mem (name fp) skip then (files, seen)
    else if bool_decide (relative_to fp root ∈ seen) then (files, seen)
    else match fs_read_text fs fp with
         | Some content =>
             (files ++ [(relative_to fp root, content)], seen ∪ {[relative_to fp root]})
         | None => (files, seen ∪ {[relative_to fp root]})
         end.
Proof.
  unfold visit_spec, eligible. cbn [fst snd].
  destruct (fs_is_file fs fp), (parts_meet fp excluded), (set_mem (name fp) skip);
    cbn [negb andb]; try done.
  case_bool_decide; [done|]. destruct (fs_read_text fs fp); [done|].
  by rewrite app_nil_r.
Qed.

Lemma core_visit_spec fs root st fp :
  CoreReview.visit fs root st fp
  = visit_spec CoreReview.EXCLUDE_PATTERNS CoreReview.SKIP_FILES fs root st fp.
Proof.
  destruct st as [files seen]. rewrite visit_spec_unfold.
  unfold CoreReview.visit, CoreReview.should_include_path.
  destruct (fs_is_file fs fp), (parts_meet fp CoreReview.EXCLUDE_PATTERNS); done.
Qed.

Lemma v3_visit_spec fs root st fp :
  CoreReviewV3.visit fs root st fp
  = visit_spec CoreReviewV3.EXCLUDE_DIRS CoreReviewV3.SKIP_FILES fs root st fp.
Proof. destruct st as [files seen]. by rewrite visit_spec_unfold. Qed.

Lemma standalone_visit_spec fs root st fp :
  Standalone.visit fs root st fp
  = visit_spec Standalone.EXCLUDE_DIRS Standalone.SKIP_FILES fs root st fp.
Proof. destruct st as [files seen]. by rewrite visit_spec_unfold. Qed.

Lemma fold_left_ext_fun {A B : Type} (f g : A -> B -> A) (l : list B) (a : A) :
  (forall x y, f x y = g x y) -> fold_left f l a = fold_left g l a.
Proof.
  intros H. revert a. induction l as [|b l IH]; intros a; simpl; [done|].
  by rewrite H, IH.
Qed.

Lemma gather_core_files_fold fs root :
  CoreReview.gather_core_files fs root
  = (fold_left (visit_spec CoreReview.EXCLUDE_PATTERNS CoreReview.SKIP_FILES fs root)
               (candidates fs root CoreReview.CORE_PATTERNS) ([], ∅)).1.
Proof.
  unfold CoreReview.gather_core_files, candidates.
  rewrite (fold_left_flat_map (CoreReview.visit fs root)).
  f_equal. apply fold_left_ext_fun. intros. apply core_visit_spec.
Qed.

(** Under every relative path the collection holds what the first eligible
    path gave, and nothing else. *)
Lemma gather_spec_entries excluded skip fs root patterns r :
  entries_of r (fold_left (visit_spec excluded skip fs root)
                          (candidates fs root patterns) ([], ∅)).1
  = match first_match excluded skip fs root patterns r with
    | Some fp => match fs_read_text fs fp with
                 | Some c => [(r, c)]
                 | None => []
                 end
    | None => []
    end.
Proof.
  rewrite fold_visit_entries. simpl.
  rewrite bool_decide_eq_false_2 by apply not_elem_of_empty. done.
Qed.

Lemma gather_spec_NoDup excluded skip fs root patterns :
  NoDup (map fst (fold_left (visit_spec excluded skip fs root)
                            (candidates fs root patterns) ([], ∅)).1).
Proof.
  apply entries_small_NoDup. intros r. rewrite gather_spec_entries.
  destruct (first_match _ _ _ _ _ _); [|simpl; lia].
  destruct (fs_read_text _ _); simpl; lia.
Qed.

(** A collected entry stems from a visited, eligible path. *)
Lemma gather_core_files_source fs root e :
  In e (CoreReview.gather_core_files fs root) ->
  exists fp, In fp (candidates fs root CoreReview.CORE_PATTERNS)
             /\ eligible CoreReview.EXCLUDE_PATTERNS CoreReview.SKIP_FILES fs fp = true
             /\ relative_to fp root = e.1 /\ fs_read_text fs fp = Some e.2.
Proof.
  rewrite gather_core_files_fold. intros H.
  apply fold_visit_source in H as [[]|H]; done.
Qed.

(** A path the filter rejects or the skip list names leaves the state of
    the loop as it was. *)
Lemma visit_spec_skips excluded skip fs root st fp :
  eligible excluded skip fs fp = false -> visit_spec excluded skip fs root st fp = st.
Proof. unfold visit_spec. by intros ->. Qed.

Lemma excluded_meets fp excluded c :
  ~ In [] excluded -> In c (parts fp) \/ c = name fp -> In c excluded ->
  parts_meet fp excluded = true.
Proof.
  intros Hnil Hc Hin.
  destruct Hc as [Hc | ->]; [apply parts_meet_true; eauto|].
  by apply name_excluded_meets.
Qed.

Lemma eligible_excluded excluded skip fs fp c :
  ~ In [] excluded -> In c (parts fp) \/ c = name fp -> In c excluded ->
  eligible excluded skip fs fp = false.
Proof.
  intros Hnil Hc Hin. unfold eligible.
  rewrite (excluded_meets fp excluded c) by done.
  by rewrite andb_false_r.
Qed.




(** The collector of review_standalone.py takes its patterns as an
    argument and sorts what it found: the same holds for every pattern list. *)
Lemma standalone_gather_files_first_match_wins
    (fs : filesystem) (root : Path) (patterns : list text) (r : text) (fp : Path)
    (c : text) :
  first_match Standalone.EXCLUDE_DIRS Standalone.SKIP_FILES fs root patterns r = Some fp ->
  fs_read_text fs fp = Some c ->
  entries_of r (Standalone.gather_files fs root patterns) = [(r, c)].
Proof.
  intros Hfirst Hread. unfold Standalone.gather_files.
  rewrite (fold_left_flat_map (Standalone.visit fs root)).
  rewrite (fold_left_ext_fun _ (visit_spec Standalone.EXCLUDE_DIRS Standalone.SKIP_FILES fs root))
    by (intros; apply standalone_visit_spec).
  pose proof (gather_spec_entries Standalone.EXCLUDE_DIRS Standalone.SKIP_FILES
                fs root patterns r) as H.
  rewrite Hfirst, Hread in H. unfold candidates in H.
  by rewrite sort_by_path_entries.
Qed.

Lemma no_empty_name_core : ~ In [] CoreReview.EXCLUDE_PATTERNS.
Proof. intros H. simpl in H. repeat destruct H as [H|H]; done. Qed.

Lemma no_empty_name_v3 : ~ In [] CoreReviewV3.EXCLUDE_DIRS.
Proof. intros H. simpl in H. repeat destruct H as [H|H]; done. Qed.

Lemma no_empty_name_standalone : ~ In [] Standalone.EXCLUDE_DIRS.
Proof. intros H. simpl in H. repeat destruct H as [H|H]; done. Qed.

(** C10: a path one of whose components, its own base name included, is in
    the excluded set is rejected by [should_include_path]; the loop of each
    collector passes over it and leaves the collection as it was, so that a
    file named like an excluded directory is not collected, wherever it
    lies. *)
Theorem excluded_component_never_collected
    (fs : filesystem) (root fp : Path) (c : text) :
  In c (parts fp) \/ c = name fp ->
  (In c CoreReview.EXCLUDE_PATTERNS ->
     CoreReview.should_include_path fp = false
     /\ forall st, CoreReview.visit fs root st fp = st)
  /\ (In c CoreReviewV3.EXCLUDE_DIRS -> forall st, CoreReviewV3.visit fs root st fp = st)
  /\ (In c Standalone.EXCLUDE_DIRS -> forall st, Standalone.visit fs root st fp = st).
Proof.
  intros Hc. repeat split.
  - unfold CoreReview.should_include_path.
    by rewrite (excluded_meets fp _ c no_empty_name_core Hc).
  - intros st. rewrite core_visit_spec. apply visit_spec_skips.
    by eapply eligible_excluded; [apply no_empty_name_core | |].
  - intros H st. rewrite v3_visit_spec. apply visit_spec_skips.
    by eapply eligible_excluded; [apply no_empty_name_v3 | |].
  - intros H st. rewrite standalone_visit_spec. apply visit_spec_skips.
    by eapply eligible_excluded; [apply no_empty_name_standalone | |].
Qed.

Lemma excluded_component_never_collected_witness :
  CoreReview.should_include_path demo_build = false
  /\ forall st, CoreReview.visit demo_fs demo_root st demo_build = st.
Proof.
  apply (excluded_component_never_collected demo_fs demo_root demo_build (lit "build")).
  - right. reflexivity.
  - simpl. tauto.
Defined.
(** ** The model caller *)

(** The loop of core_review.py, attempt by attempt. *)
Lemma core_review_code_unfold tmpl client content :
  let prompt := format_prompt tmpl content in
  CoreReview.review_code tmpl client content =
  match client 0%nat prompt with
  | Reply raw => (Returns raw, [Create prompt])
  | Fails _ =>
      match client 1%nat prompt with
      | Reply raw => (Returns raw, [Create prompt; Sleep 2; Create prompt])
      | Fails _ =>
          match client 2%nat prompt with
          | Reply raw =>
              (Returns raw,
               [Create prompt; Sleep 2; Create prompt; Sleep 4; Create prompt])
          | Fails e =>
              (Raises e,
               [Create prompt; Sleep 2; Create prompt; Sleep 4; Create prompt])
          end
      end
  end.
Proof.
  intros prompt. unfold CoreReview.review_code. fold prompt.
  change (range1 CoreReview.MAX_RETRIES) with [1%Z; 2%Z; 3%Z].
  cbn [CoreReview.review_loop].
  destruct (client 0%nat prompt); [done|].
  destruct (client 1%nat prompt); [done|].
  destruct (client 2%nat prompt); done.
Qed.

(** The caller of laozhang_review.py has no loop: one call, whose exception
    leaves the function. *)
Lemma review_diff_single_attempt tmpl client diff e :
  client 0%nat (format_prompt tmpl diff) = Fails e ->
  DiffReview.review_diff tmpl client diff = (Raises e, [Create (format_prompt tmpl diff)]).
Proof. unfold DiffReview.review_diff. by intros ->. Qed.

(** C4, as stated, fails for [review_diff] of laozhang_review.py, one of
    the two callers it is about: with a transport that fails twice and then
    answers, [review_diff] makes its one call, does not sleep and raises
    the exception of that call; so it is not true of every transport that
    a failed first call is followed by a sleep and a second call, nor that
    two failures and a success give the success. *)
Lemma review_diff_does_not_retry :
  DiffReview.review_diff demo_template flaky_client (lit "code")
  = (Raises (TransportError (lit "APITimeoutError")),
     [Create (format_prompt demo_template (lit "code"))])
  /\ ~ (forall tmpl client diff e,
          client 0%nat (format_prompt tmpl diff) = Fails e ->
          exists evs,
            (DiffReview.review_diff tmpl client diff).2
            = Create (format_prompt tmpl diff) :: Sleep (backoff 1)
              :: Create (format_prompt tmpl diff) :: evs)
  /\ ~ (forall tmpl client diff e1 e2 raw,
          client 0%nat (format_prompt tmpl diff) = Fails e1 ->
          client 1%nat (format_prompt tmpl diff) = Fails e2 ->
          client 2%nat (format_prompt tmpl diff) = Reply raw ->
          (DiffReview.review_diff tmpl client diff).1 = Returns raw).
Proof.
  split; [done|]. split.
  - intros H.
    destruct (H demo_template flaky_client (lit "code") _ eq_refl) as (evs & Hevs).
    discriminate Hevs.
  - intros H.
    specialize (H demo_template flaky_client (lit "code") _ _ _ eq_refl eq_refl eq_refl).
    discriminate H.
Qed.

(** C4, amended: the retry policy is the one of [review_code] of
    core_review.py, which treats every exception of the transport alike:
    after a failed attempt that is not the last it sleeps [2 ** attempt]
    seconds (2, then 4) and calls again; the exception of the third attempt
    is raised.  No run makes more than [MAX_RETRIES] calls.  A transport
    that fails twice and then answers gives its answer after exactly two
    sleeps; one that always fails makes the caller raise after exactly
    [MAX_RETRIES] calls.  [review_diff] of laozhang_review.py does not
    retry: it makes one call and never sleeps, returns the reply of that
    call and lets its exception through. *)
Theorem review_code_retry_policy (tmpl : text * text) (client : transport) (content : text) :
  let prompt := format_prompt tmpl content in
  let run := CoreReview.review_code tmpl client content in
  let once := DiffReview.review_diff tmpl client content in
  (forall e, client 0%nat prompt = Fails e ->
     exists evs, run.2 = Create prompt :: Sleep (backoff 1) :: Create prompt :: evs)
  /\ (forall e1 e2, client 0%nat prompt = Fails e1 -> client 1%nat prompt = Fails e2 ->
        exists evs, run.2 = Create prompt :: Sleep (backoff 1) :: Create prompt
                            :: Sleep (backoff 2) :: Create prompt :: evs)
  /\ (Z.of_nat (creates run.2) <= CoreReview.MAX_RETRIES)%Z
  /\ (forall e1 e2 raw,
        client 0%nat prompt = Fails e1 -> client 1%nat prompt = Fails e2 ->
        client 2%nat prompt = Reply raw ->
        run.1 = Returns raw /\ sleeps run.2 = [2%Z; 4%Z] /\ creates run.2 = 3%nat)
  /\ (forall e1 e2 e3,
        client 0%nat prompt = Fails e1 -> client 1%nat prompt = Fails e2 ->
        client 2%nat prompt = Fails e3 ->
        run.1 = Raises e3 /\ sleeps run.2 = [2%Z; 4%Z]
        /\ Z.of_nat (creates run.2) = CoreReview.MAX_RETRIES)
  /\ once.2 = [Create prompt]
  /\ (forall e, client 0%nat prompt = Fails e -> once.1 = Raises e)
  /\ (forall raw, client 0%nat prompt = Reply raw -> once.1 = Returns raw).
Proof.
  intros prompt run once. subst run once. unfold DiffReview.review_diff.
  rewrite core_review_code_unfold. fold prompt.
  repeat split.
  - intros e ->. destruct (client 1%nat prompt); [by eexists|].
    destruct (client 2%nat prompt); by eexists.
  - intros e1 e2 -> ->. destruct (client 2%nat prompt); by eexists.
  - destruct (client 0%nat prompt); [done|].
    destruct (client 1%nat prompt); [done|].
    destruct (client 2%nat prompt); done.
  - by rewrite H, H0, H1.
  - by rewrite H, H0, H1.
  - by rewrite H, H0, H1.
  - by rewrite H, H0, H1.
  - by rewrite H, H0, H1.
  - by rewrite H, H0, H1.
  - by destruct (client 0%nat prompt).
  - by intros e ->.
  - by intros raw ->.
Qed.

Lemma review_code_retry_policy_witness :
  ((CoreReview.review_code demo_template flaky_client (lit "code")).1 = Returns (lit "fine")
   /\ sleeps (CoreReview.review_code demo_template flaky_client (lit "code")).2 = [2%Z; 4%Z]
   /\ creates (CoreReview.review_code demo_template flaky_client (lit "code")).2 = 3%nat)
  /\ (DiffReview.review_diff demo_template flaky_client (lit "code")).1
     = Raises (TransportError (lit "APITimeoutError")).
Proof.
  pose proof (review_code_retry_policy demo_template flaky_client (lit "code")) as H.
  cbv zeta in H. destruct H as (_ & _ & _ & H & _ & _ & Hd & _).
  split.
  - exact (H (TransportError (lit "APITimeoutError")) (TransportError (lit "RateLimitError"))
             (lit "fine") eq_refl eq_refl eq_refl).
  - exact (Hd (TransportError (lit "APITimeoutError")) eq_refl).
Defined.

(** ** Extraction inside the retry loop *)

Lemma depth_scan_pos depth i s : (0 <= i)%Z -> (0 <= depth_scan depth i s)%Z.
Proof.
  revert depth i. induction s as [|c s IH]; intros depth i Hi; cbn [depth_scan]; [done|].
  destruct (c =? ch "{"); [apply IH; lia|].
  destruct (c =? ch "}"); [|apply IH; lia].
  destruct (depth - 1 =? 0)%Z; [lia | apply IH; lia].
Qed.

Lemma depth_scan_gt depth i s :
  (0 <= i)%Z -> depth_scan depth i s <> 0%Z -> (i < depth_scan depth i s)%Z.
Proof.
  revert depth i. induction s as [|c s IH]; intros depth i Hi; cbn [depth_scan]; [done|].
  destruct (c =? ch "{"); [intros H; apply IH in H; lia|].
  destruct (c =? ch "}"); [|intros H; apply IH in H; lia].
  destruct (depth - 1 =? 0)%Z; [lia | intros H; apply IH in H; lia].
Qed.

(** The cut of review_standalone.py is the one of core_review_v3.py. *)
Lemma cut_loop_depth_scan depth i todo text_ :
  (0 <= i)%Z ->
  Standalone.cut_loop depth i todo text_ =
  if (depth_scan depth i todo >? 0)%Z then slice_to text_ (depth_scan depth i todo)
  else text_.
Proof.
  revert depth i. induction todo as [|c todo IH]; intros depth i Hi;
    cbn [depth_scan Standalone.cut_loop]; [done|].
  destruct (c =? ch "{"); [apply IH; lia|].
  destruct (c =? ch "}"); [|apply IH; lia].
  destruct (depth - 1 =? 0)%Z; [|apply IH; lia].
  destruct (i + 1 >? 0)%Z eqn:E; [done | lia].
Qed.

Lemma standalone_isolate_eq raw : Standalone.isolate raw = CoreReviewV3.isolate raw.
Proof.
  unfold Standalone.isolate, CoreReviewV3.isolate, Standalone.cut_object,
    CoreReviewV3.cut_object.
  destruct (startswith _ _); [|done]. by apply cut_loop_depth_scan.
Qed.

Lemma standalone_extract_eq limit raw :
  Standalone.extract limit raw = CoreReviewV3.extract limit raw.
Proof. unfold Standalone.extract, CoreReviewV3.extract. by rewrite standalone_isolate_eq. Qed.

(** The loop of core_review_v3.py, attempt by attempt. *)
Lemma v3_review_code_unfold limit tmpl client content :
  let prompt := format_prompt tmpl content in
  let attempt n := attempt_of (CoreReviewV3.extract limit) (client n prompt) in
  CoreReviewV3.review_code limit tmpl client content =
  match attempt 0%nat with
  | inl review => (Returns review, [Create prompt])
  | inr _ =>
      match attempt 1%nat with
      | inl review => (Returns review, [Create prompt; Sleep 2; Create prompt])
      | inr _ =>
          match attempt 2%nat with
          | inl review =>
              (Returns review,
               [Create prompt; Sleep 2; Create prompt; Sleep 4; Create prompt])
          | inr e =>
              (Raises e,
               [Create prompt; Sleep 2; Create prompt; Sleep 4; Create prompt])
          end
      end
  end.
Proof.
  intros prompt attempt. subst attempt. unfold CoreReviewV3.review_code. fold prompt.
  change (range1 CoreReviewV3.MAX_RETRIES) with [1%Z; 2%Z; 3%Z].
  cbn [CoreReviewV3.review_loop]. unfold attempt_of.
  destruct (client 0%nat prompt) as [raw0|];
    [destruct (CoreReviewV3.extract limit raw0); [done|] |];
    (destruct (client 1%nat prompt) as [raw1|];
       [destruct (CoreReviewV3.extract limit raw1); [done|] |]);
    (destruct (client 2%nat prompt) as [raw2|];
       [destruct (CoreReviewV3.extract limit raw2); done | done]).
Qed.

Lemma standalone_review_loop_eq limit client prompt attempts calls :
  Standalone.review_loop limit client prompt attempts calls
  = CoreReviewV3.review_loop limit client prompt attempts calls.
Proof.
  revert calls. induction attempts as [|a attempts IH]; intros calls; [done|].
  cbn [Standalone.review_loop CoreReviewV3.review_loop].
  rewrite !IH.
  destruct (client calls prompt) as [raw|e]; [|by destruct e].
  rewrite standalone_extract_eq.
  destruct (CoreReviewV3.extract limit raw) as [review|e]; [done | by destruct e].
Qed.

Lemma standalone_review_code_eq limit tmpl client content :
  Standalone.review_code limit tmpl client content
  = CoreReviewV3.review_code limit tmpl client content.
Proof. apply standalone_review_loop_eq. Qed.

(** C5, as stated, fails: a reply from which no JSON can be parsed does not
    end the invocation.  With a transport whose first reply is prose and
    whose second is an object, the caller sleeps, calls again and returns
    the second parse. *)
Lemma extraction_failure_not_fatal :
  ~ (forall limit tmpl client content raw e,
       client 0%nat (format_prompt tmpl content) = Reply raw ->
       CoreReviewV3.extract limit raw = Raise e ->
       CoreReviewV3.review_code limit tmpl client content
       = (Raises e, [Create (format_prompt tmpl content)])).
Proof.
  intros H.
  specialize (H 1000%nat demo_template chatty_client (lit "code")
                (lit "I cannot review this.") JSONDecodeError eq_refl eq_refl).
  vm_compute in H. discriminate H.
Qed.

(** C5, amended: in core_review_v3.py and in review_standalone.py a failed
    extraction is handled like a failed call.  After a reply that does not
    parse, on an attempt that is not the last, the caller sleeps
    [2 ** attempt] seconds and calls the model again; the exception of the
    parse is raised only when the third attempt fails as well. *)
Theorem extraction_failure_retried
    (limit : nat) (tmpl : text * text) (client : transport) (content raw : text)
    (e : exn) :
  let prompt := format_prompt tmpl content in
  client 0%nat prompt = Reply raw ->
  CoreReviewV3.extract limit raw = Raise e ->
  Standalone.review_code limit tmpl client content
  = CoreReviewV3.review_code limit tmpl client content
  /\ (exists evs, (CoreReviewV3.review_code limit tmpl client content).2
                  = Create prompt :: Sleep (backoff 1) :: Create prompt :: evs)
  /\ (forall raw1 raw2 e1 e2,
        client 1%nat prompt = Reply raw1 -> CoreReviewV3.extract limit raw1 = Raise e1 ->
        client 2%nat prompt = Reply raw2 -> CoreReviewV3.extract limit raw2 = Raise e2 ->
        CoreReviewV3.review_code limit tmpl client content
        = (Raises e2,
           [Create prompt; Sleep (backoff 1); Create prompt; Sleep (backoff 2);
            Create prompt]))
  /\ (forall raw1 review,
        client 1%nat prompt = Reply raw1 -> CoreReviewV3.extract limit raw1 = Ok review ->
        CoreReviewV3.review_code limit tmpl client content
        = (Returns review, [Create prompt; Sleep (backoff 1); Create prompt])).
Proof.
  intros prompt H0 Hx. split; [apply standalone_review_code_eq|].
  rewrite v3_review_code_unfold. fold prompt. unfold attempt_of.
  rewrite H0, Hx. repeat split.
  - destruct (client 1%nat prompt) as [raw1|];
      [destruct (CoreReviewV3.extract limit raw1); [by eexists|] |];
      (destruct (client 2%nat prompt) as [raw2|];
         [destruct (CoreReviewV3.extract limit raw2) |]; by eexists).
  - intros raw1 raw2 e1 e2 -> -> -> ->. done.
  - intros raw1 review -> ->. done.
Qed.

Lemma extraction_failure_retried_witness :
  CoreReviewV3.review_code 1000 demo_template chatty_client (lit "code")
  = (Returns (JObj []),
     [Create (format_prompt demo_template (lit "code")); Sleep (backoff 1);
      Create (format_prompt demo_template (lit "code"))]).
Proof.
  pose proof (extraction_failure_retried 1000 demo_template chatty_client (lit "code")
                (lit "I cannot review this.") JSONDecodeError eq_refl eq_refl)
    as (_ & _ & _ & H).
  exact (H (lit "{}") (JObj []) eq_refl eq_refl).
Defined.
(** ** The content budgeter *)

Lemma len_app (a b : text) : len (a ++ b) = (len a + len b)%Z.
Proof. unfold len. rewrite length_app. lia. Qed.

Lemma len_nil : len [] = 0%Z.
Proof. done. Qed.

Lemma len_nonneg (a : text) : (0 <= len a)%Z.
Proof. unfold len. lia. Qed.

Lemma total_len_cons (b : text) (bs : list text) :
  total_len (b :: bs) = (len b + total_len bs)%Z.
Proof. unfold total_len. simpl. apply len_app. Qed.

Lemma total_len_nil : total_len [] = 0%Z.
Proof. done. Qed.

(** The prefix [fit_count] picks fits the room, and no longer prefix does. *)
Lemma fit_count_fits (room : Z) (blocks : list text) :
  (0 <= room)%Z ->
  (total_len (take (fit_count room (map len blocks)) blocks) <= room)%Z.
Proof.
  revert room. induction blocks as [|b bs IH]; intros room Hr; simpl; [done|].
  destruct (len b >? room)%Z eqn:E; simpl; [done|].
  rewrite total_len_cons. specialize (IH (room - len b)%Z). lia.
Qed.

Lemma fit_count_le (room : Z) (sizes : list Z) :
  (fit_count room sizes <= length sizes)%nat.
Proof.
  revert room. induction sizes as [|s sizes IH]; intros room; simpl; [done|].
  destruct (s >? room)%Z; [lia|]. specialize (IH (room - s)%Z). lia.
Qed.

Lemma fit_count_maximal (room : Z) (blocks : list text) :
  (fit_count room (map len blocks) < length blocks)%nat ->
  (room < total_len (take (S (fit_count room (map len blocks))) blocks))%Z.
Proof.
  revert room. induction blocks as [|b bs IH]; intros room; simpl; [lia|].
  destruct (len b >? room)%Z eqn:E; simpl.
  - intros _. rewrite total_len_cons. rewrite take_0, total_len_nil. lia.
  - intros H. rewrite total_len_cons.
    specialize (IH (room - len b)%Z). simpl in IH. lia.
Qed.

Lemma fit_count_all (room : Z) (blocks : list text) :
  fit_count room (map len blocks) = length blocks ->
  take (fit_count room (map len blocks)) blocks = blocks.
Proof. intros ->. apply firstn_all. Qed.

(** *** Plain rendering (core_review.py) *)

Lemma core_format_loop_spec max_size n_files todo parts_ current_size :
  let k := fit_count (max_size - current_size) (map len (plain_blocks todo)) in
  CoreReview.format_loop max_size n_files todo parts_ current_size =
  parts_ ++ take k (plain_blocks todo)
  ++ (if (k <? length todo)%nat
      then [CoreReview.truncation_marker
              (Z.of_nat n_files - Z.of_nat (length parts_ + k))]
      else []).
Proof.
  revert parts_ current_size.
  induction todo as [|[path content] rest IH]; intros parts_ current_size;
    cbn [CoreReview.format_loop plain_blocks map fit_count fst snd].
  { by rewrite app_nil_r. }
  fold (len (CoreReview.file_block path content)).
  destruct (current_size + len (CoreReview.file_block path content) >? max_size)%Z eqn:E.
  - assert ((len (CoreReview.file_block path content) >? max_size - current_size)%Z = true)
      as -> by lia.
    cbn. by rewrite Nat.add_0_r.
  - assert ((len (CoreReview.file_block path content) >? max_size - current_size)%Z = false)
      as -> by lia.
    fold (plain_blocks rest). rewrite IH.
    replace (max_size - (current_size + len (CoreReview.file_block path content)))%Z
      with (max_size - current_size - len (CoreReview.file_block path content))%Z by lia.
    set (k := fit_count _ _).
    cbn [take length]. rewrite <- app_assoc. cbn [app].
    rewrite length_app. cbn [length].
    replace (length parts_ + 1 + k)%nat with (length parts_ + S k)%nat by lia.
    done.
Qed.

Lemma plain_blocks_length files : length (plain_blocks files) = length files.
Proof. unfold plain_blocks. apply length_map. Qed.

(** What the plain budgeter writes. *)
Lemma core_format_files_spec files max_size :
  let sorted := sort_by_path files in
  let k := fit_count max_size (map len (plain_blocks sorted)) in
  CoreReview.format_files files max_size =
  concat (take k (plain_blocks sorted))
  ++ (if (k <? length files)%nat
      then CoreReview.truncation_marker (Z.of_nat (length files) - Z.of_nat k)
      else []).
Proof.
  intros sorted k. unfold CoreReview.format_files, concat_text. fold sorted.
  rewrite core_format_loop_spec. cbn [app length Nat.add].
  rewrite Z.sub_0_r. fold k. rewrite concat_app.
  subst sorted. rewrite sort_by_path_length.
  destruct (k <? length files)%nat; cbn; by rewrite ?app_nil_r.
Qed.

(** *** Annotated rendering (core_review_v3.py, review_standalone.py) *)

Lemma annotated_blocks_length block idx files :
  length (annotated_blocks block idx files) = length files.
Proof.
  revert idx. induction files as [|[p c] files IH]; intros idx; simpl; [done|].
  by rewrite IH.
Qed.

(** The loop of core_review_v3.py: the count it prints is taken from
    [len(parts)], the manifest included. *)
Lemma v3_format_loop_spec max_size n_files idx todo parts_ size :
  let blocks :=
    annotated_blocks (fun i => CoreReviewV3.file_block i (Z.of_nat n_files)) idx todo in
  let k := fit_count (max_size - size) (map len blocks) in
  CoreReviewV3.format_loop max_size n_files idx todo parts_ size =
  parts_ ++ take k blocks
  ++ (if (k <? length todo)%nat
      then [CoreReviewV3.truncation_marker
              (Z.of_nat n_files - Z.of_nat (length parts_ + k))]
      else []).
Proof.
  revert idx parts_ size.
  induction todo as [|[path content] rest IH]; intros idx parts_ size;
    cbn [CoreReviewV3.format_loop annotated_blocks map fit_count].
  { by rewrite app_nil_r. }
  set (b := CoreReviewV3.file_block idx (Z.of_nat n_files) path content).
  fold (len b).
  destruct (size + len b >? max_size)%Z eqn:E.
  - assert ((len b >? max_size - size)%Z = true) as -> by lia.
    cbn. by rewrite Nat.add_0_r.
  - assert ((len b >? max_size - size)%Z = false) as -> by lia.
    rewrite IH.
    replace (max_size - (size + len b))%Z with (max_size - size - len b)%Z by lia.
    set (k := fit_count _ _).
    cbn [take length]. rewrite <- app_assoc. cbn [app].
    rewrite length_app. cbn [length].
    replace (length parts_ + 1 + k)%nat with (length parts_ + S k)%nat by lia.
    done.
Qed.

(** The loop of review_standalone.py: the count comes from the index. *)
Lemma standalone_format_loop_spec max_size total idx todo parts_ size :
  let blocks := annotated_blocks (fun i => Standalone.file_block i total) idx todo in
  let k := fit_count (max_size - size) (map len blocks) in
  Standalone.format_loop max_size total idx todo parts_ size =
  parts_ ++ take k blocks
  ++ (if (k <? length todo)%nat
      then [Standalone.truncation_marker (total - (idx + Z.of_nat k) + 1)]
      else []).
Proof.
  revert idx parts_ size.
  induction todo as [|[path content] rest IH]; intros idx parts_ size;
    cbn [Standalone.format_loop annotated_blocks map fit_count].
  { by rewrite app_nil_r. }
  set (b := Standalone.file_block idx total path content).
  fold (len b).
  destruct (size + len b >? max_size)%Z eqn:E.
  - assert ((len b >? max_size - size)%Z = true) as -> by lia.
    cbn. by rewrite Z.add_0_r.
  - assert ((len b >? max_size - size)%Z = false) as -> by lia.
    rewrite IH.
    replace (max_size - (size + len b))%Z with (max_size - size - len b)%Z by lia.
    set (k := fit_count _ _).
    cbn [take length]. rewrite <- app_assoc. cbn [app].
    replace (idx + 1 + Z.of_nat k)%Z with (idx + Z.of_nat (S k))%Z by lia.
    done.
Qed.

(** What the annotated budgeter of core_review_v3.py writes: the manifest,
    the blocks that fit after it, and a marker whose count is one short. *)
Lemma v3_format_files_spec files max_size :
  let manifest := CoreReviewV3.manifest_of files in
  let n := length files in
  let blocks := annotated_blocks (fun i => CoreReviewV3.file_block i (Z.of_nat n)) 1 files in
  let k := fit_count (max_size - len manifest) (map len blocks) in
  CoreReviewV3.format_files files max_size =
  manifest ++ concat (take k blocks)
  ++ (if (k <? n)%nat
      then CoreReviewV3.truncation_marker (Z.of_nat n - Z.of_nat k - 1)
      else []).
Proof.
  intros manifest n blocks k. unfold CoreReviewV3.format_files, concat_text.
  fold manifest. rewrite v3_format_loop_spec. fold n blocks.
  rewrite Z.add_0_l. fold (len manifest). fold k.
  replace (Z.of_nat n - Z.of_nat (length [manifest] + k))%Z
    with (Z.of_nat n - Z.of_nat k - 1)%Z by (cbn [length]; lia).
  cbn [app concat].
  rewrite concat_app. f_equal. f_equal.
  destruct (k <? n)%nat; cbn [concat]; by rewrite ?app_nil_r.
Qed.

Lemma standalone_format_files_spec files max_size :
  let manifest := Standalone.manifest_of files in
  let n := length files in
  let blocks := annotated_blocks (fun i => Standalone.file_block i (Z.of_nat n)) 1 files in
  let k := fit_count (max_size - len manifest) (map len blocks) in
  Standalone.format_files files max_size =
  manifest ++ concat (take k blocks)
  ++ (if (k <? n)%nat
      then Standalone.truncation_marker (Z.of_nat n - Z.of_nat k)
      else []).
Proof.
  intros manifest n blocks k. unfold Standalone.format_files, concat_text.
  fold manifest. rewrite standalone_format_loop_spec. fold n blocks.
  rewrite Z.add_0_l. fold (len manifest). fold k.
  replace (Z.of_nat n - (1 + Z.of_nat k) + 1)%Z with (Z.of_nat n - Z.of_nat k)%Z by lia.
  cbn [app concat].
  rewrite concat_app. f_equal. f_equal.
  destruct (k <? n)%nat; cbn [concat]; by rewrite ?app_nil_r.
Qed.

Lemma fit_count_no_room (room : Z) (blocks : list text) :
  (room < 0)%Z -> fit_count room (map len blocks) = 0%nat.
Proof.
  intros Hr. destruct blocks as [|b bs]; simpl; [done|].
  pose proof (len_nonneg b). by assert ((len b >? room)%Z = true) as -> by lia.
Qed.

Lemma v3_gather_files_sorted fs root :
  StronglySorted path_le (CoreReviewV3.gather_files fs root).
Proof. apply sort_by_path_sorted. Qed.

(** C3, as stated, fails for the annotated rendering: the manifest is
    written whatever the budget, so one small file under a budget of zero
    gives 128 characters, more than the budget and the marker together. *)
Lemma annotated_output_exceeds_budget :
  CoreReviewV3.format_files [(lit "a.ts", lit "X")] 0
  = CoreReviewV3.manifest_of [(lit "a.ts", lit "X")] ++ CoreReviewV3.truncation_marker 0
  /\ ~ (len (CoreReviewV3.format_files [(lit "a.ts", lit "X")] 0)
        <= 0 + len (CoreReviewV3.truncation_marker 0))%Z.
Proof. split; [by vm_compute | vm_compute; intros H; by apply H]. Qed.

(** C3, amended: for a budget [B >= 0].  Plain rendering (core_review.py):
    the output is the blocks of the longest prefix of the path-sorted files
    whose blocks sum to at most [B], whole, followed by one marker when files
    were left out; its length is at most [B] plus the length of that marker.
    Annotated rendering (core_review_v3.py): the manifest of all files is
    always written and counts against the budget; it is followed by the
    blocks of the longest prefix of the files (which [gather_files] hands
    over sorted by path) that fits in what the manifest leaves, whole, and
    by the marker; the length is at most [max B (len manifest)] plus the
    length of the marker. *)
Theorem budgeter_bound (files : list source_file) (B : Z) :
  (0 <= B)%Z ->
  (let sorted := sort_by_path files in
   let blocks := plain_blocks sorted in
   let k := fit_count B (map len blocks) in
   let marker := CoreReview.truncation_marker (Z.of_nat (length files) - Z.of_nat k) in
   sorted ≡ₚ files
   /\ StronglySorted path_le sorted
   /\ CoreReview.format_files files B
      = concat (take k blocks) ++ (if (k <? length files)%nat then marker else [])
   /\ (total_len (take k blocks) <= B)%Z
   /\ ((k < length files)%nat -> (B < total_len (take (S k) blocks))%Z)
   /\ (len (CoreReview.format_files files B) <= B + len marker)%Z)
  /\
  (let manifest := CoreReviewV3.manifest_of files in
   let n := length files in
   let blocks :=
     annotated_blocks (fun i => CoreReviewV3.file_block i (Z.of_nat n)) 1 files in
   let k := fit_count (B - len manifest) (map len blocks) in
   let marker := CoreReviewV3.truncation_marker (Z.of_nat n - Z.of_nat k - 1) in
   CoreReviewV3.format_files files B
   = manifest ++ concat (take k blocks) ++ (if (k <? n)%nat then marker else [])
   /\ ((len manifest <= B)%Z -> (len manifest + total_len (take k blocks) <= B)%Z)
   /\ ((k < n)%nat -> (B < len manifest + total_len (take (S k) blocks))%Z)
   /\ (len (CoreReviewV3.format_files files B) <= Z.max B (len manifest) + len marker)%Z
   /\ forall fs root, StronglySorted path_le (CoreReviewV3.gather_files fs root)).
Proof.
  intros HB. split.
  - intros sorted blocks k marker.
    assert (CoreReview.format_files files B
            = concat (take k blocks) ++ (if (k <? length files)%nat then marker else []))
      as Heq by apply core_format_files_spec.
    assert (total_len (take k blocks) <= B)%Z as Hfit by (by apply fit_count_fits).
    repeat split.
    + apply sort_by_path_perm.
    + apply sort_by_path_sorted.
    + exact Heq.
    + exact Hfit.
    + intros Hk. apply fit_count_maximal.
      unfold blocks. rewrite plain_blocks_length. unfold sorted.
      by rewrite sort_by_path_length.
    + rewrite Heq, len_app. fold (total_len (take k blocks)).
      pose proof (len_nonneg marker).
      destruct (k <? length files)%nat; [lia | rewrite len_nil; lia].
  - intros manifest n blocks k marker.
    assert (CoreReviewV3.format_files files B
            = manifest ++ concat (take k blocks) ++ (if (k <? n)%nat then marker else []))
      as Heq by apply v3_format_files_spec.
    repeat split.
    + exact Heq.
    + intros Hm. pose proof (fit_count_fits (B - len manifest) blocks). fold k in H. lia.
    + intros Hk.
      pose proof (fit_count_maximal (B - len manifest) blocks) as H. fold k in H.
      unfold blocks in H at 1. rewrite annotated_blocks_length in H. fold n in H.
      specialize (H Hk). fold blocks in H. lia.
    + rewrite Heq, !len_app. fold (total_len (take k blocks)).
      pose proof (len_nonneg marker).
      assert (total_len (take k blocks) <= Z.max B (len manifest) - len manifest)%Z.
      { destruct (Z_lt_le_dec B (len manifest)) as [Hlt|Hle].
        - unfold k. rewrite fit_count_no_room by lia. rewrite take_0, total_len_nil. lia.
        - pose proof (fit_count_fits (B - len manifest) blocks). fold k in H0. lia. }
      destruct (k <? n)%nat; [lia | rewrite len_nil; lia].
    + apply v3_gather_files_sorted.
Qed.

Lemma budgeter_bound_witness :
  CoreReview.format_files two_files 40
  = CoreReview.file_block (lit "a.ts") (lit "X") ++ CoreReview.truncation_marker 1
  /\ (len (CoreReview.format_files two_files 40) <= 40 + len (CoreReview.truncation_marker 1))%Z.
Proof.
  pose proof (budgeter_bound two_files 40 ltac:(lia)) as [H _].
  cbv zeta in H. destruct H as (_ & _ & H1 & _ & _ & H2).
  split; [rewrite H1; by vm_compute | exact H2].
Defined.

(** C7 at its failing input: with room for the manifest and the block of
    [a.ts] only, core_review_v3.py leaves [b.ts] out and writes
    "0 files remaining"; with room for no block it leaves both files out
    and writes "1 files remaining".  The count is [len(files) - len(parts)],
    and [parts] holds the manifest.  core_review.py and
    review_standalone.py print 1 and 2 on the like inputs. *)
Theorem v3_marker_count_off_by_one :
  CoreReviewV3.format_files two_files 400
  = CoreReviewV3.manifest_of two_files
    ++ CoreReviewV3.file_block 1 2 (lit "a.ts") (lit "X")
    ++ CoreReviewV3.truncation_marker 0
  /\ CoreReviewV3.format_files two_files 60
     = CoreReviewV3.manifest_of two_files ++ CoreReviewV3.truncation_marker 1
  /\ CoreReview.format_files two_files 40
     = CoreReview.file_block (lit "a.ts") (lit "X") ++ CoreReview.truncation_marker 1
  /\ Standalone.format_files two_files 400
     = Standalone.manifest_of two_files
       ++ Standalone.file_block 1 2 (lit "a.ts") (lit "X")
       ++ Standalone.truncation_marker 1
  /\ Standalone.format_files two_files 60
     = Standalone.manifest_of two_files ++ Standalone.truncation_marker 2.
Proof. repeat split; by vm_compute. Qed.

(** The marker of core_review.py states the number of files left out. *)
Lemma core_marker_counts_omitted files max_size :
  let sorted := sort_by_path files in
  let k := fit_count max_size (map len (plain_blocks sorted)) in
  (k < length files)%nat ->
  CoreReview.format_files files max_size
  = concat (plain_blocks (take k sorted))
    ++ CoreReview.truncation_marker (Z.of_nat (length (drop k sorted))).
Proof.
  intros sorted k Hk. rewrite core_format_files_spec. fold sorted k.
  apply Nat.ltb_lt in Hk as Hk'. rewrite Hk'.
  unfold plain_blocks. rewrite <- firstn_map. f_equal. f_equal.
  rewrite length_drop. unfold sorted. rewrite sort_by_path_length. lia.
Qed.
(** ** The report renderer *)

Lemma with_severity_app s (l1 l2 : list Improvement) :
  with_severity s (l1 ++ l2) = with_severity s l1 ++ with_severity s l2.
Proof. apply filter_app. Qed.

Lemma with_severity_cons s (i : Improvement) (l : list Improvement) :
  with_severity s (i :: l)
  = if decide (imp_severity i = s) then i :: with_severity s l else with_severity s l.
Proof. unfold with_severity. by rewrite filter_cons. Qed.

(** The grouping loop: when every severity met is a key, each bucket gains
    the items of its severity, in order. *)
Lemma group_items_spec (items : list Improvement)
    (by_severity : gmap (list N) (list Improvement)) :
  Forall (fun i => is_Some (by_severity !! imp_severity i)) items ->
  exists grouped,
    CoreReviewV3.group_items items by_severity = Returns grouped
    /\ forall s, grouped !! s = (fun l => l ++ with_severity s items) <$> by_severity !! s.
Proof.
  revert by_severity. induction items as [|i items IH]; intros bs Hall.
  { exists bs. split; [done|]. intros s. destruct (bs !! s); simpl; [|done].
    by rewrite app_nil_r. }
  apply Forall_cons in Hall as [[b Hb] Hall].
  cbn [CoreReviewV3.group_items]. rewrite Hb.
  destruct (IH (<[imp_severity i := b ++ [i]]> bs)) as (grouped & Hg & Hl).
  { eapply Forall_impl; [exact Hall|]. intros j [bj Hj].
    destruct (decide (imp_severity i = imp_severity j)) as [E|E].
    - rewrite <- E, lookup_insert_eq. eauto.
    - rewrite lookup_insert_ne by done. eauto. }
  exists grouped. split; [done|]. intros s. rewrite Hl, with_severity_cons.
  destruct (decide (imp_severity i = s)) as [<-|E].
  - rewrite lookup_insert_eq, Hb. simpl. by rewrite <- app_assoc.
  - by rewrite lookup_insert_ne.
Qed.

(** The grouping loop stops at the first severity that is no key. *)
Lemma group_items_raises (items : list Improvement)
    (by_severity : gmap (list N) (list Improvement)) (pre post : list Improvement)
    (bad : Improvement) :
  items = pre ++ bad :: post ->
  Forall (fun i => is_Some (by_severity !! imp_severity i)) pre ->
  by_severity !! imp_severity bad = None ->
  CoreReviewV3.group_items items by_severity = Raises (KeyError (imp_severity bad)).
Proof.
  intros -> Hpre. revert by_severity Hpre.
  induction pre as [|i pre IH]; intros bs Hpre Hbad.
  { cbn [app CoreReviewV3.group_items]. by rewrite Hbad. }
  apply Forall_cons in Hpre as [[b Hb] Hpre].
  cbn [app CoreReviewV3.group_items]. rewrite Hb. apply IH.
  - eapply Forall_impl; [exact Hpre|]. intros j [bj Hj].
    destruct (decide (imp_severity i = imp_severity j)) as [E|E].
    + rewrite <- E, lookup_insert_eq. eauto.
    + rewrite lookup_insert_ne by done. eauto.
  - destruct (decide (imp_severity i = imp_severity bad)) as [E|E].
    + rewrite E in Hb. congruence.
    + by rewrite lookup_insert_ne.
Qed.

Lemma empty_buckets_lookup (s : text) :
  CoreReviewV3.empty_buckets !! s = if bool_decide (In s SEVERITIES) then Some [] else None.
Proof.
  unfold CoreReviewV3.empty_buckets, SEVERITIES.
  destruct (decide (s = lit "low")) as [->|H1]; [by rewrite lookup_insert_eq|].
  rewrite lookup_insert_ne by done.
  destruct (decide (s = lit "medium")) as [->|H2]; [by rewrite lookup_insert_eq|].
  rewrite lookup_insert_ne by done.
  destruct (decide (s = lit "high")) as [->|H3]; [by rewrite lookup_insert_eq|].
  rewrite lookup_insert_ne by done.
  destruct (decide (s = lit "critical")) as [->|H4]; [by rewrite lookup_insert_eq|].
  rewrite lookup_insert_ne by done. rewrite lookup_empty.
  rewrite bool_decide_eq_false_2; [done|].
  simpl. intros [?|[?|[?|[?|[]]]]]; congruence.
Qed.

Lemma empty_buckets_known (s : text) :
  In s SEVERITIES -> CoreReviewV3.empty_buckets !! s = Some [].
Proof. intros H. rewrite empty_buckets_lookup. by rewrite bool_decide_eq_true_2. Qed.

Lemma empty_buckets_unknown (s : text) :
  ~ In s SEVERITIES -> CoreReviewV3.empty_buckets !! s = None.
Proof. intros H. rewrite empty_buckets_lookup. by rewrite bool_decide_eq_false_2. Qed.

(** The buckets of a review whose severities are all known. *)
Lemma group_review_spec (items : list Improvement) :
  Forall (fun i => In (imp_severity i) SEVERITIES) items ->
  exists grouped,
    CoreReviewV3.group_items items CoreReviewV3.empty_buckets = Returns grouped
    /\ forall s, In s SEVERITIES ->
                 CoreReviewV3.bucket grouped s = with_severity s items.
Proof.
  intros Hall.
  destruct (group_items_spec items CoreReviewV3.empty_buckets) as (grouped & Hg & Hl).
  { eapply Forall_impl; [exact Hall|]. intros i Hi. simpl.
    rewrite empty_buckets_known by done. eauto. }
  exists grouped. split; [done|]. intros s Hs.
  unfold CoreReviewV3.bucket. rewrite Hl, empty_buckets_known by done. done.
Qed.

Lemma severities_known :
  In (lit "critical") SEVERITIES /\ In (lit "high") SEVERITIES
  /\ In (lit "medium") SEVERITIES /\ In (lit "low") SEVERITIES.
Proof. unfold SEVERITIES. simpl. tauto. Qed.

(** A section of the scripts is the section of the report. *)
Lemma issue_section_spec (str_title : text -> text) (severity mark : text)
    (items : list Improvement) :
  dict_get CoreReviewV3.severity_icons severity [] = mark ->
  CoreReviewV3.section_lines str_title severity (with_severity severity items)
  = report_section (lit "#### ") mark (issue_entry str_title) str_title severity items.
Proof.
  intros <-. unfold report_section, CoreReviewV3.section_lines.
  destruct (with_severity severity items) as [|i rest]; [done|].
  cbn [app]. f_equal.
Qed.

Lemma page_section_spec (str_title : text -> text) (severity mark : text)
    (items : list Improvement) :
  dict_get Standalone.severity_icons severity [] = mark ->
  Standalone.section_lines str_title severity (with_severity severity items)
  = report_section (lit "### ") mark page_entry str_title severity items.
Proof.
  intros <-. unfold report_section, Standalone.section_lines.
  destruct (with_severity severity items) as [|i rest]; [done|].
  cbn [app]. f_equal.
Qed.

(** C8, as stated, fails for [format_markdown] of review_standalone.py, one
    of the two renderers it is about: the page holds no table of counts.
    For the review with severities low, critical, high, critical the issue
    of core_review_v3.py holds the row of the counts 2, 1, 0, 1, and the
    page does not, nor the head of the table. *)
Lemma format_markdown_writes_no_table :
  (exists body,
     CoreReviewV3.format_issue_body ascii_title (lit "gpt") (demo_review four_items) 4 1000
     = Returns body
     /\ str_in (table_row 2 1 0 1) body = true)
  /\ (exists page,
        Standalone.format_markdown ascii_title (demo_review four_items) = Returns page
        /\ str_in (table_row 2 1 0 1) page = false
        /\ str_in (lit "| Critical | High | Medium | Low |") page = false)
  /\ ~ (forall str_title review,
          Forall (fun i => In (imp_severity i) SEVERITIES) (improvements review) ->
          exists page,
            Standalone.format_markdown str_title review = Returns page
            /\ str_in (table_row (length (with_severity (lit "critical") (improvements review)))
                         (length (with_severity (lit "high") (improvements review)))
                         (length (with_severity (lit "medium") (improvements review)))
                         (length (with_severity (lit "low") (improvements review))))
                      page = true).
Proof.
  split; [|split].
  - eexists. split; [by vm_compute|]. by vm_compute.
  - eexists. split; [by vm_compute|]. split; by vm_compute.
  - intros H. destruct (H ascii_title (demo_review four_items)) as (page & Hpage & Hrow).
    { repeat constructor; cbn; tauto. }
    vm_compute in Hpage. injection Hpage as <-. vm_compute in Hrow. discriminate Hrow.
Qed.

(** C8, amended: for a review whose severities are all among the four,
    [format_issue_body] of core_review_v3.py renders the issue of
    [issue_report]: the header, with the table of the four counts, then the
    sections of critical, high, medium and low in that order, each with its
    heading and the improvements of its severity in their original order,
    shown with id, title, category, file, effort, problem and solution, a
    severity without improvement giving no section, then the footer.
    [format_markdown] of review_standalone.py renders the page of
    [page_report]: the same sections in the same order, and no table.  With
    severities low, critical, high, critical the sections are: critical
    with the second and the fourth improvement, high with the third, none
    for medium, low with the first. *)
Theorem format_issue_body_groups_by_severity
    (str_title : text -> text) (MODEL : text) (review : ReviewResult)
    (file_count char_count : Z) :
  Forall (fun i => In (imp_severity i) SEVERITIES) (improvements review) ->
  CoreReviewV3.format_issue_body str_title MODEL review file_count char_count
  = Returns (issue_report str_title MODEL review file_count char_count)
  /\ Standalone.format_markdown str_title review = Returns (page_report str_title review)
  /\ (forall i1 i2 i3 i4 hashes mark entry,
        improvements review = [i1; i2; i3; i4] ->
        imp_severity i1 = lit "low" -> imp_severity i2 = lit "critical" ->
        imp_severity i3 = lit "high" -> imp_severity i4 = lit "critical" ->
        let section s := report_section hashes mark entry str_title s (improvements review) in
        let heading s n :=
          hashes ++ mark ++ lit " " ++ str_title s ++ lit " (" ++ n ++ lit ")" in
        section (lit "critical")
        = heading (lit "critical") (lit "2") :: [] :: entry i2 ++ entry i4
        /\ section (lit "high") = heading (lit "high") (lit "1") :: [] :: entry i3
        /\ section (lit "medium") = []
        /\ section (lit "low") = heading (lit "low") (lit "1") :: [] :: entry i1).
Proof.
  intros Hall.
  destruct severities_known as (Hc & Hh & Hm & Hl).
  split; [|split].
  - unfold CoreReviewV3.format_issue_body.
    destruct (group_review_spec _ Hall) as (grouped & -> & Hb).
    cbn [flat_map]. rewrite !Hb by done.
    unfold CoreReviewV3.header_lines. rewrite !Hb by done.
    rewrite !(issue_section_spec str_title _ _ _ eq_refl).
    unfold issue_report. cbv zeta. rewrite ?app_nil_r, <- ?app_assoc. reflexivity.
  - unfold Standalone.format_markdown.
    destruct (group_review_spec _ Hall) as (grouped & -> & Hb).
    cbn [flat_map]. rewrite !Hb by done.
    rewrite !(page_section_spec str_title _ _ _ eq_refl).
    unfold page_report. cbv zeta. rewrite ?app_nil_r, <- ?app_assoc. reflexivity.
  - intros i1 i2 i3 i4 hashes mark entry Hi H1 H2 H3 H4 section heading.
    subst section heading. cbn beta. unfold report_section.
    rewrite Hi. unfold with_severity. rewrite !filter_cons, filter_nil.
    rewrite H1, H2, H3, H4.
    repeat match goal with
           | |- context [decide (?a = ?b)] =>
               let E := fresh "E" in
               destruct (decide (a = b)) as [E|E];
               [try (exfalso; vm_compute in E; discriminate E)
               |try (exfalso; by apply E)];
               try clear E
           end.
    cbn [flat_map length]. rewrite ?app_nil_r.
    repeat split.
Qed.

Lemma format_issue_body_groups_by_severity_witness :
  CoreReviewV3.format_issue_body ascii_title (lit "gpt") (demo_review four_items) 4 1000
  = Returns
      (join NL
         [lit "## " ++ [240; 376; 8221] ++ lit " Structured Codebase Review";
          [];
          lit "**Scope:** 4 files (1,000 characters)";
          lit "**Model:** gpt";
          lit "**Risk Score:** 65/100";
          [];
          lit "---";
          [];
          lit "### " ++ [240; 376; 8220; 352] ++ lit " Summary";
          [];
          lit "| Critical | High | Medium | Low |";
          lit "|:--------:|:----:|:------:|:---:|";
          lit "| 2 | 1 | 0 | 1 |";
          [];
          lit "**Top Priority:** Fix SEC-001.";
          [];
          lit "---";
          [];
          lit "### " ++ [240; 376; 8212; 239; 184] ++ lit " Architecture";
          [];
          lit "Layered.";
          [];
          lit "### " ++ [240; 376; 8221; 8217] ++ lit " Security Posture";
          [];
          lit "Fair.";
          [];
          lit "---";
          [];
          lit "### " ++ [240; 376; 8220; 8249] ++ lit " Improvements";
          [];
          lit "#### " ++ [240; 376; 8221; 180] ++ lit " Critical (2)";
          [];
          lit "- [ ] **`S-1`** Title";
          lit "  - " ++ [240; 376; 8221; 8217] ++ lit " Security " ++ [194; 183]
            ++ lit " `src/main.ts` " ++ [194; 183] ++ lit " ~1w";
          lit "  - **Problem:** Problem";
          lit "  - **Solution:** Solution";
          [];
          lit "- [ ] **`S-2`** Title";
          lit "  - " ++ [240; 376; 8221; 8217] ++ lit " Security " ++ [194; 183]
            ++ lit " `src/main.ts` " ++ [194; 183] ++ lit " ~1h";
          lit "  - **Problem:** Problem";
          lit "  - **Solution:** Solution";
          [];
          lit "#### " ++ [240; 376; 376; 160] ++ lit " High (1)";
          [];
          lit "- [ ] **`P-1`** Title";
          lit "  - " ++ [226; 353; 161] ++ lit " Performance " ++ [194; 183]
            ++ lit " `src/main.ts` " ++ [194; 183] ++ lit " ~1d";
          lit "  - **Problem:** Problem";
          lit "  - **Solution:** Solution";
          [];
          lit "#### " ++ [240; 376; 376; 162] ++ lit " Low (1)";
          [];
          lit "- [ ] **`Q-1`** Title";
          lit "  - " ++ [226; 339; 168] ++ lit " Quality " ++ [194; 183]
            ++ lit " `src/main.ts` " ++ [194; 183] ++ lit " ~4h";
          lit "  - **Problem:** Problem";
          lit "  - **Solution:** Solution";
          [];
          lit "---";
          [];
          lit "*Automated review powered by LaoZhang API (gpt) with structured output*"])
  /\ Standalone.format_markdown ascii_title (demo_review four_items)
     = Returns
         (join NL
            [lit "# Code Review";
             [];
             lit "**Risk Score:** 65/100";
             [];
             lit "## Summary";
             [];
             lit "**Top Priority:** Fix SEC-001.";
             [];
             lit "### Architecture";
             lit "Layered.";
             [];
             lit "### Security Posture";
             lit "Fair.";
             [];
             lit "## Improvements";
             [];
             lit "### " ++ [128308] ++ lit " Critical (2)";
             [];
             lit "- [ ] **S-1**: Title";
             lit "  - File: `src/main.ts` ()";
             lit "  - Category: security | Effort: ~1w";
             lit "  - **Problem:** Problem";
             lit "  - **Solution:** Solution";
             [];
             lit "- [ ] **S-2**: Title";
             lit "  - File: `src/main.ts` ()";
             lit "  - Category: security | Effort: ~1h";
             lit "  - **Problem:** Problem";
             lit "  - **Solution:** Solution";
             [];
             lit "### " ++ [128992] ++ lit " High (1)";
             [];
             lit "- [ ] **P-1**: Title";
             lit "  - File: `src/main.ts` ()";
             lit "  - Category: performance | Effort: ~1d";
             lit "  - **Problem:** Problem";
             lit "  - **Solution:** Solution";
             [];
             lit "### " ++ [128994] ++ lit " Low (1)";
             [];
             lit "- [ ] **Q-1**: Title";
             lit "  - File: `src/main.ts` ()";
             lit "  - Category: quality | Effort: ~4h";
             lit "  - **Problem:** Problem";
             lit "  - **Solution:** Solution";
             []]).
Proof.
  assert (Forall (fun i => In (imp_severity i) SEVERITIES)
                 (improvements (demo_review four_items))) as Hall.
  { repeat constructor; simpl; tauto. }
  destruct (format_issue_body_groups_by_severity ascii_title (lit "gpt")
              (demo_review four_items) 4 1000 Hall) as (Hbody & Hpage & _).
  split.
  - rewrite Hbody. by vm_compute.
  - rewrite Hpage. by vm_compute.
Defined.

(** ** Labels of the enumerations *)

Lemma dict_get_default {V : Type} (d : list (text * V)) (k : text) (dflt : V) :
  ~ In k (map fst d) -> dict_get d k dflt = dflt.
Proof.
  induction d as [|[k' v] d IH]; simpl; [done|].
  intros H. destruct (text_eqb k' k) eqn:E.
  - apply text_eqb_eq in E. tauto.
  - apply IH. tauto.
Qed.

(** C9, as stated, fails: an improvement whose category and effort are not
    among the listed values is rendered, the category under the default
    mark and the effort as it came. *)
Lemma unknown_category_and_effort_render :
  exists body,
    CoreReviewV3.format_issue_body ascii_title (lit "gpt")
      (demo_review [demo_item (lit "X-1") (lit "low") (lit "style") (lit "huge")]) 1 10
    = Returns body
  /\ CoreReviewV3.item_lines ascii_title
       (demo_item (lit "X-1") (lit "low") (lit "style") (lit "huge"))
     = [lit "- [ ] **`X-1`** Title";
        lit "  - " ++ CoreReviewV3.PIN ++ lit " Style " ++ CoreReviewV3.MIDDOT
          ++ lit " `src/main.ts` " ++ CoreReviewV3.MIDDOT ++ lit " huge";
        lit "  - **Problem:** Problem";
        lit "  - **Solution:** Solution";
        []].
Proof. eexists. split; by vm_compute. Qed.

(** C9, amended: of the three enumerations only the severity is strict.  A
    severity outside the four raises [KeyError] while the improvements are
    grouped, in core_review_v3.py and in review_standalone.py; when all
    severities are known the rendering succeeds whatever the categories and
    efforts are: a category without a mark of its own gets the default one, an
    effort without a label is written as it came. *)
Theorem only_severity_is_strict
    (str_title : text -> text) (MODEL : text) (review : ReviewResult)
    (file_count char_count : Z) :
  (forall pre bad post,
     improvements review = pre ++ bad :: post ->
     Forall (fun i => In (imp_severity i) SEVERITIES) pre ->
     ~ In (imp_severity bad) SEVERITIES ->
     CoreReviewV3.format_issue_body str_title MODEL review file_count char_count
     = Raises (KeyError (imp_severity bad))
     /\ Standalone.format_markdown str_title review = Raises (KeyError (imp_severity bad)))
  /\ (Forall (fun i => In (imp_severity i) SEVERITIES) (improvements review) ->
      exists body page,
        CoreReviewV3.format_issue_body str_title MODEL review file_count char_count
        = Returns body
        /\ Standalone.format_markdown str_title review = Returns page)
  /\ (forall item, ~ In (imp_category item) CATEGORIES ->
        dict_get CoreReviewV3.category_icons (imp_category item) CoreReviewV3.PIN
        = CoreReviewV3.PIN)
  /\ (forall item, ~ In (imp_effort item) EFFORTS ->
        dict_get CoreReviewV3.effort_labels (imp_effort item) (imp_effort item)
        = imp_effort item
        /\ dict_get Standalone.effort_labels (imp_effort item) (imp_effort item)
           = imp_effort item).
Proof.
  split; [|split; [|split]].
  - intros pre bad post Hi Hpre Hbad.
    assert (CoreReviewV3.group_items (improvements review) CoreReviewV3.empty_buckets
            = Raises (KeyError (imp_severity bad))) as Hg.
    { eapply group_items_raises; [exact Hi | | by apply empty_buckets_unknown].
      eapply Forall_impl; [exact Hpre|]. intros i Hin. simpl.
      rewrite empty_buckets_known by done. eauto. }
    unfold CoreReviewV3.format_issue_body, Standalone.format_markdown. by rewrite Hg.
  - intros Hall. destruct (group_review_spec _ Hall) as (grouped & Hg & _).
    unfold CoreReviewV3.format_issue_body, Standalone.format_markdown. rewrite Hg.
    by do 2 eexists.
  - intros item H. by apply dict_get_default.
  - intros item H. split; by apply dict_get_default.
Qed.

Lemma only_severity_is_strict_witness :
  CoreReviewV3.format_issue_body ascii_title (lit "gpt")
    (demo_review [demo_item (lit "X-1") (lit "urgent") (lit "quality") (lit "small")]) 1 10
  = Raises (KeyError (lit "urgent")).
Proof.
  pose proof (only_severity_is_strict ascii_title (lit "gpt")
                (demo_review [demo_item (lit "X-1") (lit "urgent") (lit "quality") (lit "small")])
                1 10) as (H & _).
  refine (proj1 (H [] _ [] eq_refl ltac:(constructor) _)).
  vm_compute. intros H0. repeat destruct H0 as [H0|H0]; done.
Defined.
(** ** [json.loads] after [json.dumps] *)

Lemma hex_val_digit (d : N) : d < 16 -> hex_val (hex_digit d) = Some d.
Proof.
  intros H. unfold hex_val, hex_digit.
  destruct (d <? 10) eqn:E.
  - apply N.ltb_lt in E.
    assert ((48 <=? 48 + d) && (48 + d <=? 57) = true) as ->.
    { apply andb_true_intro. split; apply N.leb_le; lia. }
    f_equal. lia.
  - apply N.ltb_ge in E.
    assert ((48 <=? 87 + d) && (87 + d <=? 57) = false) as ->.
    { apply andb_false_intro2. apply N.leb_gt. lia. }
    assert ((97 <=? 87 + d) && (87 + d <=? 102) = true) as ->.
    { apply andb_true_intro. split; apply N.leb_le; lia. }
    f_equal. lia.
Qed.

Lemma mod16_lt (n : N) : n mod 16 < 16.
Proof. apply N.mod_lt. done. Qed.

Lemma hex4_value (n : N) :
  n < 65536 ->
  (((n / 4096 mod 16) * 16 + n / 256 mod 16) * 16 + n / 16 mod 16) * 16 + n mod 16 = n.
Proof.
  intros H.
  assert (n / 256 = n / 16 / 16) as E1 by (by rewrite N.Div0.div_div).
  assert (n / 4096 = n / 256 / 16) as E2 by (by rewrite N.Div0.div_div).
  pose proof (N.div_mod n 16 ltac:(done)) as H0.
  pose proof (N.div_mod (n / 16) 16 ltac:(done)) as H1.
  pose proof (N.div_mod (n / 256) 16 ltac:(done)) as H2.
  rewrite <- E1 in H1. rewrite <- E2 in H2.
  assert (n / 4096 < 16) as H3 by (apply N.Div0.div_lt_upper_bound; lia).
  rewrite (N.mod_small (n / 4096) 16) by done.
  lia.
Qed.

Lemma decode_hex4_hex4 (n : N) (tail : text) :
  n < 65536 -> decode_hex4 (hex4 n ++ tail) = Some n.
Proof.
  intros H. unfold hex4, decode_hex4. cbn [app].
  rewrite !hex_val_digit by apply mod16_lt. cbn [mbind option_bind].
  f_equal. by apply hex4_value.
Qed.

(** The two halves [json.dumps] writes for a character beyond the basic
    plane, and how [json.loads] puts them together again. *)
Lemma lor_high (base x : N) :
  N.land base 1023 = 0 -> x < 1024 -> N.lor base x = base + x.
Proof.
  intros Hb Hx. symmetry. rewrite N.add_nocarry_lxor.
  - apply N.lxor_lor.
    apply N.bits_inj. intros i. rewrite N.land_spec, N.bits_0.
    destruct (N.lt_ge_cases i 10) as [Hi|Hi].
    + assert (N.testbit base i = false) as ->; [|done].
      pose proof (f_equal (fun z => N.testbit z i) Hb) as Hbi. cbn beta in Hbi.
      rewrite N.land_spec, N.bits_0 in Hbi.
      change 1023 with (N.ones 10) in Hbi. rewrite N.ones_spec_low in Hbi by done.
      by rewrite andb_true_r in Hbi.
    + assert (N.testbit x i = false) as ->; [|by rewrite andb_false_r].
      destruct (N.eq_dec x 0) as [->|Hx0]; [apply N.bits_0|].
      apply N.bits_above_log2. apply N.log2_lt_pow2; [lia|].
      eapply N.lt_le_trans; [exact Hx|]. change 1024 with (2 ^ 10).
      by apply N.pow_le_mono_r.
  - apply N.bits_inj. intros i. rewrite N.land_spec, N.bits_0.
    destruct (N.lt_ge_cases i 10) as [Hi|Hi].
    + assert (N.testbit base i = false) as ->; [|done].
      pose proof (f_equal (fun z => N.testbit z i) Hb) as Hbi. cbn beta in Hbi.
      rewrite N.land_spec, N.bits_0 in Hbi.
      change 1023 with (N.ones 10) in Hbi. rewrite N.ones_spec_low in Hbi by done.
      by rewrite andb_true_r in Hbi.
    + assert (N.testbit x i = false) as ->; [|by rewrite andb_false_r].
      destruct (N.eq_dec x 0) as [->|Hx0]; [apply N.bits_0|].
      apply N.bits_above_log2. apply N.log2_lt_pow2; [lia|].
      eapply N.lt_le_trans; [exact Hx|]. change 1024 with (2 ^ 10).
      by apply N.pow_le_mono_r.
Qed.

Lemma land_1023 (x : N) : N.land x 1023 = x mod 1024.
Proof. change 1023 with (N.ones 10). by rewrite N.land_ones. Qed.

Lemma surrogates_join (c : N) :
  65536 <= c -> c < 1114112 ->
  let n := c - 65536 in
  let s1 := N.lor 55296 (N.land (N.shiftr n 10) 1023) in
  let s2 := N.lor 56320 (N.land n 1023) in
  (55296 <= s1 /\ s1 <= 56319) /\ (56320 <= s2 /\ s2 <= 57343)
  /\ 65536 + N.lor (N.shiftl (s1 - 55296) 10) (s2 - 56320) = c.
Proof.
  intros Hlo Hhi n s1 s2.
  assert (c = 65536 + n) as Hc by (unfold n; lia).
  assert (n < 1048576) as Hn by (unfold n; lia).
  clearbody n.
  assert (n / 1024 < 1024) as Hq by (apply N.Div0.div_lt_upper_bound; lia).
  assert (n mod 1024 < 1024) as Hr by (by apply N.mod_lt).
  assert (s1 = 55296 + n / 1024) as E1.
  { unfold s1. rewrite land_1023, N.shiftr_div_pow2. change (2 ^ 10) with 1024.
    rewrite (N.mod_small _ _ Hq). by apply lor_high. }
  assert (s2 = 56320 + n mod 1024) as E2.
  { unfold s2. rewrite land_1023. by apply lor_high. }
  clearbody s1 s2. rewrite E1, E2.
  pose proof (N.div_mod n 1024 ltac:(done)) as Hdm.
  set (q := n / 1024) in *. set (r := n mod 1024) in *. clearbody q r.
  split; [lia|]. split; [lia|].
  rewrite (N.add_comm 55296), (N.add_comm 56320), !N.add_sub.
  rewrite N.shiftl_mul_pow2. change (2 ^ 10) with 1024.
  rewrite lor_high; [lia | | done].
  rewrite land_1023. by apply N.Div0.mod_mul.
Qed.

Lemma scanstring_skip (pre s : text) :
  scanstring (length pre) (pre ++ s) = scanstring 0 s.
Proof.
  induction pre as [|c pre IH]; [done|]. simpl. exact IH.
Qed.

Lemma scalar_char_spec (c : N) :
  scalar_char c = true <-> (c < 55296 \/ 57343 < c) /\ c < 1114112.
Proof.
  unfold scalar_char. rewrite andb_true_iff, orb_true_iff, !N.ltb_lt. done.
Qed.

Lemma scanstring_backslash (s : text) :
  scanstring 0 (BACKSLASH :: s)
  = '(uni, taken) ← decode_escape s;
    '(body, rest) ← scanstring taken s;
    Some (uni :: body, rest).
Proof. done. Qed.

Lemma scanstring_ordinary (c : N) (s : text) :
  c <> 34 -> c <> 92 -> 32 <= c ->
  scanstring 0 (c :: s) = '(body, rest) ← scanstring 0 s; Some (c :: body, rest).
Proof.
  intros H1 H2 H3. cbn [scanstring]. unfold BACKSLASH.
  rewrite (proj2 (N.eqb_neq c 34)), (proj2 (N.eqb_neq c 92)) by done.
  by rewrite (proj2 (N.ltb_ge c 32)) by done.
Qed.

Lemma decode_escape_u (s : text) :
  decode_escape (ch "u" :: s)
  = uni ← decode_hex4 s;
    if (55296 <=? uni) && (uni <=? 56319) && startswith [BACKSLASH; ch "u"] (drop 4 s)
    then
      uni2 ← decode_hex4 (drop 6 s);
      if (56320 <=? uni2) && (uni2 <=? 57343)
      then Some (65536 + N.lor (N.shiftl (uni - 55296) 10) (uni2 - 56320), 11%nat)
      else Some (uni, 5%nat)
    else Some (uni, 5%nat).
Proof. done. Qed.

(** One character of a string, written by [json.dumps] and read back. *)
Lemma scanstring_escape_char (c : N) (tail : text) :
  scalar_char c = true ->
  scanstring 0 (escape_char c ++ tail)
  = '(body, rest) ← scanstring 0 tail; Some (c :: body, rest).
Proof.
  intros Hc. apply scalar_char_spec in Hc as [Hs Hmax].
  unfold escape_char.
  destruct (c =? 34) eqn:E1; [apply N.eqb_eq in E1; by subst c|].
  destruct (c =? 92) eqn:E2; [apply N.eqb_eq in E2; by subst c|].
  destruct (c =? 10) eqn:E3; [apply N.eqb_eq in E3; by subst c|].
  destruct (c =? 13) eqn:E4; [apply N.eqb_eq in E4; by subst c|].
  destruct (c =? 9) eqn:E5; [apply N.eqb_eq in E5; by subst c|].
  destruct (c =? 8) eqn:E6; [apply N.eqb_eq in E6; by subst c|].
  destruct (c =? 12) eqn:E7; [apply N.eqb_eq in E7; by subst c|].
  apply N.eqb_neq in E1, E2.
  destruct ((32 <=? c) && (c <=? 126)) eqn:E8.
  { apply andb_true_iff in E8 as [Hlo Hhi]. apply N.leb_le in Hlo.
    by apply scanstring_ordinary. }
  destruct (c <? 65536) eqn:E9.
  - apply N.ltb_lt in E9.
    cbn [app].
    rewrite scanstring_backslash, decode_escape_u.
    rewrite decode_hex4_hex4 by done. cbn [mbind option_bind].
    assert ((55296 <=? c) && (c <=? 56319) = false) as ->.
    { apply andb_false_iff. rewrite N.leb_gt, N.leb_gt. lia. }
    cbn [andb]. cbn [mbind option_bind].
    change (scanstring 5 (ch "u" :: hex4 c ++ tail))
      with (scanstring (length (ch "u" :: hex4 c)) ((ch "u" :: hex4 c) ++ tail)).
    by rewrite scanstring_skip.
  - apply N.ltb_ge in E9.
    destruct (surrogates_join c E9 Hmax) as ((H1a & H1b) & (H2a & H2b) & Hj).
    cbv zeta.
    set (s1 := N.lor 55296 _) in *. set (s2 := N.lor 56320 _) in *. clearbody s1 s2.
    rewrite <- app_assoc. cbn [app].
    rewrite scanstring_backslash, decode_escape_u.
    rewrite decode_hex4_hex4 by lia. cbn [mbind option_bind].
    assert ((55296 <=? s1) && (s1 <=? 56319) = true) as ->.
    { apply andb_true_iff. rewrite !N.leb_le. lia. }
    assert (drop 4 (hex4 s1 ++ BACKSLASH :: ch "u" :: hex4 s2 ++ tail)
            = BACKSLASH :: ch "u" :: hex4 s2 ++ tail) as -> by done.
    assert (drop 6 (hex4 s1 ++ BACKSLASH :: ch "u" :: hex4 s2 ++ tail)
            = hex4 s2 ++ tail) as -> by done.
    assert (startswith [BACKSLASH; ch "u"] (BACKSLASH :: ch "u" :: hex4 s2 ++ tail) = true)
      as -> by done.
    cbn [andb].
    rewrite decode_hex4_hex4 by lia. cbn [mbind option_bind].
    assert ((56320 <=? s2) && (s2 <=? 57343) = true) as ->.
    { apply andb_true_iff. rewrite !N.leb_le. lia. }
    rewrite Hj. cbn [mbind option_bind].
    change (scanstring 11 (ch "u" :: hex4 s1 ++ BACKSLASH :: ch "u" :: hex4 s2 ++ tail))
      with (scanstring (length (ch "u" :: hex4 s1 ++ BACKSLASH :: ch "u" :: hex4 s2))
              ((ch "u" :: hex4 s1 ++ BACKSLASH :: ch "u" :: hex4 s2) ++ tail)).
    by rewrite scanstring_skip.
Qed.

(** A string, written and read back. *)
Lemma scanstring_dumps (s rest : text) :
  forallb scalar_char s = true ->
  scanstring 0 (flat_map escape_char s ++ DQ ++ rest) = Some (s, rest).
Proof.
  induction s as [|c s IH]; intros Hs; [done|].
  cbn [forallb] in Hs. apply andb_true_iff in Hs as [Hc Hs].
  cbn [flat_map]. rewrite <- app_assoc, scanstring_escape_char by done.
  by rewrite IH.
Qed.

(** *** Integers *)

Lemma uint_text_digits (d : uint) : Forall (fun c => is_digit c = true) (uint_text d).
Proof. induction d; simpl; constructor; done. Qed.

Lemma span_digits_app (ds rest : text) :
  Forall (fun c => is_digit c = true) ds -> ends_number rest = true ->
  span_digits (ds ++ rest) = (ds, rest).
Proof.
  intros Hd Hr. induction Hd as [|c ds Hc Hd IH]; cbn [app span_digits].
  - destruct rest as [|c rest]; [done|]. cbn [ends_number] in Hr. cbn [span_digits].
    destruct (is_digit c) eqn:E; [simpl in Hr; discriminate | done].
  - by rewrite Hc, IH.
Qed.

Lemma digits_uint_text (d : uint) : digits_uint (uint_text d) = d.
Proof. induction d; simpl; by rewrite ?IHd. Qed.

Lemma to_uint_normal (n : N) : N.to_uint n = unorm (N.to_uint n).
Proof. rewrite <- (DecimalN.Unsigned.to_of (N.to_uint n)). by rewrite DecimalN.Unsigned.of_to. Qed.

(** The digits of a number: a lone zero, or a first digit that is not zero. *)
Lemma str_of_N_head (n : N) :
  str_of_N n = [48]
  \/ exists c t, str_of_N n = c :: t /\ is_digit c = true /\ c <> 48.
Proof.
  unfold str_of_N. rewrite to_uint_normal. unfold unorm.
  pose proof (nzhead_nonzero (N.to_uint n)) as Hnz.
  destruct (nzhead (N.to_uint n)) as [|d|d|d|d|d|d|d|d|d|d] eqn:E;
    [by left | by destruct (Hnz d) | right ..];
    cbn [uint_text]; do 2 eexists; (split; [reflexivity|]); done.
Qed.

Lemma scan_int_part_str (n : N) (rest : text) :
  ends_number rest = true ->
  scan_int_part (str_of_N n ++ rest) = Some (str_of_N n, rest).
Proof.
  intros Hr. destruct (str_of_N_head n) as [E | (c & t & E & Hc & Hne)].
  - by rewrite E.
  - pose proof (uint_text_digits (N.to_uint n)) as Hd. fold (str_of_N n) in Hd.
    rewrite <- (span_digits_app _ _ Hd Hr). rewrite E. cbn [app scan_int_part].
    by rewrite (proj2 (N.eqb_neq c 48)), Hc by done.
Qed.

Lemma scan_frac_none (rest : text) : ends_number rest = true -> scan_frac rest = ([], rest).
Proof.
  destruct rest as [|c rest]; [done|]. cbn [ends_number scan_frac].
  destruct (c =? ch "."); [|done]. rewrite andb_false_r. done.
Qed.

Lemma scan_exp_none (rest : text) : ends_number rest = true -> scan_exp rest = ([], rest).
Proof.
  destruct rest as [|c rest]; [done|]. cbn [ends_number scan_exp].
  destruct (c =? ch "e"), (c =? ch "E"); rewrite ?andb_false_r; done.
Qed.

Lemma str_of_N_value (n : N) : N.of_uint (digits_uint (str_of_N n)) = n.
Proof. unfold str_of_N. by rewrite digits_uint_text, DecimalN.Unsigned.of_to. Qed.

Lemma scan_number_unsigned (n : N) (rest : text) :
  ends_number rest = true ->
  (length (str_of_N n) <= INT_MAX_STR_DIGITS)%nat ->
  scan_number (str_of_N n ++ rest) = Some (Ok (JInt (Z.of_N n), rest)).
Proof.
  intros Hr Hlen. unfold scan_number.
  assert (exists c t, str_of_N n ++ rest = c :: t /\ (c =? ch "-") = false)
    as (c & t & E & Hc).
  { destruct (str_of_N_head n) as [E | (c & t & E & Hd & _)]; rewrite E.
    - by do 2 eexists.
    - exists c, (t ++ rest). split; [done|].
      unfold is_digit in Hd. apply andb_true_iff in Hd as [Hd _].
      apply N.leb_le in Hd. apply N.eqb_neq. intros ->. by vm_compute in Hd. }
  rewrite E, Hc, <- E.
  rewrite scan_int_part_str by done. cbn [mbind option_bind].
  rewrite scan_frac_none, scan_exp_none by done.
  apply Nat.leb_le in Hlen. rewrite Hlen. by rewrite str_of_N_value.
Qed.

Lemma scan_number_negative (p : positive) (rest : text) :
  ends_number rest = true ->
  (length (str_of_N (Npos p)) <= INT_MAX_STR_DIGITS)%nat ->
  scan_number (ch "-" :: str_of_N (Npos p) ++ rest) = Some (Ok (JInt (Zneg p), rest)).
Proof.
  intros Hr Hlen. unfold scan_number.
  change (ch "-" =? ch "-") with true. cbn match.
  rewrite scan_int_part_str by done. cbn [mbind option_bind].
  rewrite scan_frac_none, scan_exp_none by done.
  apply Nat.leb_le in Hlen. rewrite Hlen. by rewrite str_of_N_value.
Qed.

(** An integer, written and read back. *)
Lemma scan_number_int (z : Z) (rest : text) :
  ends_number rest = true ->
  (length (str_of_N (Z.abs_N z)) <= INT_MAX_STR_DIGITS)%nat ->
  scan_number (str_of_Z z ++ rest) = Some (Ok (JInt z, rest)).
Proof.
  intros Hr Hlen. destruct z as [|p|p]; cbn [str_of_Z Z.abs_N] in *.
  - by apply (scan_number_unsigned 0).
  - by apply (scan_number_unsigned (Npos p)).
  - by apply scan_number_negative.
Qed.

(** *** Values *)

Lemma json_induction (P : json -> Prop) :
  P JNull -> (forall b, P (JBool b)) -> (forall z, P (JInt z)) ->
  (forall lexeme, P (JFloat lexeme)) -> (forall s, P (JStr s)) ->
  (forall items, Forall P items -> P (JArr items)) ->
  (forall members, Forall (fun kv => P (snd kv)) members -> P (JObj members)) ->
  forall v, P v.
Proof.
  intros Hnull Hbool Hint Hfloat Hstr Harr Hobj.
  fix IH 1. intros [| b | z | lexeme | s | items | members].
  - exact Hnull.
  - apply Hbool.
  - apply Hint.
  - apply Hfloat.
  - apply Hstr.
  - apply Harr. induction items as [|v items IHitems]; constructor; [apply IH | exact IHitems].
  - apply Hobj. induction members as [|[k v] members IHm]; constructor;
      [apply IH | exact IHm].
Qed.

Lemma scan_value_string fuel depth (s : text) :
  scan_value (S fuel) depth (34 :: s)
  = '(str, rest) ← expect (scanstring 0 s); Ok (JStr str, rest).
Proof. done. Qed.

Lemma scan_value_array fuel depth (s : text) :
  scan_value (S fuel) (S depth) (ch "[" :: s)
  = match skip_ws s with
    | c1 :: r =>
        if c1 =? ch "]" then Ok (JArr [], r)
        else '(items, rest) ← scan_items fuel depth (c1 :: r); Ok (JArr items, rest)
    | [] => Raise JSONDecodeError
    end.
Proof. done. Qed.

Lemma scan_value_object fuel depth (s : text) :
  scan_value (S fuel) (S depth) (ch "{" :: s)
  = match skip_ws s with
    | c1 :: r =>
        if c1 =? ch "}" then Ok (JObj [], r)
        else if c1 =? 34 then
          '(pairs, rest) ← scan_pairs fuel depth r; Ok (JObj (dict_of_pairs pairs), rest)
        else Raise JSONDecodeError
    | [] => Raise JSONDecodeError
    end.
Proof. done. Qed.

(** A bracket met when no level of nesting is left. *)
Lemma scan_value_too_deep fuel (c : N) (s : text) :
  c = ch "{" \/ c = ch "[" -> scan_value (S fuel) 0 (c :: s) = Raise RecursionError.
Proof. by intros [-> | ->]. Qed.

Lemma scan_items_step fuel depth (s : text) :
  scan_items (S fuel) depth s
  = '(v, r) ← scan_value fuel depth s;
    match skip_ws r with
    | c :: r' =>
        if c =? ch "]" then Ok ([v], r')
        else if c =? ch "," then
          '(vs, rest) ← scan_items fuel depth (skip_ws r'); Ok (v :: vs, rest)
        else Raise JSONDecodeError
    | [] => Raise JSONDecodeError
    end.
Proof. done. Qed.

Lemma scan_pairs_step fuel depth (s : text) :
  scan_pairs (S fuel) depth s
  = '(key, r) ← expect (scanstring 0 s);
    match skip_ws r with
    | c :: r' =>
        if c =? ch ":" then
          '(v, r2) ← scan_value fuel depth (skip_ws r');
          match skip_ws r2 with
          | c2 :: r3 =>
              if c2 =? ch "}" then Ok ([(key, v)], r3)
              else if c2 =? ch "," then
                match skip_ws r3 with
                | c3 :: r4 =>
                    if c3 =? 34 then
                      '(kvs, rest) ← scan_pairs fuel depth r4; Ok ((key, v) :: kvs, rest)
                    else Raise JSONDecodeError
                | [] => Raise JSONDecodeError
                end
              else Raise JSONDecodeError
          | [] => Raise JSONDecodeError
          end
        else Raise JSONDecodeError
    | [] => Raise JSONDecodeError
    end.
Proof. done. Qed.

(** A text that opens with a digit or a minus sign is read as a number. *)
Lemma scan_value_number fuel depth (c : N) (t : text) :
  is_digit c = true \/ c = ch "-" ->
  scan_value (S fuel) depth (c :: t)
  = match scan_number (c :: t) with
    | Some r => r
    | None =>
        if startswith (lit "-Infinity") (c :: t)
        then Ok (JFloat (lit "-Infinity"), drop 9 (c :: t))
        else Raise JSONDecodeError
    end.
Proof.
  intros [Hd | ->]; [|done].
  unfold is_digit in Hd. apply andb_true_iff in Hd as [Hlo Hhi].
  apply N.leb_le in Hlo, Hhi. cbn [scan_value].
  rewrite (proj2 (N.eqb_neq c 34)) by lia.
  rewrite (proj2 (N.eqb_neq c (ch "{"))) by (vm_compute; lia).
  rewrite (proj2 (N.eqb_neq c (ch "["))) by (vm_compute; lia).
  assert (forall k p, k <> c -> startswith (k :: p) (c :: t) = false) as Hsw.
  { intros k p Hk. cbn [startswith]. by rewrite (proj2 (N.eqb_neq k c)). }
  change (lit "null") with (110 :: lit "ull"). rewrite Hsw by lia.
  change (lit "true") with (116 :: lit "rue"). rewrite Hsw by lia.
  change (lit "false") with (102 :: lit "alse"). rewrite Hsw by lia.
  change (lit "NaN") with (78 :: lit "aN"). rewrite Hsw by lia.
  change (lit "Infinity") with (73 :: lit "nfinity"). rewrite Hsw by lia.
  done.
Qed.

Lemma str_of_Z_head (z : Z) :
  exists c t, str_of_Z z = c :: t /\ (is_digit c = true \/ c = ch "-").
Proof.
  destruct z as [|p|p]; cbn [str_of_Z].
  - destruct (str_of_N_head 0) as [E | (c & t & E & Hc & _)]; rewrite E; eauto.
  - destruct (str_of_N_head (Npos p)) as [E | (c & t & E & Hc & _)]; rewrite E; eauto.
  - eauto.
Qed.

Lemma digit_not_ws (c : N) :
  is_digit c = true \/ c = ch "-" -> is_json_ws c = false /\ c <> ch "]".
Proof.
  intros [Hd | ->]; [|done].
  unfold is_digit in Hd. apply andb_true_iff in Hd as [Hlo Hhi].
  apply N.leb_le in Hlo, Hhi. unfold is_json_ws.
  rewrite !(proj2 (N.eqb_neq c _)) by lia. split; [done|]. vm_compute. lia.
Qed.

(** What [json.dumps] writes never opens with whitespace nor with a closing
    bracket. *)
Lemma dumps_head (v : json) :
  json_ok v = true ->
  exists c t, json_dumps v = c :: t /\ is_json_ws c = false /\ c <> ch "]".
Proof.
  destruct v as [| [|] | z | lexeme | s | items | members]; intros Hok.
  - by exists (ch "n"), (lit "ull").
  - by exists (ch "t"), (lit "rue").
  - by exists (ch "f"), (lit "alse").
  - destruct (str_of_Z_head z) as (c & t & E & Hc).
    exists c, t. split; [done|]. by apply digit_not_ws.
  - discriminate Hok.
  - by exists 34, (flat_map escape_char s ++ DQ).
  - by exists (ch "["), (join (lit ", ") (map json_dumps items) ++ lit "]").
  - by eexists (ch "{"), _.
Qed.

Lemma skip_ws_head (c : N) (t : text) : is_json_ws c = false -> skip_ws (c :: t) = c :: t.
Proof. intros H. cbn [skip_ws]. by rewrite H. Qed.

Lemma skip_ws_dumps (v : json) (rest : text) :
  json_ok v = true -> skip_ws (json_dumps v ++ rest) = json_dumps v ++ rest.
Proof.
  intros Hok. destruct (dumps_head v Hok) as (c & t & E & Hc & _).
  rewrite E. by apply skip_ws_head.
Qed.

Lemma dict_set_fresh (d : list (text * json)) (k : text) (v : json) :
  ~ In k (map fst d) -> dict_set d k v = d ++ [(k, v)].
Proof.
  induction d as [|[k' v'] d IH]; intros H; cbn [dict_set app]; [done|].
  cbn [map fst In] in H.
  rewrite (proj2 (text_eqb_neq k' k)) by tauto. rewrite IH by tauto. done.
Qed.

Lemma dict_of_pairs_fold (acc pairs : list (text * json)) :
  NoDup (map fst (acc ++ pairs)) ->
  fold_left (fun d kv => dict_set d (fst kv) (snd kv)) pairs acc = acc ++ pairs.
Proof.
  revert acc. induction pairs as [|[k v] pairs IH]; intros acc Hnd; cbn [fold_left].
  { by rewrite app_nil_r. }
  cbn [fst snd]. rewrite dict_set_fresh.
  - rewrite IH; rewrite <- app_assoc; done.
  - rewrite map_app in Hnd. apply NoDup_app in Hnd as (_ & Hdis & _).
    intros Hin. apply (Hdis k); [by apply list_elem_of_In|]. cbn. apply list_elem_of_here.
Qed.

(** A [dict] without repeated keys is the list of its items. *)
Lemma dict_of_pairs_nodup (pairs : list (text * json)) :
  NoDup (map fst pairs) -> dict_of_pairs pairs = pairs.
Proof. intros H. unfold dict_of_pairs. by rewrite dict_of_pairs_fold. Qed.

Lemma join_cons2 (sep p q : text) (rest : list text) :
  join sep (p :: q :: rest) = p ++ sep ++ join sep (q :: rest).
Proof. done. Qed.

Lemma pairs_join (k : text) (v : json) (members : list (text * json)) :
  join (lit ", ")
    (map (fun kv => dumps_string (fst kv) ++ lit ": " ++ json_dumps (snd kv))
         ((k, v) :: members))
  = DQ ++ pair_body k v ++ pairs_tail members.
Proof.
  revert k v. induction members as [|[k2 v2] members IH]; intros k v.
  - cbn [map join fst snd pairs_tail]. unfold dumps_string, pair_body.
    by rewrite app_nil_r, <- !app_assoc.
  - cbn [map]. rewrite join_cons2. cbn [map] in IH. rewrite IH.
    cbn [fst snd pairs_tail]. unfold dumps_string, pair_body.
    by rewrite <- !app_assoc.
Qed.

Lemma join_head (sep p : text) (l : list text) :
  exists tl, join sep (p :: l) = p ++ tl.
Proof. destruct l as [|q l]; [exists []; by rewrite app_nil_r | by eexists]. Qed.

Lemma items_end (depth : nat) (v : json) (rest : text) :
  match skip_ws (lit "]" ++ rest) with
  | c :: r' =>
      if c =? ch "]" then Ok ([v], r')
      else if c =? ch "," then
        '(vs, rest) ← scan_items 0 depth (skip_ws r'); Ok (v :: vs, rest)
      else Raise JSONDecodeError
  | [] => Raise JSONDecodeError
  end = Ok ([v], rest).
Proof. done. Qed.

Lemma items_more (fuel depth : nat) (v : json) (X : text) :
  match skip_ws (lit ", " ++ X) with
  | c :: r' =>
      if c =? ch "]" then Ok ([v], r')
      else if c =? ch "," then
        '(vs, rest) ← scan_items fuel depth (skip_ws r'); Ok (v :: vs, rest)
      else Raise JSONDecodeError
  | [] => Raise JSONDecodeError
  end = '(vs, rest) ← scan_items fuel depth (skip_ws X); Ok (v :: vs, rest).
Proof. done. Qed.

(** The nesting of an array or of an object against the levels left. *)
Lemma depth_of_items {A : Type} (f : A -> nat) (l : list A) (depth : nat) :
  (S (foldr Nat.max 0%nat (map f l)) <=? S depth)%nat
  = forallb (fun x => (f x <=? depth)%nat) l.
Proof.
  change (S ?a <=? S ?b)%nat with (a <=? b)%nat.
  induction l as [|x l IH]; [done|]. cbn [map foldr forallb]. rewrite <- IH.
  destruct (f x <=? depth)%nat eqn:E1, (foldr Nat.max 0%nat (map f l) <=? depth)%nat eqn:E2;
    rewrite ?Nat.leb_le, ?Nat.leb_gt in *; cbn [andb];
    rewrite ?Nat.leb_le, ?Nat.leb_gt; lia.
Qed.

Lemma scan_items_dumps (vs : list json) :
  Forall round_trips vs ->
  forall (v : json) (fuel depth : nat) (rest : text),
    round_trips v -> forallb json_ok (v :: vs) = true ->
    (length (join (lit ", ") (map json_dumps (v :: vs))) + 1 < fuel)%nat ->
    scan_items fuel depth (join (lit ", ") (map json_dumps (v :: vs)) ++ lit "]" ++ rest)
    = read_back (forallb (fun x => (json_depth x <=? depth)%nat) (v :: vs)) (v :: vs, rest).
Proof.
  induction 1 as [|v2 vs Hv2 Hvs IH]; intros v fuel depth rest Hv Hok Hf;
    cbn [forallb] in Hok; apply andb_true_iff in Hok as [Hokv Hok].
  - cbn [map join forallb] in *. destruct fuel as [|fuel]; [lia|].
    rewrite scan_items_step, (Hv Hokv) by (done || lia).
    rewrite andb_true_r. destruct (json_depth v <=? depth)%nat; [|done].
    cbn [read_back mbind result_bind]. destruct fuel; [lia|]. done.
  - cbn [map] in *. rewrite join_cons2 in *. rewrite !length_app in Hf.
    change (length (lit ", ")) with 2%nat in Hf.
    destruct fuel as [|fuel]; [lia|].
    rewrite <- !app_assoc.
    rewrite scan_items_step, (Hv Hokv) by (done || lia).
    cbn [forallb]. destruct (json_depth v <=? depth)%nat; [|done].
    cbn [read_back mbind result_bind andb]. rewrite items_more.
    assert (skip_ws (join (lit ", ") (json_dumps v2 :: map json_dumps vs)
                     ++ lit "]" ++ rest)
            = join (lit ", ") (json_dumps v2 :: map json_dumps vs) ++ lit "]" ++ rest)
      as ->.
    { destruct (join_head (lit ", ") (json_dumps v2) (map json_dumps vs)) as (tl & ->).
      rewrite <- app_assoc. apply skip_ws_dumps.
      cbn [forallb] in Hok. by apply andb_true_iff in Hok as [? _]. }
    rewrite IH; [| done | done | lia].
    cbn [forallb]. by destruct ((json_depth v2 <=? depth)%nat && _).
Qed.

Lemma pairs_colon (fuel depth : nat) (key : text) (X : text) :
  match skip_ws (lit ": " ++ X) with
  | c :: r' =>
      if c =? ch ":" then
        '(v, r2) ← scan_value fuel depth (skip_ws r');
        match skip_ws r2 with
        | c2 :: r3 =>
            if c2 =? ch "}" then Ok ([(key, v)], r3)
            else if c2 =? ch "," then
              match skip_ws r3 with
              | c3 :: r4 =>
                  if c3 =? 34 then
                    '(kvs, rest) ← scan_pairs fuel depth r4; Ok ((key, v) :: kvs, rest)
                  else Raise JSONDecodeError
              | [] => Raise JSONDecodeError
              end
            else Raise JSONDecodeError
        | [] => Raise JSONDecodeError
        end
      else Raise JSONDecodeError
  | [] => Raise JSONDecodeError
  end
  = '(v, r2) ← scan_value fuel depth (skip_ws X);
    match skip_ws r2 with
    | c2 :: r3 =>
        if c2 =? ch "}" then Ok ([(key, v)], r3)
        else if c2 =? ch "," then
          match skip_ws r3 with
          | c3 :: r4 =>
              if c3 =? 34 then
                '(kvs, rest) ← scan_pairs fuel depth r4; Ok ((key, v) :: kvs, rest)
              else Raise JSONDecodeError
          | [] => Raise JSONDecodeError
          end
        else Raise JSONDecodeError
    | [] => Raise JSONDecodeError
    end.
Proof. done. Qed.

Lemma pairs_more (fuel depth : nat) (key : text) (v : json) (X : text) :
  match skip_ws (lit ", " ++ DQ ++ X) with
  | c2 :: r3 =>
      if c2 =? ch "}" then Ok ([(key, v)], r3)
      else if c2 =? ch "," then
        match skip_ws r3 with
        | c3 :: r4 =>
            if c3 =? 34 then
              '(kvs, rest) ← scan_pairs fuel depth r4; Ok ((key, v) :: kvs, rest)
            else Raise JSONDecodeError
        | [] => Raise JSONDecodeError
        end
      else Raise JSONDecodeError
  | [] => Raise JSONDecodeError
  end = '(kvs, rest) ← scan_pairs fuel depth X; Ok ((key, v) :: kvs, rest).
Proof. done. Qed.

Lemma ends_number_pairs_tail (members : list (text * json)) (rest : text) :
  ends_number (pairs_tail members ++ lit "}" ++ rest) = true.
Proof. by destruct members as [|[k v] members]. Qed.

Lemma scan_pairs_dumps (members : list (text * json)) :
  Forall (fun kv => round_trips (snd kv)) members ->
  forall (k : text) (v : json) (fuel depth : nat) (rest : text),
    round_trips v -> forallb scalar_char k = true -> json_ok v = true ->
    forallb (fun kv => forallb scalar_char (fst kv) && json_ok (snd kv)) members = true ->
    (length (pair_body k v ++ pairs_tail members) + 1 < fuel)%nat ->
    scan_pairs fuel depth (pair_body k v ++ pairs_tail members ++ lit "}" ++ rest)
    = read_back (forallb (fun kv => (json_depth (snd kv) <=? depth)%nat) ((k, v) :: members))
        ((k, v) :: members, rest).
Proof.
  induction 1 as [|[k2 v2] members Hv2 Hms IH];
    intros k v fuel depth rest Hv Hk Hokv Hok Hf;
    rewrite length_app in Hf; unfold pair_body in Hf; rewrite !length_app in Hf;
    change (length DQ) with 1%nat in Hf; change (length (lit ": ")) with 2%nat in Hf;
    (destruct fuel as [|fuel]; [lia|]);
    rewrite scan_pairs_step; unfold pair_body at 1; rewrite <- !app_assoc;
    rewrite scanstring_dumps by done; cbn [expect mbind result_bind];
    rewrite pairs_colon, skip_ws_dumps by done;
    rewrite (Hv Hokv) by (apply ends_number_pairs_tail || lia);
    cbn [forallb snd]; (destruct (json_depth v <=? depth)%nat; [|done]);
    cbn [read_back mbind result_bind andb].
  - by cbn.
  - cbn [pairs_tail]. rewrite <- !app_assoc. rewrite pairs_more.
    cbn [forallb fst snd] in Hok.
    apply andb_true_iff in Hok as [Hok2 Hok]. apply andb_true_iff in Hok2 as [Hk2 Hokv2].
    rewrite IH; [| done | done | done | done |].
    + cbn [forallb snd]. by destruct ((json_depth v2 <=? depth)%nat && _).
    + cbn [pairs_tail] in Hf. rewrite !length_app in Hf.
      change (length DQ) with 1%nat in Hf. change (length (lit ", ")) with 2%nat in Hf.
      rewrite length_app. lia.
Qed.

(** Every value that [json_ok] admits is read back from its text when the
    nesting is followed, and ends the scan in [RecursionError] when not. *)
Theorem scan_value_dumps (v : json) : round_trips v.
Proof.
  induction v as [| b | z | lexeme | s | items IH | members IH] using json_induction;
    intros Hok fuel depth rest Hf Hr; (destruct fuel as [|fuel]; [lia|]).
  - done.
  - by destruct b.
  - cbn [json_dumps json_ok] in *. apply Nat.leb_le in Hok.
    destruct (str_of_Z_head z) as (c & t & E & Hc).
    rewrite E. cbn [app]. rewrite scan_value_number by done.
    change (c :: t ++ rest) with ((c :: t) ++ rest).
    rewrite <- E. by rewrite scan_number_int.
  - discriminate Hok.
  - cbn [json_dumps json_ok] in *. unfold dumps_string. rewrite <- !app_assoc.
    change (DQ ++ flat_map escape_char s ++ DQ ++ rest)
      with (34 :: flat_map escape_char s ++ DQ ++ rest).
    rewrite scan_value_string, scanstring_dumps by done. done.
  - cbn [json_dumps json_ok] in *. rewrite <- !app_assoc.
    change (lit "[" ++ ?x) with (ch "[" :: x).
    destruct depth as [|depth]; [by rewrite scan_value_too_deep by (by right)|].
    cbn [json_depth]. rewrite depth_of_items, scan_value_array.
    destruct items as [|v items]; [done|].
    apply Forall_cons in IH as [Hv IH].
    destruct (join_head (lit ", ") (json_dumps v) (map json_dumps items)) as (tl & Etl).
    cbn [map]. pose proof Hok as Hok'. cbn [forallb] in Hok'.
    apply andb_true_iff in Hok' as [Hokv _].
    destruct (dumps_head v Hokv) as (c & t & E & Hc & Hb).
    rewrite Etl, E, <- !app_assoc. cbn [app]. rewrite skip_ws_head by done.
    rewrite (proj2 (N.eqb_neq c (ch "]"))) by done.
    change (c :: t ++ tl ++ lit "]" ++ rest) with ((c :: t) ++ tl ++ lit "]" ++ rest).
    rewrite <- E, app_assoc, <- Etl.
    change (json_dumps v :: map json_dumps items) with (map json_dumps (v :: items)).
    rewrite scan_items_dumps;
      [by destruct (forallb (fun x => (json_depth x <=? depth)%nat) _) | done | done | done |].
    rewrite !length_app in Hf.
    change (length (lit "[")) with 1%nat in Hf. change (length (lit "]")) with 1%nat in Hf.
    cbn [map] in *. lia.
  - cbn [json_dumps json_ok] in *. rewrite <- !app_assoc.
    change (lit "{" ++ ?x) with (ch "{" :: x).
    destruct depth as [|depth]; [by rewrite scan_value_too_deep by (by left)|].
    cbn [json_depth]. rewrite depth_of_items, scan_value_object.
    apply andb_true_iff in Hok as [Hok Hnd]. apply bool_decide_eq_true in Hnd.
    destruct members as [|[k v] members]; [done|].
    apply Forall_cons in IH as [Hv IH]. cbn [snd] in Hv.
    rewrite pairs_join in *. rewrite <- !app_assoc.
    change (skip_ws (DQ ++ ?x)) with (34 :: x).
    change (34 =? ch "}") with false. change (34 =? 34) with true. cbn match.
    cbn [forallb fst snd] in Hok.
    apply andb_true_iff in Hok as [Hok1 Hok]. apply andb_true_iff in Hok1 as [Hk Hokv].
    rewrite scan_pairs_dumps; [| done | done | done | done | done |].
    + destruct (forallb (fun kv => (json_depth kv.2 <=? depth)%nat) _); [|done].
      cbn [read_back mbind result_bind]. by rewrite dict_of_pairs_nodup.
    + rewrite !length_app in Hf. change (length (lit "{")) with 1%nat in Hf.
      change (length DQ) with 1%nat in Hf. rewrite length_app. lia.
Qed.

(** [json.loads(json.dumps(v))] is [v] when the nesting of [v] is followed,
    and ends in [RecursionError] when it is not. *)
Theorem json_loads_dumps_depth (limit : nat) (v : json) :
  json_ok v = true ->
  json_loads limit (json_dumps v) = read_back (json_depth v <=? limit)%nat v.
Proof.
  intros Hok. unfold json_loads.
  pose proof (skip_ws_dumps v [] Hok) as Hs. rewrite app_nil_r in Hs. rewrite Hs.
  pose proof (scan_value_dumps v Hok (2 * length (json_dumps v) + 2)%nat limit []
                ltac:(lia) eq_refl) as H.
  rewrite app_nil_r in H. rewrite H. by destruct (json_depth v <=? limit)%nat.
Qed.

Theorem json_loads_dumps (limit : nat) (v : json) :
  json_ok v = true -> (json_depth v <= limit)%nat ->
  json_loads limit (json_dumps v) = Ok v.
Proof.
  intros Hok Hd. rewrite json_loads_dumps_depth by done.
  by rewrite (proj2 (Nat.leb_le _ _) Hd).
Qed.
(** ** The fuel of the decoder

    Every scanner takes at least one character for what it reads, so that
    twice the length of the text (and two) is fuel enough: more fuel never
    changes what [json.loads] comes to. *)

Lemma skip_ws_length (s : text) : (length (skip_ws s) <= length s)%nat.
Proof.
  induction s as [|c s IH]; [done|]. cbn [skip_ws].
  destruct (is_json_ws c); cbn [length]; lia.
Qed.

Lemma skip_ws_cons_length (s : text) (c : N) (r : text) :
  skip_ws s = c :: r -> (length r < length s)%nat.
Proof.
  intros H. pose proof (skip_ws_length s) as Hl. rewrite H in Hl. cbn [length] in Hl. lia.
Qed.

Lemma scanstring_length (s : text) :
  forall skip body rest, scanstring skip s = Some (body, rest) ->
    (length rest < length s)%nat.
Proof.
  induction s as [|c s IH]; intros skip body rest H; [done|].
  cbn [scanstring] in H. cbn [length]. destruct skip as [|k].
  - destruct (c =? 34).
    { injection H as _ <-. lia. }
    destruct (c =? BACKSLASH).
    { destruct (decode_escape s) as [[uni taken]|]; [|done]. cbn [mbind option_bind] in H.
      destruct (scanstring taken s) as [[b r]|] eqn:E; [|done]. cbn [mbind option_bind] in H.
      injection H as _ <-. apply IH in E. lia. }
    destruct (c <? 32); [done|].
    destruct (scanstring 0 s) as [[b r]|] eqn:E; [|done]. cbn [mbind option_bind] in H.
    injection H as _ <-. apply IH in E. lia.
  - apply IH in H. lia.
Qed.

Lemma span_digits_length (s : text) : (length (span_digits s).2 <= length s)%nat.
Proof.
  induction s as [|c s IH]; [done|]. cbn [span_digits].
  destruct (is_digit c); [|done].
  destruct (span_digits s) as [ds rest]. cbn [snd length] in *. lia.
Qed.

Lemma scan_int_part_length (s ds rest : text) :
  scan_int_part s = Some (ds, rest) -> (length rest < length s)%nat.
Proof.
  destruct s as [|c s]; [done|]. cbn [scan_int_part].
  destruct (c =? 48).
  { intros [= _ <-]. cbn [length]. lia. }
  destruct (is_digit c) eqn:Ec; [|done].
  cbn [span_digits]. rewrite Ec.
  pose proof (span_digits_length s) as Hl.
  destruct (span_digits s) as [ds' rest']. intros [= _ <-]. cbn [snd length] in *. lia.
Qed.

Lemma scan_frac_length (s : text) : (length (scan_frac s).2 <= length s)%nat.
Proof.
  destruct s as [|c s]; [done|]. cbn [scan_frac].
  destruct (c =? ch "."); [|done].
  pose proof (span_digits_length s) as Hl.
  destruct (span_digits s) as [[|d ds] rest]; [done|].
  cbn [snd length] in *. lia.
Qed.

Lemma scan_exp_length (s : text) : (length (scan_exp s).2 <= length s)%nat.
Proof.
  destruct s as [|c s]; [done|]. cbn [scan_exp].
  destruct ((c =? ch "e") || (c =? ch "E")); [|done].
  destruct s as [|sg s]; [done|].
  destruct ((sg =? ch "-") || (sg =? ch "+")).
  - pose proof (span_digits_length s) as Hl.
    destruct (span_digits s) as [[|d ds] rest]; [done|].
    cbn [snd length] in *. lia.
  - pose proof (span_digits_length (sg :: s)) as Hl.
    destruct (span_digits (sg :: s)) as [[|d ds] rest]; [done|].
    cbn [snd length] in *. lia.
Qed.

Lemma scan_number_length (s : text) (v : json) (rest : text) :
  scan_number s = Some (Ok (v, rest)) -> (length rest < length s)%nat.
Proof.
  unfold scan_number.
  set (p := match s with
            | [] => (false, s)
            | c :: s' => if c =? ch "-" then (true, s') else (false, s)
            end).
  assert (length p.2 <= length s)%nat as Hp.
  { subst p. destruct s as [|c s']; [done|].
    destruct (c =? ch "-"); cbn [snd length]; lia. }
  destruct p as [neg s1]. cbn [snd] in Hp.
  destruct (scan_int_part s1) as [[ds s2]|] eqn:E1; [|done]. cbn [mbind option_bind].
  apply scan_int_part_length in E1.
  pose proof (scan_frac_length s2) as H2. destruct (scan_frac s2) as [frac s3].
  pose proof (scan_exp_length s3) as H3. destruct (scan_exp s3) as [ex s4].
  cbn [snd] in *.
  destruct frac, ex; [destruct (_ <=? _)%nat; [|done] | ..]; intros [= _ <-]; lia.
Qed.

(** What any of the three scanners leaves is shorter than its input. *)
Lemma scan_length (fuel : nat) :
  (forall depth s v r, scan_value fuel depth s = Ok (v, r) -> (length r < length s)%nat)
  /\ (forall depth s vs r, scan_items fuel depth s = Ok (vs, r) ->
        (length r < length s)%nat)
  /\ (forall depth s kvs r, scan_pairs fuel depth s = Ok (kvs, r) ->
        (length r < length s)%nat).
Proof.
  induction fuel as [|fuel (IHv & IHi & IHp)]; [by repeat split|].
  split; [|split].
  - intros depth [|c s] v r H; [done|]. cbn [scan_value] in H.
    destruct (c =? 34).
    { destruct (scanstring 0 s) as [[str rest]|] eqn:E; [|done].
      cbn [expect mbind result_bind] in H.
      injection H as _ <-. apply scanstring_length in E. cbn [length]. lia. }
    destruct (c =? ch "{").
    { destruct depth as [|depth]; [done|].
      destruct (skip_ws s) as [|c1 r1] eqn:Ews; [done|].
      apply skip_ws_cons_length in Ews.
      destruct (c1 =? ch "}"); [injection H as _ <-; cbn [length]; lia|].
      destruct (c1 =? 34); [|done].
      destruct (scan_pairs fuel depth r1) as [[pairs rest]|e] eqn:E; [|done].
      cbn [expect mbind result_bind] in H.
      injection H as _ <-. apply IHp in E. cbn [length]. lia. }
    destruct (c =? ch "[").
    { destruct depth as [|depth]; [done|].
      destruct (skip_ws s) as [|c1 r1] eqn:Ews; [done|].
      apply skip_ws_cons_length in Ews.
      destruct (c1 =? ch "]"); [injection H as _ <-; cbn [length]; lia|].
      destruct (scan_items fuel depth (c1 :: r1)) as [[items rest]|e] eqn:E; [|done].
      cbn [expect mbind result_bind] in H.
      injection H as _ <-. apply IHi in E. cbn [length] in *. lia. }
    destruct (startswith (lit "null") (c :: s));
      [injection H as _ <-; rewrite length_drop; cbn [length]; lia|].
    destruct (startswith (lit "true") (c :: s));
      [injection H as _ <-; rewrite length_drop; cbn [length]; lia|].
    destruct (startswith (lit "false") (c :: s));
      [injection H as _ <-; rewrite length_drop; cbn [length]; lia|].
    destruct (scan_number (c :: s)) as [[[v' r']|e]|] eqn:E; [| done |].
    { injection H as _ <-. by eapply scan_number_length. }
    destruct (startswith (lit "NaN") (c :: s));
      [injection H as _ <-; rewrite length_drop; cbn [length]; lia|].
    destruct (startswith (lit "Infinity") (c :: s));
      [injection H as _ <-; rewrite length_drop; cbn [length]; lia|].
    destruct (startswith (lit "-Infinity") (c :: s));
      [injection H as _ <-; rewrite length_drop; cbn [length]; lia|].
    done.
  - intros depth s vs r H. rewrite scan_items_step in H.
    destruct (scan_value fuel depth s) as [[v r1]|e] eqn:E; [|done].
    cbn [expect mbind result_bind] in H. apply IHv in E.
    destruct (skip_ws r1) as [|c r2] eqn:Ews; [done|]. apply skip_ws_cons_length in Ews.
    destruct (c =? ch "]").
    { injection H as _ <-. lia. }
    destruct (c =? ch ","); [|done].
    destruct (scan_items fuel depth (skip_ws r2)) as [[vs' rest]|e] eqn:E2; [|done].
    cbn [expect mbind result_bind] in H.
    injection H as _ <-. apply IHi in E2. pose proof (skip_ws_length r2). lia.
  - intros depth s kvs r H. rewrite scan_pairs_step in H.
    destruct (scanstring 0 s) as [[key r1]|] eqn:E; [|done].
    cbn [expect mbind result_bind] in H. apply scanstring_length in E.
    destruct (skip_ws r1) as [|c r2] eqn:Ews; [done|]. apply skip_ws_cons_length in Ews.
    destruct (c =? ch ":"); [|done].
    destruct (scan_value fuel depth (skip_ws r2)) as [[v r3]|e] eqn:E2; [|done].
    cbn [expect mbind result_bind] in H.
    apply IHv in E2. pose proof (skip_ws_length r2) as Hr2.
    destruct (skip_ws r3) as [|c2 r4] eqn:Ews3; [done|]. apply skip_ws_cons_length in Ews3.
    destruct (c2 =? ch "}").
    { injection H as _ <-. lia. }
    destruct (c2 =? ch ","); [|done].
    destruct (skip_ws r4) as [|c3 r5] eqn:Ews4; [done|]. apply skip_ws_cons_length in Ews4.
    destruct (c3 =? 34); [|done].
    destruct (scan_pairs fuel depth r5) as [[kvs' rest]|e] eqn:E5; [|done].
    cbn [expect mbind result_bind] in H.
    injection H as _ <-. apply IHp in E5. lia.
Qed.

(** One more unit of fuel changes nothing once there are two for each
    character. *)
Lemma scan_fuel_step (fuel : nat) :
  (forall depth s, (2 * length s + 1 <= fuel)%nat ->
     scan_value (S fuel) depth s = scan_value fuel depth s)
  /\ (forall depth s, (2 * length s + 2 <= fuel)%nat ->
        scan_items (S fuel) depth s = scan_items fuel depth s)
  /\ (forall depth s, (2 * length s + 2 <= fuel)%nat ->
        scan_pairs (S fuel) depth s = scan_pairs fuel depth s).
Proof.
  induction fuel as [|fuel (IHv & IHi & IHp)]; [repeat split; intros; lia|].
  destruct (scan_length fuel) as (Lv & _ & _).
  split; [|split].
  - intros depth [|c s] Hf; [done|]. cbn [length] in Hf.
    cbn [scan_value].
    destruct (c =? 34); [done|].
    destruct (c =? ch "{").
    { destruct depth as [|depth]; [done|].
      destruct (skip_ws s) as [|c1 r1] eqn:Ews; [done|].
      apply skip_ws_cons_length in Ews.
      destruct (c1 =? ch "}"); [done|]. destruct (c1 =? 34); [|done].
      rewrite (IHp depth r1) by lia. done. }
    destruct (c =? ch "[").
    { destruct depth as [|depth]; [done|].
      destruct (skip_ws s) as [|c1 r1] eqn:Ews; [done|].
      apply skip_ws_cons_length in Ews.
      destruct (c1 =? ch "]"); [done|].
      rewrite (IHi depth (c1 :: r1)) by (cbn [length]; lia). done. }
    done.
  - intros depth s Hf. rewrite (scan_items_step (S fuel)), (scan_items_step fuel).
    rewrite (IHv depth s) by lia.
    destruct (scan_value fuel depth s) as [[v r1]|e] eqn:E; [|done].
    cbn [mbind result_bind]. apply Lv in E.
    destruct (skip_ws r1) as [|c r2] eqn:Ews; [done|]. apply skip_ws_cons_length in Ews.
    destruct (c =? ch "]"); [done|]. destruct (c =? ch ","); [|done].
    pose proof (skip_ws_length r2).
    rewrite (IHi depth (skip_ws r2)) by lia. done.
  - intros depth s Hf. rewrite (scan_pairs_step (S fuel)), (scan_pairs_step fuel).
    destruct (scanstring 0 s) as [[key r1]|] eqn:E; [|done].
    cbn [expect mbind result_bind]. apply scanstring_length in E.
    destruct (skip_ws r1) as [|c r2] eqn:Ews; [done|]. apply skip_ws_cons_length in Ews.
    destruct (c =? ch ":"); [|done].
    pose proof (skip_ws_length r2) as Hr2.
    rewrite (IHv depth (skip_ws r2)) by lia.
    destruct (scan_value fuel depth (skip_ws r2)) as [[v r3]|e] eqn:E2; [|done].
    cbn [mbind result_bind]. apply Lv in E2.
    destruct (skip_ws r3) as [|c2 r4] eqn:Ews3; [done|]. apply skip_ws_cons_length in Ews3.
    destruct (c2 =? ch "}"); [done|]. destruct (c2 =? ch ","); [|done].
    destruct (skip_ws r4) as [|c3 r5] eqn:Ews4; [done|]. apply skip_ws_cons_length in Ews4.
    destruct (c3 =? 34); [|done].
    rewrite (IHp depth r5) by lia. done.
Qed.

(** The scan of a value does not depend on the fuel, from two units for
    each character on. *)
Lemma scan_value_fuel (extra depth : nat) (s : text) :
  scan_value (extra + (2 * length s + 1)) depth s
  = scan_value (2 * length s + 1) depth s.
Proof.
  induction extra as [|extra IH]; [done|].
  cbn [Nat.add]. destruct (scan_fuel_step (extra + (2 * length s + 1))) as (Hv & _).
  rewrite Hv by lia. exact IH.
Qed.

(** [json_loads] with any more fuel is [json_loads]: the fuel is never what
    ends the scan. *)
Theorem json_loads_fuel (fuel limit : nat) (s : text) :
  (2 * length s + 2 <= fuel)%nat ->
  ('(v, rest) ← scan_value fuel limit (skip_ws s);
   match skip_ws rest with
   | [] => Ok v
   | _ :: _ => Raise JSONDecodeError
   end) = json_loads limit s.
Proof.
  intros Hf. unfold json_loads. pose proof (skip_ws_length s) as Hl.
  set (t := skip_ws s) in *.
  replace fuel with ((fuel - (2 * length t + 1)) + (2 * length t + 1))%nat by lia.
  replace (2 * length s + 2)%nat
    with ((2 * length s + 2 - (2 * length t + 1)) + (2 * length t + 1))%nat by lia.
  by rewrite !scan_value_fuel.
Qed.
(** ** What [json.loads] leaves unread comes from its input *)

Lemma incl_skip_ws (s : text) : incl (skip_ws s) s.
Proof.
  induction s as [|c s IH]; [apply incl_refl|]. cbn [skip_ws].
  destruct (is_json_ws c); [by apply incl_tl | apply incl_refl].
Qed.

Lemma incl_drop (n : nat) (s : text) : incl (drop n s) s.
Proof.
  revert n. induction s as [|c s IH]; intros [|n]; cbn [drop]; try apply incl_refl.
  by apply incl_tl.
Qed.

Lemma scanstring_incl (s : text) :
  forall skip body rest, scanstring skip s = Some (body, rest) -> incl rest s.
Proof.
  induction s as [|c s IH]; intros skip body rest H; [done|].
  cbn [scanstring] in H. destruct skip as [|k].
  - destruct (c =? 34).
    { injection H as _ <-. apply incl_tl, incl_refl. }
    destruct (c =? BACKSLASH).
    { destruct (decode_escape s) as [[uni taken]|]; [|done]. cbn [mbind option_bind] in H.
      destruct (scanstring taken s) as [[b r]|] eqn:E; [|done]. cbn [mbind option_bind] in H.
      injection H as _ <-. apply incl_tl. by eapply IH. }
    destruct (c <? 32); [done|].
    destruct (scanstring 0 s) as [[b r]|] eqn:E; [|done]. cbn [mbind option_bind] in H.
    injection H as _ <-. apply incl_tl. by eapply IH.
  - apply incl_tl. by eapply IH.
Qed.

Lemma span_digits_incl (s : text) : incl (span_digits s).2 s.
Proof.
  induction s as [|c s IH]; [apply incl_refl|]. cbn [span_digits].
  destruct (is_digit c); [|apply incl_refl].
  destruct (span_digits s) as [ds rest]. cbn [snd] in *. by apply incl_tl.
Qed.

Lemma scan_int_part_incl (s ds rest : text) :
  scan_int_part s = Some (ds, rest) -> incl rest s.
Proof.
  destruct s as [|c s]; [done|]. cbn [scan_int_part].
  destruct (c =? 48).
  { intros [= _ <-]. apply incl_tl, incl_refl. }
  destruct (is_digit c); [|done].
  intros H. assert (span_digits (c :: s) = (ds, rest)) as H1 by congruence.
  pose proof (span_digits_incl (c :: s)) as Hi. by rewrite H1 in Hi.
Qed.

Lemma scan_frac_incl (s : text) : incl (scan_frac s).2 s.
Proof.
  destruct s as [|c s]; [apply incl_refl|]. cbn [scan_frac].
  destruct (c =? ch "."); [|apply incl_refl].
  pose proof (span_digits_incl s) as Hi.
  destruct (span_digits s) as [[|d ds] rest]; [apply incl_refl|].
  cbn [snd] in *. by apply incl_tl.
Qed.

Lemma scan_exp_incl (s : text) : incl (scan_exp s).2 s.
Proof.
  destruct s as [|c s]; [apply incl_refl|]. cbn [scan_exp].
  destruct ((c =? ch "e") || (c =? ch "E")); [|apply incl_refl].
  destruct s as [|sg s]; [apply incl_refl|].
  destruct ((sg =? ch "-") || (sg =? ch "+")).
  - pose proof (span_digits_incl s) as Hi.
    destruct (span_digits s) as [[|d ds] rest]; [apply incl_refl|].
    cbn [snd] in *. by do 2 apply incl_tl.
  - pose proof (span_digits_incl (sg :: s)) as Hi.
    destruct (span_digits (sg :: s)) as [[|d ds] rest]; [apply incl_refl|].
    cbn [snd] in *. by apply incl_tl.
Qed.

Lemma scan_number_incl (s : text) (v : json) (rest : text) :
  scan_number s = Some (Ok (v, rest)) -> incl rest s.
Proof.
  unfold scan_number.
  set (p := match s with
            | [] => (false, s)
            | c :: s' => if c =? ch "-" then (true, s') else (false, s)
            end).
  assert (incl p.2 s) as Hp.
  { subst p. destruct s as [|c s']; [apply incl_refl|].
    destruct (c =? ch "-"); [apply incl_tl|]; apply incl_refl. }
  destruct p as [neg s1]. cbn [snd] in Hp.
  destruct (scan_int_part s1) as [[ds s2]|] eqn:E1; [|done]. cbn [mbind option_bind].
  apply scan_int_part_incl in E1.
  pose proof (scan_frac_incl s2) as H2. destruct (scan_frac s2) as [frac s3].
  pose proof (scan_exp_incl s3) as H3. destruct (scan_exp s3) as [ex s4].
  cbn [snd] in *.
  assert (incl s4 s) as Hi.
  { eapply incl_tran; [exact H3|]. eapply incl_tran; [exact H2|].
    eapply incl_tran; [exact E1 | exact Hp]. }
  destruct frac, ex; [destruct (_ <=? _)%nat; [|done] | ..]; by intros [= _ <-].
Qed.

Lemma skip_ws_cons_incl (s : text) (c : N) (r : text) : skip_ws s = c :: r -> incl r s.
Proof.
  intros H. eapply incl_tran; [|apply incl_skip_ws]. rewrite H. apply incl_tl, incl_refl.
Qed.

(** What any of the three scanners leaves is made of characters of its
    input. *)
Lemma scan_incl (fuel : nat) :
  (forall depth s v r, scan_value fuel depth s = Ok (v, r) -> incl r s)
  /\ (forall depth s vs r, scan_items fuel depth s = Ok (vs, r) -> incl r s)
  /\ (forall depth s kvs r, scan_pairs fuel depth s = Ok (kvs, r) -> incl r s).
Proof.
  induction fuel as [|fuel (IHv & IHi & IHp)]; [by repeat split|].
  split; [|split].
  - intros depth [|c s] v r H; [done|]. cbn [scan_value] in H.
    destruct (c =? 34).
    { destruct (scanstring 0 s) as [[str rest]|] eqn:E; [|done].
      cbn [expect mbind result_bind] in H.
      injection H as _ <-. apply incl_tl. by eapply scanstring_incl. }
    destruct (c =? ch "{").
    { destruct depth as [|depth]; [done|].
      destruct (skip_ws s) as [|c1 r1] eqn:Ews; [done|].
      apply skip_ws_cons_incl in Ews.
      destruct (c1 =? ch "}"); [injection H as _ <-; by apply incl_tl|].
      destruct (c1 =? 34); [|done].
      destruct (scan_pairs fuel depth r1) as [[pairs rest]|e] eqn:E; [|done].
      cbn [expect mbind result_bind] in H.
      injection H as _ <-. apply incl_tl.
      eapply incl_tran; [by eapply IHp | done]. }
    destruct (c =? ch "[").
    { destruct depth as [|depth]; [done|].
      destruct (skip_ws s) as [|c1 r1] eqn:Ews; [done|].
      pose proof (incl_skip_ws s) as Hws. rewrite Ews in Hws.
      destruct (c1 =? ch "]").
      { injection H as _ <-. apply incl_tl.
        eapply incl_tran; [|exact Hws]. apply incl_tl, incl_refl. }
      destruct (scan_items fuel depth (c1 :: r1)) as [[items rest]|e] eqn:E; [|done].
      cbn [expect mbind result_bind] in H.
      injection H as _ <-. apply incl_tl.
      eapply incl_tran; [by eapply IHi | done]. }
    destruct (startswith (lit "null") (c :: s));
      [injection H as _ <-; apply (incl_drop 4 (c :: s))|].
    destruct (startswith (lit "true") (c :: s));
      [injection H as _ <-; apply (incl_drop 4 (c :: s))|].
    destruct (startswith (lit "false") (c :: s));
      [injection H as _ <-; apply (incl_drop 5 (c :: s))|].
    destruct (scan_number (c :: s)) as [[[v' r']|e]|] eqn:E; [| done |].
    { injection H as _ <-. by eapply scan_number_incl. }
    destruct (startswith (lit "NaN") (c :: s));
      [injection H as _ <-; apply (incl_drop 3 (c :: s))|].
    destruct (startswith (lit "Infinity") (c :: s));
      [injection H as _ <-; apply (incl_drop 8 (c :: s))|].
    destruct (startswith (lit "-Infinity") (c :: s));
      [injection H as _ <-; apply (incl_drop 9 (c :: s))|].
    done.
  - intros depth s vs r H. rewrite scan_items_step in H.
    destruct (scan_value fuel depth s) as [[v r1]|e] eqn:E; [|done].
    cbn [expect mbind result_bind] in H.
    apply IHv in E.
    destruct (skip_ws r1) as [|c r2] eqn:Ews; [done|]. apply skip_ws_cons_incl in Ews.
    destruct (c =? ch "]").
    { injection H as _ <-. by eapply incl_tran. }
    destruct (c =? ch ","); [|done].
    destruct (scan_items fuel depth (skip_ws r2)) as [[vs' rest]|e] eqn:E2; [|done].
    cbn [expect mbind result_bind] in H.
    injection H as _ <-. apply IHi in E2.
    eapply incl_tran; [exact E2|]. eapply incl_tran; [apply incl_skip_ws|].
    by eapply incl_tran.
  - intros depth s kvs r H. rewrite scan_pairs_step in H.
    destruct (scanstring 0 s) as [[key r1]|] eqn:E; [|done]. cbn [expect mbind result_bind] in H.
    apply scanstring_incl in E.
    destruct (skip_ws r1) as [|c r2] eqn:Ews; [done|]. apply skip_ws_cons_incl in Ews.
    destruct (c =? ch ":"); [|done].
    destruct (scan_value fuel depth (skip_ws r2)) as [[v r3]|e] eqn:E2; [|done].
    cbn [expect mbind result_bind] in H.
    apply IHv in E2.
    assert (incl r3 s) as H3.
    { eapply incl_tran; [exact E2|]. eapply incl_tran; [apply incl_skip_ws|].
      by eapply incl_tran. }
    destruct (skip_ws r3) as [|c2 r4] eqn:Ews3; [done|]. apply skip_ws_cons_incl in Ews3.
    destruct (c2 =? ch "}").
    { injection H as _ <-. by eapply incl_tran. }
    destruct (c2 =? ch ","); [|done].
    destruct (skip_ws r4) as [|c3 r5] eqn:Ews4; [done|]. apply skip_ws_cons_incl in Ews4.
    destruct (c3 =? 34); [|done].
    destruct (scan_pairs fuel depth r5) as [[kvs' rest]|e] eqn:E5; [|done].
    cbn [expect mbind result_bind] in H.
    injection H as _ <-. apply IHp in E5.
    eapply incl_tran; [exact E5|]. eapply incl_tran; [exact Ews4|].
    by eapply incl_tran.
Qed.

Lemma skip_ws_head_in (s : text) (c : N) (r : text) : skip_ws s = c :: r -> In c s.
Proof.
  intros H. apply (incl_skip_ws s). rewrite H. by left.
Qed.

(** The pairs of an object are read up to a closing brace. *)
Lemma scan_pairs_closes (fuel : nat) :
  forall depth s kvs r, scan_pairs fuel depth s = Ok (kvs, r) -> In (ch "}") s.
Proof.
  induction fuel as [|fuel IH]; intros depth s kvs r H; [done|].
  destruct (scan_incl fuel) as (IHv & _ & _).
  rewrite scan_pairs_step in H.
  destruct (scanstring 0 s) as [[key r1]|] eqn:E; [|done]. cbn [expect mbind result_bind] in H.
  apply scanstring_incl in E.
  destruct (skip_ws r1) as [|c r2] eqn:Ews; [done|]. apply skip_ws_cons_incl in Ews.
  destruct (c =? ch ":"); [|done].
  destruct (scan_value fuel depth (skip_ws r2)) as [[v r3]|e] eqn:E2; [|done].
  cbn [expect mbind result_bind] in H. apply IHv in E2.
  assert (incl r3 s) as H3.
  { eapply incl_tran; [exact E2|]. eapply incl_tran; [apply incl_skip_ws|].
    by eapply incl_tran. }
  destruct (skip_ws r3) as [|c2 r4] eqn:Ews3; [done|].
  destruct (c2 =? ch "}") eqn:Ec.
  { apply N.eqb_eq in Ec. subst c2. apply H3. by eapply skip_ws_head_in. }
  apply skip_ws_cons_incl in Ews3.
  destruct (c2 =? ch ","); [|done].
  destruct (skip_ws r4) as [|c3 r5] eqn:Ews4; [done|]. apply skip_ws_cons_incl in Ews4.
  destruct (c3 =? 34); [|done].
  destruct (scan_pairs fuel depth r5) as [[kvs' rest]|e] eqn:E5; [|done].
  apply IH in E5. apply H3, Ews3, Ews4, E5.
Qed.

Lemma scan_value_object_closes (fuel depth : nat) (s : text) (v : json) (r : text) :
  scan_value fuel depth (ch "{" :: s) = Ok (v, r) -> In (ch "}") s.
Proof.
  destruct fuel as [|fuel]; [done|]. destruct depth as [|depth]; [done|].
  rewrite scan_value_object.
  destruct (skip_ws s) as [|c1 r1] eqn:Ews; [done|].
  destruct (c1 =? ch "}") eqn:Ec.
  { intros _. apply N.eqb_eq in Ec. subst c1. by eapply skip_ws_head_in. }
  apply skip_ws_cons_incl in Ews.
  destruct (c1 =? 34); [|done].
  destruct (scan_pairs fuel depth r1) as [[pairs rest]|e] eqn:E; [|done].
  intros _. apply Ews. by eapply scan_pairs_closes.
Qed.

(** A text that opens an object and holds no closing brace is rejected. *)
Lemma json_loads_unclosed (limit : nat) (s : text) :
  startswith (lit "{") s = true -> ~ In (ch "}") s ->
  exists e, json_loads limit s = Raise e.
Proof.
  intros Hs Hno. destruct s as [|c s]; [done|].
  cbn [startswith lit list_ascii_of_string map] in Hs.
  apply andb_true_iff in Hs as [Hc _]. apply N.eqb_eq in Hc.
  change (N_of_ascii "{") with (ch "{") in Hc. subst c.
  unfold json_loads. change (skip_ws (ch "{" :: s)) with (ch "{" :: s).
  destruct (scan_value _ _ _) as [[v r]|e] eqn:E; [|by exists e].
  apply scan_value_object_closes in E. destruct Hno. by right.
Qed.
(** ** From the reply to the JSON text *)

(** *** Searching *)

Lemma startswith_app (p r : text) : startswith p (p ++ r) = true.
Proof. induction p as [|a p IH]; [done|]. cbn. by rewrite N.eqb_refl. Qed.

Lemma startswith_head (a c : N) (p s : text) :
  a <> c -> startswith (a :: p) (c :: s) = false.
Proof. intros H. cbn. by rewrite (proj2 (N.eqb_neq a c)). Qed.

Lemma find_sub_here (sub s : text) : startswith sub s = true -> find_sub sub s = Some 0%nat.
Proof. intros H. destruct s; cbn [find_sub]; by rewrite H. Qed.

Lemma find_sub_later (a c : N) (p s : text) :
  a <> c -> find_sub (a :: p) (c :: s) = S <$> find_sub (a :: p) s.
Proof. intros H. cbn [find_sub]. by rewrite startswith_head. Qed.

(** The first occurrence of a pattern is where it stands, when its first
    character does not occur before. *)
Lemma find_sub_first (a : N) (p pre rest : text) :
  Forall (fun c => c <> a) pre ->
  find_sub (a :: p) (pre ++ (a :: p) ++ rest) = Some (length pre).
Proof.
  induction 1 as [|c pre Hc Hpre IH].
  - apply find_sub_here. apply (startswith_app (a :: p) rest).
  - rewrite <- app_comm_cons, find_sub_later by done. by rewrite IH.
Qed.

Lemma find_sub_absent (a : N) (p s : text) :
  Forall (fun c => c <> a) s -> find_sub (a :: p) s = None.
Proof.
  induction 1 as [|c s Hc Hs IH]; [done|].
  rewrite find_sub_later by done. by rewrite IH.
Qed.

(** *** The think block *)

Lemma think_match_other (c : N) (s : text) : c <> ch "<" -> think_match (c :: s) = None.
Proof.
  intros H. unfold think_match, THINK_OPEN.
  change (lit "<think>") with (ch "<" :: lit "think>").
  by rewrite startswith_head.
Qed.

Lemma re_sub_think_go_plain (s : text) :
  Forall (fun c => c <> ch "<") s -> re_sub_think_go 0 s = s.
Proof.
  induction 1 as [|c s Hc Hs IH]; [done|].
  cbn [re_sub_think_go]. rewrite think_match_other by done. by rewrite IH.
Qed.

Lemma re_sub_think_go_skip (pre s : text) :
  re_sub_think_go (length pre) (pre ++ s) = re_sub_think_go 0 s.
Proof. induction pre as [|c pre IH]; [done|]. exact IH. Qed.

(** A think block whose text holds no opening angle bracket is removed
    whole, and what follows is kept when it holds none either. *)
Lemma re_sub_think_block (think rest : text) :
  Forall (fun c => c <> ch "<") think -> Forall (fun c => c <> ch "<") rest ->
  re_sub_think (THINK_OPEN ++ think ++ THINK_CLOSE ++ rest) = rest.
Proof.
  intros Ht Hr. unfold re_sub_think.
  assert (think_match (THINK_OPEN ++ think ++ THINK_CLOSE ++ rest)
          = Some (7 + length think + 8)%nat) as Hm.
  { unfold think_match. rewrite startswith_app.
    change (drop 7 (THINK_OPEN ++ think ++ THINK_CLOSE ++ rest))
      with (think ++ THINK_CLOSE ++ rest).
    unfold THINK_CLOSE. change (lit "</think>") with (ch "<" :: lit "/think>").
    by rewrite find_sub_first. }
  change (THINK_OPEN ++ think ++ THINK_CLOSE ++ rest)
    with (ch "<" :: lit "think>" ++ think ++ THINK_CLOSE ++ rest) in *.
  cbn [re_sub_think_go]. rewrite Hm.
  replace (7 + length think + 8 - 1)%nat
    with (length (lit "think>" ++ think ++ THINK_CLOSE)).
  - replace (lit "think>" ++ think ++ THINK_CLOSE ++ rest)
      with ((lit "think>" ++ think ++ THINK_CLOSE) ++ rest)
      by (by rewrite <- !app_assoc).
    rewrite re_sub_think_go_skip. by apply re_sub_think_go_plain.
  - rewrite !length_app. change (length (lit "think>")) with 6%nat.
    change (length THINK_CLOSE) with 8%nat. lia.
Qed.

(** *** Stripping *)

Lemma lstrip_app (pre : text) (c : N) (t : text) :
  is_space c = false -> lstrip (pre ++ c :: t) = lstrip pre ++ c :: t.
Proof.
  intros Hc. induction pre as [|a pre IH]; cbn [app lstrip].
  - by rewrite Hc.
  - destruct (is_space a); [exact IH | done].
Qed.

Lemma rstrip_last (s : text) (c : N) : is_space c = false -> rstrip (s ++ [c]) = s ++ [c].
Proof.
  intros Hc. unfold rstrip. rewrite rev_app_distr. cbn [rev app lstrip].
  rewrite Hc. change (c :: rev s) with ([c] ++ rev s).
  by rewrite rev_app_distr, rev_involutive.
Qed.

Lemma rstrip_spaces (s : text) (c : N) (sp : text) :
  is_space c = false -> Forall (fun x => is_space x = true) sp ->
  rstrip ((s ++ [c]) ++ sp) = s ++ [c].
Proof.
  intros Hc Hsp. unfold rstrip. rewrite rev_app_distr.
  assert (forall t, lstrip (rev sp ++ t) = lstrip t) as Hl.
  { intros t. apply Forall_rev in Hsp. revert Hsp. generalize (rev sp).
    induction 1 as [|x l Hx Hl IH]; [done|]. cbn [app lstrip]. by rewrite Hx. }
  rewrite Hl. fold (rstrip (s ++ [c])). by apply rstrip_last.
Qed.

Lemma Forall_lstrip (P : N -> Prop) (s : text) : Forall P s -> Forall P (lstrip s).
Proof.
  induction 1 as [|c s Hc Hs IH]; [constructor|]. cbn [lstrip].
  destruct (is_space c); [exact IH | by constructor].
Qed.

(** *** The brace count *)

Lemma neutral_nil : neutral [].
Proof. intros depth i rest _. cbn [app length]. f_equal. lia. Qed.

Lemma neutral_app (s1 s2 : text) : neutral s1 -> neutral s2 -> neutral (s1 ++ s2).
Proof.
  intros H1 H2 depth i rest Hd. rewrite <- app_assoc, H1, H2 by done.
  f_equal. rewrite length_app. lia.
Qed.

Lemma neutral_char (c : N) : c <> ch "{" -> c <> ch "}" -> neutral [c].
Proof.
  intros H1 H2 depth i rest Hd. cbn [app depth_scan length].
  by rewrite (proj2 (N.eqb_neq c (ch "{"))), (proj2 (N.eqb_neq c (ch "}"))) by done.
Qed.

Lemma neutral_plain (s : text) : forallb plain_char s = true -> neutral s.
Proof.
  induction s as [|c s IH]; intros H; [apply neutral_nil|].
  cbn [forallb] in H. apply andb_true_iff in H as [Hc Hs].
  change (c :: s) with ([c] ++ s). apply neutral_app; [|by apply IH].
  unfold plain_char in Hc. apply negb_true_iff in Hc.
  rewrite !orb_false_iff in Hc. destruct Hc as (((H1 & H2) & _) & _).
  apply neutral_char; by apply N.eqb_neq.
Qed.

Lemma neutral_braces (s : text) : neutral s -> neutral (lit "{" ++ s ++ lit "}").
Proof.
  intros Hs depth i rest Hd.
  change (lit "{" ++ s ++ lit "}") with (ch "{" :: s ++ lit "}").
  cbn [app depth_scan]. change (ch "{" =? ch "{") with true. cbn match.
  rewrite <- app_assoc, Hs by lia.
  change (lit "}" ++ rest) with (ch "}" :: rest). cbn [depth_scan].
  change (ch "}" =? ch "{") with false. change (ch "}" =? ch "}") with true. cbn match.
  assert ((depth + 1 - 1 =? 0)%Z = false) as -> by lia.
  rewrite Z.add_simpl_r. f_equal. cbn [length]. rewrite length_app.
  change (length (lit "}")) with 1%nat. lia.
Qed.

Lemma neutral_join (sep : text) (pieces : list text) :
  neutral sep -> Forall neutral pieces -> neutral (join sep pieces).
Proof.
  intros Hsep. induction 1 as [|p pieces Hp Hps IH]; [apply neutral_nil|].
  destruct pieces as [|q pieces]; [done|].
  rewrite join_cons2. by repeat apply neutral_app.
Qed.

(** A text that opens an object, stays neutral inside and closes it is cut
    at its last brace. *)
Lemma depth_scan_object (inner rest : text) :
  neutral inner ->
  depth_scan 0 0 (lit "{" ++ inner ++ lit "}" ++ rest)
  = Z.of_nat (length (lit "{" ++ inner ++ lit "}")).
Proof.
  intros Hn. change (lit "{" ++ inner ++ lit "}" ++ rest)
    with (ch "{" :: inner ++ ch "}" :: rest).
  cbn [depth_scan]. change (ch "{" =? ch "{") with true. cbn match.
  rewrite Hn by lia. cbn [depth_scan].
  change (ch "}" =? ch "{") with false. change (ch "}" =? ch "}") with true. cbn match.
  change (0 + 1 - 1 =? 0)%Z with true. cbn match.
  change (lit "{" ++ inner ++ lit "}") with (ch "{" :: inner ++ lit "}").
  cbn [length]. rewrite length_app. change (length (lit "}")) with 1%nat. lia.
Qed.

Lemma slice_to_all (s : text) : slice_to s (Z.of_nat (length s)) = s.
Proof.
  unfold slice_to, slice_index.
  assert ((Z.of_nat (length s) <? 0)%Z = false) as -> by (apply Z.ltb_ge; lia).
  rewrite Z.min_id, Nat2Z.id. apply firstn_all.
Qed.

Lemma slice_to_prefix (s rest : text) : slice_to (s ++ rest) (Z.of_nat (length s)) = s.
Proof.
  unfold slice_to, slice_index.
  assert ((Z.of_nat (length s) <? 0)%Z = false) as -> by (apply Z.ltb_ge; lia).
  rewrite Z.min_l by (rewrite length_app; lia).
  rewrite Nat2Z.id. by rewrite take_app_length.
Qed.

Lemma cut_object_object (inner rest : text) :
  neutral inner ->
  CoreReviewV3.cut_object (lit "{" ++ inner ++ lit "}" ++ rest) = lit "{" ++ inner ++ lit "}".
Proof.
  intros Hn. unfold CoreReviewV3.cut_object.
  change (startswith (lit "{") (lit "{" ++ inner ++ lit "}" ++ rest)) with true.
  cbn match. rewrite depth_scan_object by done.
  assert ((Z.of_nat (length (lit "{" ++ inner ++ lit "}")) >? 0)%Z = true) as ->.
  { change (lit "{" ++ inner ++ lit "}") with (ch "{" :: inner ++ lit "}").
    cbn [length]. apply Z.gtb_lt. lia. }
  replace (lit "{" ++ inner ++ lit "}" ++ rest) with ((lit "{" ++ inner ++ lit "}") ++ rest)
    by (by rewrite <- !app_assoc).
  apply slice_to_prefix.
Qed.

Lemma seek_brace_object (s : text) : seek_brace (lit "{" ++ s) = lit "{" ++ s.
Proof. done. Qed.

(** *** The fence *)

Lemma slice_mid (pre mid post : text) :
  slice (pre ++ mid ++ post) (Z.of_nat (length pre)) (Z.of_nat (length pre + length mid))
  = mid.
Proof.
  unfold slice, slice_index. rewrite !length_app.
  assert ((Z.of_nat (length pre) <? 0)%Z = false) as -> by (apply Z.ltb_ge; lia).
  assert ((Z.of_nat (length pre + length mid) <? 0)%Z = false) as ->
    by (apply Z.ltb_ge; lia).
  rewrite !Z.min_l by lia. rewrite !Nat2Z.id.
  rewrite drop_app_length.
  replace (length pre + length mid - length pre)%nat with (length mid) by lia.
  by rewrite take_app_length.
Qed.

Lemma str_find_from_at (sub pre s : text) (i : nat) :
  find_sub sub s = Some i ->
  str_find_from sub (pre ++ s) (Z.of_nat (length pre)) = Z.of_nat (length pre + i).
Proof.
  intros H. unfold str_find_from. rewrite length_app.
  assert ((Z.of_nat (length pre + length s) <? Z.of_nat (length pre))%Z = false) as ->
    by (apply Z.ltb_ge; lia).
  rewrite Nat2Z.id, drop_app_length, H. lia.
Qed.

Lemma strip_object_line (inner : text) :
  strip (NL ++ (lit "{" ++ inner ++ lit "}") ++ NL) = lit "{" ++ inner ++ lit "}".
Proof.
  unfold strip.
  change (lstrip (NL ++ (lit "{" ++ inner ++ lit "}") ++ NL))
    with ((lit "{" ++ inner ++ lit "}") ++ NL).
  rewrite (app_assoc (lit "{")). apply rstrip_spaces; [done|]. by repeat constructor.
Qed.

(** The interior of a fence tagged [json] that holds one object, when no
    backtick stands before the fence nor in the object. *)
Lemma unwrap_fence_json (P inner : text) :
  Forall (fun c => c <> ch "`") P -> Forall (fun c => c <> ch "`") inner ->
  unwrap_fence (P ++ FENCE_JSON ++ NL ++ (lit "{" ++ inner ++ lit "}") ++ NL ++ FENCE)
  = lit "{" ++ inner ++ lit "}".
Proof.
  intros HP Hin.
  set (J := lit "{" ++ inner ++ lit "}").
  assert (find_sub FENCE_JSON (P ++ FENCE_JSON ++ NL ++ J ++ NL ++ FENCE)
          = Some (length P)) as Hfind.
  { unfold FENCE_JSON. change (lit "```json") with (ch "`" :: lit "``json").
    by apply find_sub_first. }
  assert (find_sub FENCE (NL ++ J ++ NL ++ FENCE) = Some (length (NL ++ J ++ NL))) as Hend.
  { replace (NL ++ J ++ NL ++ FENCE) with ((NL ++ J ++ NL) ++ FENCE ++ [])
      by (by rewrite app_nil_r, <- !app_assoc).
    unfold FENCE. change (lit "```") with (ch "`" :: lit "``").
    apply find_sub_first.
    apply Forall_app. split; [by repeat constructor|].
    apply Forall_app. split; [|by repeat constructor].
    unfold J. apply Forall_app. split; [by repeat constructor|].
    apply Forall_app. split; [done | by repeat constructor]. }
  unfold unwrap_fence, str_in, str_find. rewrite Hfind.
  replace (Z.of_nat (length P) + 7)%Z with (Z.of_nat (length (P ++ FENCE_JSON)))
    by (rewrite length_app; change (length FENCE_JSON) with 7%nat; lia).
  replace (P ++ FENCE_JSON ++ NL ++ J ++ NL ++ FENCE)
    with ((P ++ FENCE_JSON) ++ (NL ++ J ++ NL ++ FENCE)) by (by rewrite <- !app_assoc).
  rewrite (str_find_from_at _ _ _ _ Hend).
  assert ((Z.of_nat (length (P ++ FENCE_JSON) + length (NL ++ J ++ NL))
           >? Z.of_nat (length (P ++ FENCE_JSON)))%Z = true) as ->.
  { apply Z.gtb_lt. rewrite (length_app NL). change (length NL) with 1%nat. lia. }
  replace (NL ++ J ++ NL ++ FENCE) with ((NL ++ J ++ NL) ++ FENCE)
    by (by rewrite <- !app_assoc).
  rewrite slice_mid. apply strip_object_line.
Qed.

(** A text without backtick holds no fence. *)
Lemma unwrap_fence_none (s : text) :
  Forall (fun c => c <> ch "`") s -> unwrap_fence s = s.
Proof.
  intros H. unfold unwrap_fence, str_in.
  unfold FENCE_JSON, FENCE.
  change (lit "```json") with (ch "`" :: lit "``json").
  change (lit "```") with (ch "`" :: lit "``").
  by rewrite !find_sub_absent.
Qed.

(** *** The characters [json.dumps] writes *)

Lemma plain_is_quiet (c : N) : plain_char c = true -> quiet_char c = true.
Proof.
  unfold plain_char, quiet_char. rewrite !negb_true_iff, !orb_false_iff. tauto.
Qed.

Lemma digit_plain (c : N) : is_digit c = true -> plain_char c = true.
Proof.
  unfold is_digit. intros H. apply andb_true_iff in H as [Hlo Hhi].
  apply N.leb_le in Hlo, Hhi. unfold plain_char.
  change (ch "{") with 123. change (ch "}") with 125.
  change (ch "`") with 96. change (ch "<") with 60.
  rewrite !(proj2 (N.eqb_neq c _)) by lia. done.
Qed.

Lemma hex_digit_plain (d : N) : d < 16 -> plain_char (hex_digit d) = true.
Proof.
  intros H. unfold hex_digit. destruct (d <? 10) eqn:E.
  - apply N.ltb_lt in E. apply digit_plain. unfold is_digit.
    apply andb_true_iff. split; apply N.leb_le; lia.
  - apply N.ltb_ge in E. unfold plain_char.
    change (ch "{") with 123. change (ch "}") with 125.
    change (ch "`") with 96. change (ch "<") with 60.
    rewrite !(proj2 (N.eqb_neq (87 + d) _)) by lia. done.
Qed.

Lemma hex4_plain (n : N) : Forall (fun c => plain_char c = true) (hex4 n).
Proof. unfold hex4. repeat constructor; apply hex_digit_plain, mod16_lt. Qed.

Lemma escape_char_plain (c : N) :
  plain_char c = true -> Forall (fun x => plain_char x = true) (escape_char c).
Proof.
  intros Hc. unfold escape_char.
  repeat (match goal with
          | |- context [if ?b then _ else _] => destruct b
          end; [by repeat constructor|]).
  cbv zeta.
  match goal with
  | |- context [if ?b then _ else _] => destruct b
  end.
  - repeat constructor; try done; apply hex_digit_plain, mod16_lt.
  - apply Forall_app. split; repeat constructor; try done; apply hex_digit_plain, mod16_lt.
Qed.

Lemma flat_map_escape_plain (s : text) :
  forallb plain_char s = true ->
  Forall (fun x => plain_char x = true) (flat_map escape_char s).
Proof.
  induction s as [|c s IH]; intros H; [constructor|].
  cbn [forallb] in H. apply andb_true_iff in H as [Hc Hs]. cbn [flat_map].
  apply Forall_app. split; [by apply escape_char_plain | by apply IH].
Qed.

Lemma dumps_string_plain (s : text) :
  forallb plain_char s = true -> Forall (fun x => plain_char x = true) (dumps_string s).
Proof.
  intros H. unfold dumps_string. apply Forall_app. split; [by repeat constructor|].
  apply Forall_app. split; [by apply flat_map_escape_plain | by repeat constructor].
Qed.

Lemma str_of_N_plain (n : N) : Forall (fun x => plain_char x = true) (str_of_N n).
Proof.
  eapply Forall_impl; [apply uint_text_digits|]. intros c. apply digit_plain.
Qed.

Lemma str_of_Z_plain (z : Z) : Forall (fun x => plain_char x = true) (str_of_Z z).
Proof.
  destruct z; cbn [str_of_Z]; [apply str_of_N_plain .. |].
  constructor; [done | apply str_of_N_plain].
Qed.

Lemma Forall_join (P : N -> Prop) (sep : text) (pieces : list text) :
  Forall P sep -> Forall (Forall P) pieces -> Forall P (join sep pieces).
Proof.
  intros Hsep. induction 1 as [|p pieces Hp Hps IH]; [constructor|].
  destruct pieces as [|q pieces]; [done|].
  rewrite join_cons2. apply Forall_app. split; [done|]. apply Forall_app. by split.
Qed.

Lemma neutral_Forall_plain (s : text) : Forall (fun x => plain_char x = true) s -> neutral s.
Proof. intros H. apply neutral_plain. by apply forallb_Forall. Qed.

(** The text of a value whose strings are plain holds no backtick and no
    opening angle bracket, and the brace count crosses it. *)
Lemma dumps_plain (v : json) :
  json_plain v = true ->
  Forall (fun c => quiet_char c = true) (json_dumps v) /\ neutral (json_dumps v).
Proof.
  assert (forall s, Forall (fun x => plain_char x = true) s ->
                    Forall (fun c => quiet_char c = true) s /\ neutral s) as Hplain.
  { intros s Hs. split; [|by apply neutral_Forall_plain].
    eapply Forall_impl; [exact Hs|]. apply plain_is_quiet. }
  induction v as [| b | z | lexeme | s | items IH | members IH] using json_induction;
    intros Hp; cbn [json_dumps json_plain] in *.
  - apply Hplain. by repeat constructor.
  - destruct b; apply Hplain; by repeat constructor.
  - apply Hplain, str_of_Z_plain.
  - apply Hplain. by apply forallb_Forall.
  - apply Hplain. by apply dumps_string_plain.
  - assert (Forall (fun v => Forall (fun c => quiet_char c = true) (json_dumps v)
                             /\ neutral (json_dumps v)) items) as Hall.
    { apply forallb_Forall in Hp. rewrite Forall_forall in *.
      intros v Hv. apply IH; [done|]. by apply Hp. }
    split.
    + apply Forall_app. split; [by repeat constructor|].
      apply Forall_app. split; [|by repeat constructor].
      apply Forall_join; [by repeat constructor|].
      apply Forall_fmap. eapply Forall_impl; [exact Hall|]. by intros v [? _].
    + apply neutral_app; [by apply neutral_plain|].
      apply neutral_app; [|by apply neutral_plain].
      apply neutral_join; [by apply neutral_plain|].
      apply Forall_fmap. eapply Forall_impl; [exact Hall|]. by intros v [_ ?].
  - assert (Forall (fun kv => (Forall (fun c => quiet_char c = true)
                                 (dumps_string kv.1 ++ lit ": " ++ json_dumps kv.2))
                              /\ neutral (dumps_string kv.1 ++ lit ": " ++ json_dumps kv.2))
                   members) as Hall.
    { apply forallb_Forall in Hp. rewrite Forall_forall in *.
      intros [k v] Hkv. specialize (Hp _ Hkv). specialize (IH _ Hkv).
      cbn [fst snd] in *. apply andb_true_iff in Hp as [Hk Hv].
      destruct (IH Hv) as [Hq Hn].
      destruct (Hplain _ (dumps_string_plain k Hk)) as [Hkq Hkn].
      split.
      - apply Forall_app. split; [done|]. apply Forall_app. split; [by repeat constructor|done].
      - apply neutral_app; [done|]. apply neutral_app; [by apply neutral_plain | done]. }
    split.
    + apply Forall_app. split; [by repeat constructor|].
      apply Forall_app. split; [|by repeat constructor].
      apply Forall_join; [by repeat constructor|].
      apply Forall_fmap. eapply Forall_impl; [exact Hall|]. by intros kv [? _].
    + apply neutral_braces.
      apply neutral_join; [by apply neutral_plain|].
      apply Forall_fmap. eapply Forall_impl; [exact Hall|]. by intros kv [_ ?].
Qed.

(** *** The whole isolation *)

Lemma quiet_not_tick (s : text) :
  Forall (fun c => quiet_char c = true) s -> Forall (fun c => c <> ch "`") s.
Proof.
  intros H. eapply Forall_impl; [exact H|]. intros c Hc ->. done.
Qed.

Lemma quiet_not_angle (s : text) :
  Forall (fun c => quiet_char c = true) s -> Forall (fun c => c <> ch "<") s.
Proof.
  intros H. eapply Forall_impl; [exact H|]. intros c Hc ->. done.
Qed.

Lemma object_inner_plain (members : list (text * json)) :
  json_plain (JObj members) = true ->
  let inner :=
    join (lit ", ")
      (map (fun kv => dumps_string (fst kv) ++ lit ": " ++ json_dumps (snd kv)) members) in
  Forall (fun c => quiet_char c = true) inner /\ neutral inner.
Proof.
  intros Hp inner. cbn [json_plain] in Hp. apply forallb_Forall in Hp.
  assert (Forall (fun kv => (Forall (fun c => quiet_char c = true)
                               (dumps_string kv.1 ++ lit ": " ++ json_dumps kv.2))
                            /\ neutral (dumps_string kv.1 ++ lit ": " ++ json_dumps kv.2))
                 members) as Hall.
  { eapply Forall_impl; [exact Hp|]. intros [k v] Hkv. cbn [fst snd] in *.
    apply andb_true_iff in Hkv as [Hk Hv].
    destruct (dumps_plain v Hv) as [Hq Hn].
    pose proof (dumps_string_plain k Hk) as Hks.
    split.
    - apply Forall_app. split; [by eapply Forall_impl; [exact Hks | apply plain_is_quiet]|].
      apply Forall_app. split; [by repeat constructor | done].
    - apply neutral_app; [by apply neutral_Forall_plain|].
      apply neutral_app; [by apply neutral_plain | done]. }
  split.
  - apply Forall_join; [by repeat constructor|].
    apply Forall_fmap. eapply Forall_impl; [exact Hall|]. by intros kv [? _].
  - apply neutral_join; [by apply neutral_plain|].
    apply Forall_fmap. eapply Forall_impl; [exact Hall|]. by intros kv [_ ?].
Qed.

(** The text of a plain object sent bare comes out as it went in. *)
Lemma isolate_bare_object (members : list (text * json)) :
  json_plain (JObj members) = true ->
  CoreReviewV3.isolate (json_dumps (JObj members)) = json_dumps (JObj members).
Proof.
  intros Hp. destruct (object_inner_plain members Hp) as [Hq Hn].
  cbn [json_dumps]. set (inner := join _ _) in *.
  assert (Forall (fun c => quiet_char c = true) (lit "{" ++ inner ++ lit "}")) as HJ.
  { apply Forall_app. split; [by repeat constructor|].
    apply Forall_app. split; [done | by repeat constructor]. }
  unfold CoreReviewV3.isolate, re_sub_think.
  rewrite re_sub_think_go_plain by (by apply quiet_not_angle).
  assert (strip (lit "{" ++ inner ++ lit "}") = lit "{" ++ inner ++ lit "}") as ->.
  { unfold strip. change (lstrip (lit "{" ++ inner ++ lit "}")) with (lit "{" ++ inner ++ lit "}").
    rewrite (app_assoc (lit "{")). by apply rstrip_last. }
  rewrite unwrap_fence_none by (by apply quiet_not_tick).
  rewrite seek_brace_object.
  rewrite <- (app_nil_r (lit "}")) at 1. by apply cut_object_object.
Qed.

(** The text of a plain object sent in a fence, after prose and after a
    think block, comes out as it went in. *)
Lemma isolate_wrapped_object (think prose : text) (members : list (text * json)) :
  forallb quiet_char think = true -> forallb quiet_char prose = true ->
  json_plain (JObj members) = true ->
  CoreReviewV3.isolate (wrap_reply think prose (json_dumps (JObj members)))
  = json_dumps (JObj members).
Proof.
  intros Ht Hpr Hp. apply forallb_Forall in Ht, Hpr.
  destruct (object_inner_plain members Hp) as [Hq Hn].
  cbn [json_dumps]. set (inner := join _ _) in *.
  set (J := lit "{" ++ inner ++ lit "}").
  assert (Forall (fun c => quiet_char c = true) J) as HJ.
  { apply Forall_app. split; [by repeat constructor|].
    apply Forall_app. split; [done | by repeat constructor]. }
  unfold CoreReviewV3.isolate, wrap_reply.
  rewrite re_sub_think_block.
  2: by apply quiet_not_angle.
  2: { apply Forall_app. split; [by apply quiet_not_angle|].
       apply Forall_app. split; [vm_compute; by repeat constructor|].
       apply Forall_app. split; [vm_compute; by repeat constructor|].
       apply Forall_app. split; [by apply quiet_not_angle|].
       vm_compute; by repeat constructor. }
  assert (strip (prose ++ FENCE_JSON ++ NL ++ J ++ NL ++ FENCE)
          = lstrip prose ++ FENCE_JSON ++ NL ++ J ++ NL ++ FENCE) as ->.
  { unfold strip.
    change (FENCE_JSON ++ NL ++ J ++ NL ++ FENCE)
      with (ch "`" :: lit "``json" ++ NL ++ J ++ NL ++ FENCE).
    rewrite lstrip_app by done.
    change (ch "`" :: lit "``json" ++ NL ++ J ++ NL ++ FENCE)
      with (FENCE_JSON ++ NL ++ J ++ NL ++ FENCE).
    replace (lstrip prose ++ FENCE_JSON ++ NL ++ J ++ NL ++ FENCE)
      with ((lstrip prose ++ FENCE_JSON ++ NL ++ J ++ NL ++ lit "``") ++ [ch "`"])
      by (by rewrite <- !app_assoc).
    by apply rstrip_last. }
  unfold J at 1. rewrite unwrap_fence_json.
  2: by apply quiet_not_tick, Forall_lstrip.
  2: by apply quiet_not_tick.
  rewrite seek_brace_object.
  rewrite <- (app_nil_r (lit "}")) at 1. by apply cut_object_object.
Qed.

(** *** The review as a JSON value *)

Lemma small_score_digits (z : Z) :
  (0 <= z <= 100)%Z ->
  (length (str_of_N (Z.abs_N z)) <=? INT_MAX_STR_DIGITS)%nat = true.
Proof.
  intros H. replace (Z.abs_N z) with (N.of_nat (Z.to_nat z)) by lia.
  assert (Z.to_nat z <= 100)%nat as Hk by lia. revert Hk. generalize (Z.to_nat z).
  intros k Hk. do 101 (destruct k as [|k]; [reflexivity|]). lia.
Qed.

Lemma improvement_dict_ok (i : Improvement) :
  forallb (forallb scalar_char) (improvement_texts i) = true ->
  json_ok (improvement_dict i) = true.
Proof.
  unfold improvement_texts, improvement_dict. cbn [forallb]. rewrite !andb_true_iff.
  intros (H1 & H2 & H3 & H4 & H5 & H6 & H7 & H8 & H9 & _).
  destruct (imp_line_hint i) as [h|]; cbv [default id] in H3;
    cbn [app json_ok forallb fst snd map]; rewrite ?H1, ?H2, ?H3, ?H4, ?H5, ?H6, ?H7, ?H8, ?H9;
    reflexivity.
Qed.

Lemma improvement_dict_plain (i : Improvement) :
  forallb (forallb plain_char) (improvement_texts i) = true ->
  json_plain (improvement_dict i) = true.
Proof.
  unfold improvement_texts, improvement_dict. cbn [forallb]. rewrite !andb_true_iff.
  intros (H1 & H2 & H3 & H4 & H5 & H6 & H7 & H8 & H9 & _).
  destruct (imp_line_hint i) as [h|]; cbv [default id] in H3;
    cbn [app json_plain forallb fst snd]; rewrite ?H1, ?H2, ?H3, ?H4, ?H5, ?H6, ?H7, ?H8, ?H9;
    reflexivity.
Qed.

Lemma review_texts_split (f : N -> bool) (r : ReviewResult) :
  forallb (forallb f) (review_texts r) = true ->
  Forall (fun i => forallb (forallb f) (improvement_texts i) = true) (improvements r)
  /\ forallb f (architecture_notes r) = true
  /\ forallb f (security_posture r) = true
  /\ forallb f (top_priority r) = true.
Proof.
  unfold review_texts. rewrite forallb_app. rewrite andb_true_iff.
  intros [Hi Ht]. split.
  - induction (improvements r) as [|i items IH]; [constructor|].
    cbn [flat_map] in Hi. rewrite forallb_app in Hi. apply andb_true_iff in Hi as [H1 H2].
    constructor; [done | by apply IH].
  - cbn [forallb] in Ht. rewrite !andb_true_iff in Ht. tauto.
Qed.

Lemma review_dict_ok (r : ReviewResult) :
  well_formed r = true -> json_ok (review_dict r) = true.
Proof.
  unfold well_formed. rewrite !andb_true_iff.
  intros ((((_ & _) & Hlo) & Hhi) & Ht).
  apply Z.leb_le in Hlo, Hhi.
  destruct (review_texts_split _ _ Ht) as (Hi & Ha & Hs & Hp).
  unfold review_dict. cbn [json_ok forallb fst snd map].
  rewrite Ha, Hs, Hp, small_score_digits by lia.
  assert (forallb json_ok (map improvement_dict (improvements r)) = true) as ->.
  { apply forallb_Forall, Forall_fmap. eapply Forall_impl; [exact Hi|].
    intros i. apply improvement_dict_ok. }
  reflexivity.
Qed.

Lemma review_dict_plain (r : ReviewResult) :
  plain_review r = true -> json_plain (review_dict r) = true.
Proof.
  unfold plain_review. intros Ht.
  destruct (review_texts_split _ _ Ht) as (Hi & Ha & Hs & Hp).
  unfold review_dict. cbn [json_plain forallb fst snd].
  rewrite Ha, Hs, Hp.
  assert (forallb json_plain (map improvement_dict (improvements r)) = true) as ->.
  { apply forallb_Forall, Forall_fmap. eapply Forall_impl; [exact Hi|].
    intros i. apply improvement_dict_plain. }
  reflexivity.
Qed.

(** A review nests three levels deep at most: the review, the array of its
    improvements, an improvement. *)
Lemma review_dict_depth (r : ReviewResult) : (json_depth (review_dict r) <= 3)%nat.
Proof.
  unfold review_dict. cbn [json_depth map foldr snd].
  assert (foldr Nat.max 0 (map json_depth (map improvement_dict (improvements r))) <= 1)%nat;
    [|lia].
  induction (improvements r) as [|i items IH]; cbn [map foldr]; [lia|].
  assert (json_depth (improvement_dict i) = 1%nat) as ->; [|lia].
  unfold improvement_dict. cbn [json_depth]. by destruct (imp_line_hint i).
Qed.
(** ** The isolation of a JSON text, whatever its strings hold *)

(** *** Where a pattern is found first *)

Lemma find_sub_spec (sub s : text) (i : nat) :
  find_sub sub s = Some i -> startswith sub (drop i s) = true /\ (i <= length s)%nat.
Proof.
  revert i. induction s as [|c s IH]; intros i; cbn [find_sub].
  - destruct (startswith sub []) eqn:E; [|done]. intros [= <-]. by rewrite drop_0.
  - destruct (startswith sub (c :: s)) eqn:E.
    + intros [= <-]. rewrite drop_0. split; [done | cbn; lia].
    + destruct (find_sub sub s) as [j|]; [|done]. cbn. intros [= <-].
      destruct (IH j eq_refl). split; [done | lia].
Qed.

Lemma find_sub_tail (sub : text) (c : N) (s : text) :
  find_sub sub (c :: s) = None -> find_sub sub s = None.
Proof.
  cbn [find_sub]. destruct (startswith sub (c :: s)); [done|].
  by destruct (find_sub sub s).
Qed.

Lemma find_sub_drop (sub s : text) (n : nat) :
  find_sub sub s = None -> find_sub sub (drop n s) = None.
Proof.
  revert s. induction n as [|n IH]; intros s H; [by rewrite drop_0|].
  destruct s as [|c s]; [done|]. cbn [drop]. apply IH. by eapply find_sub_tail.
Qed.

Lemma find_sub_none_at (p s : text) (i : nat) :
  find_sub p s = None -> startswith p (drop i s) = false.
Proof.
  revert s. induction i as [|i IH]; intros s H.
  - rewrite drop_0. destruct s; cbn [find_sub] in H; by destruct (startswith p _).
  - destruct s as [|c s]; [rewrite drop_nil, <- (drop_nil i); by apply IH|].
    cbn [drop]. apply IH. by eapply find_sub_tail.
Qed.

(** A pattern that starts a concatenation starts its first part, or ends
    in the second one. *)
Lemma startswith_app_inv (p s t : text) :
  startswith p (s ++ t) = true ->
  startswith p s = true
  \/ ((length s < length p)%nat /\ s = take (length s) p
      /\ startswith (drop (length s) p) t = true).
Proof.
  revert s. induction p as [|a p IH]; intros s H; [by left|].
  destruct s as [|b s].
  - right. cbn [length take drop]. split; [lia|]. by split.
  - cbn [app startswith] in H. apply andb_true_iff in H as [Hab H].
    destruct (IH s H) as [Hs | (Hl & Hs & Ht)].
    + left. cbn [startswith]. by rewrite Hab, Hs.
    + right. apply N.eqb_eq in Hab. subst b. cbn [length take drop].
      split; [lia|]. split; [by rewrite <- Hs | done].
Qed.

Lemma startswith_shorter (q p rest : text) :
  (length q <= length p)%nat -> startswith q (p ++ rest) = true -> startswith q p = true.
Proof.
  revert p. induction q as [|a q IH]; intros p Hl H; [done|].
  destruct p as [|b p]; [cbn [length] in Hl; lia|].
  cbn [app startswith] in *. apply andb_true_iff in H as [Hab H].
  rewrite Hab. cbn [andb]. apply IH; [cbn [length] in Hl; lia | done].
Qed.

(** The search goes past a stretch in which no occurrence starts. *)
Lemma find_sub_app_skip (p pre t : text) :
  (forall i, (i < length pre)%nat -> startswith p (drop i pre ++ t) = false) ->
  find_sub p (pre ++ t) = (fun j => (length pre + j)%nat) <$> find_sub p t.
Proof.
  induction pre as [|c pre IH]; intros H.
  - cbn [app length]. by destruct (find_sub p t).
  - pose proof (H 0%nat ltac:(cbn [length]; lia)) as H0.
    rewrite drop_0 in H0. cbn [app] in H0. cbn [app find_sub]. rewrite H0.
    rewrite IH.
    + by destruct (find_sub p t).
    + intros i Hi. apply (H (S i)). cbn [length]. lia.
Qed.

Lemma border_free_spec (p : text) (k : nat) :
  border_free p = true -> (0 < k < length p)%nat -> startswith (drop k p) p = false.
Proof.
  intros H Hk. unfold border_free in H. rewrite forallb_forall in H.
  apply negb_true_iff, H, in_seq. lia.
Qed.

(** A pattern whose occurrences cannot overlap is found first where it is
    put, after a stretch that does not hold it. *)
Lemma find_sub_first_occurrence (p pre rest : text) :
  border_free p = true -> find_sub p pre = None ->
  find_sub p (pre ++ p ++ rest) = Some (length pre).
Proof.
  intros Hb Hpre. rewrite find_sub_app_skip.
  - rewrite (find_sub_here p (p ++ rest)) by apply startswith_app.
    cbn. f_equal. lia.
  - intros i Hi. destruct (startswith p (drop i pre ++ p ++ rest)) eqn:E; [|done].
    apply startswith_app_inv in E as [E | (Hl & _ & E)].
    + by rewrite (find_sub_none_at _ _ i Hpre) in E.
    + apply startswith_shorter in E; [|rewrite length_drop; lia].
      rewrite border_free_spec in E; [done | done |].
      rewrite length_drop in *. lia.
Qed.

Lemma In_take_drop (c : N) (p : text) (n : nat) : In c (take n p) \/ In c (drop n p) -> In c p.
Proof. intros H. rewrite <- (take_drop n p). by apply in_or_app. Qed.

(** A pattern is found first where it is put, after a stretch that does
    not hold it and ends with a character foreign to it. *)
Lemma find_sub_after_foreign (p pre : text) (c : N) (rest : text) :
  ~ In c p -> find_sub p (pre ++ [c]) = None ->
  find_sub p ((pre ++ [c]) ++ p ++ rest) = Some (length (pre ++ [c])).
Proof.
  intros Hc Hpre. rewrite find_sub_app_skip.
  - rewrite (find_sub_here p (p ++ rest)) by apply startswith_app.
    cbn. f_equal. lia.
  - intros i Hi. destruct (startswith p (drop i (pre ++ [c]) ++ p ++ rest)) eqn:E; [|done].
    apply startswith_app_inv in E as [E | (_ & Hs & _)].
    + by rewrite (find_sub_none_at _ _ i Hpre) in E.
    + destruct Hc. apply (In_take_drop c p (length (drop i (pre ++ [c])))). left.
      rewrite <- Hs. rewrite length_app in Hi. cbn [length] in Hi.
      rewrite drop_app_le by lia. apply in_or_app. right. by left.
Qed.

(** No occurrence runs across a character foreign to the pattern. *)
Lemma find_sub_separated (p a b : text) (c : N) :
  ~ In c p -> find_sub p a = None -> find_sub p b = None ->
  find_sub p (a ++ c :: b) = None.
Proof.
  intros Hc Ha Hb. rewrite find_sub_app_skip.
  - destruct p as [|x p]; [by destruct a|].
    cbn [find_sub]. rewrite startswith_head, Hb; [done|].
    intros ->. apply Hc. by left.
  - intros i Hi. destruct (startswith p (drop i a ++ c :: b)) eqn:E; [|done].
    apply startswith_app_inv in E as [E | (Hl & _ & E)].
    + by rewrite (find_sub_none_at _ _ i Ha) in E.
    + destruct Hc. apply (In_take_drop c p (length (drop i a))). right.
      destruct (drop (length (drop i a)) p) as [|x q] eqn:Ed.
      { apply (f_equal length) in Ed. rewrite length_drop in Ed. cbn [length] in Ed. lia. }
      cbn [startswith] in E. apply andb_true_iff in E as [E _].
      apply N.eqb_eq in E. subst x. by left.
Qed.

(** A text that does not hold the start of a pattern does not hold the
    pattern. *)
Lemma find_sub_longer (p q s : text) :
  find_sub p s = None -> find_sub (p ++ q) s = None.
Proof.
  assert (forall t, startswith p t = false -> startswith (p ++ q) t = false) as Hsw.
  { induction p as [|a p IH]; intros t Ht; [done|].
    destruct t as [|b t]; [done|]. cbn [app startswith] in *.
    destruct (a =? b); [|done]. cbn [andb] in *. by apply IH. }
  induction s as [|c s IH]; cbn [find_sub].
  - destruct (startswith p []) eqn:E; [done|]. by rewrite Hsw.
  - destruct (startswith p (c :: s)) eqn:E; [done|]. rewrite Hsw by done.
    destruct (find_sub p s); [done|]. by rewrite IH.
Qed.

Lemma str_in_false (p s : text) : str_in p s = false -> find_sub p s = None.
Proof. unfold str_in. by destruct (find_sub p s). Qed.

(** *** The think block *)

Lemma re_sub_think_none (s : text) : no_think_block s = true -> re_sub_think_go 0 s = s.
Proof.
  induction s as [|c s IH]; intros H; [done|].
  cbn [no_think_block] in H. apply andb_true_iff in H as [Hc Hs].
  cbn [re_sub_think_go].
  assert (think_match (c :: s) = None) as ->.
  { unfold think_match. destruct (startswith THINK_OPEN (c :: s)); [|done].
    apply negb_true_iff, str_in_false in Hc. by rewrite Hc. }
  by rewrite IH.
Qed.

(** A think block whose text holds no closing tag is removed whole, and
    what follows is kept when it holds no think block. *)
Lemma re_sub_think_first_block (think rest : text) :
  str_in THINK_CLOSE think = false -> no_think_block rest = true ->
  re_sub_think (THINK_OPEN ++ think ++ THINK_CLOSE ++ rest) = rest.
Proof.
  intros Ht Hr. apply str_in_false in Ht. unfold re_sub_think.
  assert (think_match (THINK_OPEN ++ think ++ THINK_CLOSE ++ rest)
          = Some (7 + length think + 8)%nat) as Hm.
  { unfold think_match. rewrite startswith_app.
    change (drop 7 (THINK_OPEN ++ think ++ THINK_CLOSE ++ rest))
      with (think ++ THINK_CLOSE ++ rest).
    by rewrite find_sub_first_occurrence. }
  change (THINK_OPEN ++ think ++ THINK_CLOSE ++ rest)
    with (ch "<" :: lit "think>" ++ think ++ THINK_CLOSE ++ rest) in *.
  cbn [re_sub_think_go]. rewrite Hm.
  replace (7 + length think + 8 - 1)%nat
    with (length (lit "think>" ++ think ++ THINK_CLOSE)).
  - replace (lit "think>" ++ think ++ THINK_CLOSE ++ rest)
      with ((lit "think>" ++ think ++ THINK_CLOSE) ++ rest)
      by (by rewrite <- !app_assoc).
    rewrite re_sub_think_go_skip. by apply re_sub_think_none.
  - rewrite !length_app. change (length (lit "think>")) with 6%nat.
    change (length THINK_CLOSE) with 8%nat. lia.
Qed.

(** *** The fence *)

(** The interior of a fence tagged [json] that holds one object, when the
    tag does not occur before the fence nor three backticks in the
    object. *)
Lemma unwrap_fence_tagged (P inner : text) :
  str_in FENCE_JSON P = false -> str_in FENCE (lit "{" ++ inner ++ lit "}") = false ->
  unwrap_fence (P ++ FENCE_JSON ++ NL ++ (lit "{" ++ inner ++ lit "}") ++ NL ++ FENCE)
  = lit "{" ++ inner ++ lit "}".
Proof.
  intros HP Hin. apply str_in_false in HP, Hin.
  set (J := lit "{" ++ inner ++ lit "}") in *.
  assert (find_sub FENCE_JSON (P ++ FENCE_JSON ++ NL ++ J ++ NL ++ FENCE)
          = Some (length P)) as Hfind.
  { by apply find_sub_first_occurrence. }
  assert (find_sub FENCE (NL ++ J ++ NL ++ FENCE) = Some (length (NL ++ J ++ NL))) as Hend.
  { replace (NL ++ J ++ NL ++ FENCE) with (((NL ++ J) ++ [10]) ++ FENCE ++ [])
      by (by rewrite app_nil_r, <- !app_assoc).
    replace (NL ++ J ++ NL) with ((NL ++ J) ++ [10]) by (by rewrite <- !app_assoc).
    apply find_sub_after_foreign; [by vm_compute; intros [|[|[|[]]]]|].
    change (NL ++ J) with ([] ++ 10 :: J). rewrite <- app_assoc. cbn [app].
    apply (find_sub_separated FENCE [] (J ++ [10]) 10);
      [by vm_compute; intros [|[|[|[]]]] | done |].
    apply find_sub_separated; [by vm_compute; intros [|[|[|[]]]] | done | done]. }
  unfold unwrap_fence, str_in, str_find. rewrite Hfind.
  replace (Z.of_nat (length P) + 7)%Z with (Z.of_nat (length (P ++ FENCE_JSON)))
    by (rewrite length_app; change (length FENCE_JSON) with 7%nat; lia).
  replace (P ++ FENCE_JSON ++ NL ++ J ++ NL ++ FENCE)
    with ((P ++ FENCE_JSON) ++ (NL ++ J ++ NL ++ FENCE)) by (by rewrite <- !app_assoc).
  rewrite (str_find_from_at _ _ _ _ Hend).
  assert ((Z.of_nat (length (P ++ FENCE_JSON) + length (NL ++ J ++ NL))
           >? Z.of_nat (length (P ++ FENCE_JSON)))%Z = true) as ->.
  { apply Z.gtb_lt. rewrite (length_app NL). change (length NL) with 1%nat. lia. }
  replace (NL ++ J ++ NL ++ FENCE) with ((NL ++ J ++ NL) ++ FENCE)
    by (by rewrite <- !app_assoc).
  rewrite slice_mid. apply strip_object_line.
Qed.

(** A text without three backticks in a row holds no fence. *)
Lemma unwrap_fence_absent (s : text) : str_in FENCE s = false -> unwrap_fence s = s.
Proof.
  intros H. apply str_in_false in H. unfold unwrap_fence, str_in.
  change FENCE_JSON with (FENCE ++ lit "json").
  by rewrite (find_sub_longer _ _ _ H), H.
Qed.

(** *** The brace count *)

(** The brace count stops at the first place where the braces balance. *)
Lemma depth_scan_found (s : text) (d i : Z) :
  (1 <= d)%Z -> (0 <= i)%Z -> depth_scan d i s <> 0%Z ->
  exists k : nat,
    (1 <= k <= length s)%nat /\ depth_scan d i s = (i + Z.of_nat k)%Z
    /\ (d + balance (take k s))%Z = 0%Z
    /\ forall j : nat, (1 <= j < k)%nat -> (1 <= d + balance (take j s))%Z.
Proof.
  revert d i. induction s as [|c s IH]; intros d i Hd Hi; cbn [depth_scan]; [done|].
  destruct (c =? ch "{") eqn:Eo; [|destruct (c =? ch "}") eqn:Ec].
  - intros H. destruct (IH (d + 1)%Z (i + 1)%Z ltac:(lia) ltac:(lia) H)
      as (k & Hk & Hn & Hb & Hj).
    exists (S k). cbn [length take balance]. rewrite Eo.
    split; [lia|]. split; [lia|]. split; [lia|].
    intros [|[|j]] Hjk; [lia| |].
    + cbn [take balance]. rewrite ?Eo, ?Ec, take_0. cbn [balance]. lia.
    + specialize (Hj (S j) ltac:(lia)). cbn [take balance] in *. rewrite Eo. lia.
  - destruct (d - 1 =? 0)%Z eqn:Ez.
    + intros _. exists 1%nat. cbn [length take balance]. rewrite Eo, Ec, take_0.
      cbn [balance].
      split; [lia|]. split; [lia|]. split; [lia|]. intros j Hj. lia.
    + intros H. destruct (IH (d - 1)%Z (i + 1)%Z ltac:(lia) ltac:(lia) H)
        as (k & Hk & Hn & Hb & Hj).
      exists (S k). cbn [length take balance]. rewrite Eo, Ec.
      split; [lia|]. split; [lia|]. split; [lia|].
      intros [|[|j]] Hjk; [lia| |].
      * cbn [take balance]. rewrite ?Eo, ?Ec, take_0. cbn [balance]. lia.
      * specialize (Hj (S j) ltac:(lia)). cbn [take balance] in *. rewrite Eo, Ec. lia.
  - intros H. destruct (IH d (i + 1)%Z ltac:(lia) ltac:(lia) H)
      as (k & Hk & Hn & Hb & Hj).
    exists (S k). cbn [length take balance]. rewrite Eo, Ec.
    split; [lia|]. split; [lia|]. split; [lia|].
    intros [|[|j]] Hjk; [lia| |].
    + cbn [take balance]. rewrite ?Eo, ?Ec, take_0. cbn [balance]. lia.
    + specialize (Hj (S j) ltac:(lia)). cbn [take balance] in *. rewrite Eo, Ec. lia.
Qed.

Lemma depth_scan_none (s : text) (d i : Z) :
  (1 <= d)%Z -> depth_scan d i s = 0%Z -> (0 <= i)%Z ->
  forall j : nat, (1 <= d + balance (take j s))%Z.
Proof.
  revert d i. induction s as [|c s IH]; intros d i Hd H Hi j.
  { rewrite take_nil. cbn [balance]. lia. }
  destruct j as [|j]; [rewrite take_0; cbn [balance]; lia|].
  cbn [depth_scan] in H. cbn [take balance].
  destruct (c =? ch "{") eqn:Eo; [|destruct (c =? ch "}") eqn:Ec].
  - specialize (IH (d + 1)%Z (i + 1)%Z ltac:(lia) H ltac:(lia) j). lia.
  - destruct (d - 1 =? 0)%Z eqn:Ez; [lia|].
    specialize (IH (d - 1)%Z (i + 1)%Z ltac:(lia) H ltac:(lia) j). lia.
  - specialize (IH d (i + 1)%Z Hd H ltac:(lia) j). lia.
Qed.

(** A text that opens with a brace and whose braces balance nowhere before
    its end is left whole. *)
Lemma cut_object_whole (content : text) :
  startswith (lit "{") content = true -> closes_at_end content = true ->
  CoreReviewV3.cut_object content = content.
Proof.
  intros Hs Hc. unfold CoreReviewV3.cut_object. rewrite Hs.
  destruct content as [|c s]; [done|].
  cbn [startswith lit list_ascii_of_string map] in Hs.
  apply andb_true_iff in Hs as [Hb _]. apply N.eqb_eq in Hb.
  change (N_of_ascii "{") with (ch "{") in Hb. subst c.
  cbn [depth_scan]. change (ch "{" =? ch "{") with true. cbn match.
  change (0 + 1)%Z with 1%Z.
  destruct (Z.eq_dec (depth_scan 1 1 s) 0%Z) as [Hz | Hnz]; [by rewrite Hz|].
  destruct (depth_scan_found s 1 1 ltac:(lia) ltac:(lia) Hnz) as (k & Hk & Hn & Hbal & _).
  assert ((depth_scan 1 1 s >? 0)%Z = true) as -> by lia.
  assert (k = length s) as ->.
  { destruct (decide (k = length s)) as [|Hne]; [done|]. exfalso.
    unfold closes_at_end in Hc. rewrite forallb_forall in Hc.
    specialize (Hc (S k)). rewrite in_seq in Hc. cbn [length] in Hc.
    specialize (Hc ltac:(lia)). apply negb_true_iff, Z.eqb_neq in Hc. apply Hc.
    cbn [take balance]. change (ch "{" =? ch "{") with true. lia. }
  rewrite Hn. replace (1 + Z.of_nat (length s))%Z with (Z.of_nat (length (ch "{" :: s)))
    by (cbn [length]; lia).
  apply slice_to_all.
Qed.

(** *** The whole isolation *)

Lemma strip_object (inner : text) :
  strip (lit "{" ++ inner ++ lit "}") = lit "{" ++ inner ++ lit "}".
Proof.
  unfold strip.
  change (lstrip (lit "{" ++ inner ++ lit "}")) with (lit "{" ++ inner ++ lit "}").
  rewrite (app_assoc (lit "{")). by apply rstrip_last.
Qed.

(** The text of an object sent bare comes out as it went in, when it holds
    no think block and no three backticks in a row and its braces balance
    nowhere before its end. *)
Lemma isolate_bare (inner : text) :
  let J := lit "{" ++ inner ++ lit "}" in
  no_think_block J = true -> str_in FENCE J = false -> closes_at_end J = true ->
  CoreReviewV3.isolate J = J.
Proof.
  intros J Ht Hf Hc. unfold CoreReviewV3.isolate, re_sub_think.
  rewrite re_sub_think_none by done. unfold J at 1. rewrite strip_object. fold J.
  rewrite unwrap_fence_absent by done. unfold J at 1. rewrite seek_brace_object. fold J.
  by apply cut_object_whole.
Qed.

(** The text of an object sent in a fence tagged [json], after prose and
    after a think block, comes out as it went in. *)
Lemma isolate_wrapped (think prose inner : text) :
  let J := lit "{" ++ inner ++ lit "}" in
  str_in THINK_CLOSE think = false ->
  no_think_block (prose ++ FENCE_JSON ++ NL ++ J ++ NL ++ FENCE) = true ->
  str_in FENCE_JSON prose = false ->
  str_in FENCE J = false ->
  closes_at_end J = true ->
  CoreReviewV3.isolate (wrap_reply think prose J) = J.
Proof.
  intros J Ht Hr Hp Hf Hc. unfold CoreReviewV3.isolate, wrap_reply.
  rewrite re_sub_think_first_block by done.
  assert (strip (prose ++ FENCE_JSON ++ NL ++ J ++ NL ++ FENCE)
          = lstrip prose ++ FENCE_JSON ++ NL ++ J ++ NL ++ FENCE) as ->.
  { unfold strip.
    change (FENCE_JSON ++ NL ++ J ++ NL ++ FENCE)
      with (ch "`" :: lit "``json" ++ NL ++ J ++ NL ++ FENCE).
    rewrite lstrip_app by done.
    change (ch "`" :: lit "``json" ++ NL ++ J ++ NL ++ FENCE)
      with (FENCE_JSON ++ NL ++ J ++ NL ++ FENCE).
    replace (lstrip prose ++ FENCE_JSON ++ NL ++ J ++ NL ++ FENCE)
      with ((lstrip prose ++ FENCE_JSON ++ NL ++ J ++ NL ++ lit "``") ++ [ch "`"])
      by (by rewrite <- !app_assoc).
    by apply rstrip_last. }
  unfold J at 1. rewrite unwrap_fence_tagged; [| |done].
  - rewrite seek_brace_object. by apply cut_object_whole.
  - assert (exists n, lstrip prose = drop n prose) as (n & ->).
    { clear. induction prose as [|c s (n & IH)]; [by exists 0%nat|].
      cbn [lstrip]. destruct (is_space c); [by exists (S n) | by exists 0%nat]. }
    apply str_in_false in Hp. unfold str_in. by rewrite find_sub_drop.
Qed.
(** ** Extraction: the round trip and what is rejected *)

(** What an object gives back, bare or wrapped. *)
Lemma extract_bare_object (limit : nat) (members : list (text * json)) :
  let J := json_dumps (JObj members) in
  json_ok (JObj members) = true ->
  no_think_block J = true -> str_in FENCE J = false -> closes_at_end J = true ->
  CoreReviewV3.extract limit J
  = read_back (json_depth (JObj members) <=? limit)%nat (JObj members).
Proof.
  intros J Hok Ht Hf Hc. unfold CoreReviewV3.extract.
  subst J. cbn [json_dumps] in *. rewrite isolate_bare by done.
  by apply (json_loads_dumps_depth limit (JObj members)).
Qed.

Lemma extract_wrapped_object (limit : nat) (think prose : text)
    (members : list (text * json)) :
  let J := json_dumps (JObj members) in
  json_ok (JObj members) = true ->
  str_in THINK_CLOSE think = false ->
  no_think_block (prose ++ FENCE_JSON ++ NL ++ J ++ NL ++ FENCE) = true ->
  str_in FENCE_JSON prose = false -> str_in FENCE J = false -> closes_at_end J = true ->
  CoreReviewV3.extract limit (wrap_reply think prose J)
  = read_back (json_depth (JObj members) <=? limit)%nat (JObj members).
Proof.
  intros J Hok Ht Hr Hp Hf Hc. unfold CoreReviewV3.extract.
  subst J. cbn [json_dumps] in *. rewrite isolate_wrapped by done.
  by apply (json_loads_dumps_depth limit (JObj members)).
Qed.

(** A condition on the strings alone that is enough: a well-formed review
    none of whose strings holds a brace, a backtick or an opening angle
    bracket comes back from a reply whose prose and think text hold no
    backtick and no opening angle bracket. *)
Lemma extract_round_trip_plain (limit : nat) (r : ReviewResult) (think prose : text) :
  well_formed r = true -> plain_review r = true -> (3 <= limit)%nat ->
  forallb quiet_char think = true -> forallb quiet_char prose = true ->
  CoreReviewV3.extract limit (wrap_reply think prose (json_dumps (review_dict r)))
  = Ok (review_dict r).
Proof.
  intros Hwf Hplain Hd Ht Hp. unfold CoreReviewV3.extract, review_dict.
  rewrite isolate_wrapped_object; [| done | done | by apply review_dict_plain].
  apply json_loads_dumps; [by apply review_dict_ok|].
  pose proof (review_dict_depth r) as H3. unfold review_dict in H3. lia.
Qed.

(** C1, as stated, fails: a well-formed review whose architecture notes
    end with a closing brace does not come back.  The brace count takes
    the brace inside the string for the end of the object, and
    [json.loads] rejects what is left. *)
Lemma round_trip_breaks_on_brace :
  well_formed brace_review = true
  /\ CoreReviewV3.isolate
       (wrap_reply (lit "hmm") (lit "Here you go: ") (json_dumps (review_dict brace_review)))
     = lit "{" ++ DQ ++ lit "improvements" ++ DQ ++ lit ": [], " ++ DQ
       ++ lit "architecture_notes" ++ DQ ++ lit ": " ++ DQ ++ lit "Ends with }"
  /\ CoreReviewV3.extract 1000
       (wrap_reply (lit "hmm") (lit "Here you go: ") (json_dumps (review_dict brace_review)))
     = Raise JSONDecodeError
  /\ Standalone.extract 1000
       (wrap_reply (lit "hmm") (lit "Here you go: ") (json_dumps (review_dict brace_review)))
     = Raise JSONDecodeError.
Proof. repeat split; by vm_compute. Qed.

(** C1, amended: a well-formed review comes back equal from its
    [json.dumps] text put in a fence tagged [json], after prose and after a
    think block, in core_review_v3.py and in review_standalone.py alike,
    when the stages find their marks where the reply put them: the text of
    the think block holds no closing tag and what follows the block holds
    no think block; the prose does not hold the opening of the fence; the
    JSON text holds no three backticks in a row, and none of its braces
    brings the count back to zero before its last one (braces, backticks
    and angle brackets inside the strings are harmless otherwise, and so
    are those of the prose and of the think block); and the
    interpreter follows three levels of nesting. *)
Theorem extract_round_trip (limit : nat) (r : ReviewResult) (think prose : text) :
  let J := json_dumps (review_dict r) in
  well_formed r = true ->
  (json_depth (review_dict r) <= limit)%nat ->
  str_in THINK_CLOSE think = false ->
  no_think_block (prose ++ FENCE_JSON ++ NL ++ J ++ NL ++ FENCE) = true ->
  str_in FENCE_JSON prose = false ->
  str_in FENCE J = false ->
  closes_at_end J = true ->
  CoreReviewV3.extract limit (wrap_reply think prose J) = Ok (review_dict r)
  /\ Standalone.extract limit (wrap_reply think prose J) = Ok (review_dict r)
  /\ (json_depth (review_dict r) <= 3)%nat.
Proof.
  intros J Hwf Hd Ht Hr Hp Hf Hc.
  assert (CoreReviewV3.extract limit (wrap_reply think prose J) = Ok (review_dict r)) as H.
  { subst J. unfold review_dict in *. rewrite extract_wrapped_object; try done.
    - by rewrite (proj2 (Nat.leb_le _ _) Hd).
    - by apply review_dict_ok. }
  split; [done|]. split; [by rewrite standalone_extract_eq|].
  apply review_dict_depth.
Qed.

Lemma extract_round_trip_witness :
  CoreReviewV3.extract 1000
    (wrap_reply (lit "Is a < b? Maybe `{}` works.") (lit "Here is {the} `JSON` <v2>: ")
       (json_dumps (review_dict tricky_review)))
  = Ok (review_dict tricky_review)
  /\ Standalone.extract 1000
       (wrap_reply (lit "Is a < b? Maybe `{}` works.") (lit "Here is {the} `JSON` <v2>: ")
          (json_dumps (review_dict tricky_review)))
     = Ok (review_dict tricky_review).
Proof.
  refine (let H := extract_round_trip 1000 tricky_review
                     (lit "Is a < b? Maybe `{}` works.")
                     (lit "Here is {the} `JSON` <v2>: ") _ _ _ _ _ _ _ in
          conj (proj1 H) (proj1 (proj2 H)));
    try (by vm_compute).
  apply Nat.leb_le. by vm_compute.
Defined.

(** C2, as stated, fails: nothing checks the parsed value.  A review with a
    severity of "urgent" and a risk score of 101 violates the schema and is
    returned as it was parsed; a reply that holds an array and no object at
    all is returned as well. *)
Lemma invalid_shape_is_returned :
  schema_ok (review_dict urgent_review) = false
  /\ CoreReviewV3.extract 1000 (json_dumps (review_dict urgent_review))
     = Ok (review_dict urgent_review)
  /\ Standalone.extract 1000 (json_dumps (review_dict urgent_review))
     = Ok (review_dict urgent_review)
  /\ CoreReviewV3.extract 1000 (lit "[1, 2]") = Ok (JArr [JInt 1; JInt 2]).
Proof. repeat split; by vm_compute. Qed.

(** C2, amended: the extraction of core_review_v3.py and the one of
    review_standalone.py give the same; they fail, with the exception of
    [json.loads], when the text the stages before it have isolated opens an
    object that is never closed.  The parsed value is returned without any
    check of its shape: every object that [json.dumps] wrote and the
    isolation leaves whole is returned as it was written, whatever its
    keys, its enumeration values and its risk score, when the interpreter
    follows its nesting, and ends in [RecursionError] when it nests
    deeper. *)
Theorem extract_fails_as_json_loads (limit : nat) (raw : text) :
  Standalone.extract limit raw = CoreReviewV3.extract limit raw
  /\ (startswith (lit "{") (CoreReviewV3.isolate raw) = true ->
      ~ In (ch "}") (CoreReviewV3.isolate raw) ->
      exists e, CoreReviewV3.extract limit raw = Raise e)
  /\ (forall members,
        raw = json_dumps (JObj members) ->
        json_ok (JObj members) = true ->
        no_think_block raw = true -> str_in FENCE raw = false ->
        closes_at_end raw = true ->
        ((json_depth (JObj members) <= limit)%nat ->
         CoreReviewV3.extract limit raw = Ok (JObj members))
        /\ ((limit < json_depth (JObj members))%nat ->
            CoreReviewV3.extract limit raw = Raise RecursionError)).
Proof.
  split; [apply standalone_extract_eq|]. split.
  - intros Hs Hno. unfold CoreReviewV3.extract. by apply json_loads_unclosed.
  - intros members -> Hok Ht Hf Hc. rewrite extract_bare_object by done.
    split; intros Hd.
    + by rewrite (proj2 (Nat.leb_le _ _) Hd).
    + by rewrite (proj2 (Nat.leb_gt _ _) Hd).
Qed.

Lemma extract_fails_as_json_loads_witness :
  (exists e, CoreReviewV3.extract 1000 (lit "{ unfinished") = Raise e)
  /\ CoreReviewV3.extract 1000 (json_dumps (review_dict urgent_review))
     = Ok (review_dict urgent_review)
  /\ CoreReviewV3.extract 2 (json_dumps (review_dict urgent_review))
     = Raise RecursionError.
Proof.
  split; [|split].
  - apply (extract_fails_as_json_loads 1000 (lit "{ unfinished")).
    + reflexivity.
    + vm_compute. intros H. repeat destruct H as [H|H]; done.
  - refine (proj1 (proj2 (proj2 (extract_fails_as_json_loads 1000
                                   (json_dumps (review_dict urgent_review))))
                     _ eq_refl _ _ _ _) _); try (by vm_compute).
    apply Nat.leb_le. by vm_compute.
  - refine (proj2 (proj2 (proj2 (extract_fails_as_json_loads 2
                                   (json_dumps (review_dict urgent_review))))
                     _ eq_refl _ _ _ _) _); by vm_compute.
Defined.
(** ** More on the collectors *)

Lemma eligible_true excluded skip fs fp :
  eligible excluded skip fs fp = true <->
  fs_is_file fs fp = true /\ parts_meet fp excluded = false
  /\ set_mem (name fp) skip = false.
Proof.
  unfold eligible. rewrite !andb_true_iff, !negb_true_iff. tauto.
Qed.

Lemma in_candidates fs root patterns fp :
  In fp (candidates fs root patterns) <->
  exists pattern, In pattern patterns /\ In fp (fs_glob fs root pattern).
Proof. unfold candidates. apply in_flat_map. Qed.

Lemma gather_files_fold_v3 fs root :
  CoreReviewV3.gather_files fs root
  = sort_by_path
      (fold_left (visit_spec CoreReviewV3.EXCLUDE_DIRS CoreReviewV3.SKIP_FILES fs root)
                 (candidates fs root CoreReviewV3.CORE_PATTERNS) ([], ∅)).1.
Proof.
  unfold CoreReviewV3.gather_files. rewrite fold_left_flat_map.
  f_equal. f_equal. apply fold_left_ext_fun. intros. apply v3_visit_spec.
Qed.

Lemma gather_files_fold_standalone fs root patterns :
  Standalone.gather_files fs root patterns
  = sort_by_path
      (fold_left (visit_spec Standalone.EXCLUDE_DIRS Standalone.SKIP_FILES fs root)
                 (candidates fs root patterns) ([], ∅)).1.
Proof.
  unfold Standalone.gather_files. rewrite fold_left_flat_map.
  f_equal. f_equal. apply fold_left_ext_fun. intros. apply standalone_visit_spec.
Qed.

Lemma gather_spec_source excluded skip fs root patterns (e : source_file) :
  In e (fold_left (visit_spec excluded skip fs root)
                  (candidates fs root patterns) ([], ∅)).1 ->
  exists pattern fp,
    In pattern patterns /\ In fp (fs_glob fs root pattern)
    /\ fs_is_file fs fp = true
    /\ parts_meet fp excluded = false
    /\ set_mem (name fp) skip = false
    /\ relative_to fp root = e.1
    /\ fs_read_text fs fp = Some e.2.
Proof.
  intros H. apply fold_visit_source in H. destruct H as [[] | (fp & Hin & Hel & Hr & Hc)].
  apply in_candidates in Hin. destruct Hin as (pattern & Hp & Hg).
  apply eligible_true in Hel. destruct Hel as (? & ? & ?).
  exists pattern, fp. tauto.
Qed.

Lemma NoDup_fst_perm (l1 l2 : list source_file) :
  l1 ≡ₚ l2 -> NoDup (map fst l1) -> NoDup (map fst l2).
Proof. intros Hp. apply NoDup_Permutation_proper. by apply fmap_Permutation. Qed.

(** X1: whatever [gather_core_files] of core_review.py returns was read
    from a regular file that one of [CORE_PATTERNS] yielded, with no
    excluded component and a name off the skip list; the entry carries the
    path relative to the root and the text of that file. *)
Theorem gather_core_files_sound
    (fs : filesystem) (root : Path) (rel content : text) :
  In (rel, content) (CoreReview.gather_core_files fs root) ->
  exists pattern fp,
    In pattern CoreReview.CORE_PATTERNS /\ In fp (fs_glob fs root pattern)
    /\ fs_is_file fs fp = true
    /\ CoreReview.should_include_path fp = true
    /\ set_mem (name fp) CoreReview.SKIP_FILES = false
    /\ relative_to fp root = rel
    /\ fs_read_text fs fp = Some content.
Proof.
  rewrite gather_core_files_fold. intros H.
  apply gather_spec_source in H.
  destruct H as (pattern & fp & ? & ? & ? & Hm & ? & ? & ?).
  exists pattern, fp. unfold CoreReview.should_include_path. rewrite Hm. tauto.
Qed.

Lemma gather_core_files_sound_witness :
  exists pattern fp,
    In pattern CoreReview.CORE_PATTERNS /\ In fp (fs_glob demo_fs demo_root pattern)
    /\ fs_is_file demo_fs fp = true
    /\ CoreReview.should_include_path fp = true
    /\ set_mem (name fp) CoreReview.SKIP_FILES = false
    /\ relative_to fp demo_root = lit "src/main.ts"
    /\ fs_read_text demo_fs fp = Some (lit "X").
Proof.
  apply (gather_core_files_sound demo_fs demo_root (lit "src/main.ts") (lit "X")).
  vm_compute. tauto.
Defined.

(** X2: [gather_files] of core_review_v3.py and of review_standalone.py
    return their entries in ascending order of path, no path twice, and
    every entry was read from an eligible file a pattern yielded. *)
Theorem gather_files_sorted_distinct_sound
    (fs : filesystem) (root : Path) (patterns : list text) :
  (StronglySorted path_le (CoreReviewV3.gather_files fs root)
   /\ NoDup (map fst (CoreReviewV3.gather_files fs root))
   /\ forall rel content,
        In (rel, content) (CoreReviewV3.gather_files fs root) ->
        exists pattern fp,
          In pattern CoreReviewV3.CORE_PATTERNS /\ In fp (fs_glob fs root pattern)
          /\ fs_is_file fs fp = true
          /\ parts_meet fp CoreReviewV3.EXCLUDE_DIRS = false
          /\ set_mem (name fp) CoreReviewV3.SKIP_FILES = false
          /\ relative_to fp root = rel
          /\ fs_read_text fs fp = Some content)
  /\
  (StronglySorted path_le (Standalone.gather_files fs root patterns)
   /\ NoDup (map fst (Standalone.gather_files fs root patterns))
   /\ forall rel content,
        In (rel, content) (Standalone.gather_files fs root patterns) ->
        exists pattern fp,
          In pattern patterns /\ In fp (fs_glob fs root pattern)
          /\ fs_is_file fs fp = true
          /\ parts_meet fp Standalone.EXCLUDE_DIRS = false
          /\ set_mem (name fp) Standalone.SKIP_FILES = false
          /\ relative_to fp root = rel
          /\ fs_read_text fs fp = Some content).
Proof.
  rewrite gather_files_fold_v3, gather_files_fold_standalone.
  split; (split; [apply sort_by_path_sorted | split]).
  - eapply NoDup_fst_perm; [symmetry; apply sort_by_path_perm | apply gather_spec_NoDup].
  - intros rel content H.
    apply (Permutation_in _ (sort_by_path_perm _)) in H.
    by apply gather_spec_source in H.
  - eapply NoDup_fst_perm; [symmetry; apply sort_by_path_perm | apply gather_spec_NoDup].
  - intros rel content H.
    apply (Permutation_in _ (sort_by_path_perm _)) in H.
    by apply gather_spec_source in H.
Qed.

Lemma codebase_fold_visit fs root (cands : list Path) (acc : list source_file) :
  fold_left (CodebaseReview.visit fs root) cands acc
  = acc ++ flat_map
      (fun fp =>
         if fs_is_file fs fp && CodebaseReview.should_include_path fp then
           match fs_read_text fs fp with
           | Some content => [(relative_to fp root, content)]
           | None => []
           end
         else [])
      cands.
Proof.
  revert acc. induction cands as [|fp cands IH]; intros acc; cbn [fold_left flat_map].
  - by rewrite app_nil_r.
  - rewrite IH. unfold CodebaseReview.visit.
    destruct (fs_is_file fs fp && CodebaseReview.should_include_path fp);
      [destruct (fs_read_text fs fp)|]; cbn [app]; [|done..].
    by rewrite <- app_assoc.
Qed.

(** X3: [gather_source_files] of laozhang_codebase_review.py keeps no record
    of the paths it took and has no skip list: it returns one entry for
    every match of every pattern that is a readable regular file without
    an excluded component, in the order of the matches. *)
Theorem gather_source_files_one_entry_per_match (fs : filesystem) (root : Path) :
  CodebaseReview.gather_source_files fs root
  = flat_map
      (fun fp =>
         if fs_is_file fs fp && CodebaseReview.should_include_path fp then
           match fs_read_text fs fp with
           | Some content => [(relative_to fp root, content)]
           | None => []
           end
         else [])
      (flat_map (fs_glob fs root) CodebaseReview.INCLUDE_PATTERNS).
Proof.
  unfold CodebaseReview.gather_source_files. rewrite fold_left_flat_map.
  apply (codebase_fold_visit fs root _ []).
Qed.
(** ** More on the content budgeter *)

(** Two sorted arrangements of the same files are one when no path occurs
    twice. *)
Lemma sorted_perm_unique (l1 l2 : list source_file) :
  StronglySorted path_le l1 -> StronglySorted path_le l2 ->
  l1 ≡ₚ l2 -> NoDup (map fst l1) -> l1 = l2.
Proof.
  revert l2. induction l1 as [|x l1 IH]; intros l2 H1 H2 Hp Hnd.
  { by apply Permutation_nil_l in Hp. }
  destruct l2 as [|y l2]; [by apply Permutation_nil_r in Hp|].
  apply StronglySorted_inv in H1 as [H1 Hx]. apply StronglySorted_inv in H2 as [H2 Hy].
  apply NoDup_cons in Hnd as [Hnx Hnd].
  assert (x = y) as ->.
  { assert (x ∈ y :: l2) as Hxin by (rewrite <- Hp; left).
    assert (y ∈ x :: l1) as Hyin by (rewrite Hp; left).
    apply elem_of_cons in Hxin as [? | Hxin]; [done|].
    apply elem_of_cons in Hyin as [? | Hyin]; [done|].
    rewrite Forall_forall in Hx, Hy.
    apply (Hy x) in Hxin. apply (Hx y) in Hyin as Hle. unfold path_le in *.
    destruct (text_ltb_total _ _ Hxin) as [Hlt | Heq]; [congruence|].
    exfalso. apply Hnx. rewrite <- Heq. by apply (list_elem_of_fmap_2 fst). }
  f_equal. apply IH; try done. by apply (Permutation_cons_inv Hp).
Qed.

Lemma sort_by_path_order_independent (files files' : list source_file) :
  files ≡ₚ files' -> NoDup (map fst files) -> sort_by_path files = sort_by_path files'.
Proof.
  intros Hp Hnd. apply sorted_perm_unique; try apply sort_by_path_sorted.
  - by rewrite !sort_by_path_perm.
  - eapply NoDup_fst_perm; [symmetry; apply sort_by_path_perm | done].
Qed.

(** X4: the plain renderings sort their input by path, so that they do not
    depend on the order in which the files were collected, provided no
    path occurs twice ([format_files] of core_review.py, [format_codebase]
    of laozhang_codebase_review.py). *)
Theorem format_files_order_independent
    (files files' : list source_file) (max_size : Z) :
  files ≡ₚ files' -> NoDup (map fst files) ->
  CoreReview.format_files files max_size = CoreReview.format_files files' max_size
  /\ CodebaseReview.format_codebase files max_size
     = CodebaseReview.format_codebase files' max_size.
Proof.
  intros Hp Hnd.
  unfold CoreReview.format_files, CodebaseReview.format_codebase.
  by rewrite (sort_by_path_order_independent files files').
Qed.

Lemma format_files_order_independent_witness :
  CoreReview.format_files two_files 40 = CoreReview.format_files (rev two_files) 40
  /\ CodebaseReview.format_codebase two_files 40
     = CodebaseReview.format_codebase (rev two_files) 40.
Proof.
  apply (format_files_order_independent two_files (rev two_files) 40).
  - apply Permutation_rev.
  - apply (bool_decide_unpack _). by vm_compute.
Defined.

Lemma fit_count_monotone (room room' : Z) (sizes : list Z) :
  (room <= room')%Z -> (fit_count room sizes <= fit_count room' sizes)%nat.
Proof.
  revert room room'. induction sizes as [|s sizes IH]; intros room room' H; simpl; [done|].
  destruct (s >? room)%Z eqn:E, (s >? room')%Z eqn:E'; try lia.
  specialize (IH (room - s)%Z (room' - s)%Z). lia.
Qed.

Lemma fit_count_everything (room : Z) (blocks : list text) :
  (total_len blocks <= room)%Z -> fit_count room (map len blocks) = length blocks.
Proof.
  revert room. induction blocks as [|b bs IH]; intros room H; simpl; [done|].
  rewrite total_len_cons in H.
  assert (0 <= total_len bs)%Z by apply len_nonneg.
  assert ((len b >? room)%Z = false) as -> by lia.
  f_equal. apply IH. lia.
Qed.

(** X5: a larger budget never sends fewer files.  With [B <= B'], the
    blocks [format_files] of core_review.py writes under [B] are a prefix of
    those it writes under [B']. *)
Theorem format_files_budget_monotone (files : list source_file) (B B' : Z) :
  (B <= B')%Z ->
  let blocks := plain_blocks (sort_by_path files) in
  let n := length files in
  exists k k' : nat,
    (k <= k')%nat /\ (k' <= n)%nat
    /\ CoreReview.format_files files B
       = concat (take k blocks)
         ++ (if (k <? n)%nat
             then CoreReview.truncation_marker (Z.of_nat n - Z.of_nat k) else [])
    /\ CoreReview.format_files files B'
       = concat (take k' blocks)
         ++ (if (k' <? n)%nat
             then CoreReview.truncation_marker (Z.of_nat n - Z.of_nat k') else []).
Proof.
  intros HB blocks n.
  exists (fit_count B (map len blocks)), (fit_count B' (map len blocks)).
  split; [by apply fit_count_monotone|]. split.
  - pose proof (fit_count_le B' (map len blocks)) as H.
    rewrite length_map in H. unfold blocks in H at 2.
    by rewrite plain_blocks_length, sort_by_path_length in H.
  - split; apply core_format_files_spec.
Qed.

Lemma format_files_budget_monotone_witness :
  exists k k' : nat,
    (k <= k')%nat /\ (k' <= 2)%nat
    /\ CoreReview.format_files two_files 40
       = concat (take k (plain_blocks (sort_by_path two_files)))
         ++ (if (k <? 2)%nat
             then CoreReview.truncation_marker (2 - Z.of_nat k) else [])
    /\ CoreReview.format_files two_files 80
       = concat (take k' (plain_blocks (sort_by_path two_files)))
         ++ (if (k' <? 2)%nat
             then CoreReview.truncation_marker (2 - Z.of_nat k') else []).
Proof.
  apply (format_files_budget_monotone two_files 40 80). lia.
Defined.

(** X6: when the manifest and the blocks of all files fit the budget, the
    annotated renderings ([format_files] of core_review_v3.py and of
    review_standalone.py) write all of them and no marker; so does the plain
    rendering of core_review.py when the blocks of all files fit. *)
Theorem format_files_complete_when_fits (files : list source_file) (B : Z) :
  (let manifest := CoreReviewV3.manifest_of files in
   let blocks :=
     annotated_blocks (fun i => CoreReviewV3.file_block i (Z.of_nat (length files)))
                      1 files in
   (len manifest + total_len blocks <= B)%Z ->
   CoreReviewV3.format_files files B = manifest ++ concat blocks)
  /\
  (let manifest := Standalone.manifest_of files in
   let blocks :=
     annotated_blocks (fun i => Standalone.file_block i (Z.of_nat (length files)))
                      1 files in
   (len manifest + total_len blocks <= B)%Z ->
   Standalone.format_files files B = manifest ++ concat blocks)
  /\
  (let blocks := plain_blocks (sort_by_path files) in
   (total_len blocks <= B)%Z -> CoreReview.format_files files B = concat blocks).
Proof.
  split; [|split].
  - intros manifest blocks H. rewrite v3_format_files_spec. fold manifest blocks.
    rewrite fit_count_everything by lia.
    unfold blocks at 1 3. rewrite annotated_blocks_length, Nat.ltb_irrefl.
    rewrite <- (annotated_blocks_length
                  (fun i => CoreReviewV3.file_block i (Z.of_nat (length files))) 1 files).
    fold blocks. by rewrite firstn_all, app_nil_r.
  - intros manifest blocks H. rewrite standalone_format_files_spec. fold manifest blocks.
    rewrite fit_count_everything by lia.
    unfold blocks at 1 3. rewrite annotated_blocks_length, Nat.ltb_irrefl.
    rewrite <- (annotated_blocks_length
                  (fun i => Standalone.file_block i (Z.of_nat (length files))) 1 files).
    fold blocks. by rewrite firstn_all, app_nil_r.
  - intros blocks H. rewrite core_format_files_spec. fold blocks.
    rewrite fit_count_everything by lia.
    unfold blocks at 1 3. rewrite plain_blocks_length, sort_by_path_length, Nat.ltb_irrefl.
    rewrite <- (sort_by_path_length files), <- (plain_blocks_length (sort_by_path files)).
    fold blocks. by rewrite firstn_all, app_nil_r.
Qed.

Lemma format_files_complete_when_fits_witness :
  CoreReviewV3.format_files two_files 1000
  = CoreReviewV3.manifest_of two_files
    ++ concat (annotated_blocks (fun i => CoreReviewV3.file_block i 2) 1 two_files)
  /\ CoreReview.format_files two_files 1000
     = concat (plain_blocks (sort_by_path two_files)).
Proof.
  pose proof (format_files_complete_when_fits two_files 1000) as (H1 & _ & H3).
  cbv zeta in H1, H3. split; [apply H1 | apply H3]; by vm_compute.
Defined.

(** X7: [format_files] of review_standalone.py writes the manifest, the
    blocks of the longest prefix of the files that fits in what the manifest
    leaves, whole, and, when files are left out, a marker that states their
    number; the output is at most [max B (len manifest)] plus the marker
    long. *)
Theorem standalone_format_files_marker_and_bound (files : list source_file) (B : Z) :
  let manifest := Standalone.manifest_of files in
  let n := length files in
  let blocks := annotated_blocks (fun i => Standalone.file_block i (Z.of_nat n)) 1 files in
  let k := fit_count (B - len manifest) (map len blocks) in
  let marker := Standalone.truncation_marker (Z.of_nat (length (drop k files))) in
  Standalone.format_files files B
  = manifest ++ concat (take k blocks) ++ (if (k <? n)%nat then marker else [])
  /\ ((k < n)%nat -> (B < len manifest + total_len (take (S k) blocks))%Z)
  /\ (len (Standalone.format_files files B) <= Z.max B (len manifest) + len marker)%Z.
Proof.
  intros manifest n blocks k marker.
  assert (Standalone.format_files files B
          = manifest ++ concat (take k blocks) ++ (if (k <? n)%nat then marker else []))
    as Heq.
  { rewrite standalone_format_files_spec. fold manifest n blocks k.
    unfold marker. rewrite length_drop. fold n.
    destruct (k <? n)%nat eqn:E; [|done]. apply Nat.ltb_lt in E.
    by replace (Z.of_nat (n - k)) with (Z.of_nat n - Z.of_nat k)%Z by lia. }
  split; [exact Heq|]. split.
  - intros Hk.
    pose proof (fit_count_maximal (B - len manifest) blocks) as H. fold k in H.
    unfold blocks in H at 1. rewrite annotated_blocks_length in H. fold n in H.
    specialize (H Hk). fold blocks in H. lia.
  - rewrite Heq, !len_app. fold (total_len (take k blocks)).
    pose proof (len_nonneg marker).
    assert (total_len (take k blocks) <= Z.max B (len manifest) - len manifest)%Z.
    { destruct (Z_lt_le_dec B (len manifest)) as [Hlt|Hle].
      - unfold k. rewrite fit_count_no_room by lia. rewrite take_0, total_len_nil. lia.
      - pose proof (fit_count_fits (B - len manifest) blocks). fold k in H0. lia. }
    destruct (k <? n)%nat; [lia | rewrite len_nil; lia].
Qed.

Lemma codebase_format_loop_spec max_size n_files todo parts_ current_size :
  let k := fit_count (max_size - current_size) (map len (codebase_blocks todo)) in
  CodebaseReview.format_loop max_size n_files todo parts_ current_size =
  parts_ ++ take k (codebase_blocks todo)
  ++ (if (k <? length todo)%nat
      then [CoreReview.truncation_marker
              (Z.of_nat n_files - Z.of_nat (length parts_ + k))]
      else []).
Proof.
  revert parts_ current_size.
  induction todo as [|[path content] rest IH]; intros parts_ current_size;
    cbn [CodebaseReview.format_loop codebase_blocks map fit_count fst snd].
  { by rewrite app_nil_r. }
  fold (len (CodebaseReview.file_block path content)).
  destruct (current_size + len (CodebaseReview.file_block path content) >? max_size)%Z eqn:E.
  - assert ((len (CodebaseReview.file_block path content) >? max_size - current_size)%Z
            = true) as -> by lia.
    cbn. by rewrite Nat.add_0_r.
  - assert ((len (CodebaseReview.file_block path content) >? max_size - current_size)%Z
            = false) as -> by lia.
    fold (codebase_blocks rest). rewrite IH.
    replace (max_size - (current_size + len (CodebaseReview.file_block path content)))%Z
      with (max_size - current_size - len (CodebaseReview.file_block path content))%Z by lia.
    set (k := fit_count _ _).
    cbn [take length]. rewrite <- app_assoc. cbn [app].
    rewrite length_app. cbn [length].
    replace (length parts_ + 1 + k)%nat with (length parts_ + S k)%nat by lia.
    done.
Qed.

(** X8: [format_codebase] of laozhang_codebase_review.py, for a budget
    [B >= 0]: the files are sorted by path, the blocks of the longest prefix
    whose blocks sum to at most [B] are written whole, then one marker with
    the number of files left out when there are some; no file is cut, and
    the output is at most [B] plus the marker long. *)
Theorem format_codebase_bound (files : list source_file) (B : Z) :
  (0 <= B)%Z ->
  let sorted := sort_by_path files in
  let blocks := codebase_blocks sorted in
  let k := fit_count B (map len blocks) in
  let marker := CoreReview.truncation_marker (Z.of_nat (length (drop k sorted))) in
  CodebaseReview.format_codebase files B
  = concat (take k blocks) ++ (if (k <? length files)%nat then marker else [])
  /\ (total_len (take k blocks) <= B)%Z
  /\ ((k < length files)%nat -> (B < total_len (take (S k) blocks))%Z)
  /\ (len (CodebaseReview.format_codebase files B) <= B + len marker)%Z.
Proof.
  intros HB sorted blocks k marker.
  assert (length sorted = length files) as Hs by apply sort_by_path_length.
  assert (length blocks = length files) as Hlen.
  { unfold blocks, codebase_blocks. by rewrite length_map. }
  assert (CodebaseReview.format_codebase files B
          = concat (take k blocks) ++ (if (k <? length files)%nat then marker else []))
    as Heq.
  { unfold CodebaseReview.format_codebase, concat_text. fold sorted.
    rewrite codebase_format_loop_spec. cbn [app length Nat.add].
    rewrite Z.sub_0_r. fold blocks k. rewrite concat_app.
    unfold marker. rewrite length_drop, !Hs.
    destruct (k <? length files)%nat eqn:E; cbn; rewrite ?app_nil_r; [|done].
    apply Nat.ltb_lt in E.
    by replace (Z.of_nat (length files - k)) with (Z.of_nat (length files) - Z.of_nat k)%Z
      by lia. }
  assert (total_len (take k blocks) <= B)%Z as Hfit by (by apply fit_count_fits).
  repeat split; try done.
  - intros Hk. apply fit_count_maximal. by rewrite Hlen.
  - rewrite Heq, len_app. fold (total_len (take k blocks)).
    pose proof (len_nonneg marker).
    destruct (k <? length files)%nat; [lia | rewrite len_nil; lia].
Qed.

Lemma format_codebase_bound_witness :
  CodebaseReview.format_codebase two_files 30
  = CodebaseReview.file_block (lit "a.ts") (lit "X") ++ CoreReview.truncation_marker 1
  /\ (len (CodebaseReview.format_codebase two_files 30)
      <= 30 + len (CoreReview.truncation_marker 1))%Z.
Proof.
  pose proof (format_codebase_bound two_files 30 ltac:(lia)) as H.
  cbv zeta in H. destruct H as (H1 & _ & _ & H2).
  split; [rewrite H1; by vm_compute | exact H2].
Defined.
(** ** More on the extraction *)

Lemma slice_from_drop (s : text) (i : nat) :
  (i <= length s)%nat -> slice_from s (Z.of_nat i) = drop i s.
Proof.
  intros H. unfold slice_from, slice_index.
  assert ((Z.of_nat i <? 0)%Z = false) as -> by lia.
  f_equal. lia.
Qed.

Lemma seek_brace_starts (content : text) :
  str_in (lit "{") content = true -> startswith (lit "{") (seek_brace content) = true.
Proof.
  unfold str_in, seek_brace, str_find. intros H.
  destruct (startswith (lit "{") content) eqn:E; cbn [negb]; [done|].
  destruct (find_sub (lit "{") content) as [i|] eqn:F; [|done].
  destruct (find_sub_spec _ _ _ F) as [Hs Hi].
  assert ((Z.of_nat i =? -1)%Z = false) as -> by lia. cbn [negb].
  by rewrite slice_from_drop.
Qed.

Lemma cut_object_starts (content : text) :
  startswith (lit "{") content = true ->
  startswith (lit "{") (CoreReviewV3.cut_object content) = true.
Proof.
  intros H. unfold CoreReviewV3.cut_object. rewrite H.
  destruct (depth_scan 0 0 content >? 0)%Z eqn:E; [|done].
  destruct content as [|c content]; [done|].
  unfold slice_to, slice_index.
  assert ((depth_scan 0 0 (c :: content) <? 0)%Z = false) as -> by lia.
  destruct (Z.to_nat (Z.min (depth_scan 0 0 (c :: content))
                            (Z.of_nat (length (c :: content))))) as [|n] eqn:En.
  { cbn [length] in En. lia. }
  cbn [take startswith lit list_ascii_of_string map] in *.
  apply andb_true_iff in H as [-> _]. done.
Qed.

Lemma json_loads_brace_object (limit : nat) (s : text) (v : json) :
  startswith (lit "{") s = true -> json_loads limit s = Ok v ->
  exists members, v = JObj members.
Proof.
  intros Hs. destruct s as [|c s]; [done|].
  cbn [startswith lit list_ascii_of_string map] in Hs.
  apply andb_true_iff in Hs as [Hc _]. apply N.eqb_eq in Hc.
  change (N_of_ascii "{") with (ch "{") in Hc. subst c.
  unfold json_loads. change (skip_ws (ch "{" :: s)) with (ch "{" :: s).
  replace (2 * length (ch "{" :: s) + 2)%nat with (S (2 * length s + 3))
    by (cbn [length]; lia).
  destruct limit as [|depth]; [done|]. rewrite scan_value_object.
  destruct (skip_ws s) as [|c1 r]; [done|].
  destruct (c1 =? ch "}").
  { cbn [mbind result_bind]. destruct (skip_ws r); [|done]. intros [= <-]. by eexists. }
  destruct (c1 =? 34); [|done].
  destruct (scan_pairs _ _ _) as [[pairs rest]|e]; [|done].
  cbn [mbind result_bind]. destruct (skip_ws rest); [|done]. intros [= <-]. by eexists.
Qed.

(** X9: once the think blocks are removed and a fence unwrapped, a reply
    that holds an opening brace can only come out of the extraction of
    [review_code] (core_review_v3.py, review_standalone.py) as a JSON
    object: an array, a string or a number is never returned for it. *)
Theorem extract_gives_object_when_brace (limit : nat) (raw : text) (v : json) :
  str_in (lit "{") (unwrap_fence (strip (re_sub_think raw))) = true ->
  (CoreReviewV3.extract limit raw = Ok v -> exists members, v = JObj members)
  /\ (Standalone.extract limit raw = Ok v -> exists members, v = JObj members).
Proof.
  intros H. rewrite standalone_extract_eq.
  assert (CoreReviewV3.extract limit raw = Ok v -> exists members, v = JObj members) as Hv3;
    [|by split].
  unfold CoreReviewV3.extract, CoreReviewV3.isolate.
  apply json_loads_brace_object, cut_object_starts, seek_brace_starts, H.
Qed.

Lemma extract_gives_object_when_brace_witness :
  CoreReviewV3.extract 1000 (lit "Sure: {}") = Ok (JObj [])
  /\ exists members, JObj [] = JObj members.
Proof.
  assert (CoreReviewV3.extract 1000 (lit "Sure: {}") = Ok (JObj [])) as H
    by (by vm_compute).
  split; [exact H|].
  exact (proj1 (extract_gives_object_when_brace 1000 (lit "Sure: {}") (JObj []) eq_refl) H).
Defined.

Lemma Forall_rstrip (P : N -> Prop) (s : text) : Forall P s -> Forall P (rstrip s).
Proof.
  intros H. unfold rstrip. apply Forall_rev, Forall_lstrip. by apply Forall_rev.
Qed.

Lemma rstrip_app (s : text) (c : N) (t : text) :
  is_space c = false -> rstrip ((s ++ [c]) ++ t) = (s ++ [c]) ++ rstrip t.
Proof.
  intros Hc. unfold rstrip. rewrite !rev_app_distr. cbn [rev app].
  rewrite lstrip_app by done.
  rewrite rev_app_distr. cbn [rev]. by rewrite rev_involutive.
Qed.

Lemma strip_around_object (lead inner trail : text) :
  strip (lead ++ (lit "{" ++ inner ++ lit "}") ++ trail)
  = lstrip lead ++ (lit "{" ++ inner ++ lit "}") ++ rstrip trail.
Proof.
  unfold strip.
  change (lead ++ (lit "{" ++ inner ++ lit "}") ++ trail)
    with (lead ++ ch "{" :: (inner ++ lit "}") ++ trail).
  rewrite lstrip_app by done.
  replace (lstrip lead ++ ch "{" :: (inner ++ lit "}") ++ trail)
    with (((lstrip lead ++ lit "{" ++ inner) ++ [ch "}"]) ++ trail).
  2: { rewrite <- !app_assoc. done. }
  rewrite rstrip_app by done. rewrite <- !app_assoc. done.
Qed.

Lemma seek_brace_after_lead (lead rest : text) :
  Forall (fun c => c <> ch "{") lead ->
  seek_brace (lead ++ lit "{" ++ rest) = lit "{" ++ rest.
Proof.
  intros H. destruct lead as [|c lead]; [apply seek_brace_object|].
  unfold seek_brace, str_find.
  apply Forall_cons in H as H'. destruct H' as [Hc _].
  assert (startswith (lit "{") ((c :: lead) ++ lit "{" ++ rest) = false) as ->.
  { cbn [startswith app lit list_ascii_of_string map].
    apply andb_false_iff. left. apply N.eqb_neq. intros E. apply Hc. by rewrite <- E. }
  cbn [negb].
  change (lit "{") with [ch "{"].
  rewrite (find_sub_first (ch "{") [] (c :: lead) rest H).
  assert ((Z.of_nat (length (c :: lead)) =? -1)%Z = false) as ->
    by (apply Z.eqb_neq; lia).
  cbn [negb].
  rewrite slice_from_drop by (rewrite length_app; lia).
  by rewrite drop_app_length.
Qed.

Lemma find_sub_prefix (p s t : text) : find_sub p (s ++ t) = None -> find_sub p s = None.
Proof.
  assert (forall q u, startswith q u = true -> startswith q (u ++ t) = true) as Hsw.
  { induction q as [|a q IH]; intros u Hu; [done|].
    destruct u as [|b u]; [done|]. cbn [app startswith] in *.
    apply andb_true_iff in Hu as [-> Hu]. cbn [andb]. by apply IH. }
  induction s as [|c s IH]; cbn [app find_sub].
  - intros H. destruct (startswith p []) eqn:E; [|done].
    apply (Hsw p [] ) in E. cbn [app] in E. destruct t; cbn [find_sub] in H; by rewrite E in H.
  - destruct (startswith p (c :: s)) eqn:E.
    { apply (Hsw p (c :: s)) in E. cbn [app] in E. by rewrite E. }
    destruct (startswith p (c :: s ++ t)); [done|].
    destruct (find_sub p (s ++ t)) eqn:F; [done|]. intros _. by rewrite IH.
Qed.

Lemma lstrip_suffix (s : text) : exists sp, s = sp ++ lstrip s.
Proof.
  induction s as [|c s (sp & IH)]; [by exists []|].
  cbn [lstrip]. destruct (is_space c); [|by exists []].
  exists (c :: sp). cbn [app]. by rewrite <- IH.
Qed.

Lemma rstrip_prefix (s : text) : exists sp, s = rstrip s ++ sp.
Proof.
  unfold rstrip. destruct (lstrip_suffix (rev s)) as (sp & H).
  exists (rev sp). rewrite <- rev_app_distr, <- H. by rewrite rev_involutive.
Qed.

(** What the stripping leaves holds no pattern the text did not hold. *)
Lemma find_sub_stripped (p lead mid trail : text) :
  find_sub p (lead ++ mid ++ trail) = None ->
  find_sub p (lstrip lead ++ mid ++ rstrip trail) = None.
Proof.
  intros H. destruct (lstrip_suffix lead) as (sp1 & H1).
  destruct (rstrip_prefix trail) as (sp2 & H2).
  rewrite H1, H2 in H. rewrite <- !app_assoc in H.
  apply (find_sub_drop _ _ (length sp1)) in H. rewrite drop_app_length in H.
  rewrite !app_assoc in H. apply find_sub_prefix in H. by rewrite <- !app_assoc in H.
Qed.

Lemma balance_app (s t : text) : balance (s ++ t) = (balance s + balance t)%Z.
Proof. induction s as [|c s IH]; cbn [app balance]; [done|]. rewrite IH. lia. Qed.

(** A text whose braces balance at its end and nowhere before is what the
    brace count keeps of it and of what follows. *)
Lemma cut_object_prefix (content rest : text) :
  startswith (lit "{") content = true -> closes_at_end content = true ->
  balance content = 0%Z ->
  CoreReviewV3.cut_object (content ++ rest) = content.
Proof.
  intros Hs Hc Hb. unfold CoreReviewV3.cut_object.
  destruct content as [|c s]; [done|].
  cbn [startswith lit list_ascii_of_string map] in Hs.
  apply andb_true_iff in Hs as [Hbr _]. apply N.eqb_eq in Hbr.
  change (N_of_ascii "{") with (ch "{") in Hbr. subst c.
  change (startswith (lit "{") ((ch "{" :: s) ++ rest)) with true. cbn match.
  cbn [app depth_scan]. change (ch "{" =? ch "{") with true. cbn match.
  change (0 + 1)%Z with 1%Z.
  cbn [balance] in Hb. change (ch "{" =? ch "{") with true in Hb.
  assert (balance (take (length s) (s ++ rest)) = (-1)%Z) as Hbs.
  { rewrite take_app_length. lia. }
  destruct (Z.eq_dec (depth_scan 1 1 (s ++ rest)) 0%Z) as [Hz | Hnz].
  { pose proof (depth_scan_none _ 1 1 ltac:(lia) Hz ltac:(lia) (length s)). lia. }
  destruct (depth_scan_found _ 1 1 ltac:(lia) ltac:(lia) Hnz) as (k & Hk & Hn & Hbal & Hmin).
  assert ((depth_scan 1 1 (s ++ rest) >? 0)%Z = true) as -> by lia.
  assert (k = length s) as ->.
  { destruct (Nat.lt_trichotomy k (length s)) as [Hlt | [-> | Hgt]]; [exfalso | done | exfalso].
    - unfold closes_at_end in Hc. rewrite forallb_forall in Hc.
      specialize (Hc (S k)). rewrite in_seq in Hc. cbn [length] in Hc.
      specialize (Hc ltac:(lia)). apply negb_true_iff, Z.eqb_neq in Hc. apply Hc.
      cbn [take balance]. change (ch "{" =? ch "{") with true.
      rewrite take_app_le in Hbal by lia. lia.
    - assert (1 <= length s)%nat as Hs1.
      { destruct s; [cbn [balance] in Hb; lia | cbn [length]; lia]. }
      specialize (Hmin (length s) ltac:(lia)). lia. }
  rewrite Hn. replace (1 + Z.of_nat (length s))%Z with (Z.of_nat (length (ch "{" :: s)))
    by (cbn [length]; lia).
  apply (slice_to_prefix (ch "{" :: s) rest).
Qed.

(** X10: prose around a bare object is tolerated.  A reply made of text
    without opening brace, then the [json.dumps] text of an object, then
    any text, is parsed by [review_code] (core_review_v3.py,
    review_standalone.py) to that object, and what follows the closing
    brace is dropped unread, when the reply holds no think block and no
    three backticks in a row, the braces of the object balance at its end
    and nowhere before, and the interpreter follows its nesting. *)
Theorem extract_object_amid_prose
    (limit : nat) (lead trail : text) (members : list (text * json)) :
  let J := json_dumps (JObj members) in
  json_ok (JObj members) = true ->
  (json_depth (JObj members) <= limit)%nat ->
  no_think_block (lead ++ J ++ trail) = true ->
  str_in FENCE (lead ++ J ++ trail) = false ->
  str_in (lit "{") lead = false ->
  closes_at_end J = true -> balance J = 0%Z ->
  CoreReviewV3.extract limit (lead ++ J ++ trail) = Ok (JObj members)
  /\ Standalone.extract limit (lead ++ J ++ trail) = Ok (JObj members).
Proof.
  intros J Hok Hd Ht Hf Hl Hc Hb. rewrite standalone_extract_eq.
  assert (CoreReviewV3.extract limit (lead ++ J ++ trail) = Ok (JObj members)) as Hv3;
    [|by split].
  unfold CoreReviewV3.extract.
  rewrite <- (json_loads_dumps limit (JObj members) Hok Hd). f_equal. fold J.
  assert (exists inner, J = lit "{" ++ inner ++ lit "}") as (inner & HJ) by (by eexists).
  unfold CoreReviewV3.isolate, re_sub_think.
  rewrite re_sub_think_none by done.
  rewrite HJ, strip_around_object, <- HJ.
  rewrite unwrap_fence_absent.
  2: { unfold str_in. rewrite find_sub_stripped; [done|]. by apply str_in_false. }
  rewrite HJ at 1. rewrite <- !app_assoc.
  rewrite seek_brace_after_lead.
  2: { apply Forall_lstrip. apply str_in_false in Hl. clear -Hl.
       induction lead as [|c lead IH]; [constructor|].
       cbn [find_sub] in Hl. destruct (startswith (lit "{") (c :: lead)) eqn:E; [done|].
       constructor.
       - intros ->. done.
       - apply IH. by destruct (find_sub (lit "{") lead). }
  replace (lit "{" ++ inner ++ lit "}" ++ rstrip trail) with (J ++ rstrip trail)
    by (by rewrite HJ, <- !app_assoc).
  apply cut_object_prefix; [by rewrite HJ | done | done].
Qed.

Lemma extract_object_amid_prose_witness :
  CoreReviewV3.extract 1000
    (lit "Here is the `review` <v2>. "
     ++ json_dumps (JObj [(lit "note", JStr (lit "use `{x}` if a < b"))])
     ++ lit " Let me know if {anything} is unclear.")
  = Ok (JObj [(lit "note", JStr (lit "use `{x}` if a < b"))]).
Proof.
  refine (proj1 (extract_object_amid_prose 1000 (lit "Here is the `review` <v2>. ")
                   (lit " Let me know if {anything} is unclear.")
                   [(lit "note", JStr (lit "use `{x}` if a < b"))] _ _ _ _ _ _ _));
    try (by vm_compute).
  apply Nat.leb_le. by vm_compute.
Defined.

Lemma think_match_unclosed (s : text) :
  find_sub THINK_CLOSE s = None -> think_match s = None.
Proof.
  intros H. unfold think_match. destruct (startswith THINK_OPEN s); [|done].
  by rewrite (find_sub_drop _ _ 7 H).
Qed.

(** X11: a think block that is never closed is not removed.  When the
    reply holds no closing tag, the substitution of [review_code]
    (core_review_v3.py, review_standalone.py) leaves it as it is, so that
    the later stages read the reasoning text as well. *)
Theorem unclosed_think_is_kept (raw : text) :
  str_in THINK_CLOSE raw = false ->
  re_sub_think raw = raw
  /\ CoreReviewV3.isolate raw
     = CoreReviewV3.cut_object (seek_brace (unwrap_fence (strip raw)))
  /\ Standalone.isolate raw = CoreReviewV3.isolate raw.
Proof.
  intros H.
  assert (re_sub_think raw = raw) as Heq.
  { unfold str_in in H. destruct (find_sub THINK_CLOSE raw) eqn:F; [done|]. clear H.
    unfold re_sub_think. induction raw as [|c raw IH]; [done|].
    cbn [re_sub_think_go]. rewrite (think_match_unclosed _ F). f_equal.
    apply IH. by eapply find_sub_tail. }
  split; [exact Heq|]. split; [|apply standalone_isolate_eq].
  unfold CoreReviewV3.isolate. by rewrite Heq.
Qed.

Lemma unclosed_think_is_kept_witness :
  re_sub_think (lit "<think>maybe {x} then") = lit "<think>maybe {x} then"
  /\ CoreReviewV3.isolate (lit "<think>maybe {x} then") = lit "{x}".
Proof.
  pose proof (unclosed_think_is_kept (lit "<think>maybe {x} then") eq_refl)
    as (H1 & H2 & _).
  split; [exact H1 | rewrite H2; by vm_compute].
Defined.

Lemma standalone_cut_object_eq (text_ : text) :
  Standalone.cut_object text_ = CoreReviewV3.cut_object text_.
Proof.
  unfold Standalone.cut_object, CoreReviewV3.cut_object.
  destruct (startswith (lit "{") text_); [|done].
  by rewrite cut_loop_depth_scan.
Qed.

(** X12: the brace count of [review_code] (core_review_v3.py,
    review_standalone.py) cuts a text that opens with a brace after its
    shortest prefix in which the braces balance, whatever the braces stand
    in; when no prefix balances, the text is left whole. *)
Theorem cut_object_shortest_balanced_prefix (content : text) :
  startswith (lit "{") content = true ->
  let cut := CoreReviewV3.cut_object content in
  Standalone.cut_object content = cut
  /\ ((exists k : nat, (1 <= k <= length content)%nat /\ balance (take k content) = 0%Z) ->
      exists n : nat,
        (1 <= n <= length content)%nat /\ cut = take n content
        /\ balance cut = 0%Z
        /\ forall j : nat, (1 <= j < n)%nat -> (1 <= balance (take j content))%Z)
  /\ ((forall k : nat, (1 <= k <= length content)%nat -> balance (take k content) <> 0%Z) ->
      cut = content).
Proof.
  intros Hs cut. split; [apply standalone_cut_object_eq|].
  subst cut. unfold CoreReviewV3.cut_object. rewrite Hs.
  destruct content as [|c s]; [done|].
  cbn [startswith lit list_ascii_of_string map] in Hs.
  apply andb_true_iff in Hs as [Hc _]. apply N.eqb_eq in Hc.
  change (N_of_ascii "{") with (ch "{") in Hc. subst c.
  cbn [depth_scan]. change (ch "{" =? ch "{") with true. cbn match.
  change (0 + 1)%Z with 1%Z.
  destruct (Z.eq_dec (depth_scan 1 1 s) 0%Z) as [Hz | Hnz].
  - rewrite Hz. cbn match.
    pose proof (depth_scan_none s 1 1 ltac:(lia) Hz ltac:(lia)) as Hnone.
    split; [|done].
    intros (k & Hk & Hb). destruct k as [|k]; [lia|].
    cbn [take balance] in Hb. change (ch "{" =? ch "{") with true in Hb.
    specialize (Hnone k). lia.
  - destruct (depth_scan_found s 1 1 ltac:(lia) ltac:(lia) Hnz) as (k & Hk & Hn & Hb & Hj).
    assert ((depth_scan 1 1 s >? 0)%Z = true) as -> by lia.
    assert (slice_to (ch "{" :: s) (depth_scan 1 1 s) = take (S k) (ch "{" :: s)) as Hcut.
    { unfold slice_to, slice_index. rewrite Hn.
      assert ((1 + Z.of_nat k <? 0)%Z = false) as -> by lia.
      f_equal. cbn [length]. lia. }
    rewrite Hcut. split.
    + intros _. exists (S k). cbn [length]. split; [lia|]. split; [done|].
      split.
      * cbn [take balance]. change (ch "{" =? ch "{") with true. lia.
      * intros [|j] Hjk; [lia|]. cbn [take balance].
        change (ch "{" =? ch "{") with true.
        destruct j as [|j]; [rewrite take_0; cbn [balance]; lia|].
        specialize (Hj (S j) ltac:(lia)). lia.
    + intros Hall. exfalso. apply (Hall (S k)); [cbn [length]; lia|].
      cbn [take balance]. change (ch "{" =? ch "{") with true. lia.
Qed.

Lemma cut_object_shortest_balanced_prefix_witness :
  exists n : nat,
    CoreReviewV3.cut_object (lit "{a{b}c} and {more}")
    = take n (lit "{a{b}c} and {more}")
    /\ balance (CoreReviewV3.cut_object (lit "{a{b}c} and {more}")) = 0%Z.
Proof.
  destruct (proj1 (proj2 (cut_object_shortest_balanced_prefix
                            (lit "{a{b}c} and {more}") eq_refl)))
    as (n & Hn & Hcut & Hb & Hj).
  { exists 7%nat. split; [vm_compute; lia | by vm_compute]. }
  exists n. by split.
Defined.
(** ** More on the renderers *)

Lemma with_severity_partition (items : list Improvement) :
  Forall (fun i => In (imp_severity i) SEVERITIES) items ->
  with_severity (lit "critical") items ++ with_severity (lit "high") items
  ++ with_severity (lit "medium") items ++ with_severity (lit "low") items
  ≡ₚ items.
Proof.
  induction 1 as [|i items Hi _ IH]; [done|].
  rewrite !with_severity_cons.
  cbn [SEVERITIES In] in Hi. destruct Hi as [E | [E | [E | [E | []]]]]; rewrite <- E.
  - repeat case_decide; try done. cbn [app]. by constructor.
  - repeat case_decide; try done. cbn [app].
    rewrite <- Permutation_middle. by constructor.
  - repeat case_decide; try done. cbn [app].
    rewrite app_assoc, <- Permutation_middle, <- app_assoc. by constructor.
  - repeat case_decide; try done.
    rewrite !app_assoc, <- Permutation_middle, <- !app_assoc. by constructor.
Qed.

(** X13: the renderers lose no improvement and show none twice.  When
    every severity is one of the four, the four buckets [format_issue_body]
    (core_review_v3.py) and [format_markdown] (review_standalone.py) fill and
    then render, in the order critical, high, medium, low, hold together
    exactly the improvements of the review, and the four counts of the table
    add up to their number. *)
Theorem rendering_keeps_every_improvement
    (str_title : text -> text) (MODEL : text) (review : ReviewResult)
    (file_count char_count : Z) :
  Forall (fun i => In (imp_severity i) SEVERITIES) (improvements review) ->
  exists by_severity,
    let items s := CoreReviewV3.bucket by_severity s in
    CoreReviewV3.group_items (improvements review) CoreReviewV3.empty_buckets
    = Returns by_severity
    /\ items (lit "critical") ++ items (lit "high") ++ items (lit "medium")
       ++ items (lit "low") ≡ₚ improvements review
    /\ (length (items (lit "critical")) + length (items (lit "high"))
        + length (items (lit "medium")) + length (items (lit "low"))
        = length (improvements review))%nat
    /\ CoreReviewV3.format_issue_body str_title MODEL review file_count char_count
       = Returns
           (join NL
              (CoreReviewV3.header_lines MODEL review (fun s => length (items s))
                 file_count char_count
               ++ flat_map (fun s => CoreReviewV3.section_lines str_title s (items s))
                    [lit "critical"; lit "high"; lit "medium"; lit "low"]
               ++ CoreReviewV3.footer_lines MODEL))
    /\ Standalone.format_markdown str_title review
       = Returns
           (join NL
              (Standalone.header_lines review
               ++ flat_map (fun s => Standalone.section_lines str_title s (items s))
                    [lit "critical"; lit "high"; lit "medium"; lit "low"])).
Proof.
  intros Hall. destruct severities_known as (Hc & Hh & Hm & Hl).
  destruct (group_review_spec _ Hall) as (grouped & Hg & Hb).
  exists grouped. cbv zeta.
  assert (CoreReviewV3.bucket grouped (lit "critical")
          ++ CoreReviewV3.bucket grouped (lit "high")
          ++ CoreReviewV3.bucket grouped (lit "medium")
          ++ CoreReviewV3.bucket grouped (lit "low") ≡ₚ improvements review) as Hp.
  { rewrite !Hb by done. by apply with_severity_partition. }
  split; [exact Hg|]. split; [exact Hp|]. split.
  - apply Permutation_length in Hp. rewrite !length_app in Hp. lia.
  - unfold CoreReviewV3.format_issue_body, Standalone.format_markdown. by rewrite Hg.
Qed.

Lemma rendering_keeps_every_improvement_witness :
  exists by_severity,
    CoreReviewV3.group_items four_items CoreReviewV3.empty_buckets = Returns by_severity
    /\ (length (CoreReviewV3.bucket by_severity (lit "critical"))
        + length (CoreReviewV3.bucket by_severity (lit "high"))
        + length (CoreReviewV3.bucket by_severity (lit "medium"))
        + length (CoreReviewV3.bucket by_severity (lit "low")) = 4)%nat.
Proof.
  assert (Forall (fun i => In (imp_severity i) SEVERITIES)
                 (improvements (demo_review four_items))) as Hall.
  { repeat constructor; cbn; tauto. }
  destruct (rendering_keeps_every_improvement ascii_title (lit "gpt")
              (demo_review four_items) 4 1000 Hall) as (b & H).
  cbv zeta in H. destruct H as (H1 & _ & H3 & _).
  exists b. split; [exact H1 | exact H3].
Defined.
(** ** More on the callers of the model *)

(** The attempt that decides a run of three: [n] is below three and every
    attempt before it failed. *)
Ltac decided_at k :=
  exists k; split; [lia|]; split; [eassumption || done |];
  let m := fresh "m" in let Hm := fresh "Hm" in
  intros m Hm; destruct m as [|[|[|m]]]; try lia; eauto.

Ltac first_of_three :=
  solve [decided_at 0%nat | decided_at 1%nat | decided_at 2%nat].

(** X14: [review_code] of core_review_v3.py and of review_standalone.py
    returns what the first reply that parses gives, among at most three
    calls, and raises the exception of the third attempt when all three
    fail; it never ends without a value.  It sleeps 2 seconds after the
    first failed attempt and 4 after the second, and does nothing else than
    call the model with the one prompt and sleep. *)
Theorem structured_review_code_first_success
    (limit : nat) (tmpl : text * text) (client : transport) (content : text) :
  let prompt := format_prompt tmpl content in
  let attempt n := attempt_of (CoreReviewV3.extract limit) (client n prompt) in
  let run := CoreReviewV3.review_code limit tmpl client content in
  (forall review, run.1 = Returns review <->
     exists n, (n < 3)%nat /\ attempt n = inl review
               /\ forall m, (m < n)%nat -> exists e, attempt m = inr e)
  /\ (forall e, run.1 = Raises e <->
        attempt 2%nat = inr e /\ (exists e0, attempt 0%nat = inr e0)
        /\ (exists e1, attempt 1%nat = inr e1))
  /\ run.1 <> ReturnsNone
  /\ (creates run.2 <= 3)%nat
  /\ sleeps run.2 = take (creates run.2 - 1) [2%Z; 4%Z]
  /\ Forall (fun ev => ev = Create prompt \/ exists s, ev = Sleep s) run.2
  /\ Standalone.review_code limit tmpl client content = run.
Proof.
  intros prompt attempt run.
  assert (Standalone.review_code limit tmpl client content = run) as Hsame
    by apply standalone_review_code_eq.
  pose proof (v3_review_code_unfold limit tmpl client content) as Hrun.
  cbv zeta in Hrun. fold prompt in Hrun. fold attempt in Hrun. fold run in Hrun.
  clearbody run attempt. rewrite Hrun in Hsame |- *. clear Hrun. revert Hsame.
  destruct (attempt 0%nat) as [r0|e0] eqn:E0;
    [|destruct (attempt 1%nat) as [r1|e1] eqn:E1;
      [|destruct (attempt 2%nat) as [r2|e2] eqn:E2]];
    intros Hsame; cbn [fst snd creates sleeps take Nat.sub].
  all: split; [intros review; split;
                 [intros [= <-]; first_of_three
                 |intros (n & Hn & Hin & Hb);
                  destruct n as [|[|[|n]]]; try lia;
                  try (destruct (Hb 0%nat ltac:(lia)) as [? ?]);
                  try (destruct (Hb 1%nat ltac:(lia)) as [? ?]);
                  congruence] |].
  all: split; [intros e; split;
                 [try done; intros [= <-]; eauto
                 |intros (H2 & [? H0] & [? H1]); congruence] |].
  all: split; [done|]. all: split; [lia|]. all: split; [done|].
  all: split; [|exact Hsame].
  all: repeat first [apply Forall_nil_2
                    | apply Forall_cons_2; [first [by left | by right; eexists]|]].
Qed.

Lemma structured_review_code_first_success_witness :
  (CoreReviewV3.review_code 1000 demo_template chatty_client (lit "code")).1
  = Returns (JObj []).
Proof.
  pose proof (structured_review_code_first_success 1000 demo_template chatty_client
                (lit "code")) as H.
  cbv zeta in H. destruct H as (H & _). apply H.
  exists 1%nat. split; [lia|]. split; [by vm_compute|].
  intros m Hm. assert (m = 0%nat) as -> by lia. eexists. by vm_compute.
Defined.

Lemma review_codebase_unfold tmpl client content :
  let prompt := format_prompt tmpl content in
  CodebaseReview.review_codebase tmpl client content =
  match client 0%nat prompt with
  | Reply raw => (Returns raw, [Create prompt])
  | Fails _ =>
      match client 1%nat prompt with
      | Reply raw => (Returns raw, [Create prompt; Sleep 2; Create prompt])
      | Fails _ =>
          match client 2%nat prompt with
          | Reply raw =>
              (Returns raw,
               [Create prompt; Sleep 2; Create prompt; Sleep 4; Create prompt])
          | Fails e =>
              (Raises e,
               [Create prompt; Sleep 2; Create prompt; Sleep 4; Create prompt])
          end
      end
  end.
Proof.
  intros prompt. unfold CodebaseReview.review_codebase. fold prompt.
  change (range1 CodebaseReview.MAX_RETRIES) with [1%Z; 2%Z; 3%Z].
  cbn [CodebaseReview.review_loop].
  destruct (client 0%nat prompt); [done|].
  destruct (client 1%nat prompt); [done|].
  destruct (client 2%nat prompt); done.
Qed.

(** X15: [review_codebase] of laozhang_codebase_review.py returns the first
    reply among at most three calls and raises the exception of the third
    call when all three fail; it never ends without a value.  It sleeps 2
    seconds after the first failure and 4 after the second: the 8 seconds of
    the comment in the source are never slept, the third failure being
    raised at once. *)
Theorem review_codebase_first_reply
    (tmpl : text * text) (client : transport) (content : text) :
  let prompt := format_prompt tmpl content in
  let run := CodebaseReview.review_codebase tmpl client content in
  (forall raw, run.1 = Returns raw <->
     exists n, (n < 3)%nat /\ client n prompt = Reply raw
               /\ forall m, (m < n)%nat -> exists e, client m prompt = Fails e)
  /\ (forall e, run.1 = Raises e <->
        client 2%nat prompt = Fails e /\ (exists e0, client 0%nat prompt = Fails e0)
        /\ (exists e1, client 1%nat prompt = Fails e1))
  /\ run.1 <> ReturnsNone
  /\ (creates run.2 <= 3)%nat
  /\ sleeps run.2 = take (creates run.2 - 1) [2%Z; 4%Z]
  /\ ~ In 8%Z (sleeps run.2).
Proof.
  intros prompt run.
  pose proof (review_codebase_unfold tmpl client content) as Hrun.
  cbv zeta in Hrun. fold prompt in Hrun. fold run in Hrun.
  clearbody run. rewrite Hrun. clear Hrun.
  destruct (client 0%nat prompt) as [r0|e0] eqn:E0;
    [|destruct (client 1%nat prompt) as [r1|e1] eqn:E1;
      [|destruct (client 2%nat prompt) as [r2|e2] eqn:E2]];
    cbn [fst snd creates sleeps take Nat.sub].
  all: split; [intros review; split;
                 [intros [= <-]; first_of_three
                 |intros (n & Hn & Hin & Hb);
                  destruct n as [|[|[|n]]]; try lia;
                  try (destruct (Hb 0%nat ltac:(lia)) as [? ?]);
                  try (destruct (Hb 1%nat ltac:(lia)) as [? ?]);
                  congruence] |].
  all: split; [intros e; split;
                 [try done; intros [= <-]; eauto
                 |intros (H2 & [? H0] & [? H1]); congruence] |].
  all: split; [done|]. all: split; [lia|]. all: split; [done|].
  all: cbn [In]; intros H; repeat destruct H as [H|H]; try done.
Qed.

Lemma review_codebase_first_reply_witness :
  (CodebaseReview.review_codebase demo_template flaky_client (lit "code")).1
  = Returns (lit "fine").
Proof.
  pose proof (review_codebase_first_reply demo_template flaky_client (lit "code")) as H.
  cbv zeta in H. destruct H as (H & _). apply H.
  exists 2%nat. split; [lia|]. split; [by vm_compute|].
  intros m Hm. destruct m as [|[|m]]; [| |lia]; eexists; by vm_compute.
Defined.

Lemma attempt_loop_unfold client prompt :
  TestApi.attempt_loop client prompt (range1 TestApi.MAX_RETRIES) 0 =
  match client 0%nat prompt with
  | Reply _ => (Some true, [Create prompt])
  | Fails _ =>
      match client 1%nat prompt with
      | Reply _ => (Some true, [Create prompt; Sleep 2; Create prompt])
      | Fails _ =>
          match client 2%nat prompt with
          | Reply _ =>
              (Some true, [Create prompt; Sleep 2; Create prompt; Sleep 4; Create prompt])
          | Fails _ =>
              (Some false, [Create prompt; Sleep 2; Create prompt; Sleep 4; Create prompt])
          end
      end
  end.
Proof.
  change (range1 TestApi.MAX_RETRIES) with [1%Z; 2%Z; 3%Z].
  cbn [TestApi.attempt_loop].
  destruct (client 0%nat prompt); [done|].
  destruct (client 1%nat prompt); [done|].
  destruct (client 2%nat prompt); done.
Qed.

(** X16: the script test_laozhang_api.py ends with status 0 exactly when
    [OPENAI_API_KEY] is set and not empty and one of the first three calls
    of the model replies; otherwise with status 1.  Without the key no call
    is made.  [test_api] lets no exception of the model through: after the
    third failure it returns [False]. *)
Theorem test_script_exit_status (env : environ) (client : transport) (prompt : text) :
  let run := TestApi.script env client prompt in
  (run.1 = 0%Z <->
     unset env (lit "OPENAI_API_KEY") = false
     /\ exists n raw, (n < 3)%nat /\ client n prompt = Reply raw)
  /\ (run.1 = 0%Z \/ run.1 = 1%Z)
  /\ (unset env (lit "OPENAI_API_KEY") = true -> run = (1%Z, []))
  /\ (forall f, (TestApi.test_api env client prompt).1 <> Uncaught f)
  /\ ((TestApi.test_api env client prompt).1 = Finished (Some false) <->
        unset env (lit "OPENAI_API_KEY") = false
        /\ forall n, (n < 3)%nat -> exists e, client n prompt = Fails e)
  /\ (creates run.2 <= 3)%nat
  /\ sleeps run.2 = take (creates run.2 - 1) [2%Z; 4%Z].
Proof.
  unfold TestApi.script, TestApi.test_api.
  destruct (unset env (lit "OPENAI_API_KEY")) eqn:Ekey; cbn [fst snd creates sleeps take].
  { repeat split; try done; try lia; try (by intros [? _]); auto. }
  rewrite attempt_loop_unfold.
  destruct (client 0%nat prompt) as [r0|e0] eqn:E0;
    [|destruct (client 1%nat prompt) as [r1|e1] eqn:E1;
      [|destruct (client 2%nat prompt) as [r2|e2] eqn:E2]];
    cbn [fst snd creates sleeps take Nat.sub].
  all: split;
    [split;
       [first [done
              | intros _; split; [done|];
                solve [exists 0%nat; eexists; split; [lia | eassumption]
                      | exists 1%nat; eexists; split; [lia | eassumption]
                      | exists 2%nat; eexists; split; [lia | eassumption]]]
       |first [done
              | intros (_ & n & raw & Hn & Hr);
                destruct n as [|[|[|n]]]; try lia; congruence]] |].
  all: split; [auto|]. all: split; [done|]. all: split; [done|].
  all: split;
    [split;
       [first [done
              | intros _; split; [done|];
                intros n Hn; destruct n as [|[|[|n]]]; try lia; eauto]
       |first [done
              | intros (_ & Hall);
                first [destruct (Hall 0%nat ltac:(lia)) as [? ?]; congruence
                      | destruct (Hall 1%nat ltac:(lia)) as [? ?]; congruence
                      | destruct (Hall 2%nat ltac:(lia)) as [? ?]; congruence]]] |].
  all: split; [lia | done].
Qed.
(** ** The diff of a pull request *)

Lemma diff_of_files_unfold (files : list pr_file) :
  DiffReview.diff_of_files files
  = if (len (full_diff files) >? DiffReview.MAX_DIFF_SIZE)%Z
    then take (Z.to_nat DiffReview.MAX_DIFF_SIZE) (full_diff files) ++ DIFF_TRUNCATED
    else full_diff files.
Proof.
  unfold DiffReview.diff_of_files. fold (full_diff files). fold (len (full_diff files)).
  destruct (len (full_diff files) >? DiffReview.MAX_DIFF_SIZE)%Z eqn:E; [|done].
  unfold slice_to, slice_index. fold (len (full_diff files)).
  assert ((DiffReview.MAX_DIFF_SIZE <? 0)%Z = false) as -> by done.
  rewrite Z.min_l by lia. done.
Qed.

(** X17: the diff [get_pr_diff] of laozhang_review.py hands over is the
    parts of the files joined by blank lines when that is at most
    [MAX_DIFF_SIZE] characters long; otherwise it is its first
    [MAX_DIFF_SIZE] characters, cut wherever that falls, followed by the
    truncation note.  It is never longer than [MAX_DIFF_SIZE] plus the 34
    characters of the note. *)
Theorem get_pr_diff_bound (gh : hub) (calls : nat) (repo_name : text) (pr_number : Z)
    (diff : text) :
  DiffReview.get_pr_diff gh calls repo_name pr_number = inr diff ->
  exists files,
    hub_files gh (2 + calls) repo_name pr_number = inr files
    /\ ((len (full_diff files) <= DiffReview.MAX_DIFF_SIZE)%Z -> diff = full_diff files)
    /\ ((DiffReview.MAX_DIFF_SIZE < len (full_diff files))%Z ->
        diff = take (Z.to_nat DiffReview.MAX_DIFF_SIZE) (full_diff files) ++ DIFF_TRUNCATED
        /\ len diff = (DiffReview.MAX_DIFF_SIZE + 34)%Z)
    /\ (len diff <= DiffReview.MAX_DIFF_SIZE + 34)%Z.
Proof.
  unfold DiffReview.get_pr_diff.
  destruct (hub_repo gh calls repo_name); [done|].
  destruct (hub_pull gh (1 + calls) repo_name pr_number); [done|].
  destruct (hub_files gh (2 + calls) repo_name pr_number) as [|files]; [done|].
  intros [= <-]. exists files. split; [done|].
  rewrite diff_of_files_unfold.
  assert (len DIFF_TRUNCATED = 34%Z) as Hm by done.
  destruct (len (full_diff files) >? DiffReview.MAX_DIFF_SIZE)%Z eqn:E.
  - assert (len (take (Z.to_nat DiffReview.MAX_DIFF_SIZE) (full_diff files))
            = DiffReview.MAX_DIFF_SIZE) as Ht.
    { unfold len in *. rewrite length_take. unfold DiffReview.MAX_DIFF_SIZE in *. lia. }
    repeat split; try lia; rewrite len_app; lia.
  - repeat split; try lia; try done.
Qed.

Lemma get_pr_diff_bound_witness :
  (len (DiffReview.diff_of_files demo_pr_files) <= DiffReview.MAX_DIFF_SIZE + 34)%Z.
Proof.
  destruct (get_pr_diff_bound demo_hub 0 (lit "o/r") 7
              (DiffReview.diff_of_files demo_pr_files) eq_refl) as (files & _ & _ & _ & H).
  exact H.
Defined.

Lemma lstrip_keeps (s : text) (c : N) :
  In c s -> is_space c = false -> lstrip s <> [].
Proof.
  induction s as [|x s IH]; [done|]. intros [-> | Hin] Hc; cbn [lstrip].
  - by rewrite Hc.
  - destruct (is_space x); [by apply IH | done].
Qed.

Lemma strip_keeps (c : N) (s : text) : is_space c = false -> strip (c :: s) <> [].
Proof.
  intros Hc. unfold strip. cbn [lstrip]. rewrite Hc. unfold rstrip.
  intros H. apply (f_equal (@rev N)) in H. rewrite rev_involutive in H. cbn [rev] in H.
  revert H. apply (lstrip_keeps _ c); [|done].
  cbn [rev]. apply in_or_app. right. by left.
Qed.

Lemma diff_part_head (file : pr_file) :
  exists rest, DiffReview.diff_part file = ch "-" :: rest.
Proof. unfold DiffReview.diff_part. cbn [lit list_ascii_of_string map app]. by eexists. Qed.

Lemma full_diff_head (file : pr_file) (files : list pr_file) :
  exists rest, full_diff (file :: files) = ch "-" :: rest.
Proof.
  unfold full_diff. cbn [map join]. destruct (diff_part_head file) as [rest ->].
  destruct (map DiffReview.diff_part files); cbn [app]; by eexists.
Qed.

Lemma diff_of_files_blank (files : list pr_file) :
  strip (DiffReview.diff_of_files files) = [] <-> files = [].
Proof.
  split; [|by intros ->].
  destruct files as [|file files]; [done|]. intros H. exfalso. revert H.
  rewrite diff_of_files_unfold.
  destruct (full_diff_head file files) as [rest Hrest].
  destruct (len (full_diff (file :: files)) >? DiffReview.MAX_DIFF_SIZE)%Z.
  - rewrite Hrest.
    assert (exists n, Z.to_nat DiffReview.MAX_DIFF_SIZE = S n) as [n ->].
    { exists (Z.to_nat 99999). unfold DiffReview.MAX_DIFF_SIZE. lia. }
    cbn [take app]. by apply strip_keeps.
  - rewrite Hrest. by apply strip_keeps.
Qed.

(** X18: the diff of a pull request is blank exactly when the pull request
    has no file: every file contributes its header, whether the diff is cut
    or not, and a file without patch its placeholder. *)
Theorem diff_blank_iff_no_files (gh : hub) (calls : nat) (repo_name : text)
    (pr_number : Z) (diff : text) :
  DiffReview.get_pr_diff gh calls repo_name pr_number = inr diff ->
  (strip diff = [] <-> hub_files gh (2 + calls) repo_name pr_number = inr [])
  /\ (diff = [] <-> hub_files gh (2 + calls) repo_name pr_number = inr []).
Proof.
  unfold DiffReview.get_pr_diff.
  destruct (hub_repo gh calls repo_name); [done|].
  destruct (hub_pull gh (1 + calls) repo_name pr_number); [done|].
  destruct (hub_files gh (2 + calls) repo_name pr_number) as [|files]; [done|].
  intros [= <-]. split.
  - rewrite diff_of_files_blank. split; [by intros -> | by intros [= ->]].
  - split; [|by intros [= ->]].
    intros H. f_equal. apply diff_of_files_blank. by rewrite H.
Qed.

Lemma diff_blank_iff_no_files_witness :
  strip (DiffReview.diff_of_files demo_pr_files) <> [].
Proof.
  intros H.
  apply (proj1 (proj1 (diff_blank_iff_no_files demo_hub 0 (lit "o/r") 7
                         (DiffReview.diff_of_files demo_pr_files) eq_refl))) in H.
  discriminate H.
Defined.

Lemma comments_app (a b : list step) : comments (a ++ b) = comments a ++ comments b.
Proof.
  induction a as [|[] a IH]; cbn [comments app]; by rewrite ?IH.
Qed.

Lemma asked_app (a b : list step) : asked (a ++ b) = asked a ++ asked b.
Proof.
  induction a as [|[] a IH]; cbn [asked app]; by rewrite ?IH.
Qed.

Lemma issues_app (a b : list step) : issues (a ++ b) = issues a ++ issues b.
Proof.
  induction a as [|[] a IH]; cbn [issues app]; by rewrite ?IH.
Qed.

Lemma comments_asks (evs : list event) : comments (map Asks evs) = [].
Proof. by induction evs. Qed.

Lemma issues_asks (evs : list event) : issues (map Asks evs) = [].
Proof. by induction evs. Qed.

Lemma asked_asks (evs : list event) : asked (map Asks evs) = evs.
Proof. induction evs as [|e evs IH]; cbn [map asked]; by rewrite ?IH. Qed.

Lemma missing_vars_set (env : environ) (required : list text) (v : text) :
  missing_vars env required = [] -> In v required -> unset env v = false.
Proof.
  unfold missing_vars. intros H Hin. destruct (unset env v) eqn:E; [|done].
  assert (In v (List.filter (unset env) required)) as Hf by (by apply filter_In).
  by rewrite H in Hf.
Qed.

(** A variable the check of [main] found set is there when it is read. *)
Lemma unset_absurd (env : environ) (required : list text) (v : text) :
  missing_vars env required = [] -> env v = None ->
  bool_decide (v ∈ required) = true -> False.
Proof.
  intros Hm Hv Hin. apply bool_decide_eq_true in Hin. apply list_elem_of_In in Hin.
  pose proof (missing_vars_set env required v Hm Hin) as H.
  unfold unset in H. by rewrite Hv in H.
Qed.

Ltac run_leaf tac :=
  split; [split; [done | tac]
         | split; [cbn [length]; lia
                  | split; [cbn [length]; lia
                           | first [done | by intros _; repeat split]]]].

(** X19: [main] of laozhang_review.py sends a comment to GitHub exactly
    when the four variables are set, [PR_NUMBER] is an integer, GitHub
    answers the lookups, the pull request has at least one file and the one
    call of the model replies; the comment is then the reply between the
    header and the footer, on that pull request.  No run sends two comments
    or calls the model twice, and a run that lacks a variable ends with
    status 1 having done neither. *)
Theorem diff_main_posts_comment_iff
    (py_int : text -> option Z) (tmpl : text * text) (env : environ) (gh : hub)
    (client : transport) (repo_name : text) (pr_number : Z) (comment : text) :
  let run := DiffReview.main py_int tmpl env gh client in
  (comments run.2 = [(repo_name, pr_number, comment)] <->
     missing_vars env DiffReview.required_vars = []
     /\ env (lit "GITHUB_REPOSITORY") = Some repo_name
     /\ (exists number, env (lit "PR_NUMBER") = Some number
                        /\ py_int number = Some pr_number)
     /\ hub_repo gh 0 repo_name = None /\ hub_pull gh 1 repo_name pr_number = None
     /\ hub_repo gh 3 repo_name = None /\ hub_pull gh 4 repo_name pr_number = None
     /\ exists files review,
          hub_files gh 2 repo_name pr_number = inr files /\ files <> []
          /\ client 0%nat (format_prompt tmpl (DiffReview.diff_of_files files))
             = Reply review
          /\ comment = review_comment review)
  /\ (length (comments run.2) <= 1)%nat
  /\ (length (asked run.2) <= 1)%nat
  /\ (missing_vars env DiffReview.required_vars <> [] ->
      run.1 = SysExit 1 /\ asked run.2 = [] /\ comments run.2 = []).
Proof.
  unfold DiffReview.main.
  destruct (missing_vars env DiffReview.required_vars) as [|v missing] eqn:Em.
  2: { cbn [fst snd comments asked].
       run_leaf ltac:(by intros (? & _)). }
  destruct (env (lit "GITHUB_TOKEN")) eqn:Et; [|by destruct (unset_absurd env _ _ Em Et)].
  destruct (env (lit "OPENAI_API_KEY")) eqn:Ek; [|by destruct (unset_absurd env _ _ Em Ek)].
  destruct (env (lit "GITHUB_REPOSITORY")) as [repo|] eqn:Er;
    [|by destruct (unset_absurd env _ _ Em Er)].
  destruct (env (lit "PR_NUMBER")) as [number|] eqn:En;
    [|by destruct (unset_absurd env _ _ Em En)].
  destruct (py_int number) as [pr|] eqn:Ep.
  2: { cbn [fst snd comments asked].
       run_leaf ltac:(intros (_ & _ & (? & ? & ?) & _); congruence). }
  unfold DiffReview.get_pr_diff. cbn [Nat.add].
  destruct (hub_repo gh 0 repo) as [cls|] eqn:Eh0.
  { cbn [fst snd comments asked].
    run_leaf ltac:(intros (_ & ? & (? & ? & ?) & ? & _); congruence). }
  destruct (hub_pull gh 1 repo pr) as [cls|] eqn:Eh1.
  { cbn [fst snd comments asked].
    run_leaf ltac:(intros (_ & ? & (? & ? & ?) & _ & ? & _); simplify_eq; congruence). }
  destruct (hub_files gh 2 repo pr) as [cls|files] eqn:Eh2.
  { cbn [fst snd comments asked].
    run_leaf ltac:(intros (_ & ? & (? & ? & ?) & _ & _ & _ & _ & (? & ? & ? & _));
                   simplify_eq; congruence). }
  destruct (strip (DiffReview.diff_of_files files)) as [|c rest] eqn:Es.
  { apply diff_of_files_blank in Es. subst files.
    cbn [fst snd comments asked app].
    run_leaf ltac:(intros (_ & ? & (? & ? & ?) & _ & _ & _ & _ & (? & ? & ? & ? & _));
                   simplify_eq; congruence). }
  unfold DiffReview.review_diff.
  destruct (client 0%nat (format_prompt tmpl (DiffReview.diff_of_files files)))
    as [review|e] eqn:Ec.
  2: { cbn [fst snd]. rewrite !comments_app, !asked_app, comments_asks, asked_asks.
       cbn [comments asked app].
       run_leaf ltac:(intros (_ & ? & (? & ? & ?) & _ & _ & _ & _
                              & (? & ? & ? & ? & ? & _)); simplify_eq; congruence). }
  unfold DiffReview.post_review_comment. cbn [shown Nat.add].
  destruct (hub_repo gh 3 repo) as [cls|] eqn:Eh3.
  { cbn [fst snd]. rewrite !comments_app, !asked_app, comments_asks, asked_asks.
    cbn [comments asked app map].
    run_leaf ltac:(intros (_ & ? & (? & ? & ?) & _ & _ & ? & _); simplify_eq; congruence). }
  destruct (hub_pull gh 4 repo pr) as [cls|] eqn:Eh4.
  { cbn [fst snd]. rewrite !comments_app, !asked_app, comments_asks, asked_asks.
    cbn [comments asked app map].
    run_leaf ltac:(intros (_ & ? & (? & ? & ?) & _ & _ & _ & ? & _); simplify_eq; congruence). }
  fold (review_comment review).
  assert (files <> []) as Hfiles.
  { intros ->. by rewrite (proj2 (diff_of_files_blank []) eq_refl) in Es. }
  destruct (hub_comment gh 5 repo pr (review_comment review)) eqn:Eh5;
    cbn [fmap option_fmap option_map fst snd];
    rewrite ?comments_app, ?asked_app, ?comments_asks, ?asked_asks;
    cbn [comments asked app map].
  all: split; [split; [intros [= <- <- <-]; repeat split; try done; eauto 10
                      |intros (_ & ? & (? & ? & ?) & _ & _ & _ & _
                               & (? & ? & ? & ? & ? & ?)); simplify_eq; congruence]
              | split; [cbn [length]; lia | split; [cbn [length]; lia | done]]].
Qed.

Lemma diff_main_posts_comment_iff_witness :
  comments (DiffReview.main demo_int demo_template demo_env demo_hub steady_client).2
  = [(lit "o/r", 7%Z, review_comment (lit "LGTM"))].
Proof.
  apply (proj1 (diff_main_posts_comment_iff demo_int demo_template demo_env demo_hub
                  steady_client (lit "o/r") 7 (review_comment (lit "LGTM")))).
  repeat split; try done.
  - by exists (lit "7").
  - exists demo_pr_files, (lit "LGTM"). repeat split; done.
Defined.
(** ** From the environment to the issue *)

Lemma core_review_code_returns tmpl client content :
  (CoreReview.review_code tmpl client content).1 <> ReturnsNone.
Proof.
  rewrite core_review_code_unfold.
  destruct (client 0%nat _); [done|].
  destruct (client 1%nat _); [done|].
  by destruct (client 2%nat _).
Qed.

Lemma review_codebase_returns tmpl client content :
  (CodebaseReview.review_codebase tmpl client content).1 <> ReturnsNone.
Proof.
  rewrite review_codebase_unfold.
  destruct (client 0%nat _); [done|].
  destruct (client 1%nat _); [done|].
  by destruct (client 2%nat _).
Qed.

Ltac main_leaf tac :=
  split; [split; [done | tac]
         | split; [cbn [length]; lia
                  | split; [first [by left | by right]
                           | split; [first [done | by intros _]
                                    | first [done | by intros _ _ | intros _ ?; congruence]]]]].

(** X20: [main] of core_review.py asks GitHub for an issue exactly when the
    three variables are set, files were collected, the repository is found
    and [review_code] returned a review; the issue is then the one
    [create_issue] makes of that review, of the number of files collected
    and of the length of the content sent.  No run opens two issues; what
    is asked of the model is what [review_code] asks, for the content
    [format_files] made under [MAX_CONTENT_SIZE].  A run that lacks a
    variable ends with status 1, and one that finds no file returns, both
    without a call of the model or of GitHub. *)
Theorem core_main_opens_issue_iff
    (tmpl : text * text) (env : environ) (fs : filesystem) (gh : hub)
    (client : transport) (repo_name : text) (request : issue_request) :
  let run := CoreReview.main tmpl env fs gh client in
  let files := CoreReview.gather_core_files fs {| parts := [] |} in
  let content := CoreReview.format_files files CoreReview.MAX_CONTENT_SIZE in
  (issues run.2 = [(repo_name, request)] <->
     missing_vars env CoreReview.required_vars = []
     /\ env (lit "GITHUB_REPOSITORY") = Some repo_name
     /\ files <> []
     /\ hub_repo gh 0 repo_name = None
     /\ exists review,
          (CoreReview.review_code tmpl client content).1 = Returns review
          /\ (CoreReview.create_issue (MODEL_of env) gh 0 repo_name review
                (Z.of_nat (length files)) (Z.of_nat (length content))).2
             = [OpensIssue repo_name request])
  /\ (length (issues run.2) <= 1)%nat
  /\ (asked run.2 = [] \/ asked run.2 = (CoreReview.review_code tmpl client content).2)
  /\ (missing_vars env CoreReview.required_vars <> [] -> run = (SysExit 1, []))
  /\ (missing_vars env CoreReview.required_vars = [] -> files = [] ->
      run = (Finished tt, [])).
Proof.
  intros run files content. subst run. unfold CoreReview.main.
  fold files. fold content.
  destruct (missing_vars env CoreReview.required_vars) as [|v missing] eqn:Em.
  2: { cbn [fst snd issues asked]. main_leaf ltac:(by intros (? & _)). }
  destruct (env (lit "GITHUB_TOKEN")) eqn:Et; [|by destruct (unset_absurd env _ _ Em Et)].
  destruct (env (lit "OPENAI_API_KEY")) eqn:Ek; [|by destruct (unset_absurd env _ _ Em Ek)].
  destruct (env (lit "GITHUB_REPOSITORY")) as [repo|] eqn:Er;
    [|by destruct (unset_absurd env _ _ Em Er)].
  destruct files as [|file files'] eqn:Ef.
  { cbn [fst snd issues asked]. main_leaf ltac:(by intros (_ & _ & ? & _)). }
  rewrite <- Ef.
  pose proof (core_review_code_returns tmpl client content) as Hret.
  destruct (CoreReview.review_code tmpl client content) as [[review| |e] evs] eqn:Erun;
    cbn [fst snd] in *; [|done|].
  2: { rewrite issues_asks, asked_asks.
       main_leaf ltac:(by intros (_ & _ & _ & _ & (? & ? & _))). }
  cbn [shown]. unfold CoreReview.create_issue.
  destruct (hub_repo gh 0 repo) as [cls|] eqn:Eh.
  { cbn [fst snd]. rewrite app_nil_r, issues_asks, asked_asks.
    main_leaf ltac:(intros (_ & ? & _ & ? & _); simplify_eq; congruence). }
  match goal with
  | |- context [OpensIssue repo ?r] => set (req := r)
  end.
  destruct (hub_issue gh 1 repo req); cbn [fst snd];
    rewrite issues_app, asked_app, issues_asks, asked_asks;
    cbn [issues asked app]; rewrite app_nil_r.
  all: split; [split; [intros [= <- <-];
                       split; [done|]; split; [done|]; split; [congruence|];
                       split; [done|]; eexists; split; [done|]; by rewrite Eh
                      |intros (_ & Hr & _ & Hh & (x & Hx & Hc));
                       injection Hr as <-; injection Hx as <-;
                       rewrite Eh in Hc; cbn [snd] in Hc; by injection Hc as <-]
              | split; [cbn [length]; lia
                       | split; [by right | split; [done | intros _ ?; congruence]]]].
Qed.

Lemma core_main_opens_issue_iff_witness :
  exists request,
    issues (CoreReview.main demo_template demo_env demo_fs demo_hub steady_client).2
    = [(lit "o/r", request)].
Proof.
  eexists.
  apply (proj1 (core_main_opens_issue_iff demo_template demo_env demo_fs demo_hub
                  steady_client (lit "o/r") _)).
  repeat split; try done. eexists. split; reflexivity.
Defined.

(** X21: [main] of laozhang_codebase_review.py asks GitHub for an issue
    exactly when the three variables are set, files were collected, the
    repository is found and [review_codebase] returned a review; the issue
    is then the one [create_review_issue] makes of that review.  No run
    opens two issues; what is asked of the model is what [review_codebase]
    asks, for the content [format_codebase] made under [MAX_CONTENT_SIZE].
    A run that lacks a variable ends with status 1, and one that finds no
    file returns, both without a call of the model or of GitHub. *)
Theorem codebase_main_opens_issue_iff
    (tmpl : text * text) (env : environ) (fs : filesystem) (gh : hub)
    (client : transport) (repo_name : text) (request : issue_request) :
  let run := CodebaseReview.main tmpl env fs gh client in
  let files := CodebaseReview.gather_source_files fs {| parts := [] |} in
  let content := CodebaseReview.format_codebase files CodebaseReview.MAX_CONTENT_SIZE in
  (issues run.2 = [(repo_name, request)] <->
     missing_vars env CodebaseReview.required_vars = []
     /\ env (lit "GITHUB_REPOSITORY") = Some repo_name
     /\ files <> []
     /\ hub_repo gh 0 repo_name = None
     /\ exists review,
          (CodebaseReview.review_codebase tmpl client content).1 = Returns review
          /\ (CodebaseReview.create_review_issue (MODEL_of env) gh 0 repo_name
                review).2
             = [OpensIssue repo_name request])
  /\ (length (issues run.2) <= 1)%nat
  /\ (asked run.2 = [] \/ asked run.2 = (CodebaseReview.review_codebase tmpl client content).2)
  /\ (missing_vars env CodebaseReview.required_vars <> [] -> run = (SysExit 1, []))
  /\ (missing_vars env CodebaseReview.required_vars = [] -> files = [] ->
      run = (Finished tt, [])).
Proof.
  intros run files content. subst run. unfold CodebaseReview.main.
  fold files. fold content.
  destruct (missing_vars env CodebaseReview.required_vars) as [|v missing] eqn:Em.
  2: { cbn [fst snd issues asked]. main_leaf ltac:(by intros (? & _)). }
  destruct (env (lit "GITHUB_TOKEN")) eqn:Et; [|by destruct (unset_absurd env _ _ Em Et)].
  destruct (env (lit "OPENAI_API_KEY")) eqn:Ek; [|by destruct (unset_absurd env _ _ Em Ek)].
  destruct (env (lit "GITHUB_REPOSITORY")) as [repo|] eqn:Er;
    [|by destruct (unset_absurd env _ _ Em Er)].
  destruct files as [|file files'] eqn:Ef.
  { cbn [fst snd issues asked]. main_leaf ltac:(by intros (_ & _ & ? & _)). }
  rewrite <- Ef.
  pose proof (review_codebase_returns tmpl client content) as Hret.
  destruct (CodebaseReview.review_codebase tmpl client content) as [[review| |e] evs] eqn:Erun;
    cbn [fst snd] in *; [|done|].
  2: { rewrite issues_asks, asked_asks.
       main_leaf ltac:(by intros (_ & _ & _ & _ & (? & ? & _))). }
  cbn [shown]. unfold CodebaseReview.create_review_issue.
  destruct (hub_repo gh 0 repo) as [cls|] eqn:Eh.
  { cbn [fst snd]. rewrite app_nil_r, issues_asks, asked_asks.
    main_leaf ltac:(intros (_ & ? & _ & ? & _); simplify_eq; congruence). }
  match goal with
  | |- context [OpensIssue repo ?r] => set (req := r)
  end.
  destruct (hub_issue gh 1 repo req); cbn [fst snd];
    rewrite issues_app, asked_app, issues_asks, asked_asks;
    cbn [issues asked app]; rewrite app_nil_r.
  all: split; [split; [intros [= <- <-];
                       split; [done|]; split; [done|]; split; [congruence|];
                       split; [done|]; eexists; split; [done|]; by rewrite Eh
                      |intros (_ & Hr & _ & Hh & (x & Hx & Hc));
                       injection Hr as <-; injection Hx as <-;
                       rewrite Eh in Hc; cbn [snd] in Hc; by injection Hc as <-]
              | split; [cbn [length]; lia
                       | split; [by right | split; [done | intros _ ?; congruence]]]].
Qed.

Lemma codebase_main_opens_issue_iff_witness :
  exists request,
    issues (CodebaseReview.main demo_template demo_env demo_code_fs demo_hub steady_client).2
    = [(lit "o/r", request)].
Proof.
  eexists.
  apply (proj1 (codebase_main_opens_issue_iff demo_template demo_env demo_code_fs demo_hub
                  steady_client (lit "o/r") _)).
  repeat split; try done. eexists. split; reflexivity.
Defined.

Lemma count_severity_with (s : text) (review : ReviewResult) :
  CoreReviewV3.count_severity s review = length (with_severity s (improvements review)).
Proof.
  unfold CoreReviewV3.count_severity, with_severity.
  induction (improvements review) as [|i items IH]; [done|].
  cbn [List.filter]. rewrite filter_cons.
  destruct (text_eqb (imp_severity i) s) eqn:E.
  - apply text_eqb_eq in E. rewrite decide_True by done. cbn [length]. by rewrite IH.
  - apply text_eqb_neq in E. by rewrite decide_False.
Qed.

(** X22: [create_issue] of core_review_v3.py, once the repository is found.
    When every severity is one of the four it asks GitHub for one issue,
    labelled [review], with the body [format_issue_body] renders and a title
    that names the numbers of critical and of high improvements, the number
    of high ones alone when none is critical, or the number of all when
    none is critical or high; these numbers are the ones of the table in
    the body.  The title opens with the characters the file holds for the
    case, given by their code points.  When a severity is none of the four
    it raises [KeyError] and asks GitHub for nothing. *)
Theorem v3_create_issue_title_and_strictness
    (str_title : text -> text) (MODEL : text) (gh : hub) (calls : nat)
    (repo_name : text) (review : ReviewResult) (file_count char_count : Z) :
  hub_repo gh calls repo_name = None ->
  let run :=
    CoreReviewV3.create_issue str_title MODEL gh calls repo_name review
      file_count char_count in
  let critical := length (with_severity (lit "critical") (improvements review)) in
  let high := length (with_severity (lit "high") (improvements review)) in
  let total := length (improvements review) in
  (Forall (fun i => In (imp_severity i) SEVERITIES) (improvements review) ->
   exists body_,
     CoreReviewV3.format_issue_body str_title MODEL review file_count char_count
     = Returns body_
     /\ run.2
        = [OpensIssue repo_name
             {| title :=
                  if (0 <? critical)%nat then
                    [240; 376; 8221; 180] ++ lit " Code Review: " ++ str_of_nat critical
                    ++ lit " critical, " ++ str_of_nat high
                    ++ lit " high priority issues"
                  else if (0 <? high)%nat then
                    [240; 376; 376; 160] ++ lit " Code Review: " ++ str_of_nat high
                    ++ lit " high priority issues found"
                  else
                    [240; 376; 376; 162] ++ lit " Code Review: " ++ str_of_nat total
                    ++ lit " improvements identified";
                body := body_;
                labels := [lit "review"] |}])
  /\ (forall pre bad post,
        improvements review = pre ++ bad :: post ->
        Forall (fun i => In (imp_severity i) SEVERITIES) pre ->
        ~ In (imp_severity bad) SEVERITIES ->
        run = (inl (Python (KeyError (imp_severity bad))), [])).
Proof.
  intros Hrepo run critical high total. subst run.
  unfold CoreReviewV3.create_issue. rewrite Hrepo, !count_severity_with.
  fold critical high total. split.
  - intros Hall. unfold CoreReviewV3.format_issue_body.
    destruct (group_review_spec _ Hall) as (grouped & -> & _).
    eexists. split; [done|]. done.
  - intros pre bad post Hitems Hpre Hbad.
    unfold CoreReviewV3.format_issue_body.
    rewrite (group_items_raises _ _ pre post bad Hitems); [done| |].
    + eapply Forall_impl; [exact Hpre|]. intros i Hi. cbn beta.
      by rewrite empty_buckets_known.
    + by apply empty_buckets_unknown.
Qed.

Lemma v3_create_issue_title_and_strictness_witness :
  (exists body_,
     (CoreReviewV3.create_issue ascii_title (lit "gpt") demo_hub 0 (lit "o/r")
        good_review 4 1000).2
     = [OpensIssue (lit "o/r")
          {| title := [240; 376; 8221; 180]
                      ++ lit " Code Review: 2 critical, 1 high priority issues";
             body := body_; labels := [lit "review"] |}])
  /\ CoreReviewV3.create_issue ascii_title (lit "gpt") demo_hub 0 (lit "o/r")
       urgent_review 1 10
     = (inl (Python (KeyError (lit "urgent"))), []).
Proof.
  split.
  - destruct (proj1 (v3_create_issue_title_and_strictness ascii_title (lit "gpt")
                       demo_hub 0 (lit "o/r") good_review 4 1000 eq_refl))
      as (b & _ & H).
    { repeat constructor; cbn; tauto. }
    exists b. exact H.
  - apply (proj2 (v3_create_issue_title_and_strictness ascii_title (lit "gpt")
                    demo_hub 0 (lit "o/r") urgent_review 1 10 eq_refl)
             [] (demo_item (lit "S-1") (lit "urgent") (lit "security") (lit "small")) []).
    + done.
    + constructor.
    + cbn. intros H. repeat destruct H as [H|H]; done.
Defined.
(** ** The language hint *)

Lemma split_slash_go_plain (cur name_ : text) :
  Forall (fun c => c <> ch "/") name_ ->
  split_slash_go cur name_ = [rev cur ++ name_].
Proof.
  revert cur. induction name_ as [|c name_ IH]; intros cur H; cbn [split_slash_go].
  - by rewrite app_nil_r.
  - apply Forall_cons in H as [Hc H].
    assert ((c =? ch "/") = false) as -> by (by apply N.eqb_neq).
    rewrite IH by done. cbn [rev]. by rewrite <- app_assoc.
Qed.

Lemma split_slash_go_last (cur dir name_ : text) :
  Forall (fun c => c <> ch "/") name_ ->
  exists init, split_slash_go cur (dir ++ ch "/" :: name_) = init ++ [name_].
Proof.
  intros H. revert cur. induction dir as [|c dir IH]; intros cur; cbn [app split_slash_go].
  - change (ch "/" =? ch "/") with true. cbn match.
    rewrite split_slash_go_plain by done. by exists [rev cur].
  - destruct (c =? ch "/").
    + destruct (IH []) as [init ->]. by exists (rev cur :: init).
    + apply IH.
Qed.

Lemma rfind_dot_none (s : text) :
  Forall (fun c => c <> ch ".") s -> rfind_dot s = None.
Proof.
  induction 1 as [|c s Hc _ IH]; [done|]. cbn [rfind_dot]. rewrite IH.
  by assert ((c =? ch ".") = false) as -> by (by apply N.eqb_neq).
Qed.

Lemma rfind_dot_last (stem ext : text) :
  Forall (fun c => c <> ch ".") ext ->
  rfind_dot (stem ++ ch "." :: ext) = Some (length stem).
Proof.
  intros H. induction stem as [|c stem IH]; cbn [app rfind_dot length].
  - by rewrite rfind_dot_none.
  - by rewrite IH.
Qed.

Lemma filter_last_name (init : list text) (name_ : text) :
  name_ <> [] -> name_ <> lit "." ->
  List.last
    (filter (fun c => negb (text_eqb c []) && negb (text_eqb c (lit "."))) (init ++ [name_]))
    [] = name_.
Proof.
  intros H1 H2. rewrite filter_app, filter_cons, filter_nil.
  apply text_eqb_neq in H1, H2. rewrite decide_True.
  2: { rewrite H1, H2. done. }
  apply last_last.
Qed.

Lemma text_eqb_sym (a b : text) : text_eqb a b = text_eqb b a.
Proof. unfold text_eqb. apply bool_decide_ext. split; congruence. Qed.

(** The suffix of a path whose last component is a stem, a dot and an
    extension. *)
Lemma path_suffix_extension (dir stem ext : text) :
  dir = [] \/ (exists d, dir = d ++ lit "/") ->
  stem <> [] -> ext <> [] ->
  Forall (fun c => c <> ch "/") stem ->
  Forall (fun c => c <> ch "/" /\ c <> ch ".") ext ->
  lstrip_dots (path_suffix (dir ++ stem ++ lit "." ++ ext)) = ext.
Proof.
  intros Hdir Hstem Hext Hs He.
  assert (Forall (fun c => c <> ch "/") ext) as He1.
  { eapply Forall_impl; [exact He|]. by intros c [? _]. }
  assert (Forall (fun c => c <> ch ".") ext) as He2.
  { eapply Forall_impl; [exact He|]. by intros c [_ ?]. }
  set (name_ := stem ++ lit "." ++ ext).
  assert (Forall (fun c => c <> ch "/") name_) as Hn.
  { apply Forall_app. split; [done|]. apply Forall_app. split; [|done].
    by repeat constructor. }
  assert (path_name (dir ++ name_) = name_) as Hname.
  { unfold path_name, split_slash.
    assert (exists init, split_slash_go [] (dir ++ name_) = init ++ [name_]) as [init ->].
    { destruct Hdir as [-> | [d ->]].
      - exists []. by rewrite split_slash_go_plain.
      - rewrite <- app_assoc. by apply split_slash_go_last. }
    apply filter_last_name.
    - unfold name_. by destruct stem.
    - unfold name_. destruct stem as [|a [|b stem]]; [done| |done].
      destruct ext; [done|]. done. }
  unfold path_suffix. rewrite Hname. unfold name_.
  change (lit "." ++ ext) with (ch "." :: ext).
  rewrite rfind_dot_last by done.
  assert ((0 <? length stem)%nat && (length stem <? length (stem ++ ch "." :: ext) - 1)%nat
          = true) as ->.
  { rewrite length_app. cbn [length].
    apply andb_true_iff. split; apply Nat.ltb_lt.
    - destruct stem; [done | cbn; lia].
    - destruct ext; [done | cbn [length]; lia]. }
  rewrite drop_app_length. cbn [lstrip_dots].
  change (ch "." =? ch ".") with true. cbn match.
  destruct ext as [|c ext]; [done|]. cbn [lstrip_dots].
  apply Forall_cons in He2 as [Hc _].
  by assert ((c =? ch ".") = false) as -> by (by apply N.eqb_neq).
Qed.

(** X23: the language hint of [format_files] goes by the extension.  For a
    path whose last component is a stem that is not empty, a dot and an
    extension without dot, core_review.py tags [ts] as typescript, [tsx] as
    tsx, [rs] as rust and anything else with the empty string;
    core_review_v3.py and review_standalone.py also tag [mjs] and [js] as
    javascript (and review_standalone.py [py] as python), and anything else
    with the extension itself. *)
Theorem lang_of_by_extension (dir stem ext : text) :
  dir = [] \/ (exists d, dir = d ++ lit "/") ->
  stem <> [] -> ext <> [] ->
  Forall (fun c => c <> ch "/") stem ->
  Forall (fun c => c <> ch "/" /\ c <> ch ".") ext ->
  let path := dir ++ stem ++ lit "." ++ ext in
  CoreReview.lang_of path
  = (if text_eqb ext (lit "ts") then lit "typescript"
     else if text_eqb ext (lit "tsx") then lit "tsx"
     else if text_eqb ext (lit "rs") then lit "rust"
     else [])
  /\ CoreReviewV3.lang_of path
     = (if text_eqb ext (lit "ts") then lit "typescript"
        else if text_eqb ext (lit "tsx") then lit "tsx"
        else if text_eqb ext (lit "rs") then lit "rust"
        else if text_eqb ext (lit "mjs") || text_eqb ext (lit "js") then lit "javascript"
        else ext)
  /\ Standalone.lang_of path
     = (if text_eqb ext (lit "ts") then lit "typescript"
        else if text_eqb ext (lit "tsx") then lit "tsx"
        else if text_eqb ext (lit "rs") then lit "rust"
        else if text_eqb ext (lit "mjs") || text_eqb ext (lit "js") then lit "javascript"
        else if text_eqb ext (lit "py") then lit "python"
        else ext).
Proof.
  intros Hdir Hstem Hext Hs He path.
  pose proof (path_suffix_extension dir stem ext Hdir Hstem Hext Hs He) as H.
  fold path in H.
  unfold CoreReview.lang_of, CoreReviewV3.lang_of, Standalone.lang_of.
  cbv zeta. rewrite H. cbn [dict_get].
  rewrite !(text_eqb_sym _ ext).
  repeat split; repeat (destruct (text_eqb ext _); try done).
Qed.

Lemma lang_of_by_extension_witness :
  CoreReview.lang_of (lit "src/types/vite-env.d.ts") = lit "typescript"
  /\ CoreReviewV3.lang_of (lit "src-tauri/bridge.mjs") = lit "javascript".
Proof.
  split.
  - apply (lang_of_by_extension (lit "src/types/") (lit "vite-env.d") (lit "ts")).
    + right. by exists (lit "src/types").
    + done.
    + done.
    + apply (bool_decide_unpack _). by vm_compute.
    + apply (bool_decide_unpack _). by vm_compute.
  - apply (lang_of_by_extension (lit "src-tauri/") (lit "bridge") (lit "mjs")).
    + right. by exists (lit "src-tauri").
    + done.
    + done.
    + apply (bool_decide_unpack _). by vm_compute.
    + apply (bool_decide_unpack _). by vm_compute.
Defined.
